(* ===== verification/_CoqProject ===== *)
-Q . S2P
Prelude.v
Fifo.v
TipcCore.v
TtaskCore.v
Ttask.v
Tipc.v
Tpmm.v
Tmalloc.v
Tvmm.v
Tstring.v
Telf.v
Tsec.v
Keyboard.v
Vga.v
Tfs.v
TfsSpec.v
Tsh.v
Printf.v
Serial.v
Gdt.v
Idt.v
Tsys.v
Ttarfs.v
Tprocfs.v
Tline.v
Ternel.v
IpcDemo.v
MutexDemo.v
Demos.v
Shell.v
ShellSpec.v
Typing.v
Session.v
Launch.v
Startup.v
Boot.v
Kush.v
Programs.v
Smoke.v
