(* ===== verification/Prelude.v ===== *)
(** * TrigerOS: a verification library for the kernel under [src/src]

    TrigerOS is a small x86-64 kernel in C.  GRUB loads it with a Multiboot2
    memory map and an initial archive; it takes over the page frames, builds
    page tables and a heap, hardens itself (W^X, NX, guard page, physical
    KASLR), starts a preemptive scheduler with mailboxes and mutexes, and runs
    a shell, a RAM file system and ring-3 ELF programs that enter the kernel
    through [int 0x80].  This library models those parts in Gallina, function
    by function, and proves what makes them correct.

    ** Files

    - [Prelude] (this file): machine integers ([u8] ... [u64] wrap, [s32] and
      [s64] read two's complement), loops ([for_range], [find_range],
      [page_loop]) with their induction rules, counting, byte memories, the
      reflexive-transitive closure [star] of step relations, the allocator
      interface [SmallHeap] with its laws, tactics and the hint database
      [trig].
    - [Fifo]: bounded queues as a type class with laws, ring arithmetic, and
      what every client of the class gets (conservation and order).
    - [TipcCore] ([tipc_core.h]): message ring and wait queues, instances of
      [BoundedFifo].
    - [TtaskCore] ([ttask_core.h]) and [Ttask] ([ttask.c], the switch in
      [boot/task_switch.asm]): the task table, round-robin pick by priority,
      ticks, yield, block, wake, exit, creation, and the initial stacks.  A
      suspended task keeps the local variables of the function it was
      suspended in, because the code reads them after the switch.
    - [Tipc] ([tipc.c]): blocking send, receive and mutex operations as passes
      of their retry loops over the scheduler, and the step relation that
      interleaves tasks at every preemption point.
    - [Tpmm] ([tpmm.c]): the frame bitmap, counters, the Multiboot2 scan,
      single and contiguous allocation, release.
    - [Tmalloc] ([tmalloc.c]): block headers in a word memory, free list,
      splitting, growth over an interface for frames and mappings.
    - [Tvmm] ([tvmm.c], [tvmm.h]): four-level page tables in a word memory,
      address spaces, mapping, unmapping, translation, [vmm_range_user].
    - [Tstring] ([tstring.c]): C strings and blocks in a byte memory, number
      formatting and [tsprintf].
    - [Telf] ([telf_core.h], [telf.c]): the ELF64 parser, with reads outside
      the blob visible, and the loader over [Tvmm] and [Tpmm].
    - [Tsec] ([tsec_core.h], [tsec.c]): window page tables, guard page,
      relocation of image and tables, control registers, scrubbing.
    - [Keyboard] ([keyboard.c]): the scan-code state machine and the key ring,
      with interrupts between the steps of the reader.
    - [Vga] ([vga.c]): display memory and cursor.
    - [Tfs] ([tfs.c]) and [TfsSpec]: the RAM file system, and its tree
      invariant and properties.
    - [Tsh] ([tsh.c]): environment table, history, history expansion and the
      tokenizer of the shell.
    - [Printf]: the formatting loop that the serial port and the console share,
      over a record of device operations; [Serial] ([serial.c]): the polled
      transmitter, [serial_printf] and [tlog].
    - [Gdt] ([gdt.c], [tss.c], [boot/gdt.asm]): the descriptor table as bytes and
      the segment loads of the processor.
    - [Idt] ([idt.c], [timer.c]): gates, dispatch of interrupts, exceptions, and
      the tick counter, on a [machine] of scheduler, keyboard and devices.
    - [Tsys] ([tsys.c]): the system-call handler on top of the machine, the page
      tables, the IPC objects and user memory.
    - [Ttarfs] ([ttarfs.c]): the initial archive, its parser, the search for the
      module and the mapping window; [Tprocfs] ([tprocfs.c], [tsysfs.c]): the
      generated files.
    - [Tline] ([ternel.c]): prompt, line editor and redrawing.
    - [Ternel] ([ternel.c]): the state of the whole kernel, commands as programs
      of a state and error monad over it (their outcomes: done, out of fuel, a
      fault, a halted machine), [tprintf], every shell command, program launch
      and the dispatch of a line; the rules for reasoning about commands.
    - [IpcDemo], [MutexDemo]: the tasks of the two demonstrations as step
      relations over the scheduler and [Tipc]; [Demos]: the commands that start
      them and report.
    - [Shell]: the key loop of [ternel_main] with history and execution;
      [ShellSpec]: what commands do, in terms of the file system; [Launch]: what
      starting a program does, in terms of page tables and the task table;
      [Typing]: what a typed line does, from the keyboard ring to the call of the
      command's function; [Session]: typed lines that compose.
    - [Startup] ([keyboard.c], [ternel.c]): the start of the interrupt sources
      against the answers of the keyboard controller, the uptime message and
      the counting task.
    - [Boot] ([ternel.c]): the boot sequence of [ternel_main] as one program over
      the state of the shell and the processor's tables, with its messages and
      its banner, and one turn of the main loop.
    - [Kush] ([user/kush.c], [user/syscall.h]): the ring-3 shell and the wrappers
      of the system calls; [Programs] ([user/hello.S], [user/spinner.S],
      [user/kush_start.S]): the programs in assembly, instruction by instruction.
    - [Smoke] ([tests/*_smoke.c]): the conditions that the repository's host
      tests check, evaluated on the model.

    Each file keeps the names of the source.  A C structure or group of static
    variables is a [Record]; a function is a [Definition] or [Fixpoint] from
    its arguments and the state to its result and the new state; output
    parameters and errors are part of the result.  Pointers are [Z], and [0]
    is null.

    ** What the theorems show

    - Queues and IPC: the mailbox ring is a FIFO; under every interleaving of
      senders, receivers, ticks and blocking, what was sent is what was
      received followed by what is queued; no wake-up is lost; the recursive
      mutex excludes.
    - Scheduling: the pick is the first READY task of highest priority in
      round-robin order; the task table stays consistent; equal priorities
      wait a bounded number of yields; the initial stack is what the switch
      and [iretq] consume.
    - Memory: frames are taken and released exactly, the boot scan frees
      exactly the available memory outside the kernel; heap blocks never
      overlap; mapping changes one translation and nothing else; the pointer
      check for system calls accepts exactly mapped user ranges; a new address
      space shares the kernel half.
    - Programs and hardening: accepted ELF plans are sound and encode back;
      the loader makes a program see its bytes and zeroes; after [sec_harden]
      only text is executable and nothing is writable and executable; KASLR
      moves the kernel without changing a translation; scrubbing clears
      exactly the free memory.
    - Strings: comparison, bounded copies, overlapping moves, digits and the
      formatter agree with their mathematical definitions and stay inside
      their buffers.
    - Console and keyboard: the screen is the window of the last 25 lines of a
      document; the driver refines a decoder with a queue of 255 keys; what is
      typed is read.
    - File system: creating makes a path lead to the new node and keeps the
      others; writing replaces one content; removal frees exactly a subtree;
      the nodes form a tree and every block is accounted for.  Unpacking an
      archive installs its members and ends; generated texts fit their reader.
    - Commands: the line editor is an editor on texts; typing a line calls the
      function of its first word on the words of the line; typing [write] and then
      [cat] at the prompt shows the words again; a program reported as running is a task whose
      address space holds its segments and stack; both demonstrations reach
      their reports under every interleaving.
    - Boot: as written, [ternel_main] ends in the fault of [gdt_init]; the steps
      after it end at the prompt where the theorems on sessions start, with the
      messages, the environment, the file system, the scheduler, the timer and
      the page tables that the other theorems describe.
    - The ring-3 shell answers every line of a session as a function on texts
      says, and what it prints passes through wrapper and handler to the screen; the
      programs in assembly ask for exactly the lines they are written to print.
    - Shell: the environment is a map with a capacity; the history keeps the
      last 32 commands and expands them; tokenizing splits a line into words,
      and a quoted line gives its words back.
    - Interrupts and system calls: the tick counter is exact up to preempted
      tasks; a fault in a program kills only that task; no register contents of
      a system call can make the kernel fault or write outside the caller's
      buffer as long as [CR4.SMAP] is clear; messages arrive with their true
      sender.  Three theorems are about defects: the descriptor table faults
      when it is loaded, [sleep] can spin forever with interrupts off, and with
      [CR4.SMAP] set the handler faults on every buffer.
    - Serial output: [tlog] sends exactly the text of its format.

    ** Bounds and fuel

    Loops of the code that walk memory until a condition take fuel, and [None]
    means that it ran out.  Every theorem about such a function either proves
    that it returns [Some] with the fuel in the definition, or takes the fuel
    as a parameter above an explicit bound: the length of a string plus one
    (the commands use 4096, and their lines have at most 127 characters), the
    number of keys of a session, the number of pages of a range plus two, the number of nodes of the file
    system, the length of a path.  Where the code itself can loop (a
    Multiboot2 tag of size 0), the model runs out of any fuel as well, and the
    theorems state the condition on the input that excludes it.  Integers are
    wrapped wherever the C types wrap; several theorems are about inputs that
    make them wrap.

    ** Not modelled

    - The boot assembly and the register saving of the interrupt stubs; devices
      are logs of what is written to their ports, with the values they return
      as parameters.
    - Compiler and hardware: the TLB, caches, and memory ordering.  Code runs
      on one processor; interrupts occur between the steps that the step
      relations make explicit. *)
From stdpp Require Import prelude gmap list numbers.
From Stdlib Require Import ZArith Lia ZifyBool Btauto.
#[local] Open Scope Z_scope.

(** * Machine integers

    The C sources are compiled for x86-64: [uint8_t], [uint16_t], [uint32_t]
    and [uint64_t] (also [size_t], [uintptr_t]) are modelled by [Z] values
    reduced modulo a power of two wherever the C arithmetic wraps. *)

Declare Scope c_scope.
Delimit Scope c_scope with C.

Definition wrap (w x : Z) : Z := x mod 2 ^ w.
Definition u8 (x : Z) : Z := x mod 256.
Definition u16 (x : Z) : Z := x mod 65536.
Definition u32 (x : Z) : Z := x mod 4294967296.
Definition u64 (x : Z) : Z := x mod 18446744073709551616.

(** Two's-complement reading of the low bits: casts to [char], [int], [long]. *)
Definition s8 (x : Z) : Z := if u8 x <? 128 then u8 x else u8 x - 256.
Definition s32 (x : Z) : Z :=
  if u32 x <? 2147483648 then u32 x else u32 x - 4294967296.
Definition s64 (x : Z) : Z :=
  if u64 x <? 9223372036854775808 then u64 x else u64 x - 18446744073709551616.

Definition in_u8 (x : Z) : Prop := 0 <= x < 256.
Definition in_u32 (x : Z) : Prop := 0 <= x < 4294967296.
Definition in_u64 (x : Z) : Prop := 0 <= x < 18446744073709551616.

(** Bitwise complement at 32 and 64 bits, and a single-bit test used by the
    [if (e & FLAG)] idiom. *)
Definition not32 (x : Z) : Z := Z.lxor x 4294967295.
Definition not64 (x : Z) : Z := Z.lxor x 18446744073709551615.
Definition has (e mask : Z) : bool := negb (Z.land e mask =? 0).

(** * Loops

    [for (i = lo; i < lo + n; i++) if (p(i)) return i;] *)
Fixpoint find_from (p : Z -> bool) (lo : Z) (n : nat) : option Z :=
  match n with
  | O => None
  | S n' => if p lo then Some lo else find_from p (lo + 1) n'
  end.

(** The scan of a half-open range [lo, hi). *)
Definition find_range (p : Z -> bool) (lo hi : Z) : option Z :=
  find_from p lo (Z.to_nat (hi - lo)).

(** [for (i = lo; i < lo + n; i++) s = body(i, s);] *)
Fixpoint for_loop {S : Type} (body : Z -> S -> S) (lo : Z) (n : nat) (s : S) : S :=
  match n with
  | O => s
  | Datatypes.S n' => for_loop body (lo + 1) n' (body lo s)
  end.

Definition for_range {S : Type} (body : Z -> S -> S) (lo hi : Z) (s : S) : S :=
  for_loop body lo (Z.to_nat (hi - lo)) s.

(** The page walk shared by [reserve_region] and [tpmm_release_range]:
    [for (a = base & ~4095; a < base + size; a += 4096)], where [body] may
    leave the loop by returning [inl].  The fuel covers every range that does
    not wrap around the address space. *)
Fixpoint page_walk {S : Type} (body : Z -> S -> S + S) (stop : Z) (fuel : nat) (a : Z) (s : S)
  : option S :=
  if a <? stop then
    match fuel with
    | O => None
    | Datatypes.S fuel' =>
        match body a s with
        | inl s' => Some s'
        | inr s' => page_walk body stop fuel' (u64 (a + 4096)) s'
        end
    end
  else Some s.

Definition page_loop {S : Type} (body : Z -> S -> S + S) (base size : Z) (s : S) : option S :=
  page_walk body (u64 (base + size)) (Z.to_nat (size / 4096 + 2)) (Z.land base (not64 4095)) s.

(** Number of indices of [lo, lo + n) that satisfy [p]. *)
Fixpoint count_from (p : Z -> bool) (lo : Z) (n : nat) : Z :=
  match n with
  | O => 0
  | S n' => (if p lo then 1 else 0) + count_from p (lo + 1) n'
  end.

Definition count_range (p : Z -> bool) (lo hi : Z) : Z :=
  count_from p lo (Z.to_nat (hi - lo)).

(** Total reads of finite memories: a word never written reads as [0]; every
    theorem quantifies over the whole initial memory. *)
Definition rd (m : gmap Z Z) (a : Z) : Z := default 0 (m !! a).

(** Byte strings: [blob[i]] of a [const uint8_t *] argument. *)
Definition byte_at (b : list Z) (i : Z) : Z :=
  if i <? 0 then 0 else nth (Z.to_nat i) b 0.

(** Finite sequences of transitions of a step relation. *)
Inductive star {A : Type} (R : A -> A -> Prop) : A -> A -> Prop :=
| star_refl a : star R a a
| star_step a b c : R a b -> star R b c -> star R a c.

(** * The allocator as its clients see it

    [tmalloc] and [tfree] for components that only need objects at distinct
    addresses.  [sh_owns h L] says that no address of [L] is handed out before
    it is freed. *)
Class SmallHeap (H : Type) := { sh_malloc : Z -> H -> Z * H; sh_free : Z -> H -> H }.

Class SmallHeapLaws (H : Type) `{SmallHeap H} := {
  sh_owns : H -> gset Z -> Prop;
  sh_malloc_law : forall h L n p h', sh_owns h L -> sh_malloc n h = (p, h') ->
    p = 0 /\ sh_owns h' L \/ p <> 0 /\ p ∉ L /\ sh_owns h' ({[p]} ∪ L);
  sh_free_law : forall h L p, sh_owns h L -> p ∈ L -> sh_owns (sh_free p h) (L ∖ {[p]})
}.

(** * Tactics *)

(** Closes goals of linear arithmetic with division and modulo by constants. *)
Ltac zlia := unfold u8, u16, u32, u64, in_u8, in_u32, in_u64 in *;
             Z.to_euclidean_division_equations; lia.

(** Splits the first [if] or [match] of the goal and keeps the equation. *)
Ltac case_if :=
  match goal with
  | |- context [if ?b then _ else _] => destruct b eqn:?
  end.

Ltac case_if_in H :=
  match type of H with
  | context [if ?b then _ else _] => destruct b eqn:?
  end.

(** Inverts equations between pairs and constructors. *)
Ltac inv_pairs :=
  repeat match goal with
  | H : (_, _) = (_, _) |- _ => injection H; clear H; intros; subst
  | H : Some _ = Some _ |- _ => injection H; clear H; intros; subst
  | H : Some _ = None |- _ => discriminate H
  | H : None = Some _ |- _ => discriminate H
  end.

(** * Lemmas on machine integers *)

Create HintDb trig discriminated.
Create Rewrite HintDb trig.

Lemma u8_small x : 0 <= x < 256 -> u8 x = x.
Proof. apply Z.mod_small. Qed.
Lemma u32_small x : 0 <= x < 4294967296 -> u32 x = x.
Proof. apply Z.mod_small. Qed.
Lemma u64_small x : 0 <= x < 18446744073709551616 -> u64 x = x.
Proof. apply Z.mod_small. Qed.
Lemma u8_range x : 0 <= u8 x < 256.
Proof. apply Z.mod_pos_bound; lia. Qed.
Lemma u32_range x : 0 <= u32 x < 4294967296.
Proof. apply Z.mod_pos_bound; lia. Qed.
Lemma u64_range x : 0 <= u64 x < 18446744073709551616.
Proof. apply Z.mod_pos_bound; lia. Qed.

#[export] Hint Rewrite u8_small u32_small u64_small using lia : trig.
#[export] Hint Resolve u8_range u32_range u64_range : trig.

Lemma pow2_32 : 2 ^ 32 = 4294967296. Proof. reflexivity. Qed.
Lemma pow2_64 : 2 ^ 64 = 18446744073709551616. Proof. reflexivity. Qed.

Lemma testbit_high w x i : 0 <= x < 2 ^ w -> w <= i -> Z.testbit x i = false.
Proof.
  intros Hx Hi. destruct (Z.ltb_spec w 0) as [Hw|Hw].
  { rewrite Z.pow_neg_r in Hx by lia. lia. }
  rewrite <- (Z.mod_small x (2 ^ w)) by exact Hx.
  apply Z.mod_pow2_bits_high. lia.
Qed.

(** A number whose bits vanish from position [w] on is below [2 ^ w]. *)
Lemma bits_bound w x :
  0 <= w -> 0 <= x -> (forall i, w <= i -> Z.testbit x i = false) -> 0 <= x < 2 ^ w.
Proof.
  intros Hw Hx Hbits. split; [exact Hx|].
  enough (x = x mod 2 ^ w) as -> by (apply Z.mod_pos_bound; lia).
  apply Z.bits_inj'. intros i Hi.
  rewrite Z.testbit_mod_pow2 by lia.
  destruct (Z.ltb_spec i w); [reflexivity|]. simpl. apply Hbits. lia.
Qed.

Lemma shiftl_1_testbit k i :
  0 <= k -> Z.testbit (Z.shiftl 1 k) i = (i =? k).
Proof.
  intros Hk. destruct (Z.ltb_spec i 0).
  { rewrite Z.testbit_neg_r by lia. symmetry. apply Z.eqb_neq. lia. }
  rewrite Z.shiftl_1_l, Z.pow2_bits_eqb by lia. apply Z.eqb_sym.
Qed.

Lemma has_pow2 e k : 0 <= k -> has e (2 ^ k) = Z.testbit e k.
Proof.
  intros Hk. unfold has. destruct (Z.testbit e k) eqn:E.
  - apply negb_true_iff, Z.eqb_neq. intros H0.
    assert (Z.testbit (Z.land e (2 ^ k)) k = true) as Hb.
    { rewrite Z.land_spec, E, Z.pow2_bits_true by lia. reflexivity. }
    rewrite H0, Z.bits_0 in Hb. discriminate.
  - apply negb_false_iff, Z.eqb_eq. apply Z.bits_inj'. intros i Hi.
    rewrite Z.land_spec, Z.bits_0, Z.pow2_bits_eqb by lia.
    destruct (Z.eqb_spec k i); subst; [rewrite E|]; btauto.
Qed.

(** [x & ~(2^k - 1)] rounds down to a multiple of [2^k]. *)
Lemma land_not64_align x k :
  in_u64 x -> 0 <= k < 64 -> Z.land x (not64 (2 ^ k - 1)) = x - x mod 2 ^ k.
Proof.
  intros Hx Hk. replace (2 ^ k - 1) with (Z.ones k) by (rewrite Z.ones_equiv; lia).
  transitivity (Z.ldiff x (Z.ones k)).
  - unfold not64. change 18446744073709551615 with (Z.ones 64).
    apply Z.bits_inj'. intros i Hi.
    rewrite Z.land_spec, Z.lxor_spec, Z.ldiff_spec.
    destruct (Z.ltb_spec i 64).
    + rewrite (Z.ones_spec_low 64) by lia. btauto.
    + rewrite (testbit_high 64 x i) by (unfold in_u64 in Hx; lia). reflexivity.
  - rewrite Z.ldiff_ones_r, Z.shiftr_div_pow2, Z.shiftl_mul_pow2 by lia.
    pose proof (Z.div_mod x (2 ^ k)). lia.
Qed.

(** * Lemmas on loops *)

Lemma find_from_Some p lo n i :
  find_from p lo n = Some i <->
  lo <= i < lo + Z.of_nat n /\ p i = true /\ (forall j, lo <= j < i -> p j = false).
Proof.
  revert lo. induction n as [|n IH]; intros lo; cbn [find_from].
  { split; [discriminate|]. lia. }
  destruct (p lo) eqn:E.
  - split.
    + intros [= ->]. repeat split; [lia|lia|exact E|]. lia.
    + intros (Hr & Hp & Hmin). destruct (Z.eq_dec i lo) as [->|]; [reflexivity|].
      rewrite Hmin in E by lia. discriminate.
  - rewrite IH. split; intros (Hr & Hp & Hmin).
    + repeat split; [lia|lia|exact Hp|]. intros j Hj.
      destruct (Z.eq_dec j lo) as [->|]; [exact E|]. apply Hmin. lia.
    + assert (i <> lo) by (intros ->; congruence).
      repeat split; [lia|lia|exact Hp|]. intros j Hj. apply Hmin. lia.
Qed.

Lemma find_from_None p lo n :
  find_from p lo n = None <-> forall j, lo <= j < lo + Z.of_nat n -> p j = false.
Proof.
  revert lo. induction n as [|n IH]; intros lo; cbn [find_from].
  { split; [lia|reflexivity]. }
  destruct (p lo) eqn:E.
  - split; [discriminate|]. intros H. rewrite H in E by lia. discriminate.
  - rewrite IH. split; intros H j Hj.
    + destruct (Z.eq_dec j lo) as [->|]; [exact E|]. apply H. lia.
    + apply H. lia.
Qed.

Lemma find_range_Some p lo hi i :
  find_range p lo hi = Some i <->
  lo <= i < hi /\ p i = true /\ (forall j, lo <= j < i -> p j = false).
Proof.
  unfold find_range. rewrite find_from_Some.
  split; intros (? & ? & ?); repeat split; auto; lia.
Qed.

Lemma find_range_None p lo hi :
  find_range p lo hi = None <-> forall j, lo <= j < hi -> p j = false.
Proof.
  unfold find_range. rewrite find_from_None.
  split; intros H j Hj; apply H; lia.
Qed.

Lemma for_loop_ind {S : Type} (P : Z -> S -> Prop) body lo n s :
  P lo s ->
  (forall i s, lo <= i < lo + Z.of_nat n -> P i s -> P (i + 1) (body i s)) ->
  P (lo + Z.of_nat n) (for_loop body lo n s).
Proof.
  revert lo s. induction n as [|n IH]; intros lo s H0 Hstep; cbn [for_loop].
  { replace (lo + Z.of_nat 0) with lo by lia. exact H0. }
  replace (lo + Z.of_nat (Datatypes.S n)) with (lo + 1 + Z.of_nat n) by lia.
  apply IH.
  - apply Hstep; [lia|exact H0].
  - intros i s' Hi. apply Hstep. lia.
Qed.

(** Loop rule: an invariant indexed by the loop counter. *)
Lemma for_range_ind {S : Type} (P : Z -> S -> Prop) body lo hi s :
  lo <= hi -> P lo s ->
  (forall i s, lo <= i < hi -> P i s -> P (i + 1) (body i s)) ->
  P hi (for_range body lo hi s).
Proof.
  intros Hle H0 Hstep. unfold for_range.
  replace hi with (lo + Z.of_nat (Z.to_nat (hi - lo))) at 1 by lia.
  apply for_loop_ind; [exact H0|]. intros i s' Hi. apply Hstep. lia.
Qed.

Lemma for_range_empty {S : Type} (body : Z -> S -> S) lo hi s :
  hi <= lo -> for_range body lo hi s = s.
Proof.
  intros H. unfold for_range. replace (Z.to_nat (hi - lo)) with O by lia.
  reflexivity.
Qed.

(** The page walk as a counted loop over the frames it meets. *)
Lemma page_walk_ind {S : Type} (P : Z -> S -> Prop) (Q : S -> Prop) (body : Z -> S -> S + S) stop fuel a s :
  0 <= a -> a mod 4096 = 0 -> stop <= 18446744073709547520 -> stop - a <= 4096 * Z.of_nat fuel ->
  P a s ->
  (forall a s, 0 <= a < stop -> a mod 4096 = 0 -> P a s ->
     match body a s with inl s' => Q s' | inr s' => P (a + 4096) s' end) ->
  (forall a s, stop <= a -> P a s -> Q s) ->
  exists s', page_walk body stop fuel a s = Some s' /\ Q s'.
Proof.
  intros Ha Hal Hs Hf HP Hstep Hend. revert a s Ha Hal Hf HP.
  induction fuel as [|fuel IH]; intros a s Ha Hal Hf HP; cbn [page_walk];
    destruct (Z.ltb_spec a stop) as [Hlt|Hge]; [lia|eauto| |eauto].
  pose proof (Hstep a s ltac:(lia) Hal HP) as Hb. destruct (body a s) as [s'|s']; [eauto|].
  rewrite u64_small by lia. apply IH; [lia| |lia|exact Hb].
  rewrite <- Zplus_mod_idemp_r. change (4096 mod 4096) with 0. rewrite Z.add_0_r. exact Hal.
Qed.

Lemma page_loop_ind {S : Type} (P : Z -> S -> Prop) (Q : S -> Prop) (body : Z -> S -> S + S) base size s :
  0 <= base -> 0 <= size -> base + size <= 18446744073709547520 ->
  P (base - base mod 4096) s ->
  (forall a s, 0 <= a < base + size -> a mod 4096 = 0 -> P a s ->
     match body a s with inl s' => Q s' | inr s' => P (a + 4096) s' end) ->
  (forall a s, base + size <= a -> P a s -> Q s) ->
  exists s', page_loop body base size s = Some s' /\ Q s'.
Proof.
  intros Hb Hsz Hmax HP Hstep Hend. unfold page_loop.
  rewrite (u64_small (base + size)) by lia.
  change (not64 4095) with (not64 (2 ^ 12 - 1)). rewrite land_not64_align by (unfold in_u64; lia).
  change (2 ^ 12) with 4096. pose proof (Z.mod_pos_bound base 4096).
  apply (page_walk_ind P Q); try assumption; try lia.
  all: zlia.
Qed.

Lemma count_from_ext p q lo n :
  (forall i, lo <= i < lo + Z.of_nat n -> p i = q i) ->
  count_from p lo n = count_from q lo n.
Proof.
  revert lo. induction n as [|n IH]; intros lo H; cbn [count_from]; [reflexivity|].
  rewrite H by lia. rewrite IH; [reflexivity|]. intros i Hi. apply H. lia.
Qed.

Lemma count_range_ext p q lo hi :
  (forall i, lo <= i < hi -> p i = q i) -> count_range p lo hi = count_range q lo hi.
Proof. intros H. apply count_from_ext. intros i Hi. apply H. lia. Qed.

Lemma count_from_app p lo n m :
  count_from p lo (n + m) = count_from p lo n + count_from p (lo + Z.of_nat n) m.
Proof.
  revert lo. induction n as [|n IH]; intros lo; cbn [count_from Nat.add].
  { replace (lo + Z.of_nat 0) with lo by lia. lia. }
  rewrite IH. replace (lo + 1 + Z.of_nat n) with (lo + Z.of_nat (S n)) by lia. lia.
Qed.

Lemma count_range_split p lo mid hi :
  lo <= mid <= hi -> count_range p lo hi = count_range p lo mid + count_range p mid hi.
Proof.
  intros H. unfold count_range.
  replace (Z.to_nat (hi - lo)) with (Z.to_nat (mid - lo) + Z.to_nat (hi - mid))%nat by lia.
  rewrite count_from_app. do 2 f_equal. lia.
Qed.

Lemma count_from_bounds p lo n : 0 <= count_from p lo n <= Z.of_nat n.
Proof.
  revert lo. induction n as [|n IH]; intros lo; cbn [count_from]; [lia|].
  specialize (IH (lo + 1)). destruct (p lo); lia.
Qed.

Lemma count_range_bounds p lo hi : lo <= hi -> 0 <= count_range p lo hi <= hi - lo.
Proof. intros H. pose proof (count_from_bounds p lo (Z.to_nat (hi - lo))).
  unfold count_range. lia. Qed.

(** Flipping one index of the range changes the count by one. *)
Lemma count_range_flip p q lo hi k :
  lo <= k < hi -> p k = true -> q k = false ->
  (forall i, lo <= i < hi -> i <> k -> p i = q i) ->
  count_range p lo hi = count_range q lo hi + 1.
Proof.
  intros Hk Hp Hq Hext.
  rewrite (count_range_split p lo k hi), (count_range_split q lo k hi) by lia.
  rewrite (count_range_split p k (k + 1) hi), (count_range_split q k (k + 1) hi) by lia.
  rewrite (count_range_ext p q lo k) by (intros; apply Hext; lia).
  rewrite (count_range_ext p q (k + 1) hi) by (intros; apply Hext; lia).
  unfold count_range at 2 5. replace (Z.to_nat (k + 1 - k)) with 1%nat by lia.
  cbn [count_from]. rewrite Hp, Hq. lia.
Qed.

Lemma count_range_pos p lo hi :
  0 < count_range p lo hi -> exists i, lo <= i < hi /\ p i = true.
Proof.
  intros H. destruct (find_range p lo hi) as [i|] eqn:E.
  - apply find_range_Some in E as (? & ? & _). eauto.
  - exfalso. pose proof (proj1 (find_range_None _ _ _) E) as Hnone.
    rewrite (count_range_ext p (fun _ => false)) in H by exact Hnone.
    revert H. unfold count_range. generalize (Z.to_nat (hi - lo)) as n.
    intros n. revert lo E Hnone. assert (forall lo, count_from (fun _ => false) lo n = 0) as Hz.
    { induction n as [|n IH]; intros lo; cbn [count_from]; [reflexivity|].
      rewrite IH. reflexivity. }
    intros lo _ _. rewrite Hz. lia.
Qed.

(** * Lemmas on memories and byte strings *)

Lemma rd_insert_eq m a v : rd (<[a := v]> m) a = v.
Proof. unfold rd. rewrite lookup_insert_eq. reflexivity. Qed.
Lemma rd_insert_ne m a b v : a <> b -> rd (<[a := v]> m) b = rd m b.
Proof. intros H. unfold rd. rewrite lookup_insert_ne by exact H. reflexivity. Qed.

#[export] Hint Rewrite rd_insert_eq : trig.
#[export] Hint Rewrite rd_insert_ne using lia : trig.

Lemma byte_at_range b i : Forall in_u8 b -> 0 <= byte_at b i < 256.
Proof.
  intros Hb. unfold byte_at. destruct (i <? 0); [lia|].
  destruct (nth_in_or_default (Z.to_nat i) b 0) as [Hin| ->]; [|lia].
  rewrite List.Forall_forall in Hb. apply Hb. exact Hin.
Qed.

(** Little-endian bytes of a number and the number of a byte string. *)
Fixpoint le_bytes (n : nat) (v : Z) : list Z :=
  match n with O => [] | S k => u8 v :: le_bytes k (v / 256) end.
Fixpoint le_val (l : list Z) : Z :=
  match l with [] => 0 | b :: l' => b + 256 * le_val l' end.

Lemma le_bytes_length n v : length (le_bytes n v) = n.
Proof. revert v. induction n as [|n IH]; intros v; simpl; [reflexivity|]. rewrite IH. reflexivity. Qed.

Lemma le_val_bytes n v : le_val (le_bytes n v) = v mod 256 ^ Z.of_nat n.
Proof.
  revert v. induction n as [|n IH]; intros v; cbn [le_bytes le_val]; [rewrite Z.mod_1_r; reflexivity|].
  rewrite IH. replace (Z.of_nat (S n)) with (Z.succ (Z.of_nat n)) by lia. rewrite Z.pow_succ_r by lia.
  assert (0 < 256 ^ Z.of_nat n) by lia. rewrite (Z.rem_mul_r v 256) by lia. reflexivity.
Qed.

Lemma le_bytes_val l : Forall in_u8 l -> le_bytes (length l) (le_val l) = l.
Proof.
  induction 1 as [|b l Hb _ IH]; cbn [length le_bytes le_val]; [reflexivity|].
  replace ((b + 256 * le_val l) / 256) with (le_val l) by zlia. rewrite IH.
  f_equal. zlia.
Qed.

Lemma le_bytes_range n v : Forall in_u8 (le_bytes n v).
Proof. revert v. induction n as [|n IH]; intros v; simpl; constructor; [apply u8_range|apply IH]. Qed.

(** * Lemmas on step relations *)

Lemma star_one {A} (R : A -> A -> Prop) a b : R a b -> star R a b.
Proof. intros H. eapply star_step; [exact H|apply star_refl]. Qed.

Lemma star_trans {A} (R : A -> A -> Prop) a b c : star R a b -> star R b c -> star R a c.
Proof. induction 1; intros; [assumption|]. eapply star_step; eauto. Qed.

(** Invariants by rule induction. *)
Lemma star_invariant {A} (R : A -> A -> Prop) (I : A -> Prop) :
  (forall a b, I a -> R a b -> I b) -> forall a b, star R a b -> I a -> I b.
Proof. intros Hstep a b Hs. induction Hs; eauto. Qed.

#[export] Hint Constructors star : trig.
