(* ===== verification/Fifo.v ===== *)
(** Bounded FIFO queues.

    Three modules of the kernel keep a ring over a fixed array: the wait
    queues and the mailbox of [src/tipc_core.h] and the key buffer of
    [src/keyboard.c].  This file states once what they promise to their
    clients (the class [BoundedFifo] with its laws), proves the modular
    index arithmetic the three share, and derives from the interface alone
    that any sequence of accepted insertions and removals delivers in order. *)
From stdpp Require Import prelude list numbers.
From Stdlib Require Import ZArith Lia.
From S2P Require Import Prelude.
#[local] Open Scope Z_scope.

(** The elements a ring holds: [n] slots from [head] on, modulo the size. *)
Definition ring_at {A} `{Inhabited A} (buf : list A) (i : Z) : A :=
  buf !!! Z.to_nat i.

Definition ring_list {A} `{Inhabited A} (cap : Z) (buf : list A) (head n : Z) : list A :=
  map (fun i => ring_at buf ((head + i) mod cap)) (seqZ 0 n).

(** What a bounded queue offers: insertion fails ([None]) when the queue is
    full, removal fails when it is empty. *)
Class BoundedFifo (Q A : Type) := {
  bf_ok : Q -> Prop;
  bf_list : Q -> list A;
  bf_cap : nat;
  bf_push : A -> Q -> option Q;
  bf_pop : Q -> option (A * Q)
}.

Class BoundedFifoLaws (Q A : Type) `{BoundedFifo Q A} := {
  bf_push_law : forall q x, bf_ok q ->
    match bf_push x q with
    | Some q' => bf_ok q' /\ bf_list q' = bf_list q ++ [x] /\ (length (bf_list q) < bf_cap)%nat
    | None => length (bf_list q) = bf_cap
    end;
  bf_pop_law : forall q, bf_ok q ->
    match bf_pop q with
    | Some (x, q') => bf_ok q' /\ bf_list q = x :: bf_list q'
    | None => bf_list q = []
    end
}.

(** A client is a sequence of operations; [bf_run] returns the elements the
    queue accepted, the elements it delivered and the final queue. *)
Inductive fifo_op (A : Type) := Push (x : A) | Pop.
Arguments Push {A} x.
Arguments Pop {A}.

Fixpoint bf_run {Q A} `{BoundedFifo Q A} (ops : list (fifo_op A)) (q : Q)
  : list A * list A * Q :=
  match ops with
  | [] => ([], [], q)
  | Push x :: ops =>
      match bf_push x q with
      | None => bf_run ops q
      | Some q' => let '(acc, del, q'') := bf_run ops q' in (x :: acc, del, q'')
      end
  | Pop :: ops =>
      match bf_pop q with
      | None => bf_run ops q
      | Some (y, q') => let '(acc, del, q'') := bf_run ops q' in (acc, y :: del, q'')
      end
  end.

(** * Ring arithmetic *)

Section ring.
Context {A : Type} `{Inhabited A}.
Implicit Types buf : list A.

Lemma ring_list_length cap buf head n : 0 <= n -> Z.of_nat (length (ring_list cap buf head n)) = n.
Proof. intros Hn. unfold ring_list. rewrite length_map, length_seqZ. lia. Qed.

Lemma ring_slot_inj cap head i j :
  0 <= i < cap -> 0 <= j < cap -> (head + i) mod cap = (head + j) mod cap -> i = j.
Proof.
  intros Hi Hj E.
  assert ((i - j) mod cap = 0) as Hm.
  { replace (i - j) with ((head + i) - (head + j)) by lia.
    rewrite Zminus_mod, E, Z.sub_diag. apply Z.mod_0_l. lia. }
  apply Z.mod_divide in Hm as [k Hk]; [|lia].
  assert (k = 0) by nia. subst k. lia.
Qed.

(** Writing the slot after the last element appends it. *)
Lemma ring_list_push cap buf head n x :
  Z.of_nat (length buf) = cap -> 0 <= head < cap -> 0 <= n < cap ->
  ring_list cap (<[Z.to_nat ((head + n) mod cap) := x]> buf) head (n + 1)
  = ring_list cap buf head n ++ [x].
Proof.
  intros Hlen Hh Hn. unfold ring_list.
  rewrite (seqZ_app 0 n 1) by lia. rewrite map_app. f_equal.
  - apply map_ext_in. intros i Hi%list_elem_of_In.
    apply elem_of_seqZ in Hi. unfold ring_at.
    rewrite list_lookup_total_insert_ne; [reflexivity|]. intros E.
    apply Z2Nat.inj in E; [|apply Z.mod_pos_bound; lia|apply Z.mod_pos_bound; lia].
    apply ring_slot_inj in E; lia.
  - rewrite seqZ_cons by lia. cbn [map]. unfold ring_at.
    replace (0 + n) with n by lia. rewrite list_lookup_total_insert_eq.
    + reflexivity.
    + pose proof (Z.mod_pos_bound (head + n) cap). lia.
Qed.

(** Advancing the head removes the first element. *)
Lemma ring_list_pop cap buf head n :
  0 < cap -> 0 <= head < cap -> 0 < n ->
  ring_list cap buf head n
  = ring_at buf head :: ring_list cap buf ((head + 1) mod cap) (n - 1).
Proof.
  intros Hc Hh Hn. unfold ring_list. rewrite seqZ_cons by lia.
  cbn [map]. f_equal.
  - f_equal. rewrite Z.add_0_r. apply Z.mod_small. lia.
  - replace (Z.pred n) with (n - 1) by lia. replace (Z.succ 0) with (1 + 0) by lia.
    rewrite <- (fmap_add_seqZ 1 0 (n - 1)). unfold fmap. rewrite map_map.
    apply map_ext. intros i. f_equal.
    rewrite Zplus_mod_idemp_l. f_equal. lia.
Qed.

Lemma ring_list_0 cap buf head : ring_list cap buf head 0 = [].
Proof. reflexivity. Qed.

Lemma ring_list_nil_inv cap buf head n : 0 <= n -> ring_list cap buf head n = [] -> n = 0.
Proof. intros Hn E. pose proof (ring_list_length cap buf head n Hn). rewrite E in H0. simpl in *. lia. Qed.
End ring.

(** * What every client of the interface gets *)

Section client.
Context {Q A : Type} `{BoundedFifoLaws Q A}.

(** Conservation and order: what was in the queue followed by what it
    accepted equals what it delivered followed by what it still holds. *)
Lemma bf_run_history ops q acc del q' :
  bf_ok q -> bf_run ops q = (acc, del, q') ->
  bf_ok q' /\ bf_list q ++ acc = del ++ bf_list q'.
Proof.
  revert q acc del q'. induction ops as [|[x|] ops IH]; intros q acc del q' Hq E; cbn in E.
  - inv_pairs. split; [exact Hq|]. rewrite app_nil_r. reflexivity.
  - pose proof (bf_push_law q x Hq) as Hl. destruct (bf_push x q) as [q1|]; [|eauto].
    destruct Hl as (Hq1 & Hl & _).
    destruct (bf_run ops q1) as [[acc1 del1] q2] eqn:E1. inv_pairs.
    destruct (IH _ _ _ _ Hq1 E1) as [Hq2 Hh]. split; [exact Hq2|].
    rewrite <- Hh, Hl, <- app_assoc. reflexivity.
  - pose proof (bf_pop_law q Hq) as Hl. destruct (bf_pop q) as [[y q1]|]; [|eauto].
    destruct Hl as (Hq1 & Hl).
    destruct (bf_run ops q1) as [[acc1 del1] q2] eqn:E1. inv_pairs.
    destruct (IH _ _ _ _ Hq1 E1) as [Hq2 Hh]. split; [exact Hq2|].
    rewrite Hl. cbn. f_equal. exact Hh.
Qed.
End client.
