(* ===== verification/TipcCore.v ===== *)
(** The scheduler-free IPC data structures of [src/tipc_core.h]: wait queues
    of task ids, the bounded message ring of a mailbox, and the recursive
    mutex record.  Each C function that mutates its argument becomes a
    function returning the new structure, paired with its return value. *)
From stdpp Require Import prelude list numbers.
From Stdlib Require Import ZArith Lia.
From S2P Require Import Prelude Fifo.
#[local] Open Scope Z_scope.

Definition TIPC_MSG_DATA : Z := 56.
Definition TIPC_QUEUE_SLOTS : Z := 8.
Definition TIPC_WAIT_MAX : Z := 16.
Definition TIPC_NONE : Z := 4294967295.

(** One message: sender id, payload length, payload bytes. *)
Record tipc_msg_t := mk_msg { msg_sender : Z; msg_len : Z; msg_data : list Z }.

(** FIFO of blocked task ids; [wq_head] and [wq_n] are [uint8_t]. *)
Record tipc_waitq_t := mk_waitq { wq_id : list Z; wq_head : Z; wq_n : Z }.

Record tipc_mailbox_t := mk_mb {
  mb_slot : list tipc_msg_t;
  mb_head : Z;
  mb_count : Z;
  mb_wait_send : tipc_waitq_t;
  mb_wait_recv : tipc_waitq_t
}.

Record tipc_mutex_t := mk_mutex { mtx_owner : Z; mtx_depth : Z; mtx_wait : tipc_waitq_t }.

#[global] Instance tipc_msg_inhabited : Inhabited tipc_msg_t := populate (mk_msg 0 0 []).
#[global] Instance tipc_msg_eq_dec : EqDecision tipc_msg_t.
Proof. solve_decision. Defined.
#[global] Instance tipc_waitq_eq_dec : EqDecision tipc_waitq_t.
Proof. solve_decision. Defined.

(** ** Wait queues *)

Definition tipc_core_waitq_init (q : tipc_waitq_t) : tipc_waitq_t :=
  mk_waitq (wq_id q) 0 0.

Definition tipc_core_waitq_push (q : tipc_waitq_t) (id : Z) : Z * tipc_waitq_t :=
  if wq_n q >=? TIPC_WAIT_MAX then (-1, q)
  else (0, mk_waitq (<[Z.to_nat ((wq_head q + wq_n q) mod TIPC_WAIT_MAX) := id]> (wq_id q))
                    (wq_head q) (u8 (wq_n q + 1))).

Definition tipc_core_waitq_pop (q : tipc_waitq_t) : Z * tipc_waitq_t :=
  if wq_n q =? 0 then (TIPC_NONE, q)
  else (ring_at (wq_id q) (wq_head q),
        mk_waitq (wq_id q) (u8 ((wq_head q + 1) mod TIPC_WAIT_MAX)) (u8 (wq_n q - 1))).

Definition tipc_core_waitq_count (q : tipc_waitq_t) : Z := wq_n q.

(** ** Mailbox ring *)

Definition tipc_core_mb_init (mb : tipc_mailbox_t) : tipc_mailbox_t :=
  mk_mb (mb_slot mb) 0 0 (tipc_core_waitq_init (mb_wait_send mb))
        (tipc_core_waitq_init (mb_wait_recv mb)).

Definition tipc_core_mb_full (mb : tipc_mailbox_t) : bool := mb_count mb >=? TIPC_QUEUE_SLOTS.
Definition tipc_core_mb_empty (mb : tipc_mailbox_t) : bool := mb_count mb =? 0.

Definition tipc_core_mb_push (mb : tipc_mailbox_t) (m : tipc_msg_t) : Z * tipc_mailbox_t :=
  if tipc_core_mb_full mb then (-1, mb)
  else (0, mk_mb (<[Z.to_nat ((mb_head mb + mb_count mb) mod TIPC_QUEUE_SLOTS) := m]> (mb_slot mb))
                 (mb_head mb) (u8 (mb_count mb + 1)) (mb_wait_send mb) (mb_wait_recv mb)).

(** On success the message is copied to [*out]; on failure [*out] keeps its
    value, which the model returns unchanged. *)
Definition tipc_core_mb_pop (mb : tipc_mailbox_t) (out : tipc_msg_t)
  : Z * tipc_msg_t * tipc_mailbox_t :=
  if tipc_core_mb_empty mb then (-1, out, mb)
  else (0, ring_at (mb_slot mb) (mb_head mb),
        mk_mb (mb_slot mb) (u8 ((mb_head mb + 1) mod TIPC_QUEUE_SLOTS)) (u8 (mb_count mb - 1))
              (mb_wait_send mb) (mb_wait_recv mb)).

(** ** Mutex *)

Definition tipc_core_mutex_init (m : tipc_mutex_t) : tipc_mutex_t :=
  mk_mutex TIPC_NONE 0 (tipc_core_waitq_init (mtx_wait m)).

(** ** Well-formedness and contents *)

Definition waitq_ok (q : tipc_waitq_t) : Prop :=
  Z.of_nat (length (wq_id q)) = TIPC_WAIT_MAX
  /\ 0 <= wq_head q < TIPC_WAIT_MAX /\ 0 <= wq_n q <= TIPC_WAIT_MAX.

Definition waitq_list (q : tipc_waitq_t) : list Z :=
  ring_list TIPC_WAIT_MAX (wq_id q) (wq_head q) (wq_n q).

Definition mb_ring_ok (mb : tipc_mailbox_t) : Prop :=
  Z.of_nat (length (mb_slot mb)) = TIPC_QUEUE_SLOTS
  /\ 0 <= mb_head mb < TIPC_QUEUE_SLOTS /\ 0 <= mb_count mb <= TIPC_QUEUE_SLOTS.

Definition mb_list (mb : tipc_mailbox_t) : list tipc_msg_t :=
  ring_list TIPC_QUEUE_SLOTS (mb_slot mb) (mb_head mb) (mb_count mb).

Definition mb_ok (mb : tipc_mailbox_t) : Prop :=
  mb_ring_ok mb /\ waitq_ok (mb_wait_send mb) /\ waitq_ok (mb_wait_recv mb).

#[global] Instance waitq_fifo : BoundedFifo tipc_waitq_t Z := {
  bf_ok := waitq_ok;
  bf_list := waitq_list;
  bf_cap := Z.to_nat TIPC_WAIT_MAX;
  bf_push id q := let '(r, q') := tipc_core_waitq_push q id in
                  if r =? 0 then Some q' else None;
  bf_pop q := if tipc_core_waitq_count q =? 0 then None
              else Some (tipc_core_waitq_pop q)
}.

#[global] Instance mailbox_fifo : BoundedFifo tipc_mailbox_t tipc_msg_t := {
  bf_ok := mb_ring_ok;
  bf_list := mb_list;
  bf_cap := Z.to_nat TIPC_QUEUE_SLOTS;
  bf_push m mb := let '(r, mb') := tipc_core_mb_push mb m in
                  if r =? 0 then Some mb' else None;
  bf_pop mb := let '(r, m, mb') := tipc_core_mb_pop mb (mk_msg 0 0 []) in
               if r =? 0 then Some (m, mb') else None
}.

(** ** Operations in terms of contents *)

Lemma waitq_init_ok q : Z.of_nat (length (wq_id q)) = TIPC_WAIT_MAX ->
  waitq_ok (tipc_core_waitq_init q) /\ waitq_list (tipc_core_waitq_init q) = [].
Proof. intros H. unfold waitq_ok, TIPC_WAIT_MAX in *. simpl. split; [lia|reflexivity]. Qed.

Lemma waitq_list_length q : waitq_ok q -> Z.of_nat (length (waitq_list q)) = wq_n q.
Proof. intros (_ & _ & Hn). apply ring_list_length. lia. Qed.

Lemma waitq_push_spec q id :
  waitq_ok q ->
  (wq_n q = TIPC_WAIT_MAX /\ tipc_core_waitq_push q id = (-1, q)) \/
  (wq_n q < TIPC_WAIT_MAX /\ exists q', tipc_core_waitq_push q id = (0, q') /\ waitq_ok q'
     /\ waitq_list q' = waitq_list q ++ [id]).
Proof.
  intros (Hl & Hh & Hn). unfold tipc_core_waitq_push.
  destruct (Z.geb_spec (wq_n q) TIPC_WAIT_MAX); [left; split; [lia|reflexivity]|right].
  split; [lia|]. eexists. split; [reflexivity|].
  unfold waitq_ok, waitq_list, TIPC_WAIT_MAX in *. simpl. rewrite length_insert, u8_small by lia.
  split; [lia|]. apply ring_list_push; lia.
Qed.

Lemma waitq_pop_spec q :
  waitq_ok q ->
  (waitq_list q = [] /\ wq_n q = 0 /\ tipc_core_waitq_pop q = (TIPC_NONE, q)) \/
  (exists id q', tipc_core_waitq_pop q = (id, q') /\ waitq_ok q' /\ wq_n q <> 0
     /\ waitq_list q = id :: waitq_list q').
Proof.
  intros (Hl & Hh & Hn). unfold tipc_core_waitq_pop, waitq_list.
  destruct (Z.eqb_spec (wq_n q) 0) as [E|E].
  { left. rewrite E. repeat split; reflexivity. }
  right. eexists _, _. split; [reflexivity|].
  pose proof (Z.mod_pos_bound (wq_head q + 1) TIPC_WAIT_MAX).
  unfold waitq_ok, TIPC_WAIT_MAX in *. simpl. rewrite !u8_small by lia.
  split; [lia|]. split; [exact E|]. apply ring_list_pop; lia.
Qed.

Lemma mb_push_spec mb m :
  mb_ring_ok mb ->
  (tipc_core_mb_full mb = true /\ mb_count mb = TIPC_QUEUE_SLOTS /\ tipc_core_mb_push mb m = (-1, mb)) \/
  (tipc_core_mb_full mb = false /\ mb_count mb < TIPC_QUEUE_SLOTS
   /\ exists mb', tipc_core_mb_push mb m = (0, mb') /\ mb_ring_ok mb'
     /\ mb_list mb' = mb_list mb ++ [m]
     /\ mb_wait_send mb' = mb_wait_send mb /\ mb_wait_recv mb' = mb_wait_recv mb
     /\ mb_count mb' = mb_count mb + 1).
Proof.
  intros (Hl & Hh & Hn). unfold tipc_core_mb_push. destruct (tipc_core_mb_full mb) eqn:F;
    unfold tipc_core_mb_full in F.
  { left. split; [reflexivity|]. split; [lia|reflexivity]. }
  right. split; [reflexivity|]. assert (mb_count mb < TIPC_QUEUE_SLOTS) by lia. split; [lia|].
  eexists. split; [reflexivity|].
  unfold mb_ring_ok, mb_list, TIPC_QUEUE_SLOTS in *. simpl. rewrite length_insert, u8_small by lia.
  split; [lia|]. split; [apply ring_list_push; lia|]. repeat split; lia.
Qed.

Lemma mb_pop_spec mb out :
  mb_ring_ok mb ->
  (tipc_core_mb_empty mb = true /\ mb_list mb = [] /\ tipc_core_mb_pop mb out = (-1, out, mb)) \/
  (tipc_core_mb_empty mb = false
   /\ exists m mb', tipc_core_mb_pop mb out = (0, m, mb') /\ mb_ring_ok mb'
     /\ mb_list mb = m :: mb_list mb'
     /\ mb_wait_send mb' = mb_wait_send mb /\ mb_wait_recv mb' = mb_wait_recv mb
     /\ mb_count mb' = mb_count mb - 1).
Proof.
  intros (Hl & Hh & Hn). unfold tipc_core_mb_pop. destruct (tipc_core_mb_empty mb) eqn:F;
    unfold tipc_core_mb_empty in F.
  { left. apply Z.eqb_eq in F. unfold mb_list. rewrite F. repeat split; reflexivity. }
  right. apply Z.eqb_neq in F. split; [reflexivity|]. eexists _, _. split; [reflexivity|].
  pose proof (Z.mod_pos_bound (mb_head mb + 1) TIPC_QUEUE_SLOTS).
  unfold mb_ring_ok, mb_list, TIPC_QUEUE_SLOTS in *. simpl. rewrite !u8_small by lia.
  split; [lia|]. split; [apply ring_list_pop; lia|]. repeat split; lia.
Qed.

#[global] Instance waitq_fifo_laws : BoundedFifoLaws tipc_waitq_t Z.
Proof.
  split; cbn.
  - intros q x Hq. pose proof (waitq_list_length q Hq).
    destruct (waitq_push_spec q x Hq) as [[En ->]|[En (q' & -> & Hok & Hl)]]; simpl;
      unfold TIPC_WAIT_MAX in *; [lia|]. split; [exact Hok|]. split; [exact Hl|lia].
  - intros q Hq. unfold tipc_core_waitq_count.
    destruct (waitq_pop_spec q Hq) as [(E & E0 & _)|(id & q' & -> & Hok & Hne & Hl)].
    + rewrite E0. exact E.
    + apply Z.eqb_neq in Hne. rewrite Hne. split; [exact Hok|exact Hl].
Qed.

#[global] Instance mailbox_fifo_laws : BoundedFifoLaws tipc_mailbox_t tipc_msg_t.
Proof.
  split; cbn.
  - intros mb x Hq. assert (Z.of_nat (length (mb_list mb)) = mb_count mb).
    { apply ring_list_length. destruct Hq; lia. }
    destruct (mb_push_spec mb x Hq) as [(_ & En & ->)|(_ & En & q' & -> & Hok & Hl & _)]; simpl;
      unfold TIPC_QUEUE_SLOTS in *; [lia|]. split; [exact Hok|]. split; [exact Hl|lia].
  - intros mb Hq.
    destruct (mb_pop_spec mb (mk_msg 0 0 []) Hq) as [(_ & E & ->)|(_ & m & q' & -> & Hok & Hl & _)];
      simpl; auto.
Qed.

(** ** Properties *)

(** C1. The mailbox ring implements a bounded FIFO: for every sequence of
    [tipc_core_mb_push] and [tipc_core_mb_pop] calls on a freshly initialised
    mailbox, the messages delivered, followed by those still in the ring, are
    exactly the accepted messages in the order of acceptance, and the ring
    never holds more than [TIPC_QUEUE_SLOTS] messages. *)
Theorem mailbox_delivers_in_order mb ops acc del mb' :
  Z.of_nat (length (mb_slot mb)) = TIPC_QUEUE_SLOTS ->
  bf_run ops (tipc_core_mb_init mb) = (acc, del, mb') ->
  acc = del ++ mb_list mb' /\ (length (mb_list mb') <= 8)%nat.
Proof.
  intros Hlen Hrun.
  assert (mb_ring_ok (tipc_core_mb_init mb)) as Hok.
  { unfold mb_ring_ok, TIPC_QUEUE_SLOTS in *. simpl. lia. }
  pose proof (bf_run_history ops (tipc_core_mb_init mb) acc del mb') as Hhist.
  destruct (Hhist Hok Hrun) as [Hok' Hh].
  change (bf_list (tipc_core_mb_init mb)) with (@nil tipc_msg_t) in Hh.
  simpl in Hh. split; [exact Hh|].
  assert (Z.of_nat (length (mb_list mb')) = mb_count mb').
  { apply ring_list_length. destruct Hok'; lia. }
  destruct Hok' as (_ & _ & ?). unfold TIPC_QUEUE_SLOTS in *. lia.
Qed.

Lemma mailbox_delivers_in_order_witness :
  let mb0 := mk_mb (replicate 8 (mk_msg 0 0 [])) 5 3 (mk_waitq [] 0 0) (mk_waitq [] 0 0) in
  let m1 := mk_msg 2 4 [1] in
  let m2 := mk_msg 3 4 [2] in
  exists mb', [m1; m2] = [m1] ++ mb_list mb' /\ (length (mb_list mb') <= 8)%nat.
Proof.
  eexists. apply (mailbox_delivers_in_order
    (mk_mb (replicate 8 (mk_msg 0 0 [])) 5 3 (mk_waitq [] 0 0) (mk_waitq [] 0 0))
    [Push (mk_msg 2 4 [1]); Push (mk_msg 3 4 [2]); Pop]); reflexivity.
Defined.
