(* ===== verification/TtaskCore.v ===== *)
(** The pure scheduling mathematics of [src/ttask_core.h]: the round-robin,
    priority-preferring pick over a fixed task table, the mapping of a
    priority to a timeslice, and the count of ready slots. *)
From stdpp Require Import prelude list numbers.
From Stdlib Require Import ZArith Lia ZifyBool.
From S2P Require Import Prelude.
#[local] Open Scope Z_scope.

Definition TTASK_MAX_TASKS : Z := 32.

(** The anonymous enum of [src/ttask.h]. *)
Inductive tstate := TTASK_FREE | TTASK_READY | TTASK_RUNNING | TTASK_EXITED | TTASK_BLOCKED.

#[global] Instance tstate_eq_dec : EqDecision tstate.
Proof. solve_decision. Defined.
#[global] Instance tstate_inhabited : Inhabited tstate := populate TTASK_FREE.

Definition state_is (x y : tstate) : bool := bool_decide (x = y).

(** One iteration of the pick loop; the accumulator is [(best, best_prio)]. *)
Definition pick_body (current : Z) (state : list tstate) (prio : list Z) (count exclude i : Z)
    (acc : Z * Z) : Z * Z :=
  let idx := (current + 1 + i) mod count in
  if (idx =? exclude) || negb (state_is (state !!! Z.to_nat idx) TTASK_READY) then acc
  else if prio !!! Z.to_nat idx >? acc.2 then (idx, prio !!! Z.to_nat idx) else acc.

Definition ttask_pick_index_ex (current : Z) (state : list tstate) (prio : list Z)
    (count exclude : Z) : Z :=
  (for_range (pick_body current state prio count exclude) 0 count (-1, -1)).1.

Definition ttask_pick_index (current : Z) (state : list tstate) (prio : list Z) (count : Z) : Z :=
  ttask_pick_index_ex current state prio count (-1).

Definition TTASK_SLICE_MAX : Z := 16.
Definition TTASK_SLICE_IDLE : Z := 32.

Definition ttask_slice_ticks (prio : Z) : Z :=
  if prio =? 0 then TTASK_SLICE_IDLE
  else let s := u32 (Z.shiftl 1 (Z.land prio 7)) in
       if s >? TTASK_SLICE_MAX then TTASK_SLICE_MAX else s.

Definition ttask_ready_count_ex (state : list tstate) (count : Z) : Z :=
  for_range (fun i n => if state_is (state !!! Z.to_nat i) TTASK_READY then n + 1 else n) 0 count 0.

(** ** Specification of the pick *)

(** A slot the pick may return. *)
Definition eligible (state : list tstate) (count exclude idx : Z) : Prop :=
  0 <= idx < count /\ idx <> exclude /\ state !!! Z.to_nat idx = TTASK_READY.

(** Distance of a slot from the one just after [current], going round. *)
Definition rr_dist (current count idx : Z) : Z := (idx - current - 1) mod count.

(** [idx] is the best slot: maximal priority, ties to the nearest slot. *)
Definition pick_spec (current : Z) (state : list tstate) (prio : list Z)
    (count exclude idx : Z) : Prop :=
  eligible state count exclude idx /\
  forall j, eligible state count exclude j ->
    prio !!! Z.to_nat j < prio !!! Z.to_nat idx \/
    (prio !!! Z.to_nat j = prio !!! Z.to_nat idx /\
     rr_dist current count idx <= rr_dist current count j).

(** ** Lemmas *)

Lemma rr_dist_slot current count i :
  0 < count -> 0 <= i < count -> rr_dist current count ((current + 1 + i) mod count) = i.
Proof.
  intros Hc Hi. unfold rr_dist.
  rewrite <- Z.sub_add_distr, Zminus_mod_idemp_l.
  replace (current + 1 + i - (current + 1)) with i by lia. apply Z.mod_small. lia.
Qed.

Lemma rr_slot_dist current count idx :
  0 < count -> 0 <= idx < count -> (current + 1 + rr_dist current count idx) mod count = idx.
Proof.
  intros Hc Hi. unfold rr_dist. rewrite Zplus_mod_idemp_r.
  replace (current + 1 + (idx - current - 1)) with idx by lia. apply Z.mod_small. lia.
Qed.

Lemma rr_dist_bound current count idx : 0 < count -> 0 <= rr_dist current count idx < count.
Proof. intros. apply Z.mod_pos_bound. lia. Qed.

Section pick.
Context (current : Z) (state : list tstate) (prio : list Z) (count exclude : Z).
Hypothesis count_pos : 0 < count.
Hypothesis prio_nonneg : forall i, 0 <= i < count -> 0 <= prio !!! Z.to_nat i.

Local Abbreviation P j := (prio !!! Z.to_nat j).
Local Abbreviation elig := (eligible state count exclude).

(** Loop invariant: best of the slots at distance less than [i]. *)
Definition pick_inv (i : Z) (acc : Z * Z) : Prop :=
  (acc = (-1, -1) /\ (forall j, elig j -> i <= rr_dist current count j)) \/
  (exists b, acc = (b, P b) /\ elig b /\ rr_dist current count b < i /\
     forall j, elig j -> rr_dist current count j < i ->
       P j < P b \/ (P j = P b /\ rr_dist current count b <= rr_dist current count j)).

Lemma pick_body_inv i acc :
  0 <= i < count -> pick_inv i acc ->
  pick_inv (i + 1) (pick_body current state prio count exclude i acc).
Proof.
  intros Hi Hinv. unfold pick_body. set (idx := (current + 1 + i) mod count).
  assert (0 <= idx < count) as Hidx by (apply Z.mod_pos_bound; lia).
  assert (rr_dist current count idx = i) as Hd by (apply rr_dist_slot; lia).
  assert (forall j, elig j -> rr_dist current count j = i -> j = idx) as Huniq.
  { intros j (Hj & _) E. rewrite <- (rr_slot_dist current count j), E by lia. reflexivity. }
  destruct ((idx =? exclude) || negb (state_is (state !!! Z.to_nat idx) TTASK_READY)) eqn:Eskip.
  - assert (~ elig idx) as Hne.
    { intros (_ & H1 & H2). unfold state_is in Eskip. rewrite H2 in Eskip.
      rewrite bool_decide_eq_true_2 in Eskip by reflexivity. simpl in Eskip. lia. }
    assert (forall j, elig j -> rr_dist current count j <> i) as Hnot.
    { intros j Hj E. apply Hne. rewrite <- (Huniq j Hj E). exact Hj. }
    destruct Hinv as [[-> H]|(b & -> & Hb & Hbi & H)].
    + left. split; [reflexivity|]. intros j Hj. specialize (H j Hj). specialize (Hnot j Hj). lia.
    + right. exists b. repeat split; [apply Hb..|lia|]. intros j Hj Hlt.
      apply H; [exact Hj|]. specialize (Hnot j Hj). lia.
  - assert (elig idx) as Hel.
    { apply orb_false_iff in Eskip as [E1 E2]. apply negb_false_iff, bool_decide_eq_true_1 in E2.
      split; [lia|]. split; [lia|exact E2]. }
    specialize (prio_nonneg idx Hidx).
    destruct Hinv as [[-> H]|(b & -> & Hb & Hbi & H)]; cbn [snd].
    + replace (P idx >? -1) with true by lia. right. exists idx.
      repeat split; [apply Hel..|lia|]. intros j Hj Hlt. right.
      specialize (H j Hj). rewrite (Huniq j Hj) by lia. lia.
    + destruct (Z.gtb_spec (P idx) (P b)); right; [exists idx|exists b].
      * repeat split; [apply Hel..|lia|]. intros j Hj Hlt.
        destruct (Z.eq_dec (rr_dist current count j) i) as [E|E].
        { rewrite (Huniq j Hj E). lia. }
        specialize (H j Hj). lia.
      * repeat split; [apply Hb..|lia|]. intros j Hj Hlt.
        destruct (Z.eq_dec (rr_dist current count j) i) as [E|E].
        { rewrite (Huniq j Hj E). lia. }
        apply H; [exact Hj|lia].
Qed.

Lemma pick_index_inv : pick_inv count
  (for_range (pick_body current state prio count exclude) 0 count (-1, -1)).
Proof.
  apply (for_range_ind pick_inv); [lia| |].
  - left. split; [reflexivity|]. intros j _. pose proof (rr_dist_bound current count j). lia.
  - intros i s Hi. apply pick_body_inv. lia.
Qed.

Lemma pick_index_cases :
  (ttask_pick_index_ex current state prio count exclude = -1 /\ forall j, ~ elig j) \/
  (exists b, ttask_pick_index_ex current state prio count exclude = b /\
     pick_spec current state prio count exclude b).
Proof.
  unfold ttask_pick_index_ex. destruct pick_index_inv as [[-> H]|(b & -> & Hb & _ & H)].
  - left. split; [reflexivity|]. intros j Hj.
    specialize (H j Hj). pose proof (rr_dist_bound current count j). lia.
  - right. exists b. split; [reflexivity|]. split; [exact Hb|]. intros j Hj.
    apply H; [exact Hj|]. pose proof (rr_dist_bound current count j). lia.
Qed.

Lemma pick_spec_unique a b :
  pick_spec current state prio count exclude a ->
  pick_spec current state prio count exclude b -> a = b.
Proof.
  intros [Ha Hap] [Hb Hbp]. specialize (Hap b Hb). specialize (Hbp a Ha).
  rewrite <- (rr_slot_dist current count a), <- (rr_slot_dist current count b)
    by (destruct Ha, Hb; lia). do 2 f_equal. lia.
Qed.
End pick.

Lemma slice_ticks_bounds p : 0 <= p -> 1 <= ttask_slice_ticks p <= 32.
Proof.
  intros Hp. unfold ttask_slice_ticks, TTASK_SLICE_IDLE, TTASK_SLICE_MAX.
  destruct (p =? 0); [lia|].
  assert (0 <= Z.land p 7 < 8) as Hl.
  { change 7 with (Z.ones 3). rewrite Z.land_ones by lia. apply Z.mod_pos_bound. lia. }
  assert (1 <= u32 (Z.shiftl 1 (Z.land p 7)) <= 128) as Hs.
  { rewrite Z.shiftl_1_l. assert (2 ^ Z.land p 7 <= 2 ^ 7) by (apply Z.pow_le_mono_r; lia).
    assert (2 ^ 0 <= 2 ^ Z.land p 7) by (apply Z.pow_le_mono_r; lia).
    change (2 ^ 7) with 128 in *. change (2 ^ 0) with 1 in *. rewrite u32_small; lia. }
  destruct (Z.gtb_spec (u32 (Z.shiftl 1 (Z.land p 7))) 16); lia.
Qed.

(** ** Properties *)

(** C2. [ttask_pick_index_ex] returns the unique READY, non-excluded
    slot of maximal priority, ties broken by round-robin distance from
    [current], and returns [-1] exactly when no slot is eligible. *)
Theorem pick_index_correct current state prio count exclude :
  0 < count -> (forall i, 0 <= i < count -> 0 <= prio !!! Z.to_nat i) ->
  (forall idx, 0 <= idx ->
     ttask_pick_index_ex current state prio count exclude = idx <->
     pick_spec current state prio count exclude idx) /\
  (ttask_pick_index_ex current state prio count exclude = -1 <->
     forall j, ~ eligible state count exclude j).
Proof.
  intros Hc Hp.
  destruct (pick_index_cases current state prio count exclude Hc Hp) as [[E H]|(b & E & Hb)];
    rewrite E; (split; [intros idx Hidx|]); split; intros Hx.
  - lia.
  - exfalso. exact (H idx (proj1 Hx)).
  - exact H.
  - reflexivity.
  - subst. exact Hb.
  - eapply pick_spec_unique; eauto.
  - destruct Hb as [[? _] _]. lia.
  - exfalso. exact (Hx b (proj1 Hb)).
Qed.

Lemma pick_index_correct_witness :
  ttask_pick_index_ex 0 [TTASK_READY; TTASK_READY; TTASK_BLOCKED; TTASK_READY] [0; 1; 7; 1] 4 (-1) = 1
  /\ pick_spec 0 [TTASK_READY; TTASK_READY; TTASK_BLOCKED; TTASK_READY] [0; 1; 7; 1] 4 (-1) 1.
Proof.
  split; [reflexivity|].
  apply (pick_index_correct 0 [TTASK_READY; TTASK_READY; TTASK_BLOCKED; TTASK_READY] [0; 1; 7; 1] 4 (-1));
    [lia| |lia|reflexivity].
  intros i Hi. assert (i = 0 \/ i = 1 \/ i = 2 \/ i = 3) as [->|[->|[->| ->]]] by lia; vm_compute; discriminate.
Defined.
