(* ===== verification/Ttask.v ===== *)
(** The preemptive scheduler of [src/ttask.c].

    The task table, [current_task]/[next_task], the performance counters, the
    TSS stack pointer and the active address space form the state.  A context
    switch ([ttask_switch_ctx] of [boot/task_switch.asm]) suspends the running
    task in the middle of a C function; what that function still has to do is
    recorded as a [kont]: a task that has never run starts at its entry point,
    a task suspended inside [ttask_pick_switch] resumes with that call's own
    local variable [next], a task suspended inside [ttask_block] just returns.
    Heap, page-table and stack-memory operations are the interface [TaskMem]. *)
From stdpp Require Import prelude gmap list numbers.
From Stdlib Require Import ZArith Lia ZifyBool.
From S2P Require Import Prelude TtaskCore.
#[local] Open Scope Z_scope.

Definition TTASK_NAME_LEN : Z := 16.
Definition TTASK_STACK_SIZE : Z := 8 * 1024.
Definition TTASK_SELF_NONE : Z := 4294967295.

(** What the scheduler needs from the memory subsystem: the heap, address
    space teardown, and 64-bit stores to a task's kernel stack. *)
Class TaskMem (M : Type) := {
  tm_malloc : Z -> M -> Z * M;
  tm_free : Z -> M -> M;
  tm_aspace_destroy : Z -> M -> M;
  tm_load : M -> Z -> Z;
  tm_store : Z -> Z -> M -> M
}.

Class TaskMemLaws (M : Type) `{TaskMem M} := {
  tm_load_store_eq : forall m a v, tm_load (tm_store a v m) a = v;
  tm_load_store_ne : forall m a b v, a <> b -> tm_load (tm_store a v m) b = tm_load m b
}.

Record ttask_t := mk_task {
  t_context : Z;
  t_name : list Z;
  t_state : tstate;
  t_priority : Z;
  t_ticks : Z;
  t_slice : Z;
  t_switches : Z;
  t_blocked_count : Z;
  t_wake_count : Z;
  t_fn : Z;
  t_arg : Z;
  t_stack : Z;
  t_stack_size : Z;
  t_user_mode : bool;
  t_aspace : Z;
  t_user_rsp : Z
}.

(** [tmemset(t, 0, sizeof *t)] *)
Definition zero_task : ttask_t :=
  mk_task 0 (replicate 16 0) TTASK_FREE 0 0 0 0 0 0 0 0 0 0 false 0 0.
#[global] Instance ttask_inhabited : Inhabited ttask_t := populate zero_task.

(** What a suspended task does when it is switched to again. *)
Inductive kont :=
| KEntry                       (* never ran: [ttask_entry_iret] *)
| KPickSwitch (next : Z)       (* inside [ttask_pick_switch], local [next] *)
| KBlock.                      (* inside [ttask_block] *)
#[global] Instance kont_inhabited : Inhabited kont := populate KEntry.

Record sched (M : Type) := mk_sched {
  tasks : list ttask_t;
  konts : list kont;
  scheduler_ready : bool;
  total_switches : Z;
  total_blocks : Z;
  total_wakes : Z;
  current_task : option Z;     (* NULL, or the index of the running task *)
  tss_rsp0 : Z;
  cur_aspace : Z;              (* [vmm_aspace_current()] *)
  kernel_aspace : Z;           (* [vmm_aspace_kernel()] *)
  halted : bool;               (* [ttask_exit] fell through to [hlt] *)
  memory : M
}.
Arguments mk_sched {M}. Arguments tasks {M}. Arguments konts {M}.
Arguments scheduler_ready {M}. Arguments total_switches {M}. Arguments total_blocks {M}.
Arguments total_wakes {M}. Arguments current_task {M}. Arguments tss_rsp0 {M}.
Arguments cur_aspace {M}. Arguments kernel_aspace {M}. Arguments halted {M}. Arguments memory {M}.

Definition set_state (x : tstate) (t : ttask_t) : ttask_t :=
  mk_task (t_context t) (t_name t) x (t_priority t) (t_ticks t) (t_slice t) (t_switches t)
    (t_blocked_count t) (t_wake_count t) (t_fn t) (t_arg t) (t_stack t) (t_stack_size t)
    (t_user_mode t) (t_aspace t) (t_user_rsp t).
Definition set_prio_slice (p sl : Z) (t : ttask_t) : ttask_t :=
  mk_task (t_context t) (t_name t) (t_state t) p (t_ticks t) sl (t_switches t)
    (t_blocked_count t) (t_wake_count t) (t_fn t) (t_arg t) (t_stack t) (t_stack_size t)
    (t_user_mode t) (t_aspace t) (t_user_rsp t).
Definition set_counters (ticks sl sw bl wk : Z) (t : ttask_t) : ttask_t :=
  mk_task (t_context t) (t_name t) (t_state t) (t_priority t) ticks sl sw bl wk
    (t_fn t) (t_arg t) (t_stack t) (t_stack_size t) (t_user_mode t) (t_aspace t) (t_user_rsp t).
Definition set_resources (stack aspace : Z) (t : ttask_t) : ttask_t :=
  mk_task (t_context t) (t_name t) (t_state t) (t_priority t) (t_ticks t) (t_slice t)
    (t_switches t) (t_blocked_count t) (t_wake_count t) (t_fn t) (t_arg t) stack
    (t_stack_size t) (t_user_mode t) aspace (t_user_rsp t).
Definition set_context (c : Z) (t : ttask_t) : ttask_t :=
  mk_task c (t_name t) (t_state t) (t_priority t) (t_ticks t) (t_slice t)
    (t_switches t) (t_blocked_count t) (t_wake_count t) (t_fn t) (t_arg t) (t_stack t)
    (t_stack_size t) (t_user_mode t) (t_aspace t) (t_user_rsp t).

(** [next->slice = ttask_slice_ticks(next->priority); next->switches++;] *)
Definition take_cpu (t : ttask_t) : ttask_t :=
  set_counters (t_ticks t) (ttask_slice_ticks (t_priority t)) (u32 (t_switches t + 1))
    (t_blocked_count t) (t_wake_count t) t.
(** [state = TTASK_BLOCKED; blocked_count++;] *)
Definition park (t : ttask_t) : ttask_t :=
  set_counters (t_ticks t) (t_slice t) (t_switches t) (u32 (t_blocked_count t + 1))
    (t_wake_count t) (set_state TTASK_BLOCKED t).
(** [state = TTASK_READY; wake_count++;] *)
Definition unpark (t : ttask_t) : ttask_t :=
  set_counters (t_ticks t) (t_slice t) (t_switches t) (t_blocked_count t)
    (u32 (t_wake_count t + 1)) (set_state TTASK_READY t).
(** [ticks++; if (slice > 0) slice--;] *)
Definition charge_tick (t : ttask_t) : ttask_t :=
  set_counters (u32 (t_ticks t + 1)) (if t_slice t >? 0 then t_slice t - 1 else t_slice t)
    (t_switches t) (t_blocked_count t) (t_wake_count t) t.

(** [name] after [tmemset] and [tstrncpy(t->name, name, sizeof t->name - 1)]. *)
Definition name_field (name : list Z) : list Z :=
  let s := take 15 name in s ++ replicate (16 - length s) 0.

(** The boot context as a task: name ["idle"], priority 0, no stack. *)
Definition idle_task : ttask_t :=
  mk_task 0 (name_field [105; 100; 108; 101]) TTASK_READY 0 0 0 0 0 0 0 0 0 0 false 0 0.

Section sched.
Context {M : Type} `{TaskMem M}.
Implicit Types s : sched M.

Definition task_at s (i : Z) : ttask_t := tasks s !!! Z.to_nat i.
Definition kont_at s (i : Z) : kont := konts s !!! Z.to_nat i.
Definition state_of s (i : Z) : tstate := t_state (task_at s i).

Definition with_tasks (ts : list ttask_t) s : sched M :=
  mk_sched ts (konts s) (scheduler_ready s) (total_switches s) (total_blocks s) (total_wakes s)
    (current_task s) (tss_rsp0 s) (cur_aspace s) (kernel_aspace s) (halted s) (memory s).
Definition with_totals (sw bl wk : Z) s : sched M :=
  mk_sched (tasks s) (konts s) (scheduler_ready s) sw bl wk
    (current_task s) (tss_rsp0 s) (cur_aspace s) (kernel_aspace s) (halted s) (memory s).
Definition with_rsp0 (v : Z) s : sched M :=
  mk_sched (tasks s) (konts s) (scheduler_ready s) (total_switches s) (total_blocks s)
    (total_wakes s) (current_task s) v (cur_aspace s) (kernel_aspace s) (halted s) (memory s).
Definition with_aspace (v : Z) s : sched M :=
  mk_sched (tasks s) (konts s) (scheduler_ready s) (total_switches s) (total_blocks s)
    (total_wakes s) (current_task s) (tss_rsp0 s) v (kernel_aspace s) (halted s) (memory s).
Definition with_memory (m : M) s : sched M :=
  mk_sched (tasks s) (konts s) (scheduler_ready s) (total_switches s) (total_blocks s)
    (total_wakes s) (current_task s) (tss_rsp0 s) (cur_aspace s) (kernel_aspace s) (halted s) m.
Definition with_halted s : sched M :=
  mk_sched (tasks s) (konts s) (scheduler_ready s) (total_switches s) (total_blocks s)
    (total_wakes s) (current_task s) (tss_rsp0 s) (cur_aspace s) (kernel_aspace s) true (memory s).

(** [tasks[i].field = ...] *)
Definition upd_task (i : Z) (f : ttask_t -> ttask_t) s : sched M :=
  with_tasks (alter f (Z.to_nat i) (tasks s)) s.

(** The index of [current_task]; the scheduler only runs once it is set. *)
Definition cur s : Z := default 0 (current_task s).

Definition ttask_pick_next s : Z :=
  let state := map t_state (tasks s) in
  let prio := map t_priority (tasks s) in
  let idx := ttask_pick_index_ex (cur s) state prio TTASK_MAX_TASKS
               (if t_slice (task_at s (cur s)) =? 0 then cur s else -1) in
  if idx >=? 0 then idx else cur s.

(** What the resumed task executes after [ttask_switch_ctx] returns to it:
    the tail of [ttask_pick_switch] loads the address space of the task its
    local [next] points to. *)
Definition resume s : sched M :=
  match kont_at s (cur s) with
  | KPickSwitch next =>
      let t := task_at s next in
      let want := if t_user_mode t then t_aspace t else kernel_aspace s in
      if negb (want =? 0) && negb (cur_aspace s =? want) then with_aspace want s else s
  | KEntry | KBlock => s
  end.

(** [next_task = next; ttask_switch_ctx();] suspending the caller with [k]. *)
Definition ttask_switch_ctx (k : kont) (next : Z) s : sched M :=
  resume (mk_sched (tasks s) (<[Z.to_nat (cur s) := k]> (konts s)) (scheduler_ready s)
    (total_switches s) (total_blocks s) (total_wakes s) (Some next) (tss_rsp0 s)
    (cur_aspace s) (kernel_aspace s) (halted s) (memory s)).

(** [stack_top]: the boot stack (boot/boot.asm), used by tasks with no stack. *)
Variable boot_stack_top : Z.

Definition ttask_pick_switch s : sched M :=
  let next := ttask_pick_next s in
  if next =? cur s then s
  else
    let t := task_at s next in
    let s1 := upd_task next take_cpu s in
    let s2 := with_totals (u32 (total_switches s1 + 1)) (total_blocks s1) (total_wakes s1) s1 in
    let s3 := with_rsp0 (if negb (t_stack t =? 0) then u64 (t_stack t + t_stack_size t)
                         else boot_stack_top) s2 in
    ttask_switch_ctx (KPickSwitch next) next s3.

Definition ttask_init s : sched M :=
  mk_sched (<[0%nat := idle_task]> (tasks s)) (konts s) true (total_switches s) (total_blocks s)
    (total_wakes s) (Some 0) (tss_rsp0 s) (cur_aspace s) (kernel_aspace s) (halted s) (memory s).

(** The initial stack, pushed downwards with [*--sp = v]. *)
Definition push64 (v : Z) (p : Z * M) : Z * M := (u64 (p.1 - 8), tm_store (u64 (p.1 - 8)) v p.2).

(** Addresses of [ttask_entry] and [ttask_entry_iret] in the kernel image. *)
Variable ttask_entry_addr : Z.
Variable ttask_entry_iret_addr : Z.

Definition ttask_init_stack (t : ttask_t) (m : M) : ttask_t * M :=
  let top := Z.land (u64 (t_stack t + t_stack_size t)) (not64 15) in
  let frame :=
    if t_user_mode t
    then [0x23; t_user_rsp t; 0x202; 0x1B; t_fn t]
    else [0x10; u64 (top - 8); 0x202; 0x08; ttask_entry_addr] in
  let words := frame ++ [ttask_entry_iret_addr; 0; 0; 0; 0; 0; 0] in
  let '(sp, m') := fold_left (fun p v => push64 v p) words (top, m) in
  (set_context sp t, m').

Definition ttask_free_resources (t : ttask_t) (m : M) : ttask_t * M :=
  let '(t1, m1) := if negb (t_stack t =? 0)
                   then (set_resources 0 (t_aspace t) t, tm_free (t_stack t) m) else (t, m) in
  if t_user_mode t1 && negb (t_aspace t1 =? 0)
  then (set_resources (t_stack t1) 0 t1, tm_aspace_destroy (t_aspace t1) m1) else (t1, m1).

(** First slot that is FREE or EXITED. *)
Definition find_slot s : option Z :=
  find_range (fun i => state_is (state_of s i) TTASK_FREE || state_is (state_of s i) TTASK_EXITED)
    0 TTASK_MAX_TASKS.

(** The common body of [ttask_create] and [ttask_create_user]; [None] is the
    null pointer, otherwise the index of the new task.  The two functions
    differ in the priority and in the fields of a ring-3 task. *)
Definition create_with (name : list Z) (prio fn arg : Z) (user : option (Z * Z)) s
  : option Z * sched M :=
  if negb (scheduler_ready s) then (None, s)
  else match find_slot s with
  | None => (None, s)
  | Some i =>
      let m0 := if state_is (state_of s i) TTASK_EXITED
                then (ttask_free_resources (task_at s i) (memory s)).2 else memory s in
      let '(stack, m1) := tm_malloc TTASK_STACK_SIZE m0 in
      let st := if stack =? 0 then TTASK_FREE else TTASK_READY in
      let base := mk_task 0 (name_field name) st prio 0 (ttask_slice_ticks prio) 0 0 0 fn arg stack
                    (if stack =? 0 then 0 else TTASK_STACK_SIZE) false 0 0 in
      if stack =? 0 then
        (None, with_memory m1 (with_tasks (<[Z.to_nat i := base]> (tasks s)) s))
      else
        let t := match user with
                 | None => base
                 | Some (aspace, rsp) =>
                     mk_task 0 (t_name base) st prio 0 (t_slice base) 0 0 0 fn arg stack
                       TTASK_STACK_SIZE true aspace rsp
                 end in
        let '(t', m2) := ttask_init_stack t m1 in
        (Some i, mk_sched (<[Z.to_nat i := t']> (tasks s)) (<[Z.to_nat i := KEntry]> (konts s))
           (scheduler_ready s) (total_switches s) (total_blocks s) (total_wakes s)
           (current_task s) (tss_rsp0 s) (cur_aspace s) (kernel_aspace s) (halted s) m2)
  end.

Definition ttask_create (name : list Z) (fn arg : Z) s : option Z * sched M :=
  create_with name 1 fn arg None s.

Definition ttask_create_user (name : list Z) (entry aspace user_rsp : Z) s : option Z * sched M :=
  create_with name 2 entry 0 (Some (aspace, user_rsp)) s.

Definition ttask_yield s : sched M :=
  if negb (scheduler_ready s) then s else ttask_pick_switch s.

Definition ttask_self s : Z :=
  match scheduler_ready s, current_task s with
  | true, Some c => u32 c
  | _, _ => TTASK_SELF_NONE
  end.

Definition ttask_block s : sched M :=
  match scheduler_ready s, current_task s with
  | true, Some c =>
      let s1 := upd_task c park s in
      let s2 := with_totals (total_switches s1) (u32 (total_blocks s1 + 1)) (total_wakes s1) s1 in
      let next := ttask_pick_next s2 in
      if next =? c then upd_task c (set_state TTASK_READY) s2
      else ttask_switch_ctx KBlock next s2
  | _, _ => s
  end.

Definition ttask_wake (id : Z) s : sched M :=
  if id >=? TTASK_MAX_TASKS then s
  else if state_is (state_of s id) TTASK_BLOCKED then
    let s1 := upd_task id unpark s in
    with_totals (total_switches s1) (total_blocks s1) (u32 (total_wakes s1 + 1)) s1
  else s.

(** Does not return: either another task runs, or the CPU stops in [hlt]
    with interrupts off. *)
Definition ttask_exit s : sched M :=
  let s1 := upd_task (cur s) (set_state TTASK_EXITED) s in
  if ttask_pick_next s1 =? cur s1 then with_halted s1 else ttask_pick_switch s1.

Definition ttask_tick s : sched M :=
  if negb (scheduler_ready s) then s
  else ttask_pick_switch (upd_task (cur s) charge_tick s).

Definition ttask_count s : Z :=
  for_range (fun i n => if negb (state_is (state_of s i) TTASK_FREE) then n + 1 else n)
    0 TTASK_MAX_TASKS 0.

Definition ttask_at s (i : Z) : option ttask_t :=
  if (i >=? 0) && (i <? TTASK_MAX_TASKS) then Some (task_at s i) else None.

Definition ttask_set_priority (id prio : Z) s : sched M :=
  if id >=? TTASK_MAX_TASKS then s
  else if state_is (state_of s id) TTASK_FREE || state_is (state_of s id) TTASK_EXITED then s
  else upd_task id (set_prio_slice prio (ttask_slice_ticks prio)) s.

Definition ttask_get_priority (id : Z) s : Z :=
  if id >=? TTASK_MAX_TASKS then 0 else t_priority (task_at s id).

(** [ttask_stats_t], filled from the counters and [timer_ticks()]. *)
Record ttask_stats_t := mk_stats {
  st_total_switches : Z; st_total_ticks : Z; st_total_blocks : Z; st_total_wakes : Z }.

Definition ttask_get_stats (timer_ticks : Z) s : ttask_stats_t :=
  mk_stats (total_switches s) timer_ticks (total_blocks s) (total_wakes s).

(** The events that drive the scheduler once it is running: the PIT interrupt,
    the calls of the running task, and wake-ups from the IPC module. *)
Inductive sched_step : sched M -> sched M -> Prop :=
| step_tick s : halted s = false -> sched_step s (ttask_tick s)
| step_yield s : halted s = false -> sched_step s (ttask_yield s)
| step_block s : halted s = false -> sched_step s (ttask_block s)
| step_exit s : halted s = false -> sched_step s (ttask_exit s)
| step_wake s id : halted s = false -> 0 <= id -> sched_step s (ttask_wake id s)
| step_create s name fn arg :
    halted s = false -> sched_step s (ttask_create name fn arg s).2
| step_create_user s name entry aspace rsp :
    halted s = false -> sched_step s (ttask_create_user name entry aspace rsp s).2
| step_set_priority s id prio :
    halted s = false -> 0 <= id -> 0 <= prio < 256 -> sched_step s (ttask_set_priority id prio s).

(** The task table is consistent: one running task, which is READY (the code
    never assigns [TTASK_RUNNING]) unless the machine halted; every live task
    other than the boot context owns a kernel stack; timeslices are bounded. *)
Definition task_ok (i : Z) (t : ttask_t) : Prop :=
  t_state t <> TTASK_RUNNING /\ 0 <= t_priority t < 256 /\ 0 <= t_slice t <= 32 /\
  (0 < i -> t_state t = TTASK_READY \/ t_state t = TTASK_BLOCKED ->
   t_stack t <> 0 /\ t_stack_size t = TTASK_STACK_SIZE).

Record sched_ok s : Prop := {
  ok_tasks : length (tasks s) = Z.to_nat TTASK_MAX_TASKS;
  ok_konts : length (konts s) = Z.to_nat TTASK_MAX_TASKS;
  ok_ready : scheduler_ready s = true;
  ok_cur : exists c, current_task s = Some c /\ 0 <= c < TTASK_MAX_TASKS;
  ok_task : forall i, 0 <= i < TTASK_MAX_TASKS -> task_ok i (task_at s i);
  ok_running : halted s = false -> state_of s (cur s) = TTASK_READY
}.

(** The boot image: [tasks] is zeroed static storage. *)
Definition boot_sched (kernel_as : Z) (m : M) : sched M :=
  mk_sched (replicate (Z.to_nat TTASK_MAX_TASKS) zero_task)
    (replicate (Z.to_nat TTASK_MAX_TASKS) KEntry) false 0 0 0 None 0 kernel_as kernel_as false m.

End sched.

(** * Lemmas *)

Section lemmas.
Context {M : Type} `{TaskMem M}.
Variables boot_stack_top ttask_entry_addr ttask_entry_iret_addr : Z.
Implicit Types s : sched M.

Local Abbreviation MAX := TTASK_MAX_TASKS.

Lemma task_at_upd s i j f :
  0 <= i < Z.of_nat (length (tasks s)) -> 0 <= j ->
  task_at (upd_task i f s) j = if i =? j then f (task_at s i) else task_at s j.
Proof.
  intros Hi Hj. unfold task_at, upd_task. simpl.
  destruct (Z.eqb_spec i j) as [->|Hne].
  - apply list_lookup_total_correct. rewrite list_lookup_alter_eq.
    rewrite (list_lookup_lookup_total_lt (tasks s)) by lia. reflexivity.
  - rewrite !list_lookup_total_alt, list_lookup_alter_ne by lia. reflexivity.
Qed.

Lemma state_of_upd_same s i j f :
  0 <= i < Z.of_nat (length (tasks s)) -> 0 <= j -> (forall t, t_state (f t) = t_state t) ->
  state_of (upd_task i f s) j = state_of s j.
Proof.
  intros Hi Hj Hf. unfold state_of. rewrite task_at_upd by lia.
  destruct (Z.eqb_spec i j) as [->|]; [apply Hf|reflexivity].
Qed.

Lemma lookup_map_state s i : state_of s i = map t_state (tasks s) !!! Z.to_nat i.
Proof.
  unfold state_of, task_at. rewrite !list_lookup_total_alt.
  replace (map t_state (tasks s)) with (t_state <$> tasks s) by reflexivity.
  rewrite list_lookup_fmap. destruct (tasks s !! Z.to_nat i); reflexivity.
Qed.

Lemma lookup_map_prio s i :
  0 <= i < Z.of_nat (length (tasks s)) ->
  t_priority (task_at s i) = map t_priority (tasks s) !!! Z.to_nat i.
Proof.
  intros Hi. unfold task_at. rewrite (list_lookup_total_alt (map _ _)).
  replace (map t_priority (tasks s)) with (t_priority <$> tasks s) by reflexivity.
  rewrite list_lookup_fmap, (list_lookup_lookup_total_lt (tasks s)) by lia. reflexivity.
Qed.

(** The slot excluded from the pick. *)
Definition excl s : Z := if t_slice (task_at s (cur s)) =? 0 then cur s else -1.

(** A slot the pick may choose. *)
Definition can_run s (i : Z) : Prop := 0 <= i < MAX /\ i <> excl s /\ state_of s i = TTASK_READY.

Lemma can_run_eligible s i :
  can_run s i <-> eligible (map t_state (tasks s)) MAX (excl s) i.
Proof. unfold can_run, eligible. rewrite lookup_map_state. tauto. Qed.

(** Either the pick chooses the best runnable slot or nothing is runnable. *)
Lemma pick_next_cases s :
  length (tasks s) = Z.to_nat MAX ->
  (forall i, 0 <= i < MAX -> 0 <= t_priority (task_at s i)) ->
  (ttask_pick_next s = cur s /\ (forall i, ~ can_run s i)) \/
  (can_run s (ttask_pick_next s) /\
   forall j, can_run s j ->
     t_priority (task_at s j) < t_priority (task_at s (ttask_pick_next s)) \/
     (t_priority (task_at s j) = t_priority (task_at s (ttask_pick_next s)) /\
      rr_dist (cur s) MAX (ttask_pick_next s) <= rr_dist (cur s) MAX j)).
Proof.
  intros Hlen Hp. unfold ttask_pick_next. fold (excl s).
  destruct (pick_index_cases (cur s) (map t_state (tasks s)) (map t_priority (tasks s)) MAX (excl s))
    as [[-> Hno]|(b & -> & Hel & Hbest)].
  - reflexivity.
  - intros i Hi. rewrite <- lookup_map_prio by lia. apply Hp. exact Hi.
  - left. split; [reflexivity|]. intros i Hi. apply (Hno i), can_run_eligible, Hi.
  - right. assert (0 <= b) by (destruct Hel; lia). replace (b >=? 0) with true by lia.
    split; [apply can_run_eligible, Hel|]. intros j Hj.
    rewrite !lookup_map_prio by (destruct Hel, Hj; lia).
    apply Hbest, can_run_eligible, Hj.
Qed.

Lemma resume_fields s :
  tasks (resume s) = tasks s /\ konts (resume s) = konts s /\
  scheduler_ready (resume s) = scheduler_ready s /\ current_task (resume s) = current_task s /\
  halted (resume s) = halted s /\ tss_rsp0 (resume s) = tss_rsp0 s /\
  memory (resume s) = memory s /\ kernel_aspace (resume s) = kernel_aspace s.
Proof. unfold resume. destruct (kont_at s (cur s)); [|case_if|]; repeat split; reflexivity. Qed.

(** A switch changes neither the table nor the counters. *)
Lemma switch_ctx_fields k n s :
  let s' := ttask_switch_ctx k n s in
  tasks s' = tasks s /\ konts s' = <[Z.to_nat (cur s) := k]> (konts s) /\
  scheduler_ready s' = scheduler_ready s /\ current_task s' = Some n /\
  halted s' = halted s /\ tss_rsp0 s' = tss_rsp0 s /\ memory s' = memory s.
Proof.
  unfold ttask_switch_ctx.
  match goal with |- context [resume ?x] => destruct (resume_fields x) as (-> & -> & -> & -> & -> & -> & -> & _) end.
  repeat split; reflexivity.
Qed.
Lemma cur_Some s c : current_task s = Some c -> cur s = c.
Proof. intros E. unfold cur. rewrite E. reflexivity. Qed.

Lemma length_upd_task s i f : length (tasks (upd_task i f s)) = length (tasks s).
Proof. apply length_alter. Qed.

(** [ttask_pick_switch] either stays or hands the CPU to the picked task,
    whose slice is refilled; no task changes state. *)
Lemma pick_switch_spec s :
  length (tasks s) = Z.to_nat MAX -> 0 <= ttask_pick_next s < MAX ->
  let n := ttask_pick_next s in
  let s' := ttask_pick_switch boot_stack_top s in
  (n = cur s /\ s' = s) \/
  (n <> cur s /\ current_task s' = Some n /\ length (tasks s') = length (tasks s) /\
   konts s' = <[Z.to_nat (cur s) := KPickSwitch n]> (konts s) /\
   scheduler_ready s' = scheduler_ready s /\ halted s' = halted s /\ memory s' = memory s /\
   tss_rsp0 s' = (if negb (t_stack (task_at s n) =? 0)
                  then u64 (t_stack (task_at s n) + t_stack_size (task_at s n))
                  else boot_stack_top) /\
   forall i, 0 <= i -> task_at s' i =
     if n =? i then take_cpu (task_at s n) else task_at s i).
Proof.
  intros Hlen Hn n s'. subst s'. unfold ttask_pick_switch. fold n.
  destruct (Z.eqb_spec n (cur s)) as [E|E]; [left; auto|right].
  match goal with |- context [ttask_switch_ctx ?k ?n ?x] =>
    destruct (switch_ctx_fields k n x) as (Ht & Hk & Hr & Hc & Hh & Hrsp & Hm) end.
  split; [exact E|]. split; [exact Hc|].
  split; [rewrite Ht; apply length_upd_task|].
  split; [rewrite Hk; reflexivity|]. split; [rewrite Hr; reflexivity|].
  split; [rewrite Hh; reflexivity|]. split; [rewrite Hm; reflexivity|].
  split; [rewrite Hrsp; reflexivity|].
  intros i Hi. unfold task_at at 1. rewrite Ht.
  change (task_at (upd_task n take_cpu s) i = if n =? i then take_cpu (task_at s n) else task_at s i).
  apply task_at_upd; lia.
Qed.

Lemma pick_next_range s :
  length (tasks s) = Z.to_nat MAX -> (forall i, 0 <= i < MAX -> 0 <= t_priority (task_at s i)) ->
  0 <= cur s < MAX -> 0 <= ttask_pick_next s < MAX.
Proof.
  intros Hlen Hp Hc. destruct (pick_next_cases s Hlen Hp) as [[-> _]|[[? _] _]]; lia.
Qed.

(** The pick never leaves a READY task for one that is not. *)
Lemma pick_next_ready s :
  length (tasks s) = Z.to_nat MAX -> (forall i, 0 <= i < MAX -> 0 <= t_priority (task_at s i)) ->
  ttask_pick_next s <> cur s -> state_of s (ttask_pick_next s) = TTASK_READY.
Proof.
  intros Hlen Hp Hne. destruct (pick_next_cases s Hlen Hp) as [[E _]|[(_ & _ & Hr) _]];
    [contradiction|exact Hr].
Qed.

Lemma task_ok_prio s i : sched_ok s -> 0 <= i < MAX -> 0 <= t_priority (task_at s i).
Proof. intros Hok Hi. destruct (ok_task s Hok i Hi) as (_ & ? & _). lia. Qed.

Lemma ok_cur_range s : sched_ok s -> current_task s = Some (cur s) /\ 0 <= cur s < MAX.
Proof. intros Hok. destruct (ok_cur s Hok) as (c & E & Hc). rewrite (cur_Some _ _ E). auto. Qed.

(** Table consistency without the requirement on the running task. *)
Record table_ok s : Prop := {
  tok_tasks : length (tasks s) = Z.to_nat MAX;
  tok_konts : length (konts s) = Z.to_nat MAX;
  tok_ready : scheduler_ready s = true;
  tok_cur : exists c, current_task s = Some c /\ 0 <= c < MAX;
  tok_task : forall i, 0 <= i < MAX -> task_ok i (task_at s i)
}.

Lemma sched_ok_table s : sched_ok s -> table_ok s.
Proof. intros []. constructor; assumption. Qed.

Lemma table_prio s i : table_ok s -> 0 <= i < MAX -> 0 <= t_priority (task_at s i).
Proof. intros Hok Hi. destruct (tok_task s Hok i Hi) as (_ & ? & _). lia. Qed.

Lemma table_cur s : table_ok s -> current_task s = Some (cur s) /\ 0 <= cur s < MAX.
Proof. intros Hok. destruct (tok_cur s Hok) as (c & E & Hc). rewrite (cur_Some _ _ E). auto. Qed.

Lemma table_pick s : table_ok s ->
  0 <= ttask_pick_next s < MAX /\
  (ttask_pick_next s <> cur s -> state_of s (ttask_pick_next s) = TTASK_READY).
Proof.
  intros Hok. assert (Hp := fun i => table_prio s i Hok).
  split; [apply pick_next_range|apply pick_next_ready]; auto using tok_tasks.
  apply table_cur, Hok.
Qed.

Lemma table_upd s i f :
  table_ok s -> 0 <= i < MAX -> (task_ok i (task_at s i) -> task_ok i (f (task_at s i))) ->
  table_ok (upd_task i f s).
Proof.
  intros Hok Hi Hf. destruct Hok as [Hlen Hk Hr Hc Ht].
  constructor; try assumption.
  - rewrite length_upd_task. exact Hlen.
  - intros j Hj. rewrite task_at_upd by lia. destruct (Z.eqb_spec i j); subst; auto.
Qed.

(** A pick-and-switch keeps the table consistent and lands on a READY task. *)
Lemma pick_switch_ok s :
  table_ok s ->
  (state_of s (cur s) = TTASK_READY \/ ttask_pick_next s <> cur s) ->
  sched_ok (ttask_pick_switch boot_stack_top s).
Proof.
  intros Hok Hrun. destruct (table_pick s Hok) as [Hn Hready].
  destruct (pick_switch_spec s (tok_tasks s Hok) Hn)
    as [[E Hs]|(Hne & Hc & Hlen & Hk & Hr & Hh & _ & _ & Ht)].
  - rewrite Hs. destruct Hok. constructor; try assumption. intros _. destruct Hrun; [assumption|contradiction].
  - destruct Hok as [Hlen0 Hk0 Hr0 Hc0 Ht0]. constructor.
    + rewrite Hlen. exact Hlen0.
    + rewrite Hk, length_insert. exact Hk0.
    + rewrite Hr. exact Hr0.
    + eauto.
    + intros i Hi. rewrite Ht by lia. destruct (Z.eqb_spec (ttask_pick_next s) i) as [->|]; [|auto].
      destruct (Ht0 i Hi) as (H1 & H2 & H3 & H4).
      pose proof (slice_ticks_bounds (t_priority (task_at s i))).
      repeat split; simpl; auto; try lia; apply H4; auto.
    + intros _. rewrite (cur_Some _ _ Hc). unfold state_of. rewrite Ht, Z.eqb_refl by lia.
      apply Hready. exact Hne.
Qed.

Lemma tick_ok s : sched_ok s -> halted s = false -> sched_ok (ttask_tick boot_stack_top s).
Proof.
  intros Hok Hh. unfold ttask_tick. rewrite (ok_ready s Hok). simpl.
  destruct (ok_cur_range s Hok) as [_ Hc]. assert (Hlen := ok_tasks s Hok).
  apply pick_switch_ok.
  - apply table_upd; [apply sched_ok_table, Hok|exact Hc|].
    intros (H1 & H2 & H3 & H4). repeat split; simpl; try tauto; try lia.
    all: destruct (t_slice (task_at s (cur s)) >? 0) eqn:E; lia.
  - left. change (cur (upd_task (cur s) charge_tick s)) with (cur s).
    unfold state_of. rewrite task_at_upd, Z.eqb_refl by lia. simpl. apply (ok_running s Hok Hh).
Qed.

Lemma yield_ok s : sched_ok s -> halted s = false -> sched_ok (ttask_yield boot_stack_top s).
Proof.
  intros Hok Hh. unfold ttask_yield. rewrite (ok_ready s Hok). simpl.
  apply pick_switch_ok; [apply sched_ok_table, Hok|left; apply (ok_running s Hok Hh)].
Qed.
(** The table after [current_task] has been marked BLOCKED. *)
Definition parked s : sched M :=
  with_totals (total_switches s) (u32 (total_blocks s + 1)) (total_wakes s) (upd_task (cur s) park s).

Lemma parked_task_at s i :
  sched_ok s -> 0 <= i ->
  task_at (parked s) i = if cur s =? i then park (task_at s (cur s)) else task_at s i.
Proof.
  intros Hok Hi. destruct (ok_cur_range s Hok) as [_ Hc]. pose proof (ok_tasks s Hok).
  change (task_at (upd_task (cur s) park s) i =
    if cur s =? i then park (task_at s (cur s)) else task_at s i).
  apply task_at_upd; lia.
Qed.

Lemma parked_table s : sched_ok s -> halted s = false -> table_ok (parked s).
Proof.
  intros Hok Hh. destruct (ok_cur_range s Hok) as [_ Hc].
  assert (table_ok (upd_task (cur s) park s)) as [].
  { apply table_upd; [apply sched_ok_table, Hok|exact Hc|].
    pose proof (ok_running s Hok Hh) as Hrun. unfold state_of in Hrun.
    intros (H1 & H2 & H3 & H4). repeat split; simpl; try lia; try discriminate;
      apply H4; auto. }
  constructor; assumption.
Qed.

Lemma block_unfold s :
  sched_ok s ->
  ttask_block s =
    if ttask_pick_next (parked s) =? cur s then upd_task (cur s) (set_state TTASK_READY) (parked s)
    else ttask_switch_ctx KBlock (ttask_pick_next (parked s)) (parked s).
Proof.
  intros Hok. unfold ttask_block. destruct (ok_cur_range s Hok) as [E _].
  rewrite (ok_ready s Hok), E. reflexivity.
Qed.

(** [ttask_block] either parks the caller and runs another READY task, or,
    when there is none, returns at once with the caller still READY. *)
Lemma block_spec s :
  sched_ok s -> halted s = false ->
  sched_ok (ttask_block s) /\ halted (ttask_block s) = false /\
  ((current_task (ttask_block s) = Some (cur s) /\
    (forall i, 0 <= i < MAX -> i <> cur s -> state_of s i <> TTASK_READY) /\
    (forall i, 0 <= i < MAX -> state_of (ttask_block s) i = state_of s i)) \/
   (exists n, n <> cur s /\ 0 <= n < MAX /\ state_of s n = TTASK_READY /\
    current_task (ttask_block s) = Some n /\
    (forall i, 0 <= i < MAX ->
       state_of (ttask_block s) i = if cur s =? i then TTASK_BLOCKED else state_of s i))).
Proof.
  intros Hok Hh. rewrite block_unfold by exact Hok.
  pose proof (parked_table s Hok Hh) as Htab. destruct (table_pick _ Htab) as [Hn Hr].
  destruct (ok_cur_range s Hok) as [Ec Hc]. pose proof (ok_tasks s Hok) as Hlen.
  change (cur (parked s)) with (cur s) in Hr.
  assert (forall i, 0 <= i -> state_of (parked s) i = if cur s =? i then TTASK_BLOCKED else state_of s i) as Hst.
  { intros i Hi. unfold state_of. rewrite parked_task_at by auto. destruct (cur s =? i); reflexivity. }
  assert (Hlenp : length (tasks (parked s)) = Z.to_nat MAX) by apply (tok_tasks _ Htab).
  destruct (Z.eqb_spec (ttask_pick_next (parked s)) (cur s)) as [E|E].
  - assert (forall i, 0 <= i < MAX ->
      state_of (upd_task (cur s) (set_state TTASK_READY) (parked s)) i = state_of s i) as Hsame.
    { intros i Hi. unfold state_of at 1. rewrite task_at_upd by lia.
      destruct (Z.eqb_spec (cur s) i) as [Heq|Hne].
      - subst i. simpl. symmetry. apply (ok_running s Hok Hh).
      - fold (state_of (parked s) i). rewrite Hst by lia. destruct (Z.eqb_spec (cur s) i); congruence. }
    split; [|split; [exact Hh|left; split; [exact Ec|split; [|exact Hsame]]]].
    + assert (table_ok (upd_task (cur s) (set_state TTASK_READY) (parked s))) as [].
      { apply table_upd; [exact Htab|exact Hc|]. rewrite parked_task_at, Z.eqb_refl by (auto; lia).
        intros (H1 & H2 & H3 & H4). repeat split; simpl in *; try lia; try discriminate; apply H4; auto. }
      constructor; try assumption. intros _.
      change (cur (upd_task (cur s) (set_state TTASK_READY) (parked s))) with (cur s).
      rewrite Hsame by lia. apply (ok_running s Hok Hh).
    + intros i Hi Hne Hready.
      destruct (pick_next_cases (parked s) Hlenp (fun j => table_prio _ j Htab)) as [[_ Hno]|[Hcan _]].
      * apply (Hno i). unfold can_run, excl. change (cur (parked s)) with (cur s).
        rewrite Hst by lia. split; [lia|].
        destruct (Z.eqb_spec (cur s) i); [congruence|].
        split; [case_if; lia|exact Hready].
      * rewrite E in Hcan. destruct Hcan as (_ & _ & Hx). rewrite Hst, Z.eqb_refl in Hx by lia. discriminate.
  - destruct (switch_ctx_fields KBlock (ttask_pick_next (parked s)) (parked s))
      as (Ht & Hk & Hrd & Hcc & Hhh & _ & _).
    specialize (Hr E). rewrite Hst in Hr by lia.
    destruct (Z.eqb_spec (cur s) (ttask_pick_next (parked s))) as [?|Hne]; [congruence|].
    assert (forall i, task_at (ttask_switch_ctx KBlock (ttask_pick_next (parked s)) (parked s)) i
              = task_at (parked s) i) as Hta by (intros i; unfold task_at; rewrite Ht; reflexivity).
    split; [|split; [rewrite Hhh; exact Hh|right; exists (ttask_pick_next (parked s))]].
    + destruct Htab. constructor.
      * rewrite Ht. assumption.
      * rewrite Hk, length_insert. assumption.
      * rewrite Hrd. assumption.
      * eauto.
      * intros i Hi. rewrite Hta. auto.
      * intros _. rewrite (cur_Some _ _ Hcc). unfold state_of. rewrite Hta.
        fold (state_of (parked s) (ttask_pick_next (parked s))). rewrite Hst by lia.
        destruct (Z.eqb_spec (cur s) (ttask_pick_next (parked s))); [congruence|exact Hr].
    + repeat split; auto; try lia. intros i Hi. unfold state_of at 1. rewrite Hta.
      apply Hst. lia.
Qed.
Lemma wake_task_at s id i :
  sched_ok s -> 0 <= id -> 0 <= i ->
  task_at (ttask_wake id s) i =
    if (id <? MAX) && state_is (state_of s id) TTASK_BLOCKED && (id =? i)
    then unpark (task_at s id) else task_at s i.
Proof.
  intros Hok Hid Hi. pose proof (ok_tasks s Hok). unfold ttask_wake.
  destruct (Z.geb_spec id MAX) as [Hge|Hlt].
  { replace (id <? MAX) with false by lia. reflexivity. }
  replace (id <? MAX) with true by lia.
  destruct (state_is (state_of s id) TTASK_BLOCKED); [|reflexivity]. simpl.
  change (task_at (upd_task id unpark s) i = if id =? i then unpark (task_at s id) else task_at s i).
  apply task_at_upd; lia.
Qed.

Lemma wake_fields s id :
  current_task (ttask_wake id s) = current_task s /\ halted (ttask_wake id s) = halted s /\
  scheduler_ready (ttask_wake id s) = scheduler_ready s /\ konts (ttask_wake id s) = konts s /\
  length (tasks (ttask_wake id s)) = length (tasks s).
Proof.
  unfold ttask_wake. destruct (id >=? MAX); [repeat split; reflexivity|].
  destruct (state_is (state_of s id) TTASK_BLOCKED); repeat split; try reflexivity.
  apply length_upd_task.
Qed.

(** [ttask_wake] turns a BLOCKED task READY and changes no other state. *)
Lemma wake_spec s id :
  sched_ok s -> 0 <= id ->
  sched_ok (ttask_wake id s) /\
  (forall i, 0 <= i < MAX ->
     state_of (ttask_wake id s) i =
       if (id =? i) && state_is (state_of s i) TTASK_BLOCKED then TTASK_READY else state_of s i).
Proof.
  intros Hok Hid. destruct (wake_fields s id) as (Hc & Hh & Hr & Hk & Hl).
  assert (forall i, 0 <= i < MAX -> state_of (ttask_wake id s) i =
     if (id =? i) && state_is (state_of s i) TTASK_BLOCKED then TTASK_READY else state_of s i) as Hst.
  { intros i Hi. unfold state_of at 1. rewrite wake_task_at by (auto; lia).
    destruct (Z.eqb_spec id i) as [->|]; [|rewrite andb_false_r; reflexivity].
    replace (i <? MAX) with true by lia. simpl.
    destruct (state_is (state_of s i) TTASK_BLOCKED); reflexivity. }
  split; [|exact Hst]. destruct Hok as [H1 H2 H3 H4 H5 H6] eqn:E. constructor.
  - rewrite Hl. assumption.
  - rewrite Hk. assumption.
  - rewrite Hr. assumption.
  - rewrite Hc. assumption.
  - intros i Hi. rewrite wake_task_at by (auto; lia).
    destruct (_ && _ && _) eqn:Eb; [|auto].
    apply andb_true_iff in Eb as [Eb Ei]. apply andb_true_iff in Eb as [_ Eb].
    apply Z.eqb_eq in Ei as ->. apply bool_decide_eq_true_1 in Eb.
    destruct (H5 i Hi) as (? & ? & ? & Hs). unfold state_of in Eb.
    repeat split; simpl; try lia; try discriminate; apply Hs; auto.
  - intros Hhh. rewrite Hh in Hhh. assert (cur (ttask_wake id s) = cur s) as Ecur by (unfold cur; rewrite Hc; reflexivity).
    destruct H4 as (c & Ec & Hcr). rewrite Ecur, Hst by (rewrite (cur_Some _ _ Ec); lia).
    rewrite (H6 Hhh). destruct (_ && _); reflexivity.
Qed.

Lemma exit_ok s : sched_ok s -> halted s = false -> sched_ok (ttask_exit boot_stack_top s).
Proof.
  intros Hok Hh. unfold ttask_exit. destruct (ok_cur_range s Hok) as [_ Hc].
  set (s1 := upd_task (cur s) (set_state TTASK_EXITED) s).
  assert (table_ok s1) as Htab.
  { apply table_upd; [apply sched_ok_table, Hok|exact Hc|].
    intros (H1 & H2 & H3 & _). repeat split; simpl; try lia; try discriminate;
      match goal with Hx : _ \/ _ |- _ => destruct Hx; discriminate end. }
  destruct (Z.eqb_spec (ttask_pick_next s1) (cur s1)) as [E|E].
  - destruct Htab. constructor; try assumption. simpl. discriminate.
  - apply pick_switch_ok; [exact Htab|right; exact E].
Qed.

Lemma set_priority_ok s id prio :
  sched_ok s -> 0 <= id -> 0 <= prio < 256 -> sched_ok (ttask_set_priority id prio s).
Proof.
  intros Hok Hid Hp. unfold ttask_set_priority.
  destruct (Z.geb_spec id MAX); [exact Hok|]. case_if; [exact Hok|].
  pose proof (slice_ticks_bounds prio).
  assert (table_ok (upd_task id (set_prio_slice prio (ttask_slice_ticks prio)) s)) as [].
  { apply table_upd; [apply sched_ok_table, Hok|lia|]. intros (K1 & K2 & K3 & K4).
    repeat split; simpl; try tauto; try lia; apply K4; auto. }
  constructor; try assumption. intros Hh.
  destruct (ok_cur_range s Hok) as [_ Hc]. pose proof (ok_tasks s Hok).
  change (cur (upd_task id (set_prio_slice prio (ttask_slice_ticks prio)) s)) with (cur s).
  rewrite state_of_upd_same by (auto; lia). apply (ok_running s Hok). exact Hh.
Qed.

Lemma init_stack_fields t (m : M) :
  let t' := (ttask_init_stack ttask_entry_addr ttask_entry_iret_addr t m).1 in
  t_state t' = t_state t /\ t_priority t' = t_priority t /\ t_slice t' = t_slice t /\
  t_stack t' = t_stack t /\ t_stack_size t' = t_stack_size t /\
  t_user_mode t' = t_user_mode t /\ t_aspace t' = t_aspace t.
Proof.
  unfold ttask_init_stack. destruct (fold_left _ _ _) as [sp m']. repeat split; reflexivity.
Qed.

(** The new task's slot was FREE or EXITED, so the running task is untouched. *)
Lemma insert_task_ok s i t ks (m : M) :
  sched_ok s -> 0 <= i < MAX -> length ks = Z.to_nat MAX -> task_ok i t ->
  (halted s = false -> i <> cur s) ->
  sched_ok (mk_sched (<[Z.to_nat i := t]> (tasks s)) ks (scheduler_ready s) (total_switches s)
    (total_blocks s) (total_wakes s) (current_task s) (tss_rsp0 s) (cur_aspace s)
    (kernel_aspace s) (halted s) m).
Proof.
  intros Hok Hi Hks Ht Hne. destruct Hok as [H1 H2 H3 H4 H5 H6].
  assert (forall j, 0 <= j -> forall (sx : sched M), tasks sx = <[Z.to_nat i := t]> (tasks s) ->
    task_at sx j = if i =? j then t else task_at s j) as Hat.
  { intros j Hj sx E. unfold task_at. rewrite E. destruct (Z.eqb_spec i j) as [->|].
    - apply list_lookup_total_insert_eq. lia.
    - apply list_lookup_total_insert_ne. lia. }
  constructor; simpl; try assumption.
  - rewrite length_insert. exact H1.
  - intros j Hj. erewrite Hat by (lia || reflexivity).
    destruct (Z.eqb_spec i j); subst; auto.
  - intros Hh. unfold state_of. erewrite Hat; [|destruct H4 as (c & Ec & ?); unfold cur; simpl; rewrite Ec; simpl; lia|reflexivity].
    specialize (Hne Hh). unfold cur at 1. simpl. fold (cur s).
    destruct (Z.eqb_spec i (cur s)); [congruence|]. apply H6. exact Hh.
Qed.

Lemma find_slot_spec s i :
  find_slot s = Some i ->
  0 <= i < MAX /\ (state_of s i = TTASK_FREE \/ state_of s i = TTASK_EXITED).
Proof.
  intros E. apply find_range_Some in E as (Hi & Hp & _). split; [exact Hi|].
  apply orb_true_iff in Hp as [Hp|Hp]; apply bool_decide_eq_true_1 in Hp; auto.
Qed.

Lemma create_ok s name prio fn arg user :
  sched_ok s -> 0 <= prio < 256 ->
  sched_ok (create_with ttask_entry_addr ttask_entry_iret_addr name prio fn arg user s).2.
Proof.
  intros Hok Hp. unfold create_with. rewrite (ok_ready s Hok). simpl.
  destruct (find_slot s) as [i|] eqn:Ef; [|exact Hok].
  destruct (find_slot_spec s i Ef) as [Hi Hfree].
  assert (halted s = false -> i <> cur s) as Hne.
  { intros Hh ->. rewrite (ok_running s Hok Hh) in Hfree. destruct Hfree; discriminate. }
  pose proof (slice_ticks_bounds prio).
  destruct (tm_malloc TTASK_STACK_SIZE _) as [stack m1].
  destruct (Z.eqb_spec stack 0) as [->|Hs].
  - unfold with_memory, with_tasks. simpl. apply insert_task_ok; auto using ok_konts.
    repeat split; simpl; try lia; try discriminate;
      match goal with Hx : _ \/ _ |- _ => destruct Hx; discriminate end.
  - match goal with |- context [ttask_init_stack ?a ?b ?t ?m] =>
      destruct (init_stack_fields t m) as (F1 & F2 & F3 & F4 & F5 & _);
      destruct (ttask_init_stack a b t m) as [t' m2] end.
    simpl in *. rewrite <- (ok_ready s Hok). apply insert_task_ok; auto.
    + rewrite length_insert. apply (ok_konts s Hok).
    + unfold task_ok. destruct user as [[asp rsp]|]; simpl in *;
        rewrite F1, F2, F3, F4, F5; repeat split; try lia; try discriminate; auto.
Qed.

(** A task that was created: its slot was free, it is READY with the entry and
    argument it was given, and every other task is as before. *)
Lemma create_with_spec name prio fn arg user s i s' :
  length (tasks s) = Z.to_nat MAX ->
  create_with ttask_entry_addr ttask_entry_iret_addr name prio fn arg user s = (Some i, s') ->
  0 <= i < MAX /\ (state_of s i = TTASK_FREE \/ state_of s i = TTASK_EXITED) /\
  (forall j, 0 <= j -> j <> i -> task_at s' j = task_at s j) /\
  let t := task_at s' i in
  t_state t = TTASK_READY /\ t_fn t = fn /\ t_arg t = arg /\
  t_user_mode t = (match user with Some _ => true | None => false end) /\
  t_aspace t = (match user with Some (a, _) => a | None => 0 end) /\
  t_user_rsp t = (match user with Some (_, rsp) => rsp | None => 0 end) /\
  cur_aspace s' = cur_aspace s /\ current_task s' = current_task s.
Proof.
  intros Hlen E. unfold create_with in E. destruct (negb _); [discriminate E|].
  destruct (find_slot s) as [i0|] eqn:Ef; [|discriminate E]. destruct (find_slot_spec s i0 Ef) as [Hi Hfree].
  destruct (tm_malloc TTASK_STACK_SIZE _) as [stack m1]. destruct (Z.eqb_spec stack 0) as [|Hs]; [discriminate E|].
  cbn [t_name t_slice] in E. destruct (ttask_init_stack _ _ _ m1) as [t' m2] eqn:Ei. injection E as <- <-.
  split; [exact Hi|]. split; [exact Hfree|]. split.
  - intros j Hj Hne. unfold task_at. cbn [tasks]. rewrite list_lookup_total_insert_ne by lia. reflexivity.
  - unfold task_at. cbn [tasks]. rewrite list_lookup_total_insert_eq by (rewrite Hlen; lia).
    unfold ttask_init_stack in Ei. destruct (fold_left _ _ _) as [sp m3]. injection Ei as <- _.
    destruct user as [[asp rsp]|]; repeat split; reflexivity.
Qed.

Lemma boot_init_ok kas (m : M) : sched_ok (ttask_init (boot_sched kas m)).
Proof.
  constructor; try reflexivity.
  - exists 0. split; [reflexivity|]. unfold MAX. lia.
  - intros i Hi. unfold task_at.
    change (tasks (ttask_init (boot_sched kas m)))
      with (<[0%nat := idle_task]> (replicate (Z.to_nat MAX) zero_task)).
    destruct (Z.eq_dec i 0) as [->|Hne].
    + change (Z.to_nat 0) with 0%nat.
      rewrite list_lookup_total_insert_eq by (rewrite length_replicate; unfold MAX; lia).
      repeat split; simpl; try lia; discriminate.
    + rewrite list_lookup_total_insert_ne, lookup_total_replicate_2 by (unfold MAX in *; lia).
      repeat split; simpl; try lia; try discriminate;
        match goal with Hx : _ \/ _ |- _ => destruct Hx; discriminate end.
Qed.

Lemma sched_step_ok s s' :
  sched_ok s ->
  sched_step boot_stack_top ttask_entry_addr ttask_entry_iret_addr s s' -> sched_ok s'.
Proof.
  intros Hok Hst. destruct Hst.
  - apply tick_ok; auto.
  - apply yield_ok; auto.
  - apply block_spec; auto.
  - apply exit_ok; auto.
  - apply wake_spec; auto.
  - apply create_ok; [auto|lia].
  - apply create_ok; [auto|lia].
  - apply set_priority_ok; auto.
Qed.
End lemmas.

(** * The first switch into a task

    [ttask_switch_ctx] pops the six callee-saved registers and returns to
    [ttask_entry_iret], whose [iretq] loads the five-word frame. *)
Record cpu_entry := mk_entry {
  e_regs : list Z; e_ret : Z; e_rip : Z; e_cs : Z; e_rflags : Z; e_rsp : Z; e_ss : Z }.

Definition enter_fresh {M} `{TaskMem M} (m : M) (rsp : Z) : cpu_entry :=
  mk_entry (map (fun i => tm_load m (rsp + 8 * i)) [0; 1; 2; 3; 4; 5])
    (tm_load m (rsp + 48)) (tm_load m (rsp + 56)) (tm_load m (rsp + 64))
    (tm_load m (rsp + 72)) (tm_load m (rsp + 80)) (tm_load m (rsp + 88)).

(** A memory whose heap hands out 64 KiB slots, for the witnesses. *)
Record flat_mem := mk_flat { fm_next : Z; fm_words : gmap Z Z }.
#[global] Instance flat_mem_ops : TaskMem flat_mem := {
  tm_malloc n m := (fm_next m, mk_flat (fm_next m + 65536) (fm_words m));
  tm_free _ m := m;
  tm_aspace_destroy _ m := m;
  tm_load m a := rd (fm_words m) a;
  tm_store a v m := mk_flat (fm_next m) (<[a := v]> (fm_words m))
}.
#[global] Instance flat_mem_laws : TaskMemLaws flat_mem.
Proof.
  split; intros; simpl; [apply rd_insert_eq|apply rd_insert_ne; assumption].
Qed.

Section properties.
Context {M : Type} `{TaskMemLaws M}.
Variables boot_stack_top ttask_entry_addr ttask_entry_iret_addr : Z.
Implicit Types s : sched M.

Local Abbreviation MAX := TTASK_MAX_TASKS.

Lemma push_list_loads ws top (m : M) :
  8 * Z.of_nat (length ws) <= top < 2 ^ 64 ->
  let '(sp, m') := fold_left (fun p v => push64 v p) ws (top, m) in
  sp = top - 8 * Z.of_nat (length ws) /\
  (forall k w, ws !! k = Some w -> tm_load m' (top - 8 * (Z.of_nat k + 1)) = w) /\
  (forall a, (a < sp \/ top <= a) -> tm_load m' a = tm_load m a).
Proof.
  revert top m. induction ws as [|v ws IH]; intros top m Hb; cbn [fold_left length] in *.
  { split; [lia|]. split; [|reflexivity]. intros k w Hk. discriminate. }
  unfold push64 at 2. simpl fst. simpl snd. rewrite u64_small by lia.
  specialize (IH (top - 8) (tm_store (top - 8) v m) ltac:(lia)).
  destruct (fold_left _ ws _) as [sp m'] eqn:E. destruct IH as (-> & Hl & Hf).
  split; [lia|]. split.
  - intros [|k] w Hk; cbn in Hk.
    + inv_pairs. replace (top - 8 * (Z.of_nat 0 + 1)) with (top - 8) by lia.
      rewrite Hf by lia. apply tm_load_store_eq.
    + specialize (Hl k w Hk). rewrite <- Hl. f_equal. lia.
  - intros a Ha. rewrite Hf by lia. apply tm_load_store_ne. lia.
Qed.

Lemma stack_top_align t : in_u64 (t_stack t + t_stack_size t) ->
  Z.land (u64 (t_stack t + t_stack_size t)) (not64 15)
  = (t_stack t + t_stack_size t) - (t_stack t + t_stack_size t) mod 16.
Proof.
  intros Hb. rewrite u64_small by exact Hb. change 15 with (2 ^ 4 - 1).
  rewrite land_not64_align by (exact Hb || lia). reflexivity.
Qed.
(** One yield when some other task can run: the pick rotates to a task no
    farther than [j], and states and priorities are unchanged. *)
Lemma yield_rotates s j :
  sched_ok s -> halted s = false ->
  (forall i k, 0 <= i < MAX -> 0 <= k < MAX -> state_of s i = TTASK_READY -> state_of s k = TTASK_READY ->
     t_priority (task_at s i) = t_priority (task_at s k)) ->
  0 <= j < MAX -> state_of s j = TTASK_READY -> j <> cur s ->
  let s' := ttask_yield boot_stack_top s in
  sched_ok s' /\ halted s' = false /\
  (forall i, 0 <= i < MAX -> state_of s' i = state_of s i /\
     t_priority (task_at s' i) = t_priority (task_at s i)) /\
  (cur s' = j \/ rr_dist (cur s') MAX j < rr_dist (cur s) MAX j).
Proof.
  intros Hok Hh Heq Hj Hjr Hjc s'. assert (Hlen := ok_tasks s Hok).
  assert (Hp := fun i Hi => task_ok_prio s i Hok Hi).
  destruct (ok_cur_range s Hok) as [_ Hc].
  assert (can_run s j) as Hcan.
  { split; [exact Hj|]. split; [|exact Hjr]. unfold excl. case_if; lia. }
  destruct (pick_next_cases s Hlen Hp) as [[_ Hno]|[Hn Hbest]]; [destruct (Hno j Hcan)|].
  set (n := ttask_pick_next s) in *. destruct Hn as (Hn & _ & Hnr).
  assert (rr_dist (cur s) MAX n <= rr_dist (cur s) MAX j) as Hd.
  { destruct (Hbest j Hcan) as [Hlt|[_ Hle]]; [|exact Hle].
    rewrite (Heq j n) in Hlt by auto. lia. }
  assert (n <> cur s) as Hne.
  { intros ->. revert Hd. unfold rr_dist, MAX in *. intros Hd.
    Z.to_euclidean_division_equations. lia. }
  assert (s' = ttask_pick_switch boot_stack_top s) as Es'.
  { unfold s', ttask_yield. rewrite (ok_ready s Hok). reflexivity. }
  split; [apply yield_ok; auto|].
  destruct (pick_switch_spec boot_stack_top s Hlen Hn)
    as [[E _]|(_ & Hcur & _ & _ & _ & Hhh & _ & _ & Ht)]; [contradiction|].
  rewrite <- Es' in *. fold n in Hcur, Ht. rewrite (cur_Some _ _ Hcur).
  split; [congruence|]. split.
  - intros i Hi. unfold state_of. rewrite Ht by lia.
    destruct (Z.eqb_spec n i) as [->|]; split; reflexivity.
  - destruct (Z.eq_dec n j) as [|Hnj]; [left; assumption|right].
    revert Hd. unfold rr_dist, MAX in *. intros Hd. Z.to_euclidean_division_equations. lia.
Qed.

(** C26. No task waits for ever under round robin: when the READY tasks have
    equal priority, every one of them is running after at most
    [TTASK_MAX_TASKS] calls of [ttask_yield], whoever runs first. *)
Theorem round_robin_bounded_wait s j :
  sched_ok s -> halted s = false ->
  (forall i k, 0 <= i < MAX -> 0 <= k < MAX -> state_of s i = TTASK_READY -> state_of s k = TTASK_READY ->
     t_priority (task_at s i) = t_priority (task_at s k)) ->
  0 <= j < MAX -> state_of s j = TTASK_READY ->
  exists k, (k <= 32)%nat /\ cur (Nat.iter k (ttask_yield boot_stack_top) s) = j.
Proof.
  intros Hok Hh Heq Hj Hjr.
  enough (exists k, Z.of_nat k <= rr_dist (cur s) MAX j + 1 /\
            cur (Nat.iter k (ttask_yield boot_stack_top) s) = j) as (k & Hk & E).
  { exists k. split; [|exact E]. pose proof (rr_dist_bound (cur s) MAX j).
    unfold TTASK_MAX_TASKS in *. lia. }
  assert (0 <= rr_dist (cur s) MAX j) as Hd0 by (apply rr_dist_bound; unfold MAX; lia).
  remember (Z.to_nat (rr_dist (cur s) MAX j)) as d eqn:Ed.
  revert s Hok Hh Heq Hjr Hd0 Ed. induction d as [d IH] using lt_wf_ind. intros.
  destruct (Z.eq_dec j (cur s)) as [->|Hne]; [exists 0%nat; simpl; split; [lia|reflexivity]|].
  destruct (yield_rotates s j Hok Hh Heq Hj Hjr Hne) as (Hok' & Hh' & Hsame & [E|Hlt]).
  { exists 1%nat. split; [lia|exact E]. }
  set (s' := ttask_yield boot_stack_top s) in *.
  assert (0 <= rr_dist (cur s') MAX j) as Hd0' by (apply rr_dist_bound; unfold MAX; lia).
  destruct (IH (Z.to_nat (rr_dist (cur s') MAX j)) ltac:(lia) s' Hok' Hh') as (k & Hk & E); auto.
  { intros i k Hi Hk Hsi Hsk. destruct (Hsame i Hi) as [E1 ->], (Hsame k Hk) as [E2 ->].
    apply Heq; congruence. }
  { rewrite (proj1 (Hsame j Hj)). exact Hjr. }
  exists (S k). split; [lia|]. rewrite Nat.iter_succ_r. exact E.
Qed.


(** C27. The stack [ttask_init_stack] builds is exactly what the assembly
    consumes: the first switch pops six zero registers, returns to
    [ttask_entry_iret] and [iretq]s with interrupts enabled into
    [ttask_entry] on a 16-byte-aligned kernel stack, or into the program's
    entry point at ring 3 with its own stack pointer; nothing outside the
    top 111 bytes of the stack is written. *)
Theorem init_stack_enters_task t (m : M) :
  112 <= t_stack_size t -> 0 <= t_stack t -> in_u64 (t_stack t + t_stack_size t) ->
  let '(t', m') := ttask_init_stack ttask_entry_addr ttask_entry_iret_addr t m in
  let e := enter_fresh m' (t_context t') in
  e_regs e = [0; 0; 0; 0; 0; 0] /\ e_ret e = ttask_entry_iret_addr /\ e_rflags e = 0x202 /\
  t_stack t <= t_context t' /\ t_context t' mod 16 = 0 /\
  (if t_user_mode t
   then e_rip e = t_fn t /\ e_cs e = 0x1B /\ e_rsp e = t_user_rsp t /\ e_ss e = 0x23
   else e_rip e = ttask_entry_addr /\ e_cs e = 0x08 /\ (e_rsp e + 8) mod 16 = 0 /\ e_ss e = 0x10
        /\ e_rsp e <= t_stack t + t_stack_size t) /\
  (forall a, a < t_stack t + t_stack_size t - 111 \/ t_stack t + t_stack_size t <= a ->
     tm_load m' a = tm_load m a).
Proof.
  intros Hsz Hst Hb. unfold ttask_init_stack. rewrite stack_top_align by exact Hb.
  set (top := t_stack t + t_stack_size t - (t_stack t + t_stack_size t) mod 16).
  assert (top mod 16 = 0 /\ t_stack t + t_stack_size t - 15 <= top <= t_stack t + t_stack_size t)
    as [Htop Hr] by (subst top; zlia).
  match goal with |- context [fold_left _ ?ws _] => set (words := ws) end.
  assert (length words = 12%nat) as Hlen by (subst words; destruct (t_user_mode t); reflexivity).
  pose proof (push_list_loads words top m) as Hpush. unfold in_u64 in Hb.
  specialize (Hpush ltac:(rewrite Hlen; lia)).
  destruct (fold_left _ words _) as [sp m']. rewrite Hlen in Hpush. destruct Hpush as (Hsp & Hl & Hf).
  assert (forall k w, words !! k = Some w -> forall a, a = top - 8 * (Z.of_nat k + 1) -> tm_load m' a = w)
    as Hl' by (intros k w Hk a ->; auto).
  split; [unfold enter_fresh; cbn [e_regs map t_context set_context]; repeat f_equal;
    [eapply (Hl' 11%nat)|eapply (Hl' 10%nat)|eapply (Hl' 9%nat)|eapply (Hl' 8%nat)
    |eapply (Hl' 7%nat)|eapply (Hl' 6%nat)]; try lia; subst words; destruct (t_user_mode t); reflexivity|].
  cbn [t_context set_context e_ret e_rflags e_rip e_cs e_rsp e_ss enter_fresh].
  split; [apply (Hl' 5%nat); [subst words; destruct (t_user_mode t); reflexivity|lia]|].
  split; [apply (Hl' 2%nat); [subst words; destruct (t_user_mode t); reflexivity|lia]|].
  split; [lia|]. split; [zlia|]. split; [|intros a Ha; apply Hf; lia].
  destruct (t_user_mode t); subst words.
  - repeat split; [apply (Hl' 4%nat)|apply (Hl' 3%nat)|apply (Hl' 1%nat)|apply (Hl' 0%nat)];
      reflexivity || lia.
  - assert (tm_load m' (sp + 80) = u64 (top - 8)) as -> by (apply (Hl' 1%nat); [reflexivity|lia]).
    rewrite u64_small by lia.
    repeat split; [apply (Hl' 4%nat)|apply (Hl' 3%nat)| |apply (Hl' 0%nat)|]; reflexivity || lia || zlia.
Qed.

(** The address space after a switch is decided by the resumed task's own
    stale local variable: [ttask_pick_switch] loads the space of the task the
    resumed one had itself switched to, and loads nothing for a task entered
    for the first time. *)
Theorem switch_address_space s :
  sched_ok s -> ttask_pick_next s <> cur s ->
  let n := ttask_pick_next s in
  cur_aspace (ttask_yield boot_stack_top s) =
    match kont_at s n with
    | KPickSwitch p =>
        let want := if t_user_mode (task_at s p) then t_aspace (task_at s p) else kernel_aspace s in
        if want =? 0 then cur_aspace s else want
    | _ => cur_aspace s
    end.
Proof.
  intros Hok Hne n. unfold ttask_yield. rewrite (ok_ready s Hok). simpl negb. cbv iota.
  unfold ttask_pick_switch. fold n. destruct (Z.eqb_spec n (cur s)) as [?|_]; [contradiction|].
  unfold ttask_switch_ctx, resume.
  match goal with |- context [kont_at ?x ?y] => change y with n; set (s3 := x) end.
  assert (kont_at s3 n = kont_at s n) as ->.
  { unfold kont_at, s3. simpl. apply list_lookup_total_insert_ne.
    destruct (ok_cur_range s Hok) as [_ Hc].
    pose proof (pick_next_range s (ok_tasks s Hok) (fun i Hi => task_ok_prio s i Hok Hi) Hc) as Hn.
    fold n in Hn. change (Z.to_nat (cur s) <> Z.to_nat n). lia. }
  destruct (kont_at s n) as [|p|]; [reflexivity| |reflexivity].
  assert (t_user_mode (task_at s3 p) = t_user_mode (task_at s p) /\
          t_aspace (task_at s3 p) = t_aspace (task_at s p)) as [-> ->].
  { unfold task_at, s3. simpl. rewrite !list_lookup_total_alt, list_lookup_alter.
    case_decide as E; [rewrite <- E; destruct (tasks s !! Z.to_nat n)|]; auto. }
  unfold s3. simpl. set (want := if t_user_mode (task_at s p) then _ else _).
  destruct (Z.eqb_spec want 0); [reflexivity|]. simpl.
  destruct (Z.eqb_spec (cur_aspace s) want); simpl; congruence.
Qed.
End properties.

(** ** Witnesses and reachable defects *)

Definition demo_boot : sched flat_mem :=
  ttask_init (boot_sched 4096 (mk_flat 1048576 gmap_empty)).
Definition demo_users : sched flat_mem :=
  (ttask_create_user 7 8 [98] 549755813888 24576 549757927424
    (ttask_create_user 7 8 [97] 549755813888 20480 549757927424 demo_boot).2).2.

Lemma demo_users_reachable : star (sched_step 0 7 8) demo_boot demo_users.
Proof.
  eapply star_step; [apply (step_create_user 0 7 8 demo_boot [97] 549755813888 20480 549757927424); reflexivity|].
  apply star_one. apply (step_create_user 0 7 8 _ [98] 549755813888 24576 549757927424). reflexivity.
Qed.


Lemma round_robin_bounded_wait_witness :
  exists k, (k <= 32)%nat /\
    cur (Nat.iter k (ttask_yield 0) (ttask_create 7 8 [97] 5 6 (ttask_set_priority 0 1 demo_boot)).2) = 1.
Proof.
  apply (round_robin_bounded_wait 0).
  - apply create_ok; [|lia]. apply set_priority_ok; [apply boot_init_ok|lia|lia].
  - reflexivity.
  - intros i k Hi Hk. revert k Hk.
    assert (forall s : sched flat_mem, (forall i, 0 <= i < TTASK_MAX_TASKS ->
       state_of s i = TTASK_READY -> t_priority (task_at s i) = 1) ->
       forall k, 0 <= k < TTASK_MAX_TASKS -> state_of s i = TTASK_READY -> state_of s k = TTASK_READY ->
       t_priority (task_at s i) = t_priority (task_at s k)) as Hgen.
    { intros s Hs k Hk H1 H2. rewrite !Hs; auto. }
    apply Hgen. clear. intros i Hi. unfold TTASK_MAX_TASKS in Hi.
    assert (i = 0 \/ i = 1 \/ 2 <= i < 32) as [->|[->|Hr]] by lia; [reflexivity..|].
    intros Hx. exfalso. revert Hx.
    assert (forallb (fun i => negb (state_is (state_of (ttask_create 7 8 [97] 5 6
       (ttask_set_priority 0 1 demo_boot)).2 i) TTASK_READY)) (seqZ 2 30) = true) as Hall by (vm_compute; reflexivity).
    rewrite forallb_forall in Hall. specialize (Hall i).
    assert (In i (seqZ 2 30)) as Hin by (apply list_elem_of_In, elem_of_seqZ; lia).
    specialize (Hall Hin). intros E. rewrite E in Hall. discriminate.
  - unfold TTASK_MAX_TASKS. lia.
  - reflexivity.
Defined.

Lemma init_stack_enters_task_witness :
  let t := mk_task 0 [] TTASK_READY 1 0 2 0 0 0 5 6 65536 8192 true 20480 549757927424 in
  let '(t', m') := ttask_init_stack 7 8 t (mk_flat 0 gmap_empty) in
  e_rip (enter_fresh m' (t_context t')) = 5 /\ 65536 <= t_context t'.
Proof.
  pose proof (init_stack_enters_task 7 8
    (mk_task 0 [] TTASK_READY 1 0 2 0 0 0 5 6 65536 8192 true 20480 549757927424) (mk_flat 0 gmap_empty)) as Hw.
  simpl t_stack in Hw. simpl t_stack_size in Hw. unfold in_u64 in Hw.
  specialize (Hw ltac:(lia) ltac:(lia) ltac:(lia)). cbv zeta.
  destruct (ttask_init_stack _ _ _ _) as [t' m']. destruct Hw as (_ & _ & _ & Hle & _ & Hu & _).
  simpl in Hu. split; [apply Hu|exact Hle].
Defined.

Lemma switch_address_space_witness :
  ttask_pick_next demo_users = 1 /\ cur_aspace (ttask_yield 0 demo_users) = 4096.
Proof.
  split; [vm_compute; reflexivity|].
  rewrite (switch_address_space 0 demo_users); [vm_compute; reflexivity| |vm_compute; discriminate].
  apply (star_invariant _ (fun s => sched_ok s) (fun a b Ha Hab => sched_step_ok 0 7 8 a b Ha Hab)
           _ _ demo_users_reachable (boot_init_ok _ _)).
Defined.

(** A ring-3 program does not run in its own address space: from boot,
    creating a user task and letting the scheduler pick it leads to a state
    where the running task is a user task while CR3 still holds the kernel's
    space, in which the program is not mapped. *)
Theorem user_task_starts_outside_its_space :
  exists s : sched flat_mem,
    star (sched_step 0 7 8) (ttask_init (boot_sched 4096 (mk_flat 1048576 gmap_empty))) s /\
    t_user_mode (task_at s (cur s)) = true /\ t_aspace (task_at s (cur s)) = 20480 /\
    cur_aspace s = 4096 /\ kernel_aspace s = 4096.
Proof.
  exists (ttask_yield 0 demo_users). split.
  - eapply star_trans; [apply demo_users_reachable|]. apply star_one. apply step_yield. reflexivity.
  - repeat split; vm_compute; reflexivity.
Qed.

(** A task resumed through [ttask_block] runs with another task's TSS
    stack: from boot, two user tasks and one block lead to a state where the
    second program runs while [rsp0] still points to the stack of the first,
    blocked, task, so its next system call or interrupt overwrites the frames
    saved there. *)
Theorem block_leaves_stale_rsp0 :
  exists s : sched flat_mem,
    star (sched_step 0 7 8) (ttask_init (boot_sched 4096 (mk_flat 1048576 gmap_empty))) s /\
    cur s = 2 /\ t_user_mode (task_at s 2) = true /\ state_of s 1 = TTASK_BLOCKED /\
    tss_rsp0 s = t_stack (task_at s 1) + t_stack_size (task_at s 1) /\
    t_stack (task_at s 1) <> t_stack (task_at s 2).
Proof.
  exists (ttask_block (ttask_yield 0 demo_users)). split.
  - eapply star_trans; [apply demo_users_reachable|].
    eapply star_step; [apply step_yield; reflexivity|]. apply star_one. apply step_block. reflexivity.
  - repeat split; vm_compute; reflexivity || discriminate.
Qed.
