(* ===== verification/Tipc.v ===== *)
(** Blocking IPC: [src/tipc.c] on top of the scheduler.

    [tipc_send], [tipc_recv] and [tipc_mutex_lock] are loops whose body runs
    with interrupts disabled until it either returns or hands the CPU over in
    [ttask_block].  Each body is a function on the scheduler state and the IPC
    object; a system of tasks is a step relation in which the running task
    executes one such body, or is preempted between two of them.  The proofs
    go through one abstraction of a wait queue ([side_ok]) that is shared by
    receivers, senders and lockers. *)
From stdpp Require Import prelude gmap list numbers.
From Stdlib Require Import ZArith Lia ZifyBool.
From S2P Require Import Prelude Fifo TipcCore TtaskCore Ttask.
#[local] Open Scope Z_scope.

(** * The primitives *)

Section primitives.
Context {M : Type} `{TaskMem M}.
Implicit Types s : sched M.

(** [if (w != TIPC_NONE) ttask_wake(w);] *)
Definition wake_popped (w : Z) s : sched M :=
  if w =? TIPC_NONE then s else ttask_wake w s.

Definition tipc_mailbox_init (mb : option tipc_mailbox_t) : Z * option tipc_mailbox_t :=
  match mb with
  | None => (-1, None)
  | Some mb => (0, Some (tipc_core_mb_init mb))
  end.

(** One pass through the [for (;;)] of [tipc_send]: [Some rc] when the call
    returns, [None] when it went through [ttask_block] and will loop. *)
Definition tipc_send_pass (self : Z) (msg : tipc_msg_t) s (mb : tipc_mailbox_t)
  : option Z * sched M * tipc_mailbox_t :=
  let '(r, mb1) := tipc_core_mb_push mb msg in
  if r =? 0 then
    let '(w, wq) := tipc_core_waitq_pop (mb_wait_recv mb1) in
    (Some 0, wake_popped w s,
     mk_mb (mb_slot mb1) (mb_head mb1) (mb_count mb1) (mb_wait_send mb1) wq)
  else
    let '(r2, wq) := tipc_core_waitq_push (mb_wait_send mb) self in
    if negb (r2 =? 0) then (Some (-1), s, mb)
    else (None, ttask_block s,
          mk_mb (mb_slot mb) (mb_head mb) (mb_count mb) wq (mb_wait_recv mb)).

(** One pass of [tipc_recv]; the received message is returned with [rc = 0]. *)
Definition tipc_recv_pass (self : Z) (out : tipc_msg_t) s (mb : tipc_mailbox_t)
  : option Z * tipc_msg_t * sched M * tipc_mailbox_t :=
  let '(r, out', mb1) := tipc_core_mb_pop mb out in
  if r =? 0 then
    let '(w, wq) := tipc_core_waitq_pop (mb_wait_send mb1) in
    (Some 0, out', wake_popped w s,
     mk_mb (mb_slot mb1) (mb_head mb1) (mb_count mb1) wq (mb_wait_recv mb1))
  else
    let '(r2, wq) := tipc_core_waitq_push (mb_wait_recv mb) self in
    if negb (r2 =? 0) then (Some (-1), out, s, mb)
    else (None, out, ttask_block s,
          mk_mb (mb_slot mb) (mb_head mb) (mb_count mb) (mb_wait_send mb) wq).

Definition tipc_mutex_init (m : option tipc_mutex_t) : Z * option tipc_mutex_t :=
  match m with
  | None => (-1, None)
  | Some m => (0, Some (tipc_core_mutex_init m))
  end.

(** One pass of [tipc_mutex_lock]. *)
Definition tipc_mutex_lock_pass (self : Z) s (m : tipc_mutex_t)
  : option Z * sched M * tipc_mutex_t :=
  if mtx_owner m =? TIPC_NONE then (Some 0, s, mk_mutex self 1 (mtx_wait m))
  else if mtx_owner m =? self then
    (Some 0, s, mk_mutex (mtx_owner m) (u32 (mtx_depth m + 1)) (mtx_wait m))
  else
    let '(r, wq) := tipc_core_waitq_push (mtx_wait m) self in
    if negb (r =? 0) then (Some (-1), s, m)
    else (None, ttask_block s, mk_mutex (mtx_owner m) (mtx_depth m) wq).

Definition tipc_mutex_unlock (self : Z) s (m : tipc_mutex_t) : Z * sched M * tipc_mutex_t :=
  if negb (mtx_owner m =? self) then (-1, s, m)
  else
    let d := u32 (mtx_depth m - 1) in
    if d =? 0 then
      let '(w, wq) := tipc_core_waitq_pop (mtx_wait m) in
      (0, wake_popped w s, mk_mutex TIPC_NONE d wq)
    else (0, s, mk_mutex (mtx_owner m) d (mtx_wait m)).
End primitives.

(** * Systems of tasks *)

(** Where a task stands with respect to the mailbox. *)
Inductive mb_pc :=
| Out                              (* not inside an IPC call *)
| SendLoop (m : tipc_msg_t)        (* at the top of the loop of [tipc_send] *)
| SendParked (m : tipc_msg_t)      (* inside its [ttask_block] *)
| RecvLoop
| RecvParked.

Definition fupd {A} (f : Z -> A) (i : Z) (v : A) : Z -> A := fun j => if i =? j then v else f j.

Record mbsys (M : Type) := mk_mbsys {
  ms_sched : sched M;
  ms_mb : tipc_mailbox_t;
  ms_pc : Z -> mb_pc;
  ms_sent : list tipc_msg_t;       (* ghost: messages accepted, oldest first *)
  ms_recvd : list tipc_msg_t       (* ghost: messages returned by [tipc_recv] *)
}.
Arguments mk_mbsys {M}. Arguments ms_sched {M}. Arguments ms_mb {M}. Arguments ms_pc {M}.
Arguments ms_sent {M}. Arguments ms_recvd {M}.

(** Mutex users: outside, trying to lock, parked, or outside while holding. *)
Inductive mtx_pc := MOut | LockLoop | LockParked.

Record mtxsys (M : Type) := mk_mtxsys {
  xs_sched : sched M;
  xs_mtx : tipc_mutex_t;
  xs_pc : Z -> mtx_pc;
  xs_held : Z -> Z                 (* ghost: locks minus unlocks that returned 0 *)
}.
Arguments mk_mtxsys {M}. Arguments xs_sched {M}. Arguments xs_mtx {M}. Arguments xs_pc {M}.
Arguments xs_held {M}.

Section systems.
Context {M : Type} `{TaskMem M}.
Variables boot_stack_top ttask_entry_addr ttask_entry_iret_addr : Z.

(** Everything else that happens in the kernel: the timer may preempt any
    task; a task outside a call on this object may yield, exit, create tasks,
    change priorities, and block on and be woken from other objects.  Task 0 is
    the boot context, the shell, which never exits and never blocks. *)
Inductive env_step (outside mayexit : Z -> Prop) : sched M -> sched M -> Prop :=
| env_tick s : env_step outside mayexit s (ttask_tick boot_stack_top s)
| env_yield s : outside (cur s) -> env_step outside mayexit s (ttask_yield boot_stack_top s)
| env_exit s : outside (cur s) -> mayexit (cur s) -> cur s <> 0 ->
    env_step outside mayexit s (ttask_exit boot_stack_top s)
| env_create s name fn arg : outside (cur s) ->
    env_step outside mayexit s (ttask_create ttask_entry_addr ttask_entry_iret_addr name fn arg s).2
| env_create_user s name entry aspace rsp : outside (cur s) ->
    env_step outside mayexit s
      (ttask_create_user ttask_entry_addr ttask_entry_iret_addr name entry aspace rsp s).2
| env_set_priority s id prio : outside (cur s) -> 0 <= id -> 0 <= prio < 256 ->
    env_step outside mayexit s (ttask_set_priority id prio s)
| env_block s : outside (cur s) -> cur s <> 0 -> env_step outside mayexit s (ttask_block s)
| env_wake s id : 0 <= id -> outside id -> env_step outside mayexit s (ttask_wake id s).

(** [tipc_send] stamps the sender id before its loop. *)
Definition stamp (self : Z) (m : tipc_msg_t) : tipc_msg_t :=
  mk_msg self (msg_len m) (msg_data m).

(** Where a task is after a pass: out when the call returned, parked when
    another task got the CPU, else back at the top of the loop. *)
Definition after_block {A} (rc : option Z) (self : Z) (s' : sched M) (out loop parked : A) : A :=
  match rc with
  | Some _ => out
  | None => if cur s' =? self then loop else parked
  end.

(** One atomic action on a mailbox, by the running task. *)
Inductive mb_step : mbsys M -> mbsys M -> Prop :=
| mb_call_send s mb pc snt rcv m :
    cur s <> 0 -> pc (cur s) = Out ->
    mb_step (mk_mbsys s mb pc snt rcv)
            (mk_mbsys s mb (fupd pc (cur s) (SendLoop (stamp (ttask_self s) m))) snt rcv)
| mb_send s mb pc snt rcv m rc s' mb' :
    pc (cur s) = SendLoop m -> tipc_send_pass (cur s) m s mb = (rc, s', mb') ->
    mb_step (mk_mbsys s mb pc snt rcv)
            (mk_mbsys s' mb'
               (fupd pc (cur s) (after_block rc (cur s) s' Out (SendLoop m) (SendParked m)))
               (if bool_decide (rc = Some 0) then snt ++ [m] else snt) rcv)
| mb_call_recv s mb pc snt rcv :
    cur s <> 0 -> pc (cur s) = Out ->
    mb_step (mk_mbsys s mb pc snt rcv) (mk_mbsys s mb (fupd pc (cur s) RecvLoop) snt rcv)
| mb_recv s mb pc snt rcv out rc out' s' mb' :
    pc (cur s) = RecvLoop -> tipc_recv_pass (cur s) out s mb = (rc, out', s', mb') ->
    mb_step (mk_mbsys s mb pc snt rcv)
            (mk_mbsys s' mb'
               (fupd pc (cur s) (after_block rc (cur s) s' Out RecvLoop RecvParked))
               snt (if bool_decide (rc = Some 0) then rcv ++ [out'] else rcv))
| mb_resume_send s mb pc snt rcv m :
    pc (cur s) = SendParked m ->
    mb_step (mk_mbsys s mb pc snt rcv) (mk_mbsys s mb (fupd pc (cur s) (SendLoop m)) snt rcv)
| mb_resume_recv s mb pc snt rcv :
    pc (cur s) = RecvParked ->
    mb_step (mk_mbsys s mb pc snt rcv) (mk_mbsys s mb (fupd pc (cur s) RecvLoop) snt rcv)
| mb_env s mb pc snt rcv s' :
    env_step (fun i => pc i = Out) (fun _ => True) s s' ->
    mb_step (mk_mbsys s mb pc snt rcv) (mk_mbsys s' mb pc snt rcv).

(** One atomic action on a mutex.  A task does not exit while it holds it. *)
Inductive mtx_step : mtxsys M -> mtxsys M -> Prop :=
| mtx_call_lock s x pc held :
    cur s <> 0 -> pc (cur s) = MOut ->
    mtx_step (mk_mtxsys s x pc held) (mk_mtxsys s x (fupd pc (cur s) LockLoop) held)
| mtx_lock s x pc held rc s' x' :
    pc (cur s) = LockLoop -> held (cur s) < 4294967295 ->
    tipc_mutex_lock_pass (cur s) s x = (rc, s', x') ->
    mtx_step (mk_mtxsys s x pc held)
             (mk_mtxsys s' x' (fupd pc (cur s) (after_block rc (cur s) s' MOut LockLoop LockParked))
                (if bool_decide (rc = Some 0) then fupd held (cur s) (held (cur s) + 1) else held))
| mtx_resume s x pc held :
    pc (cur s) = LockParked ->
    mtx_step (mk_mtxsys s x pc held) (mk_mtxsys s x (fupd pc (cur s) LockLoop) held)
| mtx_unlock s x pc held rc s' x' :
    pc (cur s) = MOut -> tipc_mutex_unlock (cur s) s x = (rc, s', x') ->
    mtx_step (mk_mtxsys s x pc held)
             (mk_mtxsys s' x' pc
                (if rc =? 0 then fupd held (cur s) (held (cur s) - 1) else held))
| mtx_env s x pc held s' :
    env_step (fun i => pc i = MOut) (fun i => held i = 0) s s' ->
    mtx_step (mk_mtxsys s x pc held) (mk_mtxsys s' x pc held).
End systems.

(** * What the surrounding kernel does to task states *)

Section environment.
Context {M : Type} `{TaskMem M}.
Variables boot_stack_top ttask_entry_addr ttask_entry_iret_addr : Z.
Implicit Types s : sched M.

Local Abbreviation MAX := TTASK_MAX_TASKS.
Local Abbreviation env := (env_step boot_stack_top ttask_entry_addr ttask_entry_iret_addr).

(** The scheduler runs and the boot context is always there to run. *)
Definition live s : Prop := sched_ok s /\ halted s = false /\ state_of s 0 = TTASK_READY.

Lemma pick_switch_states s :
  table_ok s -> halted (ttask_pick_switch boot_stack_top s) = halted s /\
  forall i, 0 <= i < MAX -> state_of (ttask_pick_switch boot_stack_top s) i = state_of s i.
Proof.
  intros Hok. destruct (table_pick s Hok) as [Hn _].
  destruct (pick_switch_spec boot_stack_top s (tok_tasks s Hok) Hn)
    as [[_ ->]|(_ & _ & _ & _ & _ & Hh & _ & _ & Ht)]; [auto|].
  split; [exact Hh|]. intros i Hi. unfold state_of. rewrite Ht by lia.
  destruct (Z.eqb_spec (ttask_pick_next s) i) as [->|]; reflexivity.
Qed.

Lemma tick_states s :
  sched_ok s -> halted (ttask_tick boot_stack_top s) = halted s /\
  forall i, 0 <= i < MAX -> state_of (ttask_tick boot_stack_top s) i = state_of s i.
Proof.
  intros Hok. destruct (ok_cur_range s Hok) as [_ Hc]. pose proof (ok_tasks s Hok).
  unfold ttask_tick. rewrite (ok_ready s Hok). simpl.
  destruct (pick_switch_states (upd_task (cur s) charge_tick s)) as [-> Hs].
  { apply table_upd; [apply sched_ok_table, Hok|exact Hc|].
    intros (H1 & H2 & H3 & H4). repeat split; simpl; try tauto; try lia.
    all: destruct (t_slice (task_at s (cur s)) >? 0) eqn:E; lia. }
  split; [reflexivity|]. intros i Hi. rewrite Hs by exact Hi.
  apply state_of_upd_same; [lia|lia|reflexivity].
Qed.

(** With task 0 READY, a task that exits hands over the CPU. *)
Lemma exit_states s :
  live s -> cur s <> 0 -> halted (ttask_exit boot_stack_top s) = false /\
  forall i, 0 <= i < MAX ->
    state_of (ttask_exit boot_stack_top s) i = if cur s =? i then TTASK_EXITED else state_of s i.
Proof.
  intros (Hok & Hh & H0) Hne. unfold ttask_exit.
  destruct (ok_cur_range s Hok) as [_ Hc]. pose proof (ok_tasks s Hok) as Hlen.
  set (s1 := upd_task (cur s) (set_state TTASK_EXITED) s).
  assert (table_ok s1) as Htab.
  { apply table_upd; [apply sched_ok_table, Hok|exact Hc|].
    intros (H1 & H2 & H3 & _). repeat split; simpl; try lia; try discriminate;
      match goal with Hx : _ \/ _ |- _ => destruct Hx; discriminate end. }
  assert (forall i, 0 <= i < MAX ->
    state_of s1 i = if cur s =? i then TTASK_EXITED else state_of s i) as Hst.
  { intros i Hi. unfold state_of, s1. rewrite task_at_upd by lia. destruct (cur s =? i); reflexivity. }
  assert (ttask_pick_next s1 <> cur s) as Hp.
  { destruct (pick_next_cases s1 (tok_tasks _ Htab) (fun j => table_prio _ j Htab)) as [[_ Hno]|[Hcan _]].
    - exfalso. apply (Hno 0). unfold can_run, excl. change (cur s1) with (cur s).
      rewrite Hst by (unfold MAX; lia). destruct (Z.eqb_spec (cur s) 0); [contradiction|].
      split; [unfold MAX; lia|]. split; [case_if; lia|exact H0].
    - intros E. rewrite E in Hcan. destruct Hcan as (_ & _ & Hx).
      rewrite Hst, Z.eqb_refl in Hx by lia. discriminate. }
  apply Z.eqb_neq in Hp. change (cur s1) with (cur s). rewrite Hp.
  destruct (pick_switch_states s1 Htab) as [-> Hs]. split; [exact Hh|].
  intros i Hi. rewrite Hs by exact Hi. apply Hst, Hi.
Qed.

(** Creating a task only touches a FREE or EXITED slot. *)
Lemma create_states s name prio fn arg user :
  let s' := (create_with ttask_entry_addr ttask_entry_iret_addr name prio fn arg user s).2 in
  halted s' = halted s /\ current_task s' = current_task s /\
  forall i, 0 <= i < MAX ->
    state_of s' i = state_of s i \/ state_of s i = TTASK_FREE \/ state_of s i = TTASK_EXITED.
Proof.
  unfold create_with. destruct (negb _); [simpl; auto|].
  destruct (find_slot s) as [k|] eqn:Ef; [|simpl; auto].
  destruct (find_slot_spec s k Ef) as [Hk Hfree].
  assert (forall (sx : sched M) t, tasks sx = <[Z.to_nat k := t]> (tasks s) -> forall i, 0 <= i < MAX ->
    state_of sx i = state_of s i \/ state_of s i = TTASK_FREE \/ state_of s i = TTASK_EXITED) as Hgen.
  { intros sx t E i Hi. destruct (Z.eq_dec k i) as [->|Hne]; [right; exact Hfree|left].
    unfold state_of, task_at. rewrite E, list_lookup_total_insert_ne by lia. reflexivity. }
  destruct (tm_malloc TTASK_STACK_SIZE _) as [stack m1].
  destruct (stack =? 0); [|destruct (ttask_init_stack _ _ _ _) as [t' m2]]; simpl;
    (split; [reflexivity|]); (split; [reflexivity|]); eapply Hgen; reflexivity.
Qed.

(** A blocked task other than the boot context really gives up the CPU. *)
Lemma block_states s :
  live s -> cur s <> 0 ->
  live (ttask_block s) /\ cur (ttask_block s) <> cur s /\
  forall i, 0 <= i < MAX ->
    state_of (ttask_block s) i = if cur s =? i then TTASK_BLOCKED else state_of s i.
Proof.
  intros (Hok & Hh & H0) Hne.
  destruct (block_spec s Hok Hh) as (Hok' & Hh' & [(_ & Hno & _)|(n & Hn & _ & _ & Hc & Hst)]).
  { exfalso. apply (Hno 0); [unfold MAX; lia|congruence|exact H0]. }
  split; [|split; [rewrite (cur_Some _ _ Hc); exact Hn|exact Hst]].
  split; [exact Hok'|]. split; [exact Hh'|]. rewrite Hst by (unfold MAX; lia).
  destruct (Z.eqb_spec (cur s) 0); [contradiction|exact H0].
Qed.

Lemma wake_live s id : live s -> 0 <= id -> live (ttask_wake id s).
Proof.
  intros (Hok & Hh & H0) Hid. destruct (wake_spec s id Hok Hid) as [Hok' Hst].
  destruct (wake_fields s id) as (_ & Hh' & _).
  split; [exact Hok'|]. split; [rewrite Hh'; exact Hh|].
  rewrite Hst by (unfold MAX; lia). rewrite H0. destruct (_ && _); reflexivity.
Qed.

(** The environment keeps the kernel live and changes only the state of
    tasks outside the object, which exit only if they may, and of slots
    without a task. *)
Lemma env_states outside mayexit s s' :
  live s -> env outside mayexit s s' ->
  live s' /\
  forall i, 0 <= i < MAX -> state_of s' i = state_of s i
    \/ outside i /\ (mayexit i \/ state_of s' i = TTASK_READY \/ state_of s' i = TTASK_BLOCKED)
    \/ state_of s i = TTASK_FREE \/ state_of s i = TTASK_EXITED.
Proof.
  intros Hl Henv. assert (0 <= 0 < MAX) as HM by (unfold MAX; lia).
  pose proof Hl as (Hok & Hh & H0). destruct Henv.
  - destruct (tick_states s Hok) as [Hh' Hst]. split; [|intros i Hi; left; auto].
    split; [apply tick_ok; auto|]. rewrite Hh', Hst; auto.
  - unfold ttask_yield. rewrite (ok_ready s Hok). simpl.
    destruct (pick_switch_states s (sched_ok_table _ Hok)) as [Hh' Hst].
    split; [|intros i Hi; left; auto]. split; [|rewrite Hh', Hst; auto].
    apply pick_switch_ok; [apply sched_ok_table, Hok|left; apply (ok_running s Hok Hh)].
  - destruct (exit_states s Hl) as [Hh' Hst]; [assumption|].
    split; [split; [apply exit_ok; auto|split; [exact Hh'|]]|].
    + rewrite Hst by exact HM. destruct (Z.eqb_spec (cur s) 0); [contradiction|exact H0].
    + intros i Hi. rewrite Hst by exact Hi. destruct (Z.eqb_spec (cur s) i); subst; auto 6.
  - destruct (create_states s name 1 fn arg None) as (Hh' & _ & Hst).
    split; [split; [apply create_ok; [auto|lia]|split; [rewrite <- Hh; exact Hh'|]]|].
    + destruct (Hst 0 HM) as [E|[E|E]]; [exact (eq_trans E H0)|congruence|congruence].
    + intros i Hi. destruct (Hst i Hi) as [E|[E|E]]; auto.
  - destruct (create_states s name 2 entry 0 (Some (aspace, rsp))) as (Hh' & _ & Hst).
    split; [split; [apply create_ok; [auto|lia]|split; [rewrite <- Hh; exact Hh'|]]|].
    + destruct (Hst 0 HM) as [E|[E|E]]; [exact (eq_trans E H0)|congruence|congruence].
    + intros i Hi. destruct (Hst i Hi) as [E|[E|E]]; auto.
  - assert (halted (ttask_set_priority id prio s) = halted s /\ forall i, 0 <= i < MAX ->
      state_of (ttask_set_priority id prio s) i = state_of s i) as [Hh' Hst].
    { pose proof (ok_tasks s Hok). unfold ttask_set_priority.
      destruct (Z.geb_spec id MAX); [auto|]. case_if; [auto|]. split; [reflexivity|].
      intros i Hi. apply state_of_upd_same; [lia|lia|reflexivity]. }
    split; [|intros i Hi; left; auto].
    split; [apply set_priority_ok; auto|]. rewrite Hh', Hst; auto.
  - destruct (block_states s Hl) as (Hl' & _ & Hst); [assumption|]. split; [exact Hl'|].
    intros i Hi. rewrite Hst by exact Hi. destruct (Z.eqb_spec (cur s) i); subst; auto 6.
  - split; [apply wake_live; auto|]. destruct (wake_spec s id Hok) as [_ Hst]; [assumption|].
    intros i Hi. rewrite Hst by exact Hi. destruct (Z.eqb_spec id i); subst; auto.
    destruct (state_is (state_of s i) TTASK_BLOCKED); simpl; auto 6.
Qed.
End environment.

(** * One side of an IPC object

    The tasks that want something (messages, free slots, the mutex): a wait
    queue [W] of those that are BLOCKED, a predicate [waits] for a task inside
    [ttask_block], a predicate [act] for a task anywhere in the loop, and the
    number [avail] of units that can be had without waiting. *)
Section side.
Implicit Types (st : Z -> tstate) (waits act : Z -> bool) (W : list Z).

Local Abbreviation MAX := TTASK_MAX_TASKS.

(** Tasks that will retry as soon as they get the CPU. *)
Definition active act st : Z :=
  count_range (fun i => act i && state_is (st i) TTASK_READY) 0 MAX.

Record side_ok W waits act (avail : Z) st : Prop := {
  side_nodup : NoDup W;
  side_wait : forall i, i ∈ W <-> 0 <= i < MAX /\ waits i = true /\ st i = TTASK_BLOCKED;
  side_avail : W <> [] -> avail <= active act st
}.

Lemma active_nonneg act st : 0 <= active act st.
Proof. apply count_range_bounds. unfold MAX. lia. Qed.

Lemma side_frame W waits act avail st waits' act' avail' st' :
  side_ok W waits act avail st ->
  (forall i, 0 <= i < MAX ->
     waits' i = true /\ st' i = TTASK_BLOCKED <-> waits i = true /\ st i = TTASK_BLOCKED) ->
  avail' <= 0 \/ avail' - avail <= active act' st' - active act st ->
  side_ok W waits' act' avail' st'.
Proof.
  intros [H1 H2 H3] Hw Ha. pose proof (active_nonneg act' st').
  split; [exact H1| |intros HW; specialize (H3 HW); lia].
  intros i. rewrite H2. split; intros (Hi & Hx); (split; [exact Hi|]); apply (Hw i Hi), Hx.
Qed.

Lemma active_plus act st act' st' c :
  0 <= c < MAX -> act' c = true -> st' c = TTASK_READY ->
  act c && state_is (st c) TTASK_READY = false ->
  (forall i, 0 <= i < MAX -> i <> c ->
     act' i && state_is (st' i) TTASK_READY = act i && state_is (st i) TTASK_READY) ->
  active act' st' = active act st + 1.
Proof.
  intros Hc Ha Hs Hn Hext.
  apply (count_range_flip _ _ 0 MAX c); [exact Hc|rewrite Ha, Hs; reflexivity|exact Hn|exact Hext].
Qed.

(** Only task [c] changes its contribution to the count. *)
Lemma active_point act st act' st' c :
  0 <= c < MAX ->
  (forall i, 0 <= i < MAX -> i <> c ->
     act' i && state_is (st' i) TTASK_READY = act i && state_is (st i) TTASK_READY) ->
  active act' st' = active act st + Z.b2z (act' c && state_is (st' c) TTASK_READY)
                    - Z.b2z (act c && state_is (st c) TTASK_READY).
Proof.
  intros Hc Hext.
  set (f := fun i => act i && state_is (st i) TTASK_READY).
  set (f' := fun i => act' i && state_is (st' i) TTASK_READY).
  change (active act st) with (count_range f 0 MAX). change (active act' st') with (count_range f' 0 MAX).
  change (act' c && state_is (st' c) TTASK_READY) with (f' c).
  change (act c && state_is (st c) TTASK_READY) with (f c).
  destruct (f c) eqn:E, (f' c) eqn:E'; simpl.
  - rewrite (count_range_ext f' f); [lia|]. intros i Hi.
    destruct (Z.eq_dec i c) as [->|]; [congruence|apply Hext; auto].
  - rewrite (count_range_flip f f' 0 MAX c) by (auto; intros; symmetry; apply Hext; auto). lia.
  - rewrite (count_range_flip f' f 0 MAX c) by (auto; intros; apply Hext; auto). lia.
  - rewrite (count_range_ext f' f); [lia|]. intros i Hi.
    destruct (Z.eq_dec i c) as [->|]; [congruence|apply Hext; auto].
Qed.

(** A task registers and parks when there is nothing to be had. *)
Lemma side_park W waits act avail st waits' act' st' c :
  side_ok W waits act avail st -> 0 <= c < MAX -> st c = TTASK_READY -> avail <= 0 ->
  waits' c = true -> st' c = TTASK_BLOCKED ->
  (forall i, 0 <= i < MAX -> i <> c -> waits' i = waits i /\ st' i = st i) ->
  side_ok (W ++ [c]) waits' act' avail st'.
Proof.
  intros [H1 H2 H3] Hc Hst Hav Hw Hb Hext. split.
  - apply list.NoDup_app. split; [exact H1|]. split; [|apply NoDup_singleton].
    intros x Hx ->%list_elem_of_singleton. apply H2 in Hx as (_ & _ & Hx). congruence.
  - intros i. rewrite elem_of_app, list_elem_of_singleton, H2.
    destruct (Z.eq_dec i c) as [->|Hne]; [tauto|].
    split; [intros [(Hi & Hx)|?]; [|contradiction]|intros (Hi & Hx); left];
      destruct (Hext i Hi Hne) as [E1 E2]; rewrite ?E1, ?E2 in *; auto.
  - intros _. pose proof (active_nonneg act' st'). lia.
Qed.

(** The head of the queue is woken and one unit becomes available. *)
Lemma side_wake w W waits act avail st act' avail' st' :
  side_ok (w :: W) waits act avail st -> avail' <= avail + 1 ->
  act' w = true -> st' w = TTASK_READY ->
  (forall i, 0 <= i < MAX -> i <> w -> act' i = act i /\ st' i = st i) ->
  side_ok W waits act' avail' st'.
Proof.
  intros [H1 H2 H3] Hav Hact Hst Hext. apply list.NoDup_cons in H1 as [Hnin Hnd].
  destruct (proj1 (H2 w) (list_elem_of_here _ _)) as (Hw & _ & Hbl). split; [exact Hnd| |].
  - intros i. destruct (Z.eq_dec i w) as [->|Hne]; [split; [contradiction|intros (_ & _ & ?); congruence]|].
    split.
    + intros Hi. destruct (proj1 (H2 i) (list_elem_of_further _ _ _ Hi)) as (Hr & Hx & Hy).
      destruct (Hext i Hr Hne) as [_ E]. rewrite E. auto.
    + intros (Hr & Hx & Hy). destruct (Hext i Hr Hne) as [_ E]. rewrite E in Hy.
      pose proof (proj2 (H2 i) (conj Hr (conj Hx Hy))) as [?|?]%elem_of_cons; [contradiction|assumption].
  - intros HW. assert (active act' st' = active act st + 1) as ->.
    { apply (active_plus _ _ _ _ w); auto; [rewrite Hbl; apply andb_false_r|].
      intros i Hi Hne. destruct (Hext i Hi Hne) as [-> ->]. reflexivity. }
    specialize (H3 ltac:(discriminate)). lia.
Qed.

Lemma side_nil waits act avail avail' st : side_ok [] waits act avail st -> side_ok [] waits act avail' st.
Proof. intros [H1 H2 H3]. split; [exact H1|exact H2|congruence]. Qed.

(** A blocked waiter and an available unit imply a task that will take it. *)
Lemma side_progress W waits act avail st i :
  side_ok W waits act avail st -> 0 <= i < MAX -> waits i = true -> st i = TTASK_BLOCKED ->
  avail <= active act st /\
  (0 < avail -> exists j, 0 <= j < MAX /\ act j = true /\ st j = TTASK_READY).
Proof.
  intros [H1 H2 H3] Hi Hw Hb.
  assert (W <> []) as HW by (intros ->; apply (not_elem_of_nil i), H2; auto).
  specialize (H3 HW). split; [exact H3|]. intros Hpos.
  destruct (count_range_pos _ _ _ (Z.lt_le_trans _ _ _ Hpos H3)) as (j & Hj & E).
  apply andb_true_iff in E as [Ea Es]. apply bool_decide_eq_true_1 in Es. eauto.
Qed.
End side.

(** The two scheduling actions of the primitives, on a side. *)
Section side_sched.
Context {M : Type} `{TaskMem M}.
Implicit Types s : sched M.

Local Abbreviation MAX := TTASK_MAX_TASKS.

(** Popping the wait queue and waking the task: a unit may be added. *)
Lemma side_pop s q w q' waits act avail :
  live s -> waitq_ok q -> tipc_core_waitq_pop q = (w, q') ->
  side_ok (waitq_list q) waits act avail (state_of s) ->
  (forall i, waits i = true -> act i = true) ->
  let s' := wake_popped w s in
  live s' /\ waitq_ok q' /\ cur s' = cur s /\
  side_ok (waitq_list q') waits act (avail + 1) (state_of s') /\
  (forall i, 0 <= i < MAX -> state_of s' i = state_of s i \/
     waits i = true /\ state_of s i = TTASK_BLOCKED /\ state_of s' i = TTASK_READY).
Proof.
  intros Hl Hq E Hside Hwa s'. subst s'. unfold wake_popped.
  destruct (waitq_pop_spec q Hq) as [(Hnil & _ & Ep)|(w' & q1 & Ep & Hq1 & _ & Hcons)];
    rewrite Ep in E; inv_pairs.
  - simpl. rewrite Hnil in *. repeat (split; [solve [auto]|]). split; [|auto].
    eapply side_nil, Hside.
  - rewrite Hcons in Hside.
    destruct (proj1 (side_wait _ _ _ _ _ Hside w) (list_elem_of_here _ _)) as (Hw & Hww & Hb).
    destruct (Z.eqb_spec w TIPC_NONE) as [->|_]; [unfold TIPC_NONE, MAX in Hw; lia|].
    pose proof Hl as (Hok & _). destruct (wake_spec s w Hok) as [_ Hst]; [lia|].
    destruct (wake_fields s w) as (Hc & _).
    assert (forall i, 0 <= i < MAX ->
      state_of (ttask_wake w s) i = if w =? i then TTASK_READY else state_of s i) as Hst'.
    { intros i Hi. rewrite Hst by exact Hi. destruct (Z.eqb_spec w i) as [->|]; [|reflexivity].
      rewrite Hb. reflexivity. }
    split; [apply wake_live; [exact Hl|lia]|]. split; [exact Hq1|].
    split; [unfold cur; rewrite Hc; reflexivity|]. split.
    + eapply side_wake; [exact Hside|lia|auto|rewrite Hst', Z.eqb_refl by lia; reflexivity|].
      intros i Hi Hne. rewrite Hst' by exact Hi. destruct (Z.eqb_spec w i); [congruence|auto].
    + intros i Hi. rewrite Hst' by exact Hi. destruct (Z.eqb_spec w i) as [->|]; auto.
Qed.

(** Registering in the wait queue and blocking, when nothing is available. *)
Lemma side_block s q q' waits act avail waits' act' :
  live s -> cur s <> 0 -> waitq_ok q -> tipc_core_waitq_push q (cur s) = (0, q') ->
  side_ok (waitq_list q) waits act avail (state_of s) -> avail <= 0 ->
  waits' (cur s) = true -> (forall i, i <> cur s -> waits' i = waits i) ->
  let s' := ttask_block s in
  live s' /\ waitq_ok q' /\ cur s' <> cur s /\
  side_ok (waitq_list q') waits' act' avail (state_of s') /\
  (forall i, 0 <= i < MAX -> state_of s' i = if cur s =? i then TTASK_BLOCKED else state_of s i).
Proof.
  intros Hl Hne Hq E Hside Hav Hw Hext s'. subst s'.
  destruct (block_states s Hl Hne) as (Hl' & Hcur & Hst).
  pose proof Hl as (Hok & Hh & _). destruct (ok_cur_range s Hok) as [_ Hc].
  destruct (waitq_push_spec q (cur s) Hq) as [[_ Ep]|(_ & q1 & Ep & Hq1 & Happ)];
    rewrite Ep in E; inv_pairs; [discriminate|].
  split; [exact Hl'|]. split; [exact Hq1|]. split; [exact Hcur|]. split; [|exact Hst].
  rewrite Happ. eapply side_park; [exact Hside|exact Hc|apply (ok_running s Hok Hh)|exact Hav|exact Hw| |].
  - rewrite Hst, Z.eqb_refl by lia. reflexivity.
  - intros i Hi Hn. rewrite Hst by exact Hi. destruct (Z.eqb_spec (cur s) i); [congruence|auto].
Qed.
End side_sched.

Lemma fupd_eq {A} (f : Z -> A) i v : fupd f i v i = v.
Proof. unfold fupd. rewrite Z.eqb_refl. reflexivity. Qed.
Lemma fupd_ne {A} (f : Z -> A) i j v : j <> i -> fupd f i v j = f j.
Proof. intros Hne. unfold fupd. destruct (Z.eqb_spec i j); [congruence|reflexivity]. Qed.

(** Case analysis on whether [i] is the updated index. *)
Ltac fupd_cases c i := destruct (Z.eq_dec i c) as [->|?];
  [rewrite ?fupd_eq in *|rewrite ?fupd_ne in * by assumption].

(** The running task [c] moves to [p]; tasks elsewhere may change state only
    if they are not on this side. *)
Lemma side_pc {P} (fw fa : P -> bool) (pc : Z -> P) W avail avail' st st' c p :
  side_ok W (fun i => fw (pc i)) (fun i => fa (pc i)) avail st ->
  0 <= c < TTASK_MAX_TASKS -> st c = TTASK_READY ->
  (forall i, 0 <= i < TTASK_MAX_TASKS -> i <> c ->
     st' i = st i \/ fw (pc i) = false /\ fa (pc i) = false) ->
  (fw p = true -> st' c <> TTASK_BLOCKED) ->
  avail' <= 0 \/ avail' - avail <= Z.b2z (fa p && state_is (st' c) TTASK_READY) - Z.b2z (fa (pc c)) ->
  side_ok W (fun i => fw (fupd pc c p i)) (fun i => fa (fupd pc c p i)) avail' st'.
Proof.
  intros Hside Hc Hst Hext Hp Hav. eapply side_frame; [exact Hside| |].
  - intros i Hi. fupd_cases c i; [rewrite Hst; split; intros [? ?]; [tauto|discriminate]|].
    destruct (Hext i Hi) as [->|[-> _]]; [assumption|reflexivity|].
    split; intros [? ?]; discriminate.
  - rewrite (active_point (fun i => fa (pc i)) st _ _ c), fupd_eq, Hst, andb_true_r; [lia|exact Hc|].
    intros i Hi Hne. rewrite fupd_ne by exact Hne.
    destruct (Hext i Hi Hne) as [->|[_ ->]]; reflexivity.
Qed.

(** * Mailboxes under interleaving *)

Definition recv_waits (p : mb_pc) : bool := match p with RecvParked => true | _ => false end.
Definition recv_act (p : mb_pc) : bool := match p with RecvLoop | RecvParked => true | _ => false end.
Definition send_waits (p : mb_pc) : bool := match p with SendParked _ => true | _ => false end.
Definition send_act (p : mb_pc) : bool := match p with SendLoop _ | SendParked _ => true | _ => false end.

(** A task inside a call is READY, or BLOCKED only inside [ttask_block]; the
    message it sends carries its own id. *)
Definition mb_pc_ok (i : Z) (p : mb_pc) (t : tstate) : Prop :=
  match p with
  | Out => True
  | SendLoop m => t = TTASK_READY /\ msg_sender m = i
  | SendParked m => (t = TTASK_READY \/ t = TTASK_BLOCKED) /\ msg_sender m = i
  | RecvLoop => t = TTASK_READY
  | RecvParked => t = TTASK_READY \/ t = TTASK_BLOCKED
  end.

Record mb_inv {M} (x : mbsys M) : Prop := {
  mi_live : live (ms_sched x);
  mi_mb : mb_ok (ms_mb x);
  mi_zero : ms_pc x 0 = Out;
  mi_pc : forall i, 0 <= i < TTASK_MAX_TASKS -> mb_pc_ok i (ms_pc x i) (state_of (ms_sched x) i);
  mi_recv : side_ok (waitq_list (mb_wait_recv (ms_mb x))) (fun i => recv_waits (ms_pc x i))
              (fun i => recv_act (ms_pc x i)) (mb_count (ms_mb x)) (state_of (ms_sched x));
  mi_send : side_ok (waitq_list (mb_wait_send (ms_mb x))) (fun i => send_waits (ms_pc x i))
              (fun i => send_act (ms_pc x i)) (TIPC_QUEUE_SLOTS - mb_count (ms_mb x))
              (state_of (ms_sched x));
  mi_hist : ms_sent x = ms_recvd x ++ mb_list (ms_mb x);
  mi_sender : Forall (fun m => 0 <= msg_sender m < TTASK_MAX_TASKS) (ms_sent x)
}.

(** The freshly initialised system. *)
Definition mb_boot {M} (s : sched M) (mb : tipc_mailbox_t) : mbsys M :=
  mk_mbsys s (tipc_core_mb_init mb) (fun _ => Out) [] [].

Section mailbox.
Context {M : Type} `{TaskMem M}.
Variables boot_stack_top ttask_entry_addr ttask_entry_iret_addr : Z.
Implicit Types s : sched M.

Local Abbreviation MAX := TTASK_MAX_TASKS.
Local Abbreviation mbstep := (mb_step boot_stack_top ttask_entry_addr ttask_entry_iret_addr).

Lemma live_cur s : live s ->
  current_task s = Some (cur s) /\ 0 <= cur s < MAX /\ state_of s (cur s) = TTASK_READY.
Proof.
  intros (Hok & Hh & _). destruct (ok_cur_range s Hok). split; [assumption|].
  split; [assumption|apply (ok_running s Hok Hh)].
Qed.

Lemma live_self s : live s -> ttask_self s = cur s.
Proof.
  intros Hl. destruct (live_cur s Hl) as (E & Hc & _). destruct Hl as (Hok & _).
  unfold ttask_self. rewrite (ok_ready s Hok), E. apply u32_small. unfold MAX in Hc. lia.
Qed.

(** The running task moves between program points, nothing else changes. *)
Lemma mb_inv_move s mb pc snt rcv p :
  mb_inv (mk_mbsys s mb pc snt rcv) -> cur s <> 0 -> mb_pc_ok (cur s) p TTASK_READY ->
  (send_act (pc (cur s)) = true -> send_act p = true) ->
  (recv_act (pc (cur s)) = true -> recv_act p = true) ->
  mb_inv (mk_mbsys s mb (fupd pc (cur s) p) snt rcv).
Proof.
  intros [Hl Hmb Hz Hpc Hr Hs Hh Hf] Hne Hp Hsa Hra. simpl in *.
  destruct (live_cur s Hl) as (_ & Hc & Hrun). constructor; simpl; auto.
  - rewrite fupd_ne by auto. exact Hz.
  - intros i Hi. fupd_cases (cur s) i; [rewrite Hrun; exact Hp|apply Hpc, Hi].
  - eapply side_pc; [exact Hr|exact Hc|exact Hrun|auto|rewrite Hrun; discriminate|].
    rewrite Hrun, andb_true_r. destruct (recv_act (pc (cur s))); [rewrite Hra by auto|]; simpl; [lia|].
    destruct (recv_act p); simpl; lia.
  - eapply side_pc; [exact Hs|exact Hc|exact Hrun|auto|rewrite Hrun; discriminate|].
    rewrite Hrun, andb_true_r. destruct (send_act (pc (cur s))); [rewrite Hsa by auto|]; simpl; [lia|].
    destruct (send_act p); simpl; lia.
Qed.

(** The state of a task in a call survives being woken. *)
Lemma mb_pc_ok_wake i p t t' :
  mb_pc_ok i p t -> t' = t \/ t = TTASK_BLOCKED /\ t' = TTASK_READY -> mb_pc_ok i p t'.
Proof. intros Hp [->|[-> ->]]; [exact Hp|]. destruct p; simpl in *; intuition congruence. Qed.

(** A call that fails because the wait queue is full just returns. *)
Lemma mb_inv_fail s mb pc snt rcv :
  mb_inv (mk_mbsys s mb pc snt rcv) -> cur s <> 0 ->
  (send_act (pc (cur s)) = true -> TIPC_QUEUE_SLOTS <= mb_count mb) ->
  (recv_act (pc (cur s)) = true -> mb_count mb <= 0) ->
  mb_inv (mk_mbsys s mb (fupd pc (cur s) Out) snt rcv).
Proof.
  intros [Hl Hmb Hz Hpc Hr Hs Hh Hf] Hne Hsa Hra. simpl in *.
  destruct (live_cur s Hl) as (_ & Hc & Hrun). constructor; simpl; auto.
  - rewrite fupd_ne by auto. exact Hz.
  - intros i Hi. fupd_cases (cur s) i; [exact I|apply Hpc, Hi].
  - eapply side_pc; [exact Hr|exact Hc|exact Hrun|auto|discriminate|].
    destruct (recv_act (pc (cur s))); [left; auto|right; simpl; lia].
  - eapply side_pc; [exact Hs|exact Hc|exact Hrun|auto|discriminate|].
    destruct (send_act (pc (cur s))); [left; specialize (Hsa eq_refl); lia|right; simpl; lia].
Qed.

(** [tipc_send], every branch. *)
Lemma mb_inv_send s mb pc snt rcv m rc s' mb' :
  mb_inv (mk_mbsys s mb pc snt rcv) -> pc (cur s) = SendLoop m ->
  tipc_send_pass (cur s) m s mb = (rc, s', mb') ->
  mb_inv (mk_mbsys s' mb'
            (fupd pc (cur s) (after_block rc (cur s) s' Out (SendLoop m) (SendParked m)))
            (if bool_decide (rc = Some 0) then snt ++ [m] else snt) rcv).
Proof.
  intros Hinv Epc E. pose proof Hinv as [Hl (Hring & Hws & Hwr) Hz Hpc Hr Hs Hh Hf]. simpl in *.
  destruct (live_cur s Hl) as (_ & Hc & Hrun).
  assert (cur s <> 0) as Hne by congruence.
  pose proof (Hpc _ Hc) as Hm. rewrite Epc in Hm. destruct Hm as [_ Hm].
  unfold tipc_send_pass in E.
  destruct (mb_push_spec mb m Hring) as [(_ & Hfull & Ep)|(_ & Hcnt & mb1 & Ep & Hring1 & Hl1 & Hs1 & Hr1 & Hc1)];
    rewrite Ep in E; simpl in E.
  - destruct (tipc_core_waitq_push (mb_wait_send mb) (cur s)) as [r2 wq] eqn:Eq.
    destruct (Z.eqb_spec r2 0) as [->|Hr2]; simpl in E; injection E as <- <- <-; simpl.
    + destruct (side_block s _ _ _ _ _ (fun i => send_waits (fupd pc (cur s) (SendParked m) i))
        (fun i => send_act (fupd pc (cur s) (SendParked m) i)) Hl Hne Hws Eq Hs)
        as (Hl' & Hwq & Hcur & Hside & Hst); [lia|rewrite fupd_eq; reflexivity|intros; rewrite fupd_ne; auto|].
      apply Z.eqb_neq in Hcur. rewrite Hcur. constructor; simpl; auto.
      * split; auto.
      * rewrite fupd_ne by auto. exact Hz.
      * intros i Hi. rewrite Hst by exact Hi. fupd_cases (cur s) i.
        -- rewrite Z.eqb_refl. simpl. auto.
        -- destruct (Z.eqb_spec (cur s) i); [congruence|apply Hpc, Hi].
      * eapply side_pc; [exact Hr|exact Hc|exact Hrun| |discriminate|rewrite Epc; simpl; lia].
        intros i Hi Hn. rewrite Hst by exact Hi. destruct (Z.eqb_spec (cur s) i); [congruence|auto].
    +
      apply mb_inv_fail; [exact Hinv|exact Hne| |]; rewrite Epc; simpl; (discriminate || lia).
  - rewrite Hr1 in E. destruct (tipc_core_waitq_pop (mb_wait_recv mb)) as [w wq] eqn:Eq.
    injection E as <- <- <-. simpl.
    destruct (side_pop s _ _ _ _ _ _ Hl Hwr Eq Hr) as (Hl' & Hwq & Hcur & Hside & Hst).
    { intros i. destruct (pc i); simpl; auto. }
    assert (state_of (wake_popped w s) (cur s) = TTASK_READY) as Hrun'.
    { destruct (Hst _ Hc) as [->|(_ & ? & _)]; congruence. }
    constructor; simpl; auto.
    * rewrite Hs1. split; auto.
    * rewrite fupd_ne by auto. exact Hz.
    * intros i Hi. fupd_cases (cur s) i; [exact I|].
      apply (mb_pc_ok_wake _ _ (state_of s i)); [apply Hpc, Hi|]. destruct (Hst i Hi) as [?|(_ & ? & ?)]; auto.
    * rewrite Hc1. eapply side_pc; [exact Hside|exact Hc|exact Hrun'|auto|discriminate|].
      rewrite Epc. simpl. lia.
    * rewrite Hs1, Hc1. eapply side_pc; [exact Hs|exact Hc|exact Hrun| |discriminate|rewrite Epc; simpl; lia].
      intros i Hi Hn. destruct (Hst i Hi) as [?|(Hw & _)]; [auto|right].
      destruct (pc i); try discriminate; auto.
    * change (mb_list _) with (mb_list mb1). rewrite Hl1, Hh, app_assoc. reflexivity.
    * apply Forall_app. split; [exact Hf|]. apply Forall_singleton. rewrite Hm. exact Hc.
Qed.

(** [tipc_recv], every branch. *)
Lemma mb_inv_recv s mb pc snt rcv out rc out' s' mb' :
  mb_inv (mk_mbsys s mb pc snt rcv) -> pc (cur s) = RecvLoop ->
  tipc_recv_pass (cur s) out s mb = (rc, out', s', mb') ->
  mb_inv (mk_mbsys s' mb'
            (fupd pc (cur s) (after_block rc (cur s) s' Out RecvLoop RecvParked))
            snt (if bool_decide (rc = Some 0) then rcv ++ [out'] else rcv)).
Proof.
  intros Hinv Epc E. pose proof Hinv as [Hl (Hring & Hws & Hwr) Hz Hpc Hr Hs Hh Hf]. simpl in *.
  destruct (live_cur s Hl) as (_ & Hc & Hrun).
  assert (cur s <> 0) as Hne by congruence.
  unfold tipc_recv_pass in E.
  destruct (mb_pop_spec mb out Hring) as [(_ & Hnil & Ep)|(_ & m & mb1 & Ep & Hring1 & Hl1 & Hs1 & Hr1 & Hc1)];
    rewrite Ep in E; simpl in E.
  - assert (mb_count mb = 0) as Hcnt by (eapply ring_list_nil_inv; [apply Hring|exact Hnil]).
    destruct (tipc_core_waitq_push (mb_wait_recv mb) (cur s)) as [r2 wq] eqn:Eq.
    destruct (Z.eqb_spec r2 0) as [->|Hr2]; simpl in E; injection E as <- <- <- <-; simpl.
    + destruct (side_block s _ _ _ _ _ (fun i => recv_waits (fupd pc (cur s) RecvParked i))
        (fun i => recv_act (fupd pc (cur s) RecvParked i)) Hl Hne Hwr Eq Hr)
        as (Hl' & Hwq & Hcur & Hside & Hst); [lia|rewrite fupd_eq; reflexivity|intros; rewrite fupd_ne; auto|].
      apply Z.eqb_neq in Hcur. rewrite Hcur. constructor; simpl; auto.
      * split; auto.
      * rewrite fupd_ne by auto. exact Hz.
      * intros i Hi. rewrite Hst by exact Hi. fupd_cases (cur s) i.
        -- rewrite Z.eqb_refl. simpl. auto.
        -- destruct (Z.eqb_spec (cur s) i); [congruence|apply Hpc, Hi].
      * eapply side_pc; [exact Hs|exact Hc|exact Hrun| |discriminate|rewrite Epc; simpl; lia].
        intros i Hi Hn. rewrite Hst by exact Hi. destruct (Z.eqb_spec (cur s) i); [congruence|auto].
    +
      apply mb_inv_fail; [exact Hinv|exact Hne| |]; rewrite Epc; simpl; (discriminate || lia).
  - rewrite Hs1 in E. destruct (tipc_core_waitq_pop (mb_wait_send mb)) as [w wq] eqn:Eq.
    injection E as <- <- <- <-. simpl.
    destruct (side_pop s _ _ _ _ _ _ Hl Hws Eq Hs) as (Hl' & Hwq & Hcur & Hside & Hst).
    { intros i. destruct (pc i); simpl; auto. }
    assert (state_of (wake_popped w s) (cur s) = TTASK_READY) as Hrun'.
    { destruct (Hst _ Hc) as [->|(_ & ? & _)]; congruence. }
    constructor; simpl; auto.
    * rewrite Hr1. split; auto.
    * rewrite fupd_ne by auto. exact Hz.
    * intros i Hi. fupd_cases (cur s) i; [exact I|].
      apply (mb_pc_ok_wake _ _ (state_of s i)); [apply Hpc, Hi|]. destruct (Hst i Hi) as [?|(_ & ? & ?)]; auto.
    * rewrite Hr1, Hc1. eapply side_pc; [exact Hr|exact Hc|exact Hrun| |discriminate|rewrite Epc; simpl; lia].
      intros i Hi Hn. destruct (Hst i Hi) as [?|(Hw & _)]; [auto|right].
      destruct (pc i); try discriminate; auto.
    * rewrite Hc1. eapply side_pc; [exact Hside|exact Hc|exact Hrun'|auto|discriminate|].
      rewrite Epc. simpl. lia.
    * change (mb_list _) with (mb_list mb1). rewrite Hh, Hl1, <- app_assoc. reflexivity.
Qed.

Lemma mb_inv_env s mb pc snt rcv s' :
  mb_inv (mk_mbsys s mb pc snt rcv) ->
  env_step boot_stack_top ttask_entry_addr ttask_entry_iret_addr (fun i => pc i = Out) (fun _ => True) s s' ->
  mb_inv (mk_mbsys s' mb pc snt rcv).
Proof.
  intros [Hl Hmb Hz Hpc Hr Hs Hh Hf] Henv. simpl in *.
  destruct (env_states _ _ _ _ _ _ _ Hl Henv) as [Hl' Hst].
  assert (forall i, 0 <= i < MAX -> state_of s' i = state_of s i \/ pc i = Out) as Hst'.
  { intros i Hi. specialize (Hpc i Hi). destruct (Hst i Hi) as [E1|[[E2 _]|Hdead]]; auto. right.
    destruct (pc i); simpl in Hpc; intuition congruence. }
  destruct (live_cur s Hl) as (_ & Hc & Hrun).
  assert (forall f, f Out = false -> active (fun i => f (pc i)) (state_of s') = active (fun i => f (pc i)) (state_of s)) as Ha.
  { intros f Hf0. apply count_range_ext. intros i Hi. destruct (Hst' i Hi) as [E|E]; rewrite E; [|rewrite Hf0]; reflexivity. }
  constructor; simpl; auto.
  - intros i Hi. destruct (Hst' i Hi) as [E|E]; rewrite E; [auto|exact I].
  - eapply side_frame; [exact Hr| |right; rewrite (Ha recv_act eq_refl); lia].
    intros i Hi. destruct (Hst' i Hi) as [E|E]; rewrite E; simpl; intuition congruence.
  - eapply side_frame; [exact Hs| |right; rewrite (Ha send_act eq_refl); lia].
    intros i Hi. destruct (Hst' i Hi) as [E|E]; rewrite E; simpl; intuition congruence.
Qed.

Lemma mb_step_inv x y : mb_inv x -> mbstep x y -> mb_inv y.
Proof.
  intros Hinv Hstep. destruct Hstep; pose proof (mi_live _ Hinv) as Hl; pose proof (mi_zero _ Hinv) as Hz;
    simpl in Hl, Hz.
  - apply mb_inv_move; auto; [|rewrite H1; discriminate..].
    simpl. split; [reflexivity|]. apply live_self, Hl.
  - eapply mb_inv_send; eauto.
  - apply mb_inv_move; auto; [reflexivity|rewrite H1; discriminate..].
  - eapply mb_inv_recv; eauto.
  - destruct (live_cur s Hl) as (_ & Hc & _). pose proof (mi_pc _ Hinv _ Hc) as Hp.
    simpl in Hp. rewrite H0 in Hp. simpl in Hp. apply mb_inv_move; auto; [congruence|simpl; tauto|rewrite H0; discriminate].
  - apply mb_inv_move; auto; [congruence|reflexivity|rewrite H0; discriminate].
  - eapply mb_inv_env; eauto.
Qed.

Lemma waitq_init_nil q : waitq_list (tipc_core_waitq_init q) = [].
Proof. reflexivity. Qed.

Lemma side_start waits act avail st :
  (forall i, waits i = false) -> side_ok [] waits act avail st.
Proof.
  intros Hw. split; [apply NoDup_nil_2| |congruence]. intros i. rewrite Hw.
  split; [intros Hi; inversion Hi|intros (_ & ? & _); discriminate].
Qed.

(** Storage for a mailbox: the arrays have the declared sizes. *)
Definition mb_storage (mb : tipc_mailbox_t) : Prop :=
  Z.of_nat (length (mb_slot mb)) = TIPC_QUEUE_SLOTS /\
  Z.of_nat (length (wq_id (mb_wait_send mb))) = TIPC_WAIT_MAX /\
  Z.of_nat (length (wq_id (mb_wait_recv mb))) = TIPC_WAIT_MAX.

Lemma mb_boot_inv s mb : live s -> mb_storage mb -> mb_inv (mb_boot s mb).
Proof.
  intros Hl (H1 & H2 & H3). constructor; simpl; auto.
  - split; [|split; apply waitq_init_ok; assumption].
    unfold mb_ring_ok. simpl. unfold TIPC_QUEUE_SLOTS in *. lia.
  - apply side_start. reflexivity.
  - apply side_start. reflexivity.
Qed.

Lemma mb_reachable_inv s mb x :
  live s -> mb_storage mb -> star mbstep (mb_boot s mb) x -> mb_inv x.
Proof.
  intros Hl Hmb Hstar. refine (star_invariant mbstep mb_inv _ _ _ Hstar (mb_boot_inv _ _ Hl Hmb)).
  intros a b Ha Hab. exact (mb_step_inv a b Ha Hab).
Qed.

(** C5. Mailbox delivery under preemption: in every state reachable by any
    interleaving of sends, receives, timer preemption and other scheduling,
    the messages for which [tipc_send] returned 0 are, in order, exactly those
    returned by [tipc_recv] followed by those still in the ring: none is lost,
    duplicated or reordered, also across blocking; each carries the id of a
    task of the table. *)
Theorem mailbox_interleaved_fifo s mb x :
  live s -> mb_storage mb -> star mbstep (mb_boot s mb) x ->
  ms_sent x = ms_recvd x ++ mb_list (ms_mb x) /\
  Forall (fun m => 0 <= msg_sender m < MAX) (ms_recvd x).
Proof.
  intros Hl Hmb Hstar. destruct (mb_reachable_inv _ _ _ Hl Hmb Hstar) as [_ _ _ _ _ _ Hh Hf].
  split; [exact Hh|]. rewrite Hh in Hf. apply Forall_app in Hf. apply Hf.
Qed.

(** C6. No lost wake-up on a mailbox: whenever a receiver is blocked, at least
    as many receivers as there are messages are READY and will retry (so a
    waiting message always has a READY receiver); symmetrically, whenever a
    sender is blocked, at least as many senders as there are free slots are
    READY. *)
Theorem mailbox_no_lost_wakeup s mb x :
  live s -> mb_storage mb -> star mbstep (mb_boot s mb) x ->
  (forall i, 0 <= i < MAX -> ms_pc x i = RecvParked -> state_of (ms_sched x) i = TTASK_BLOCKED ->
     mb_count (ms_mb x) <= active (fun j => recv_act (ms_pc x j)) (state_of (ms_sched x)) /\
     (mb_list (ms_mb x) <> [] -> exists j, 0 <= j < MAX /\ recv_act (ms_pc x j) = true
        /\ state_of (ms_sched x) j = TTASK_READY)) /\
  (forall i m, 0 <= i < MAX -> ms_pc x i = SendParked m -> state_of (ms_sched x) i = TTASK_BLOCKED ->
     TIPC_QUEUE_SLOTS - mb_count (ms_mb x)
       <= active (fun j => send_act (ms_pc x j)) (state_of (ms_sched x)) /\
     (tipc_core_mb_full (ms_mb x) = false -> exists j, 0 <= j < MAX /\ send_act (ms_pc x j) = true
        /\ state_of (ms_sched x) j = TTASK_READY)).
Proof.
  intros Hl Hmb Hstar. destruct (mb_reachable_inv _ _ _ Hl Hmb Hstar) as [_ (Hring & _) _ _ Hr Hs _ _].
  split.
  - intros i Hi Hp Hb. destruct (side_progress _ _ _ _ _ i Hr Hi) as [Hle Hex]; [rewrite Hp; reflexivity|exact Hb|].
    split; [exact Hle|]. intros Hne. apply Hex. destruct Hring as (_ & _ & Hn).
    destruct (Z.eq_dec (mb_count (ms_mb x)) 0) as [E|E]; [|lia].
    exfalso. apply Hne. unfold mb_list. rewrite E. reflexivity.
  - intros i m Hi Hp Hb. destruct (side_progress _ _ _ _ _ i Hs Hi) as [Hle Hex]; [rewrite Hp; reflexivity|exact Hb|].
    split; [exact Hle|]. intros Hfull. apply Hex. unfold tipc_core_mb_full in Hfull. lia.
Qed.
End mailbox.

(** * Mutexes under interleaving *)

Definition lock_waits (p : mtx_pc) : bool := match p with LockParked => true | _ => false end.
Definition lock_act (p : mtx_pc) : bool := match p with LockLoop | LockParked => true | MOut => false end.

(** What can be had without waiting: the mutex itself, when it is free. *)
Definition mtx_avail (x : tipc_mutex_t) : Z := if mtx_owner x =? TIPC_NONE then 1 else 0.

Definition mtx_pc_ok (p : mtx_pc) (t : tstate) : Prop :=
  match p with
  | MOut => True
  | LockLoop => t = TTASK_READY
  | LockParked => t = TTASK_READY \/ t = TTASK_BLOCKED
  end.

(** The record agrees with who holds the lock and how many times. *)
Definition owner_ok (x : tipc_mutex_t) (held : Z -> Z) : Prop :=
  (mtx_owner x = TIPC_NONE /\ forall i, held i = 0) \/
  (0 < mtx_owner x < TTASK_MAX_TASKS /\ 0 < held (mtx_owner x) <= 4294967295 /\
   mtx_depth x = held (mtx_owner x) /\ forall i, i <> mtx_owner x -> held i = 0).

Record mtx_inv {M} (x : mtxsys M) : Prop := {
  xi_live : live (xs_sched x);
  xi_wait : waitq_ok (mtx_wait (xs_mtx x));
  xi_zero : xs_pc x 0 = MOut;
  xi_pc : forall i, 0 <= i < TTASK_MAX_TASKS -> mtx_pc_ok (xs_pc x i) (state_of (xs_sched x) i);
  xi_side : side_ok (waitq_list (mtx_wait (xs_mtx x))) (fun i => lock_waits (xs_pc x i))
              (fun i => lock_act (xs_pc x i)) (mtx_avail (xs_mtx x)) (state_of (xs_sched x));
  xi_owner : owner_ok (xs_mtx x) (xs_held x);
  xi_holder : forall i, 0 <= i < TTASK_MAX_TASKS -> 0 < xs_held x i ->
    state_of (xs_sched x) i = TTASK_READY \/ state_of (xs_sched x) i = TTASK_BLOCKED
}.

Definition mtx_boot {M} (s : sched M) (x : tipc_mutex_t) : mtxsys M :=
  mk_mtxsys s (tipc_core_mutex_init x) (fun _ => MOut) (fun _ => 0).

Section mutex.
Context {M : Type} `{TaskMem M}.
Variables boot_stack_top ttask_entry_addr ttask_entry_iret_addr : Z.
Implicit Types s : sched M.

Local Abbreviation MAX := TTASK_MAX_TASKS.
Local Abbreviation mtxstep := (mtx_step boot_stack_top ttask_entry_addr ttask_entry_iret_addr).

Lemma mtx_inv_move s x pc held p :
  mtx_inv (mk_mtxsys s x pc held) -> cur s <> 0 -> mtx_pc_ok p TTASK_READY -> lock_act p = true ->
  mtx_inv (mk_mtxsys s x (fupd pc (cur s) p) held).
Proof.
  intros [Hl Hq Hz Hpc Hs Ho Hh] Hne Hp Ha. simpl in *.
  destruct (live_cur s Hl) as (_ & Hc & Hrun). constructor; simpl; auto.
  - rewrite fupd_ne by auto. exact Hz.
  - intros i Hi. fupd_cases (cur s) i; [rewrite Hrun; exact Hp|apply Hpc, Hi].
  - eapply side_pc; [exact Hs|exact Hc|exact Hrun|auto|rewrite Hrun; discriminate|].
    rewrite Hrun, Ha. destruct (lock_act (pc (cur s))); simpl; lia.
Qed.

(** A call returns: the caller leaves the side, which had at most one unit. *)
Lemma mtx_inv_leave s x x' pc held held' :
  mtx_inv (mk_mtxsys s x pc held) -> cur s <> 0 -> mtx_wait x' = mtx_wait x ->
  mtx_avail x' <= 0 -> owner_ok x' held' ->
  (forall i, i <> cur s -> held' i = held i) ->
  mtx_inv (mk_mtxsys s x' (fupd pc (cur s) MOut) held').
Proof.
  intros [Hl Hq Hz Hpc Hs Ho Hh] Hne Hw Hav Ho' Hext. simpl in *.
  destruct (live_cur s Hl) as (_ & Hc & Hrun). constructor; simpl; auto.
  - rewrite Hw. exact Hq.
  - rewrite fupd_ne by auto. exact Hz.
  - intros i Hi. fupd_cases (cur s) i; [exact I|apply Hpc, Hi].
  - rewrite Hw. eapply side_pc; [exact Hs|exact Hc|exact Hrun|auto|discriminate|left; exact Hav].
  - intros i Hi Hpos. destruct (Z.eq_dec i (cur s)) as [->|Hn]; [auto|].
    rewrite Hext in Hpos by exact Hn. auto.
Qed.

Lemma mtx_inv_lock s x pc held rc s' x' :
  mtx_inv (mk_mtxsys s x pc held) -> pc (cur s) = LockLoop -> held (cur s) < 4294967295 ->
  tipc_mutex_lock_pass (cur s) s x = (rc, s', x') ->
  mtx_inv (mk_mtxsys s' x' (fupd pc (cur s) (after_block rc (cur s) s' MOut LockLoop LockParked))
             (if bool_decide (rc = Some 0) then fupd held (cur s) (held (cur s) + 1) else held)).
Proof.
  intros Hinv Epc Hmax E. pose proof Hinv as [Hl Hq Hz Hpc Hs Ho Hh]. simpl in *.
  destruct (live_cur s Hl) as (_ & Hc & Hrun). assert (cur s <> 0) as Hne by congruence.
  unfold tipc_mutex_lock_pass in E.
  destruct (Z.eqb_spec (mtx_owner x) TIPC_NONE) as [En|En].
  { injection E as <- <- <-. simpl. destruct Ho as [[_ H0]|[Hr _]]; [|unfold TIPC_NONE, MAX in *; lia].
    eapply mtx_inv_leave; [exact Hinv|exact Hne|reflexivity| | |intros; apply fupd_ne; auto].
    - unfold mtx_avail. simpl. destruct (Z.eqb_spec (cur s) TIPC_NONE); [unfold TIPC_NONE, MAX in *; lia|lia].
    - right. simpl. rewrite fupd_eq, H0. repeat split; try lia. intros i Hi. rewrite fupd_ne by auto. apply H0. }
  destruct Ho as [[? _]|(Hr & Hpos & Hd & H0)]; [contradiction|].
  destruct (Z.eqb_spec (mtx_owner x) (cur s)) as [Eo|Eo].
  { injection E as <- <- <-. simpl.
    eapply mtx_inv_leave; [exact Hinv|exact Hne|reflexivity| | |intros; apply fupd_ne; auto].
    - unfold mtx_avail. simpl. destruct (Z.eqb_spec (mtx_owner x) TIPC_NONE); [contradiction|lia].
    - right. simpl. rewrite Eo in *. rewrite fupd_eq, u32_small by lia.
      repeat split; try lia. intros i Hi. rewrite fupd_ne by auto. auto. }
  assert (mtx_avail x <= 0) as Hav
    by (unfold mtx_avail; destruct (Z.eqb_spec (mtx_owner x) TIPC_NONE); [contradiction|lia]).
  destruct (tipc_core_waitq_push (mtx_wait x) (cur s)) as [r wq] eqn:Eq.
  destruct (Z.eqb_spec r 0) as [->|Hr2]; simpl in E; injection E as <- <- <-; simpl.
  2:{ eapply mtx_inv_leave; [exact Hinv|exact Hne|reflexivity|exact Hav| |reflexivity]. right. auto. }
  destruct (side_block s _ _ _ _ _ (fun i => lock_waits (fupd pc (cur s) LockParked i))
    (fun i => lock_act (fupd pc (cur s) LockParked i)) Hl Hne Hq Eq Hs Hav)
    as (Hl' & Hwq & Hcur & Hside & Hst); [rewrite fupd_eq; reflexivity|intros; rewrite fupd_ne; auto|].
  apply Z.eqb_neq in Hcur. rewrite Hcur. constructor; simpl; auto.
  - rewrite fupd_ne by auto. exact Hz.
  - intros i Hi. rewrite Hst by exact Hi. fupd_cases (cur s) i; [rewrite Z.eqb_refl; simpl; auto|].
    destruct (Z.eqb_spec (cur s) i); [congruence|apply Hpc, Hi].
  - right. auto.
  - intros i Hi Hp. rewrite Hst by exact Hi. destruct (cur s =? i); auto.
Qed.

Lemma mtx_inv_unlock s x pc held rc s' x' :
  mtx_inv (mk_mtxsys s x pc held) -> pc (cur s) = MOut ->
  tipc_mutex_unlock (cur s) s x = (rc, s', x') ->
  mtx_inv (mk_mtxsys s' x' pc (if rc =? 0 then fupd held (cur s) (held (cur s) - 1) else held)).
Proof.
  intros Hinv Epc E. pose proof Hinv as [Hl Hq Hz Hpc Hs Ho Hh]. simpl in *.
  destruct (live_cur s Hl) as (_ & Hc & Hrun). unfold tipc_mutex_unlock in E.
  destruct (Z.eqb_spec (mtx_owner x) (cur s)) as [Eo|Eo]; simpl in E.
  2:{ injection E as <- <- <-. exact Hinv. }
  destruct Ho as [[Hn _]|(Hr & Hpos & Hd & H0)]; [unfold TIPC_NONE, MAX in *; lia|].
  rewrite Eo in *. rewrite Hd, u32_small in E by lia.
  assert (mtx_avail x = 0) as Hav0.
  { unfold mtx_avail. rewrite Eo. destruct (Z.eqb_spec (cur s) TIPC_NONE); [unfold TIPC_NONE, MAX in *; lia|reflexivity]. }
  destruct (Z.eqb_spec (held (cur s) - 1) 0) as [E1|E1].
  - destruct (tipc_core_waitq_pop (mtx_wait x)) as [w wq] eqn:Eq. injection E as <- <- <-. simpl.
    destruct (side_pop s _ _ _ _ _ _ Hl Hq Eq Hs) as (Hl' & Hwq & Hcur & Hside & Hst).
    { intros i. destruct (pc i); simpl; auto. }
    rewrite Hav0 in Hside. constructor; simpl; auto.
    + intros i Hi. specialize (Hpc i Hi). destruct (Hst i Hi) as [->|(Hw & _ & Hw')]; [exact Hpc|].
      rewrite Hw'. destruct (pc i); simpl in *; auto.
    + left. split; [reflexivity|]. intros i. fupd_cases (cur s) i; auto.
    + intros i Hi Hp. fupd_cases (cur s) i; [lia|]. rewrite H0 in Hp by assumption. lia.
  - injection E as <- <- <-. simpl. constructor; simpl; auto.
    + unfold mtx_avail in *. simpl. rewrite Eo in Hav0. rewrite Hav0, <- Hav0. rewrite Eo in Hs. exact Hs.
    + right. simpl. rewrite fupd_eq. repeat split; try lia. intros i Hi. rewrite fupd_ne by auto. auto.
    + intros i Hi Hp. fupd_cases (cur s) i; auto.
Qed.

Lemma mtx_inv_env s x pc held s' :
  mtx_inv (mk_mtxsys s x pc held) ->
  env_step boot_stack_top ttask_entry_addr ttask_entry_iret_addr
    (fun i => pc i = MOut) (fun i => held i = 0) s s' ->
  mtx_inv (mk_mtxsys s' x pc held).
Proof.
  intros [Hl Hq Hz Hpc Hs Ho Hh] Henv. simpl in *.
  destruct (env_states _ _ _ _ _ _ _ Hl Henv) as [Hl' Hst].
  assert (forall i, 0 <= i < MAX -> state_of s' i = state_of s i \/ pc i = MOut) as Hst'.
  { intros i Hi. specialize (Hpc i Hi). destruct (Hst i Hi) as [E1|[[E2 _]|Hdead]]; auto. right.
    destruct (pc i); simpl in Hpc; intuition congruence. }
  constructor; simpl; auto.
  - intros i Hi. destruct (Hst' i Hi) as [E|E]; rewrite E; [auto|exact I].
  - eapply side_frame; [exact Hs| |right].
    + intros i Hi. destruct (Hst' i Hi) as [E|E]; rewrite E; simpl; intuition congruence.
    + apply Z.eq_le_incl. rewrite Z.sub_diag. symmetry. apply Z.sub_move_0_r, count_range_ext.
      intros i Hi. destruct (Hst' i Hi) as [E|E]; rewrite E; reflexivity.
  - intros i Hi Hp. specialize (Hh i Hi Hp). destruct (Hst i Hi) as [->|[[_ [?|?]]|?]]; [auto|lia|auto|].
    intuition congruence.
Qed.

Lemma mtx_step_inv x y : mtx_inv x -> mtxstep x y -> mtx_inv y.
Proof.
  intros Hinv Hstep. destruct Hstep; pose proof (xi_zero _ Hinv) as Hz; simpl in Hz.
  - apply mtx_inv_move; auto; reflexivity.
  - eapply mtx_inv_lock; eauto.
  - apply mtx_inv_move; auto; [congruence|reflexivity].
  - eapply mtx_inv_unlock; eauto.
  - eapply mtx_inv_env; eauto.
Qed.

Lemma mtx_reachable_inv s m x :
  live s -> Z.of_nat (length (wq_id (mtx_wait m))) = TIPC_WAIT_MAX ->
  star mtxstep (mtx_boot s m) x -> mtx_inv x.
Proof.
  intros Hl Hm Hstar. refine (star_invariant mtxstep mtx_inv _ _ _ Hstar _).
  - intros a b Ha Hab. exact (mtx_step_inv a b Ha Hab).
  - constructor; simpl; auto; [apply waitq_init_ok, Hm|apply side_start; reflexivity|left; auto|lia].
Qed.

End mutex.

(** * A concrete run

    Three tasks; the first two call [tipc_recv] on the empty mailbox and park,
    the third sends: the first receiver is READY again, the second still
    BLOCKED. *)
Definition demo_three : sched flat_mem :=
  ttask_yield 0 (ttask_create 7 8 [99] 5 6 (ttask_create 7 8 [98] 5 6
                  (ttask_create 7 8 [97] 5 6 demo_boot).2).2).2.
Definition demo_msg : tipc_msg_t := mk_msg 0 4 [1; 2; 3; 4].
Definition demo_waitq : tipc_waitq_t := mk_waitq (replicate 16 0) 3 9.
Definition demo_mb : tipc_mailbox_t := mk_mb (replicate 8 demo_msg) 5 7 demo_waitq demo_waitq.

Definition demo_mb_park1 : mbsys flat_mem :=
  mk_mbsys (ttask_block demo_three)
    (tipc_recv_pass (cur demo_three) demo_msg demo_three (tipc_core_mb_init demo_mb)).2
    (fupd (fupd (fun _ => Out) 1 RecvLoop) 1 RecvParked) [] [].
Definition demo_mb_park2 : mbsys flat_mem :=
  mk_mbsys (ttask_block (ttask_block demo_three))
    (tipc_recv_pass 2 demo_msg (ttask_block demo_three) (ms_mb demo_mb_park1)).2
    (fupd (fupd (ms_pc demo_mb_park1) 2 RecvLoop) 2 RecvParked) [] [].
Definition demo_mb_sent : mbsys flat_mem :=
  mk_mbsys (ttask_wake 1 (ms_sched demo_mb_park2))
    (tipc_send_pass 3 (stamp 3 demo_msg) (ms_sched demo_mb_park2) (ms_mb demo_mb_park2)).2
    (fupd (fupd (ms_pc demo_mb_park2) 3 (SendLoop (stamp 3 demo_msg))) 3 Out) [stamp 3 demo_msg] [].

(** Reduces a closed equation with the virtual machine. *)
Ltac vmeq := vm_compute; reflexivity.

Lemma demo_three_live : live demo_three.
Proof.
  split; [|split; vmeq]. apply yield_ok; [|vmeq].
  do 3 (apply create_ok; [|lia]). apply boot_init_ok.
Qed.

Lemma demo_mb_run : star (mb_step 0 7 8) (mb_boot demo_three demo_mb) demo_mb_sent.
Proof.
  eapply star_step; [apply mb_call_recv; [vm_compute; discriminate|reflexivity]|].
  eapply star_step.
  { apply (mb_recv 0 7 8 _ _ _ _ _ demo_msg None demo_msg (ttask_block demo_three)
      (tipc_recv_pass (cur demo_three) demo_msg demo_three (tipc_core_mb_init demo_mb)).2); vmeq. }
  eapply star_step; [apply mb_call_recv; [vm_compute; discriminate|vmeq]|].
  eapply star_step.
  { apply (mb_recv 0 7 8 _ _ _ _ _ demo_msg None demo_msg (ttask_block (ttask_block demo_three))
      (tipc_recv_pass 2 demo_msg (ttask_block demo_three) (ms_mb demo_mb_park1)).2); vmeq. }
  eapply star_step; [apply (mb_call_send 0 7 8 _ _ _ _ _ demo_msg); [vm_compute; discriminate|vmeq]|].
  eapply star_step.
  { apply (mb_send 0 7 8 _ _ _ _ _ (stamp 3 demo_msg) (Some 0) (ttask_wake 1 (ms_sched demo_mb_park2))
      (tipc_send_pass 3 (stamp 3 demo_msg) (ms_sched demo_mb_park2) (ms_mb demo_mb_park2)).2); vmeq. }
  apply star_refl.
Qed.

Lemma mailbox_interleaved_fifo_witness :
  ms_sent demo_mb_sent = [stamp 3 demo_msg] /\
  ms_sent demo_mb_sent = ms_recvd demo_mb_sent ++ mb_list (ms_mb demo_mb_sent).
Proof.
  split; [reflexivity|].
  apply (mailbox_interleaved_fifo 0 7 8 demo_three demo_mb demo_mb_sent demo_three_live);
    [repeat split; reflexivity|exact demo_mb_run].
Defined.

Lemma mailbox_no_lost_wakeup_witness :
  state_of (ms_sched demo_mb_sent) 2 = TTASK_BLOCKED /\
  exists j, 0 <= j < TTASK_MAX_TASKS /\ recv_act (ms_pc demo_mb_sent j) = true
    /\ state_of (ms_sched demo_mb_sent) j = TTASK_READY.
Proof.
  split; [vmeq|].
  apply (proj1 (mailbox_no_lost_wakeup 0 7 8 demo_three demo_mb demo_mb_sent demo_three_live
    ltac:(repeat split; reflexivity) demo_mb_run) 2);
    [unfold TTASK_MAX_TASKS; lia|vmeq|vmeq|vm_compute; discriminate].
Defined.

(** Task 1 takes the mutex, tasks 2 and 3 park on it, task 1 releases it:
    task 2 is READY, task 3 still BLOCKED. *)
Definition demo_mtx : tipc_mutex_t := mk_mutex 4 4 demo_waitq.
Definition demo_locked : tipc_mutex_t :=
  (tipc_mutex_lock_pass 1 demo_three (tipc_core_mutex_init demo_mtx)).2.
Definition demo_at2 : sched flat_mem := ttask_yield 0 demo_three.
Definition demo_wait2 : tipc_mutex_t := (tipc_mutex_lock_pass 2 demo_at2 demo_locked).2.
Definition demo_wait3 : tipc_mutex_t :=
  (tipc_mutex_lock_pass 3 (ttask_block demo_at2) demo_wait2).2.
Definition demo_at1 : sched flat_mem := ttask_block (ttask_block demo_at2).
Definition demo_mtx_end : mtxsys flat_mem :=
  mk_mtxsys (ttask_wake 2 demo_at1) (tipc_mutex_unlock 1 demo_at1 demo_wait3).2
    (fupd (fupd (fupd (fupd (fupd (fupd (fun _ => MOut) 1 LockLoop) 1 MOut) 2 LockLoop) 2 LockParked)
      3 LockLoop) 3 LockParked)
    (fupd (fupd (fun _ => 0) 1 1) 1 0).

Lemma demo_mtx_run : star (mtx_step 0 7 8) (mtx_boot demo_three demo_mtx) demo_mtx_end.
Proof.
  eapply star_step; [apply mtx_call_lock; [vm_compute; discriminate|reflexivity]|].
  eapply star_step.
  { apply (mtx_lock 0 7 8 _ _ _ _ (Some 0) demo_three demo_locked); vmeq. }
  eapply star_step; [apply mtx_env; apply (env_yield 0 7 8 _ _ demo_three); vmeq|].
  eapply star_step; [apply mtx_call_lock; [vm_compute; discriminate|vmeq]|].
  eapply star_step; [apply (mtx_lock 0 7 8 _ _ _ _ None (ttask_block demo_at2) demo_wait2); vmeq|].
  eapply star_step; [apply mtx_call_lock; [vm_compute; discriminate|vmeq]|].
  eapply star_step; [apply (mtx_lock 0 7 8 _ _ _ _ None demo_at1 demo_wait3); vmeq|].
  eapply star_step.
  { apply (mtx_unlock 0 7 8 _ _ _ _ 0 (ttask_wake 2 demo_at1) (tipc_mutex_unlock 1 demo_at1 demo_wait3).2); vmeq. }
  apply star_refl.
Qed.

