(* ===== verification/Tpmm.v ===== *)
(** The physical frame allocator of [src/tpmm.c]: one bit per 4 KiB frame
    below 4 GiB, three counters, first-fit allocation from a moving hint.

    The bitmap is a finite map from word index to a 32-bit word.  Operations
    that the C code runs with interrupts disabled are single functions on the
    state; [lock_intr]/[unlock_intr] have no other effect. *)
From stdpp Require Import prelude gmap list numbers.
From Stdlib Require Import ZArith Lia ZifyBool.
From S2P Require Import Prelude.
#[local] Open Scope Z_scope.

Definition PAGE_SIZE : Z := 4096.
Definition PMM_MAX_ADDR : Z := 4294967296.
Definition PMM_MAX_FRAMES : Z := 1048576.
Definition PMM_BITMAP_WORDS : Z := 32768.
Definition MB2_TAG_MMAP : Z := 6.
Definition MB2_MMAP_AVAIL : Z := 1.

Record pmm := mk_pmm {
  bitmap : gmap Z Z;
  total_frames : Z;
  free_frames : Z;
  first_free_hint : Z
}.

(** * Bits *)

Definition bit_set (frame : Z) (b : gmap Z Z) : gmap Z Z :=
  if frame <? PMM_MAX_FRAMES
  then <[frame / 32 := Z.lor (rd b (frame / 32)) (Z.shiftl 1 (frame mod 32))]> b else b.

Definition bit_clear (frame : Z) (b : gmap Z Z) : gmap Z Z :=
  if frame <? PMM_MAX_FRAMES
  then <[frame / 32 := Z.land (rd b (frame / 32)) (not32 (Z.shiftl 1 (frame mod 32)))]> b else b.

Definition bit_test (frame : Z) (b : gmap Z Z) : Z :=
  Z.land (Z.shiftr (rd b (frame / 32)) (frame mod 32)) 1.

(** [if (bit_test(f))] *)
Definition used (b : gmap Z Z) (frame : Z) : bool := negb (bit_test frame b =? 0).

(** * Reservation *)

Definition reserve_frame (phys : Z) (p : pmm) : pmm :=
  let frame := u32 (phys / PAGE_SIZE) in
  if frame >=? total_frames p then p
  else mk_pmm (bit_set frame (bitmap p)) (total_frames p)
         (if used (bitmap p) frame then free_frames p else u32 (free_frames p - 1))
         (first_free_hint p).

Definition reserve_region (base size : Z) (p : pmm) : option pmm :=
  page_loop (fun a q => inr (reserve_frame a q)) base size p.

(** * Initialisation from the Multiboot2 memory map

    [mem] is the byte memory the boot loader left behind. *)
Definition rd32 (mem : Z -> Z) (a : Z) : Z :=
  mem a + 256 * mem (a + 1) + 65536 * mem (a + 2) + 16777216 * mem (a + 3).
Definition rd64 (mem : Z -> Z) (a : Z) : Z := rd32 mem a + 4294967296 * rd32 mem (a + 4).

(** The body of the frame loop: free frame [f] and extend [total_frames]. *)
Definition avail_frame (f : Z) (p : pmm) : pmm :=
  let p1 := if used (bitmap p) f
            then mk_pmm (bit_clear f (bitmap p)) (total_frames p) (u32 (free_frames p + 1))
                   (first_free_hint p)
            else p in
  if f >=? total_frames p1
  then mk_pmm (bitmap p1) (u32 (f + 1)) (free_frames p1) (first_free_hint p1) else p1.

(** One memory-map entry at [e]. *)
Definition mmap_entry (mem : Z -> Z) (e : Z) (p : pmm) : pmm :=
  if rd32 mem (e + 16) =? MB2_MMAP_AVAIL then
    let start := rd64 mem e in
    let stop0 := u64 (start + rd64 mem (e + 8)) in
    let stop := if stop0 >? PMM_MAX_ADDR then PMM_MAX_ADDR else stop0 in
    let f_start := u32 (u64 (start + PAGE_SIZE - 1) / PAGE_SIZE) in
    let f_end := u32 (stop / PAGE_SIZE) in
    for_range avail_frame f_start f_end p
  else p.

(** A memory-map tag at [p0]; an entry size of zero is a divide error. *)
Definition mmap_tag (mem : Z -> Z) (p0 : Z) (p : pmm) : option pmm :=
  let entry_size := rd32 mem (p0 + 8) in
  if entry_size =? 0 then None
  else
    let n := u32 (rd32 mem (p0 + 4) - 16) / entry_size in
    Some (for_range (fun i q => mmap_entry mem (u64 (p0 + 16 + i * entry_size)) q) 0 n p).

Inductive init_res :=
| InitOk (p : pmm)
| InitFault           (* divide error in the kernel *)
| InitFuel.           (* more tags than the fuel allows *)

(** [while (p + 8 <= end)] over the tags. *)
Fixpoint mmap_scan (mem : Z -> Z) (fuel : nat) (p0 stop : Z) (p : pmm) : init_res :=
  if u64 (p0 + 8) <=? stop then
    match fuel with
    | O => InitFuel
    | S fuel' =>
        if rd32 mem p0 =? 0 then InitOk p
        else
          let next := u64 (p0 + Z.land (u32 (rd32 mem (p0 + 4) + 7)) (not64 7)) in
          if rd32 mem p0 =? MB2_TAG_MMAP then
            match mmap_tag mem p0 p with
            | None => InitFault
            | Some p' => mmap_scan mem fuel' next stop p'
            end
          else mmap_scan mem fuel' next stop p
    end
  else InitOk p.

(** The state before the scan: every frame used. *)
Definition all_used (b : gmap Z Z) : gmap Z Z :=
  for_range (fun i b => <[i := 4294967295]> b) 0 PMM_BITMAP_WORDS b.

(** [kstart] and [kend] are the linker symbols [_kernel_phys_start] and
    [_kernel_phys_end]. *)
Definition tpmm_init (mem : Z -> Z) (fuel : nat) (kstart kend mbi : Z) (p : pmm) : init_res :=
  let stop := u64 (mbi + rd32 mem mbi) in
  match mmap_scan mem fuel (u64 (mbi + 8)) stop (mk_pmm (all_used (bitmap p)) 0 0 0) with
  | InitOk p1 =>
      match reserve_region 0 0x100000 p1 with
      | Some p2 =>
          match reserve_region kstart (u64 (kend - kstart)) p2 with
          | Some p3 => InitOk p3
          | None => InitFuel
          end
      | None => InitFuel
      end
  | r => r
  end.

(** * Allocation *)

(** [bit_set(f); free_frames--; first_free_hint = f + 1; return f * 4096;] *)
Definition take_frame (f : Z) (p : pmm) : Z * pmm :=
  (f * PAGE_SIZE, mk_pmm (bit_set f (bitmap p)) (total_frames p) (u32 (free_frames p - 1)) (u32 (f + 1))).

Definition is_free (p : pmm) (f : Z) : bool := negb (used (bitmap p) f).

Definition tpmm_alloc (p : pmm) : Z * pmm :=
  match find_range (is_free p) (first_free_hint p) (total_frames p) with
  | Some f => take_frame f p
  | None =>
      match find_range (is_free p) 0 (Z.min (first_free_hint p) (total_frames p)) with
      | Some f => take_frame f p
      | None => (0, p)
      end
  end.

Definition tpmm_alloc_low (p : pmm) : Z * pmm :=
  match find_range (is_free p) (first_free_hint p) (Z.min 0x40000 (total_frames p)) with
  | Some f => take_frame f p
  | None =>
      match find_range (is_free p) 0 (Z.min (first_free_hint p) 0x40000) with
      | Some f => take_frame f p
      | None => (0, p)
      end
  end.

(** The scan for [pages] consecutive free frames from [f] on, [n] frames long,
    with the counters [run] and [start]: [inl start] is [goto found]. *)
Fixpoint contig_scan (p : pmm) (pages f : Z) (n : nat) (run start : Z) : Z + Z * Z :=
  match n with
  | O => inr (run, start)
  | S n' =>
      if is_free p f then
        let start' := if run =? 0 then f else start in
        let run' := u32 (run + 1) in
        if run' =? pages then inl start' else contig_scan p pages (f + 1) n' run' start'
      else contig_scan p pages (f + 1) n' 0 start
  end.

(** The code after [found:]. *)
Definition take_run (start pages : Z) (p : pmm) : Z * pmm :=
  let '(b, n) := for_range (fun i '(b, n) => (bit_set (u32 (start + i)) b, u32 (n - 1)))
                   0 pages (bitmap p, free_frames p) in
  (start * PAGE_SIZE, mk_pmm b (total_frames p) n (u32 (start + pages))).

(** Both loops; the second starts with the counters the first one left. *)
Definition contig_from (pages hi1 hi2 : Z) (p : pmm) : Z * pmm :=
  match contig_scan p pages (first_free_hint p) (Z.to_nat (hi1 - first_free_hint p)) 0 0 with
  | inl start => take_run start pages p
  | inr (run, start) =>
      match contig_scan p pages 0 (Z.to_nat hi2) run start with
      | inl start' => take_run start' pages p
      | inr _ => (0, p)
      end
  end.

Definition tpmm_alloc_contig (pages : Z) (p : pmm) : Z * pmm :=
  contig_from pages (total_frames p) (first_free_hint p) p.

Definition tpmm_alloc_low_contig (pages : Z) (p : pmm) : Z * pmm :=
  let cap := if 0x40000 >? total_frames p then total_frames p else 0x40000 in
  if (pages =? 0) || (pages >? cap) then (0, p)
  else contig_from pages cap (Z.min (first_free_hint p) cap) p.

(** * Release and queries *)

(** [if (bit_test(f)) { bit_clear(f); free_frames++; lower the hint }] *)
Definition release_frame (frame : Z) (p : pmm) : pmm :=
  if used (bitmap p) frame
  then mk_pmm (bit_clear frame (bitmap p)) (total_frames p) (u32 (free_frames p + 1))
         (if frame <? first_free_hint p then frame else first_free_hint p)
  else p.

Definition tpmm_free (phys : Z) (p : pmm) : pmm :=
  let frame := u32 (phys / PAGE_SIZE) in
  if frame >=? total_frames p then p else release_frame frame p.

Definition tpmm_free_frames (p : pmm) : Z := free_frames p.
Definition tpmm_used_frames (p : pmm) : Z := u32 (total_frames p - free_frames p).
Definition tpmm_total_mem (p : pmm) : Z := total_frames p * PAGE_SIZE.
Definition tpmm_available_mem (p : pmm) : Z := free_frames p * PAGE_SIZE.
Definition tpmm_frame_used (phys : Z) (p : pmm) : Z := bit_test (u32 (phys / PAGE_SIZE)) (bitmap p).

Definition tpmm_reserve_range (base size : Z) (p : pmm) : option pmm := reserve_region base size p.

Definition tpmm_release_range (base size : Z) (p : pmm) : option pmm :=
  page_loop (fun a q =>
    let frame := u32 (a / PAGE_SIZE) in
    if frame >=? total_frames q then inl q else inr (release_frame frame q)) base size p.

(** * Invariant *)

Record pmm_ok (p : pmm) : Prop := {
  po_total : 0 <= total_frames p <= PMM_MAX_FRAMES;
  po_free : free_frames p = count_range (is_free p) 0 (total_frames p);
  po_hint : 0 <= first_free_hint p <= total_frames p;
  po_beyond : forall f, total_frames p <= f < PMM_MAX_FRAMES -> used (bitmap p) f = true
}.

(** Physical address 0 doubles as the failure value, so frame 0 stays used. *)
Definition pmm_inv (p : pmm) : Prop := pmm_ok p /\ used (bitmap p) 0 = true.

(** The frames that change hands between two states. *)
Definition takes (fs : Z -> Prop) (p p' : pmm) : Prop :=
  forall f, 0 <= f < PMM_MAX_FRAMES ->
    (fs f -> is_free p f = true /\ is_free p' f = false) /\ (~ fs f -> is_free p' f = is_free p f).

Lemma used_testbit b f : 0 <= f -> used b f = Z.testbit (rd b (f / 32)) (f mod 32).
Proof.
  intros Hf. unfold used, bit_test. pose proof (Z.mod_pos_bound f 32 ltac:(lia)).
  change 1 with (2 ^ 0). fold (has (Z.shiftr (rd b (f / 32)) (f mod 32)) (2 ^ 0)).
  rewrite has_pow2, Z.shiftr_spec by lia. reflexivity.
Qed.

Lemma same_bit f g : 0 <= f -> 0 <= g -> f / 32 = g / 32 -> (f mod 32 =? g mod 32) = (f =? g).
Proof. intros. destruct (Z.eqb_spec f g), (Z.eqb_spec (f mod 32) (g mod 32)); zlia. Qed.

Lemma used_set b f g :
  0 <= f < PMM_MAX_FRAMES -> 0 <= g -> used (bit_set f b) g = (f =? g) || used b g.
Proof.
  intros Hf Hg. unfold bit_set. replace (f <? PMM_MAX_FRAMES) with true by lia.
  rewrite !used_testbit by lia. destruct (Z.eq_dec (f / 32) (g / 32)) as [E|E].
  - rewrite E, rd_insert_eq, Z.lor_spec, shiftl_1_testbit, orb_comm by (apply Z.mod_pos_bound; lia).
    rewrite Z.eqb_sym, same_bit by (auto; lia). reflexivity.
  - rewrite rd_insert_ne by exact E. destruct (Z.eqb_spec f g); [congruence|reflexivity].
Qed.

Lemma used_clear b f g :
  0 <= f < PMM_MAX_FRAMES -> 0 <= g -> used (bit_clear f b) g = negb (f =? g) && used b g.
Proof.
  intros Hf Hg. unfold bit_clear. replace (f <? PMM_MAX_FRAMES) with true by lia.
  rewrite !used_testbit by lia. destruct (Z.eq_dec (f / 32) (g / 32)) as [E|E].
  - pose proof (Z.mod_pos_bound g 32 ltac:(lia)). pose proof (Z.mod_pos_bound f 32 ltac:(lia)).
    rewrite E, rd_insert_eq. unfold not32. change 4294967295 with (Z.ones 32).
    rewrite Z.land_spec, Z.lxor_spec, shiftl_1_testbit, Z.ones_spec_low, xorb_true_r, andb_comm by lia.
    rewrite Z.eqb_sym, same_bit by (auto; lia). reflexivity.
  - rewrite rd_insert_ne by exact E. destruct (Z.eqb_spec f g); [congruence|reflexivity].
Qed.

Lemma free_count_pos p f :
  pmm_ok p -> 0 <= f < total_frames p -> is_free p f = true -> 0 < free_frames p.
Proof.
  intros [Ht Hf _ _] Hr E. rewrite Hf, (count_range_flip _ (fun g => is_free p g && negb (f =? g)) 0 _ f Hr E).
  - pose proof (count_range_bounds (fun g => is_free p g && negb (f =? g)) 0 (total_frames p)). lia.
  - rewrite Z.eqb_refl, andb_false_r. reflexivity.
  - intros i _ Hn. destruct (Z.eqb_spec f i); [congruence|]. rewrite andb_true_r. reflexivity.
Qed.

Lemma free_count_max p : pmm_ok p -> 0 <= free_frames p <= total_frames p.
Proof. intros [Ht Hf _ _]. rewrite Hf. pose proof (count_range_bounds (is_free p) 0 (total_frames p)). lia. Qed.

Lemma free_in_range p f :
  pmm_ok p -> 0 <= f < PMM_MAX_FRAMES -> is_free p f = true -> f < total_frames p.
Proof.
  intros [Ht _ _ Hb] Hf E. destruct (Z.ltb_spec f (total_frames p)); [assumption|].
  unfold is_free in E. rewrite Hb in E by lia. discriminate.
Qed.

(** ** Taking and giving back one frame *)

Lemma mark_used_ok p f hint :
  pmm_ok p -> 0 <= f < total_frames p -> is_free p f = true -> 0 <= hint <= total_frames p ->
  let p' := mk_pmm (bit_set f (bitmap p)) (total_frames p) (u32 (free_frames p - 1)) hint in
  pmm_ok p' /\ free_frames p' = free_frames p - 1 /\ takes (fun g => g = f) p p'.
Proof.
  intros Hok Hf E Hh p'. pose proof (free_count_pos p f Hok Hf E). pose proof (free_count_max p Hok).
  destruct Hok as [Ht Hc Hh0 Hb]. unfold PMM_MAX_FRAMES in *.
  assert (forall g, 0 <= g -> is_free p' g = negb (f =? g) && is_free p g) as Hg.
  { intros g Hg0. unfold is_free, p'. simpl. rewrite used_set by (unfold PMM_MAX_FRAMES; lia).
    destruct (f =? g); reflexivity. }
  assert (free_frames p' = free_frames p - 1) as Hn by (simpl; apply u32_small; lia).
  split; [|split; [exact Hn|]].
  - constructor; simpl; try assumption.
    + change (u32 (free_frames p - 1)) with (free_frames p'). rewrite Hn, Hc.
      enough (count_range (is_free p) 0 (total_frames p) = count_range (is_free p') 0 (total_frames p) + 1) by lia.
      apply (count_range_flip _ _ 0 _ f); [lia|exact E|rewrite Hg, Z.eqb_refl by lia; reflexivity|].
      intros i Hi Hne. rewrite Hg by lia. destruct (Z.eqb_spec f i); [congruence|reflexivity].
    + intros g Hg1. rewrite used_set by (unfold PMM_MAX_FRAMES; lia). rewrite Hb by exact Hg1. apply orb_true_r.
  - intros g Hg0. rewrite Hg by lia. split; [intros ->; rewrite Z.eqb_refl; auto|].
    intros Hne. destruct (Z.eqb_spec f g); [congruence|reflexivity].
Qed.

Lemma mark_free_ok p f hint :
  pmm_ok p -> 0 <= f < total_frames p -> is_free p f = false -> 0 <= hint <= total_frames p ->
  let p' := mk_pmm (bit_clear f (bitmap p)) (total_frames p) (u32 (free_frames p + 1)) hint in
  pmm_ok p' /\ free_frames p' = free_frames p + 1 /\ takes (fun g => g = f) p' p.
Proof.
  intros Hok Hf E Hh p'. pose proof (free_count_max p Hok).
  destruct Hok as [Ht Hc Hh0 Hb]. unfold PMM_MAX_FRAMES in *.
  assert (forall g, 0 <= g -> is_free p' g = (f =? g) || is_free p g) as Hg.
  { intros g Hg0. unfold is_free, p'. simpl. rewrite used_clear by (unfold PMM_MAX_FRAMES; lia).
    destruct (f =? g); reflexivity. }
  assert (free_frames p' = free_frames p + 1) as Hn by (simpl; apply u32_small; lia).
  split; [|split; [exact Hn|]].
  - constructor; simpl; try assumption.
    + change (u32 (free_frames p + 1)) with (free_frames p'). rewrite Hn, Hc. symmetry.
      apply (count_range_flip _ _ 0 _ f); [lia|rewrite Hg, Z.eqb_refl by lia; reflexivity|exact E|].
      intros i Hi Hne. rewrite Hg by lia. destruct (Z.eqb_spec f i); [congruence|reflexivity].
    + intros g Hg1. rewrite used_clear by (unfold PMM_MAX_FRAMES; lia). rewrite Hb by exact Hg1.
      destruct (Z.eqb_spec f g); [lia|reflexivity].
  - intros g Hg0. rewrite Hg by lia. split; [intros ->; rewrite Z.eqb_refl; auto|].
    intros Hne. destruct (Z.eqb_spec f g); [congruence|reflexivity].
Qed.

(** [reserve_frame] and [release_frame] keep the invariant in every case. *)
Lemma reserve_frame_ok a p :
  pmm_ok p -> 0 <= a ->
  pmm_ok (reserve_frame a p) /\ total_frames (reserve_frame a p) = total_frames p /\
  forall f, 0 <= f < PMM_MAX_FRAMES ->
    is_free (reserve_frame a p) f = is_free p f && negb (f =? u32 (a / PAGE_SIZE)).
Proof.
  intros Hok Ha. pose proof (u32_range (a / PAGE_SIZE)) as Hu. unfold reserve_frame.
  set (fr := u32 (a / PAGE_SIZE)) in *. pose proof Hok as [Ht _ Hh Hb].
  destruct (Z.geb_spec fr (total_frames p)) as [Hge|Hlt].
  - split; [exact Hok|]. split; [reflexivity|]. intros f Hf.
    destruct (Z.eqb_spec f fr) as [->|]; [|rewrite andb_true_r; reflexivity].
    unfold is_free. rewrite Hb by lia. reflexivity.
  - assert (forall f, 0 <= f < PMM_MAX_FRAMES -> forall q, bitmap q = bit_set fr (bitmap p) ->
      is_free q f = is_free p f && negb (f =? fr)) as Hg.
    { intros f Hf q E. unfold is_free. rewrite E, used_set, (Z.eqb_sym fr f) by lia.
      destruct (f =? fr), (used (bitmap p) f); reflexivity. }
    destruct (used (bitmap p) fr) eqn:E; [|split].
    + split; [|split; [reflexivity|intros f Hf; apply Hg; auto]].
      destruct Hok as [H1 H2 H3 H4]. constructor; simpl; try assumption.
      * rewrite H2. apply count_range_ext. intros i Hi. symmetry. rewrite (Hg i) by (reflexivity || lia).
        destruct (Z.eqb_spec i fr) as [->|]; [|apply andb_true_r]. unfold is_free. rewrite E. reflexivity.
      * intros f Hf. rewrite used_set by (unfold PMM_MAX_FRAMES in *; lia). rewrite H4 by exact Hf. apply orb_true_r.
    + apply (mark_used_ok p fr (first_free_hint p)); auto; [lia|unfold is_free; rewrite E; reflexivity].
    + split; [reflexivity|]. intros f Hf. apply Hg; auto.
Qed.

Lemma release_frame_ok f p :
  pmm_ok p -> 0 <= f < total_frames p ->
  pmm_ok (release_frame f p) /\ total_frames (release_frame f p) = total_frames p /\
  forall g, 0 <= g < PMM_MAX_FRAMES -> is_free (release_frame f p) g = is_free p g || (g =? f).
Proof.
  intros Hok Hf. unfold release_frame. pose proof Hok as [Ht _ Hh _].
  destruct (used (bitmap p) f) eqn:E.
  - destruct (mark_free_ok p f (if f <? first_free_hint p then f else first_free_hint p) Hok Hf)
      as (Hok' & _ & Htk); [unfold is_free; rewrite E; reflexivity|case_if; lia|].
    split; [exact Hok'|]. split; [reflexivity|]. intros g Hg. destruct (Htk g Hg) as [H1 H2].
    destruct (Z.eqb_spec g f) as [->|Hne]; [rewrite orb_true_r; apply H1; reflexivity|].
    rewrite orb_false_r. symmetry. apply H2, Hne.
  - split; [exact Hok|]. split; [reflexivity|]. intros g Hg. destruct (Z.eqb_spec g f) as [->|].
    + unfold is_free. rewrite E. reflexivity.
    + rewrite orb_false_r. reflexivity.
Qed.

(** ** Single-frame allocation *)

Lemma takes_zero fs p p' : takes fs p p' -> used (bitmap p) 0 = true -> used (bitmap p') 0 = true.
Proof.
  intros Ht H0. destruct (Ht 0) as [H1 H2]; [unfold PMM_MAX_FRAMES; lia|].
  unfold is_free in *. rewrite H0 in *. simpl in *.
  destruct (used (bitmap p') 0) eqn:E; [reflexivity|]. exfalso.
  assert (~ fs 0) as Hn by (intros Hf; destruct (H1 Hf); discriminate). discriminate (H2 Hn).
Qed.

(** Frames in use stay in use. *)
Definition used_kept (p p' : pmm) : Prop :=
  forall g, 0 <= g < PMM_MAX_FRAMES -> is_free p g = false -> is_free p' g = false.

Lemma takes_kept fs p p' : takes fs p p' -> used_kept p p'.
Proof.
  intros Ht g Hg Hu. destruct (Ht g Hg) as [H1 H2].
  destruct (is_free p' g) eqn:E; [|reflexivity].
  assert (~ fs g) as Hn by (intros Hf; destruct (H1 Hf); congruence). specialize (H2 Hn). congruence.
Qed.

(** The outcome of a single-frame request below frame [cap]. *)
Definition alloc_post (cap : Z) (p : pmm) (res : Z * pmm) : Prop :=
  (res = (0, p) /\ forall f, 0 <= f < Z.min cap (total_frames p) -> is_free p f = false) \/
  (exists f, 0 < f < Z.min cap (total_frames p) /\ res.1 = f * PAGE_SIZE /\
     takes (fun g => g = f) p res.2 /\ free_frames res.2 = free_frames p - 1 /\ pmm_inv res.2).

Lemma take_frame_post cap p f :
  pmm_inv p -> 0 <= f < Z.min cap (total_frames p) -> is_free p f = true ->
  alloc_post cap p (take_frame f p).
Proof.
  intros [Hok H0] Hf E. right. exists f. pose proof (po_total p Hok). unfold PMM_MAX_FRAMES in *.
  destruct (mark_used_ok p f (u32 (f + 1)) Hok) as (Hok' & Hn & Ht); [lia|exact E|rewrite u32_small; lia|].
  assert (f <> 0) by (intros ->; unfold is_free in E; rewrite H0 in E; discriminate).
  split; [lia|]. split; [reflexivity|]. split; [exact Ht|]. split; [exact Hn|].
  split; [exact Hok'|]. eapply takes_zero; eauto.
Qed.

(** First fit from the hint, then from the bottom. *)
Lemma first_fit_post cap p :
  pmm_inv p ->
  alloc_post cap p
    match find_range (is_free p) (first_free_hint p) (Z.min cap (total_frames p)) with
    | Some f => take_frame f p
    | None => match find_range (is_free p) 0 (Z.min (first_free_hint p) (Z.min cap (total_frames p))) with
              | Some f => take_frame f p
              | None => (0, p)
              end
    end.
Proof.
  intros Hinv. pose proof (po_hint p (proj1 Hinv)).
  destruct (find_range _ (first_free_hint p) _) as [f|] eqn:E1.
  { apply find_range_Some in E1 as (Hf & Ef & _). apply take_frame_post; [exact Hinv|lia|exact Ef]. }
  destruct (find_range _ 0 _) as [f|] eqn:E2.
  { apply find_range_Some in E2 as (Hf & Ef & _). apply take_frame_post; [exact Hinv|lia|exact Ef]. }
  left. split; [reflexivity|]. intros f Hf.
  pose proof (proj1 (find_range_None _ _ _) E1) as N1. pose proof (proj1 (find_range_None _ _ _) E2) as N2.
  destruct (Z.ltb_spec f (first_free_hint p)); [apply N2; lia|apply N1; lia].
Qed.

Lemma alloc_ok p : pmm_inv p -> alloc_post PMM_MAX_FRAMES p (tpmm_alloc p).
Proof.
  intros Hinv. pose proof (first_fit_post PMM_MAX_FRAMES p Hinv) as Hp.
  rewrite (Z.min_r PMM_MAX_FRAMES) in Hp by (apply po_total, Hinv). exact Hp.
Qed.

Lemma alloc_low_ok p : pmm_inv p -> alloc_post 0x40000 p (tpmm_alloc_low p).
Proof.
  intros Hinv. pose proof (first_fit_post 0x40000 p Hinv) as Hp. pose proof (po_hint p (proj1 Hinv)).
  replace (Z.min (first_free_hint p) (Z.min 0x40000 (total_frames p)))
    with (Z.min (first_free_hint p) 0x40000) in Hp by lia. exact Hp.
Qed.

(** ** Contiguous allocation *)

(** Every window of [pages] frames inside [lo, hi) has a used frame. *)
Definition no_run (p : pmm) (pages lo hi : Z) : Prop :=
  forall s, lo <= s -> s + pages <= hi -> exists g, s <= g < s + pages /\ is_free p g = false.

(** The loop invariant of the scan that started at [lo]: the last [run]
    frames before [f] are free, the run is maximal, and nothing was missed. *)
Record scan_inv (p : pmm) (pages lo f run start : Z) : Prop := {
  si_run : 0 <= run < pages /\ lo <= f - run;
  si_start : run <> 0 -> start = f - run;
  si_free : forall g, f - run <= g < f -> is_free p g = true;
  si_max : f - run = lo \/ is_free p (f - run - 1) = false;
  si_none : no_run p pages lo f
}.

Lemma scan_inv_used p pages lo f run start :
  0 < pages -> scan_inv p pages lo f run start -> is_free p f = false ->
  scan_inv p pages lo (f + 1) 0 start.
Proof.
  intros Hp [Hr Hs Hf Hm Hn] E. constructor; try lia.
  - right. replace (f + 1 - 0 - 1) with f by lia. exact E.
  - intros s Hs1 Hs2. destruct (Z.eq_dec (s + pages) (f + 1)) as [Ee|]; [exists f; split; [lia|exact E]|].
    apply Hn; lia.
Qed.

Lemma scan_inv_free p pages lo f run start :
  scan_inv p pages lo f run start -> is_free p f = true -> run + 1 <> pages ->
  scan_inv p pages lo (f + 1) (run + 1) (if run =? 0 then f else start).
Proof.
  intros [Hr Hs Hf Hm Hn] E Hne. constructor.
  - lia.
  - intros _. destruct (Z.eqb_spec run 0); [lia|]. rewrite Hs by assumption. lia.
  - intros g Hg. destruct (Z.eq_dec g f) as [->|]; [exact E|]. apply Hf. lia.
  - replace (f + 1 - (run + 1)) with (f - run) by lia. exact Hm.
  - intros s Hs1 Hs2. destruct (Z.eq_dec (s + pages) (f + 1)) as [Ee|]; [|apply Hn; lia].
    destruct Hm as [Hm|Hm]; [lia|]. exists (f - run - 1). split; [lia|exact Hm].
Qed.

Lemma contig_scan_spec p pages lo n f run start :
  0 < pages -> 0 <= lo -> f + Z.of_nat n <= PMM_MAX_FRAMES ->
  scan_inv p pages lo f run start ->
  match contig_scan p pages f n run start with
  | inl st => lo <= st /\ st + pages <= f + Z.of_nat n /\
              (forall g, st <= g < st + pages -> is_free p g = true)
  | inr (run', start') => scan_inv p pages lo (f + Z.of_nat n) run' start'
  end.
Proof.
  intros Hp Hlo. revert f run start. induction n as [|n IH]; intros f run start Hn Hinv; cbn [contig_scan].
  { replace (f + Z.of_nat 0) with f by lia. exact Hinv. }
  replace (f + Z.of_nat (S n)) with (f + 1 + Z.of_nat n) in * by lia.
  destruct (is_free p f) eqn:E.
  - pose proof Hinv as [Hr Hs Hf _ _]. unfold PMM_MAX_FRAMES in *. rewrite u32_small by lia.
    destruct (Z.eqb_spec (run + 1) pages) as [Ep|Ep].
    + assert ((if run =? 0 then f else start) = f - run) as ->.
      { destruct (Z.eqb_spec run 0); [lia|auto]. }
      split; [lia|]. split; [lia|]. intros g Hg.
      destruct (Z.eq_dec g f) as [->|]; [exact E|]. apply Hf. lia.
    + apply IH; [lia|]. apply scan_inv_free; assumption.
  - apply IH; [lia|]. eapply scan_inv_used; eauto.
Qed.

Lemma scan_inv_start p pages f start : 0 < pages -> scan_inv p pages f f 0 start.
Proof. intros Hp. constructor; try lia. intros s ? ?. lia. Qed.

(** Frame 0 is used, so the second loop forgets the run of the first. *)
Lemma contig_scan_wrap p pages n run start :
  is_free p 0 = false -> n <> O ->
  contig_scan p pages 0 n run start = contig_scan p pages 0 n 0 start.
Proof. intros E Hn. destruct n as [|n]; [contradiction|]. cbn [contig_scan]. rewrite E. reflexivity. Qed.

Lemma take_run_ok p st pages :
  pmm_ok p -> 0 <= st -> 0 <= pages -> st + pages <= total_frames p ->
  (forall g, st <= g < st + pages -> is_free p g = true) ->
  let '(r, p') := take_run st pages p in
  r = st * PAGE_SIZE /\ pmm_ok p' /\ free_frames p' = free_frames p - pages /\
  takes (fun g => st <= g < st + pages) p p'.
Proof.
  intros Hok Hst Hp Hle Hfree. unfold take_run. pose proof (po_total p Hok) as Ht. unfold PMM_MAX_FRAMES in Ht.
  set (hint := first_free_hint p).
  pose (Inv := fun i (x : gmap Z Z * Z) =>
    pmm_ok (mk_pmm x.1 (total_frames p) x.2 hint) /\ x.2 = free_frames p - i /\
    forall g, 0 <= g < PMM_MAX_FRAMES ->
      used x.1 g = used (bitmap p) g || ((st <=? g) && (g <? st + i))).
  assert (Inv pages (for_range (fun i '(b, n) => (bit_set (u32 (st + i)) b, u32 (n - 1)))
            0 pages (bitmap p, free_frames p))) as Hend.
  { apply (for_range_ind Inv); [exact Hp| |].
    - split; [destruct p; exact Hok|]. split; [simpl; lia|]. intros g Hg. simpl.
      replace ((st <=? g) && (g <? st + 0)) with false by lia. rewrite orb_false_r. reflexivity.
    - intros i [b n] Hi (Hoki & Hn & Hu). simpl in *. rewrite (u32_small (st + i)) by lia.
      destruct (mark_used_ok (mk_pmm b (total_frames p) n hint) (st + i) hint Hoki)
        as (Hok' & Hn' & _); simpl; [lia| |apply (po_hint p Hok)|].
      + specialize (Hfree (st + i) ltac:(lia)). unfold is_free in *. simpl.
        rewrite Hu by (unfold PMM_MAX_FRAMES; lia). replace (st + i <? st + i) with false by lia.
        rewrite andb_false_r, orb_false_r. exact Hfree.
      + simpl in Hn'. split; [exact Hok'|]. split; [simpl; lia|]. intros g Hg. simpl.
        rewrite used_set, Hu by (unfold PMM_MAX_FRAMES in *; lia).
        destruct (used (bitmap p) g); [rewrite !orb_true_r; reflexivity|]. lia. }
  destruct (for_range _ 0 pages _) as [b n]. destruct Hend as (Hok' & Hn & Hu). simpl in *.
  split; [reflexivity|]. split; [|split; [exact Hn|]].
  - destruct Hok' as [H1 H2 _ H4]. constructor; simpl in *; auto. rewrite u32_small; lia.
  - intros g Hg. unfold is_free. simpl. rewrite Hu by exact Hg. split.
    + intros Hr. specialize (Hfree g Hr). unfold is_free in Hfree. split; [exact Hfree|].
      replace ((st <=? g) && (g <? st + pages)) with true by lia. rewrite orb_true_r. reflexivity.
    + intros Hr. replace ((st <=? g) && (g <? st + pages)) with false by lia. rewrite orb_false_r. reflexivity.
Qed.

(** The outcome of a request for [pages] frames below frame [cap]. *)
Definition contig_post (pages cap : Z) (p : pmm) (res : Z * pmm) : Prop :=
  (res = (0, p) /\ no_run p pages (first_free_hint p) cap /\
   no_run p pages 0 (Z.min (first_free_hint p) cap)) \/
  (exists st, 0 < st /\ st + pages <= cap /\ res.1 = st * PAGE_SIZE /\
     takes (fun g => st <= g < st + pages) p res.2 /\
     free_frames res.2 = free_frames p - pages /\ pmm_inv res.2).

Lemma take_run_post pages cap p st :
  pmm_inv p -> 0 < pages -> 0 <= st -> st + pages <= cap <= total_frames p ->
  (forall g, st <= g < st + pages -> is_free p g = true) ->
  contig_post pages cap p (take_run st pages p).
Proof.
  intros [Hok H0] Hp Hst Hle Hfree.
  pose proof (take_run_ok p st pages Hok Hst ltac:(lia) ltac:(lia) Hfree) as Hr.
  destruct (take_run st pages p) as [r p']. destruct Hr as (Er & Hok' & Hn & Ht).
  right. exists st. assert (st <> 0).
  { intros ->. specialize (Hfree 0 ltac:(lia)). unfold is_free in Hfree. rewrite H0 in Hfree. discriminate. }
  split; [lia|]. split; [lia|]. split; [exact Er|]. split; [exact Ht|]. split; [exact Hn|].
  split; [exact Hok'|]. eapply takes_zero; eauto.
Qed.

Lemma contig_from_post pages cap p :
  pmm_inv p -> 0 < pages -> 0 <= cap <= total_frames p ->
  contig_post pages cap p (contig_from pages cap (Z.min (first_free_hint p) cap) p).
Proof.
  intros Hinv Hp Hcap. pose proof Hinv as [Hok H0]. unfold contig_from. set (h := first_free_hint p).
  pose proof (po_hint p Hok) as Hh. fold h in Hh. pose proof (po_total p Hok).
  destruct (Z.leb_spec cap h) as [Hc|Hc].
  - replace (Z.to_nat (cap - h)) with O by lia. simpl. replace (Z.min h cap) with cap by lia.
    pose proof (contig_scan_spec p pages 0 (Z.to_nat cap) 0 0 0 Hp ltac:(lia) ltac:(lia)
      (scan_inv_start p pages 0 0 Hp)) as Hs.
    destruct (contig_scan p pages 0 (Z.to_nat cap) 0 0) as [st|[run st]].
    + destruct Hs as (? & ? & ?). apply take_run_post; auto; lia.
    + left. split; [reflexivity|]. fold h. replace (Z.min h cap) with cap by lia.
      split; [intros s ? ?; lia|]. replace cap with (0 + Z.of_nat (Z.to_nat cap)) by lia. apply Hs.
  - replace (Z.min h cap) with h by lia.
    pose proof (contig_scan_spec p pages h (Z.to_nat (cap - h)) h 0 0 Hp ltac:(lia) ltac:(lia)
      (scan_inv_start p pages h 0 Hp)) as Hs1.
    destruct (contig_scan p pages h (Z.to_nat (cap - h)) 0 0) as [st|[run st]].
    { destruct Hs1 as (? & ? & ?). apply take_run_post; auto; lia. }
    replace (h + Z.of_nat (Z.to_nat (cap - h))) with cap in Hs1 by lia.
    assert (contig_scan p pages 0 (Z.to_nat h) run st = contig_scan p pages 0 (Z.to_nat h) 0 st
            \/ h = 0) as Hw.
    { destruct (Z.eq_dec h 0); [auto|left]. apply contig_scan_wrap; [unfold is_free; rewrite H0; reflexivity|lia]. }
    destruct Hw as [->|Hz].
    + pose proof (contig_scan_spec p pages 0 (Z.to_nat h) 0 0 st Hp ltac:(lia) ltac:(lia)
        (scan_inv_start p pages 0 st Hp)) as Hs2.
      destruct (contig_scan p pages 0 (Z.to_nat h) 0 st) as [st2|[run2 st2]].
      * destruct Hs2 as (? & ? & ?). apply take_run_post; auto; lia.
      * left. split; [reflexivity|]. fold h. split; [apply Hs1|].
        replace (Z.min h cap) with (0 + Z.of_nat (Z.to_nat h)) by lia. apply Hs2.
    + rewrite Hz in *. simpl. left. split; [reflexivity|]. fold h. rewrite Hz.
      split; [apply Hs1|]. intros s ? ?. lia.
Qed.

Lemma alloc_contig_ok pages p :
  pmm_inv p -> 0 < pages -> contig_post pages (total_frames p) p (tpmm_alloc_contig pages p).
Proof.
  intros Hinv Hp. pose proof (po_total p (proj1 Hinv)). pose proof (po_hint p (proj1 Hinv)).
  pose proof (contig_from_post pages (total_frames p) p Hinv Hp ltac:(lia)) as Hr.
  unfold tpmm_alloc_contig. rewrite Z.min_l in Hr by lia. exact Hr.
Qed.

Lemma alloc_low_contig_ok pages p :
  pmm_inv p -> 0 < pages ->
  contig_post pages (Z.min 0x40000 (total_frames p)) p (tpmm_alloc_low_contig pages p).
Proof.
  intros Hinv Hp. pose proof (po_total p (proj1 Hinv)). unfold tpmm_alloc_low_contig.
  replace (if 0x40000 >? total_frames p then total_frames p else 0x40000)
    with (Z.min 0x40000 (total_frames p)) by (case_if; lia).
  destruct (Z.eqb_spec pages 0); [lia|]. simpl.
  destruct (Z.gtb_spec pages (Z.min 0x40000 (total_frames p))).
  - left. split; [reflexivity|]. split; intros s ? ?; [|lia].
    pose proof (po_hint p (proj1 Hinv)). lia.
  - apply contig_from_post; auto. lia.
Qed.

(** ** Ranges *)

Definition in_pages (base size f : Z) : bool :=
  (base / PAGE_SIZE <=? f) && (f * PAGE_SIZE <? base + size).

Lemma reserve_region_ok base size p :
  pmm_ok p -> 0 <= base -> 0 <= size -> base + size <= 17592186044416 ->
  exists p', reserve_region base size p = Some p' /\ pmm_ok p' /\ total_frames p' = total_frames p /\
    forall f, 0 <= f < PMM_MAX_FRAMES -> is_free p' f = is_free p f && negb (in_pages base size f).
Proof.
  intros Hok Hb Hs Hmax. unfold reserve_region.
  apply (page_loop_ind (fun a q => pmm_ok q /\ total_frames q = total_frames p /\
    (a - 4096 < base + size \/ a = base - base mod 4096) /\ a mod 4096 = 0 /\ base - base mod 4096 <= a /\
    forall f, 0 <= f < PMM_MAX_FRAMES ->
      is_free q f = is_free p f && negb ((base / 4096 <=? f) && (f <? a / 4096)))); try lia.
  - split; [exact Hok|]. split; [reflexivity|]. split; [lia|]. split; [zlia|]. split; [zlia|].
    intros f Hf. replace ((base / 4096 <=? f) && (f <? (base - base mod 4096) / 4096)) with false by zlia.
    rewrite andb_true_r. reflexivity.
  - intros a q Ha Hal (Hq & Ht & _ & _ & Ha0 & Hfr).
    destruct (reserve_frame_ok a q Hq ltac:(lia)) as (Hq' & Ht' & Hfr').
    split; [exact Hq'|]. split; [congruence|]. split; [lia|]. split; [zlia|]. split; [lia|].
    intros f Hf. rewrite Hfr', Hfr by exact Hf. unfold PAGE_SIZE. rewrite u32_small by zlia.
    destruct (is_free p f); [|reflexivity]. simpl. replace ((a + 4096) / 4096) with (a / 4096 + 1) by zlia.
    destruct (Z.eqb_spec f (a / 4096)); zlia.
  - intros a q Ha (Hq & Ht & Hlast & Hal & Ha0 & Hfr). split; [exact Hq|]. split; [exact Ht|].
    intros f Hf. rewrite Hfr by exact Hf. unfold in_pages, PAGE_SIZE.
    destruct (is_free p f); [|reflexivity]. simpl. f_equal. zlia.
Qed.

Lemma release_range_ok base size p :
  pmm_ok p -> 0 <= base -> 0 <= size -> base + size <= 17592186044416 ->
  exists p', tpmm_release_range base size p = Some p' /\ pmm_ok p' /\ total_frames p' = total_frames p /\
    forall f, 0 <= f < PMM_MAX_FRAMES ->
      is_free p' f = is_free p f || (in_pages base size f && (f <? total_frames p)).
Proof.
  intros Hok Hb Hs Hmax. unfold tpmm_release_range. pose proof (po_total p Hok) as HT.
  apply (page_loop_ind (fun a q => pmm_ok q /\ total_frames q = total_frames p /\
    (a - 4096 < base + size \/ a = base - base mod 4096) /\ a mod 4096 = 0 /\ base - base mod 4096 <= a /\
    forall f, 0 <= f < PMM_MAX_FRAMES ->
      is_free q f = is_free p f || ((base / 4096 <=? f) && (f <? a / 4096) && (f <? total_frames p)))); try lia.
  - split; [exact Hok|]. split; [reflexivity|]. split; [lia|]. split; [zlia|]. split; [zlia|].
    intros f Hf. replace ((base / 4096 <=? f) && (f <? (base - base mod 4096) / 4096)) with false by zlia.
    rewrite orb_false_r. reflexivity.
  - intros a q Ha Hal (Hq & Ht & _ & _ & Ha0 & Hfr). unfold PAGE_SIZE.
    rewrite (u32_small (a / 4096)) by zlia.
    destruct (Z.geb_spec (a / 4096) (total_frames q)) as [Hge|Hlt].
    + split; [exact Hq|]. split; [exact Ht|]. intros f Hf. rewrite Hfr by exact Hf.
      unfold in_pages, PAGE_SIZE. destruct (is_free p f); [reflexivity|]. simpl. zlia.
    + destruct (release_frame_ok (a / 4096) q Hq) as (Hq' & Ht' & Hfr'); [zlia|].
      split; [exact Hq'|]. split; [congruence|]. split; [lia|]. split; [zlia|]. split; [lia|].
      intros f Hf. rewrite Hfr', Hfr by exact Hf.
      destruct (is_free p f); [reflexivity|]. simpl. replace ((a + 4096) / 4096) with (a / 4096 + 1) by zlia.
      destruct (Z.eqb_spec f (a / 4096)); zlia.
  - intros a q Ha (Hq & Ht & Hlast & Hal & Ha0 & Hfr). split; [exact Hq|]. split; [exact Ht|].
    intros f Hf. rewrite Hfr by exact Hf. unfold in_pages, PAGE_SIZE.
    destruct (is_free p f); [reflexivity|]. simpl. zlia.
Qed.

Lemma free_ok phys p :
  pmm_ok p -> 0 <= phys < 17592186044416 ->
  pmm_ok (tpmm_free phys p) /\ total_frames (tpmm_free phys p) = total_frames p /\
  forall f, 0 <= f < PMM_MAX_FRAMES ->
    is_free (tpmm_free phys p) f = is_free p f || ((f =? phys / PAGE_SIZE) && (f <? total_frames p)).
Proof.
  intros Hok Hp. unfold tpmm_free, PAGE_SIZE. rewrite u32_small by zlia.
  destruct (Z.geb_spec (phys / 4096) (total_frames p)) as [Hge|Hlt].
  - split; [exact Hok|]. split; [reflexivity|]. intros f Hf.
    replace ((f =? phys / 4096) && (f <? total_frames p)) with false by lia. rewrite orb_false_r. reflexivity.
  - destruct (release_frame_ok (phys / 4096) p Hok) as (H1 & H2 & H3); [zlia|].
    split; [exact H1|]. split; [exact H2|]. intros f Hf. rewrite H3 by exact Hf. f_equal. lia.
Qed.

(** ** Initialisation *)

Lemma all_used_used b f : 0 <= f < PMM_MAX_FRAMES -> used (all_used b) f = true.
Proof.
  intros Hf. rewrite used_testbit by lia.
  assert (forall w, 0 <= w < PMM_BITMAP_WORDS -> rd (all_used b) w = 4294967295) as Hw.
  { unfold all_used. intros w Hw. revert w Hw.
    apply (for_range_ind (fun i b' => forall w, 0 <= w < i -> rd b' w = 4294967295)).
    - unfold PMM_BITMAP_WORDS. lia.
    - lia.
    - intros i b' Hi IH w Hw. destruct (Z.eq_dec w i) as [->|]; [apply rd_insert_eq|].
      rewrite rd_insert_ne by lia. apply IH. lia. }
  rewrite Hw by (unfold PMM_MAX_FRAMES, PMM_BITMAP_WORDS in *; zlia).
  change 4294967295 with (Z.ones 32). apply Z.ones_spec_low. apply Z.mod_pos_bound. lia.
Qed.

(** Raising [total_frames] over used frames changes no count. *)
Lemma count_free_extend p t :
  pmm_ok p -> total_frames p <= t <= PMM_MAX_FRAMES ->
  count_range (is_free p) 0 t = count_range (is_free p) 0 (total_frames p).
Proof.
  intros [Ht _ _ Hb] Hle. rewrite (count_range_split _ 0 (total_frames p) t) by lia.
  enough (count_range (is_free p) (total_frames p) t = 0) by lia.
  destruct (Z.eq_dec (count_range (is_free p) (total_frames p) t) 0) as [|Hne]; [assumption|].
  pose proof (count_range_bounds (is_free p) (total_frames p) t ltac:(lia)).
  destruct (count_range_pos (is_free p) (total_frames p) t ltac:(lia)) as (f & Hf & E).
  unfold is_free in E. rewrite Hb in E by lia. discriminate.
Qed.

Lemma extend_total_ok p t : pmm_ok p -> total_frames p <= t <= PMM_MAX_FRAMES ->
  pmm_ok (mk_pmm (bitmap p) t (free_frames p) (first_free_hint p)).
Proof.
  intros Hok Hle. pose proof (count_free_extend p t Hok Hle) as Hc.
  destruct Hok as [H1 H2 H3 H4]. constructor; simpl; try lia.
  - rewrite H2, <- Hc. reflexivity.
  - intros f Hf. apply H4. lia.
Qed.

Lemma avail_frame_ok f p :
  pmm_ok p -> 0 <= f < PMM_MAX_FRAMES ->
  pmm_ok (avail_frame f p) /\
  forall g, 0 <= g < PMM_MAX_FRAMES -> is_free (avail_frame f p) g = is_free p g || (g =? f).
Proof.
  intros Hok Hf. set (t := Z.max (total_frames p) (f + 1)).
  pose proof (po_total p Hok) as HT. pose proof (po_hint p Hok) as HH.
  pose proof (extend_total_ok p t Hok ltac:(lia)) as Hokt. unfold avail_frame.
  rewrite (u32_small (f + 1)) by (unfold PMM_MAX_FRAMES in *; lia).
  destruct (used (bitmap p) f) eqn:E.
  - destruct (mark_free_ok (mk_pmm (bitmap p) t (free_frames p) (first_free_hint p)) f (first_free_hint p) Hokt)
      as (Hok' & _ & Htk); simpl; [lia|unfold is_free; simpl; rewrite E; reflexivity|lia|].
    simpl in *. assert (forall g, 0 <= g < PMM_MAX_FRAMES -> forall q, bitmap q = bit_clear f (bitmap p) ->
      is_free q g = is_free p g || (g =? f)) as Hg.
    { intros g Hg q Eq. destruct (Htk g Hg) as [T1 T2]. unfold is_free in *. rewrite Eq. simpl in *.
      destruct (Z.eqb_spec g f) as [->|Hne]; [rewrite orb_true_r; apply T1; reflexivity|].
      rewrite orb_false_r. symmetry. apply T2, Hne. }
    destruct (Z.geb_spec f (total_frames p)); (split; [|intros g Hg'; apply Hg; [exact Hg'|reflexivity]]).
    + replace (f + 1) with t by lia. exact Hok'.
    + replace (total_frames p) with t by lia. exact Hok'.
  - assert (f < total_frames p) by (apply (free_in_range p f Hok Hf); unfold is_free; rewrite E; reflexivity).
    replace (f >=? total_frames p) with false by lia. split; [exact Hok|]. intros g Hg.
    destruct (Z.eqb_spec g f) as [->|]; [|rewrite orb_false_r; reflexivity].
    unfold is_free. rewrite E. reflexivity.
Qed.

Lemma avail_range_ok lo hi p :
  pmm_ok p -> 0 <= lo -> hi <= PMM_MAX_FRAMES ->
  pmm_ok (for_range avail_frame lo hi p) /\
  forall g, 0 <= g < PMM_MAX_FRAMES ->
    is_free (for_range avail_frame lo hi p) g = is_free p g || ((lo <=? g) && (g <? hi)).
Proof.
  intros Hok Hlo Hhi. destruct (Z.leb_spec lo hi) as [Hle|Hgt].
  - apply (for_range_ind (fun i q => pmm_ok q /\ forall g, 0 <= g < PMM_MAX_FRAMES ->
      is_free q g = is_free p g || ((lo <=? g) && (g <? i)))); [exact Hle| |].
    + split; [exact Hok|]. intros g Hg. destruct (is_free p g); simpl; lia.
    + intros i q Hi [Hq Hg]. destruct (avail_frame_ok i q Hq ltac:(lia)) as [Hq' Hg'].
      split; [exact Hq'|]. intros g Hr. rewrite Hg', Hg by exact Hr. destruct (is_free p g); simpl; lia.
  - rewrite for_range_empty by lia. split; [exact Hok|]. intros g Hg.
    replace ((lo <=? g) && (g <? hi)) with false by lia. rewrite orb_false_r. reflexivity.
Qed.

(** Entry [e] of the memory map makes the whole frame [f] available. *)
Definition covers (mem : Z -> Z) (e f : Z) : Prop :=
  rd32 mem (e + 16) = MB2_MMAP_AVAIL /\ rd64 mem e <= f * PAGE_SIZE /\
  (f + 1) * PAGE_SIZE <= rd64 mem e + rd64 mem (e + 8) /\ 0 <= f < PMM_MAX_FRAMES.

(** An entry whose frame numbers fit in 32 bits and whose end does not wrap. *)
Definition entry_good (mem : Z -> Z) (e : Z) : Prop :=
  0 <= rd64 mem e <= 8796093022208 /\ 0 <= rd64 mem (e + 8) /\
  rd64 mem e + rd64 mem (e + 8) < 18446744073709551616.

Lemma mmap_entry_ok mem e p :
  pmm_ok p -> entry_good mem e ->
  pmm_ok (mmap_entry mem e p) /\
  forall f, 0 <= f < PMM_MAX_FRAMES ->
    (is_free (mmap_entry mem e p) f = true <-> is_free p f = true \/ covers mem e f).
Proof.
  intros Hok (Hb & Hl & Hsum). unfold mmap_entry, covers.
  destruct (Z.eqb_spec (rd32 mem (e + 16)) MB2_MMAP_AVAIL) as [Et|Et].
  2:{ split; [exact Hok|]. intros f Hf. tauto. }
  rewrite (u64_small (rd64 mem e + rd64 mem (e + 8))) by lia.
  rewrite (u64_small (rd64 mem e + PAGE_SIZE - 1)) by (unfold PAGE_SIZE; lia).
  set (base := rd64 mem e) in *. set (len := rd64 mem (e + 8)) in *.
  set (stop := if base + len >? PMM_MAX_ADDR then PMM_MAX_ADDR else base + len).
  assert (stop = Z.min PMM_MAX_ADDR (base + len)) as Hstop by (unfold stop; case_if; lia).
  unfold PAGE_SIZE, PMM_MAX_ADDR, PMM_MAX_FRAMES in *.
  rewrite (u32_small ((base + 4096 - 1) / 4096)), (u32_small (stop / 4096)) by zlia.
  destruct (avail_range_ok ((base + 4096 - 1) / 4096) (stop / 4096) p Hok) as [Hok' Hg];
    [zlia|unfold PMM_MAX_FRAMES; zlia|].
  split; [exact Hok'|]. intros f Hf. rewrite Hg, orb_true_iff by exact Hf.
  assert (((base + 4096 - 1) / 4096 <=? f) && (f <? stop / 4096) = true <->
    base <= f * 4096 /\ (f + 1) * 4096 <= base + len) as Hiff by zlia.
  rewrite Hiff. tauto.
Qed.

(** The number of entries of the tag at [p0] and the address of the next tag. *)
Definition tag_entries (mem : Z -> Z) (p0 : Z) : Z :=
  u32 (rd32 mem (p0 + 4) - 16) / rd32 mem (p0 + 8).
Definition tag_next (mem : Z -> Z) (p0 : Z) : Z :=
  u64 (p0 + Z.land (u32 (rd32 mem (p0 + 4) + 7)) (not64 7)).
Definition tag_entry (mem : Z -> Z) (p0 i : Z) : Z := u64 (p0 + 16 + i * rd32 mem (p0 + 8)).

(** The entries a scan starting at [p0] looks at. *)
Inductive map_entry (mem : Z -> Z) (stop : Z) : Z -> Z -> Prop :=
| me_here p0 i : p0 + 8 <= stop -> rd32 mem p0 = MB2_TAG_MMAP ->
    0 <= i < tag_entries mem p0 -> map_entry mem stop p0 (tag_entry mem p0 i)
| me_next p0 e : p0 + 8 <= stop -> rd32 mem p0 <> 0 ->
    map_entry mem stop (tag_next mem p0) e -> map_entry mem stop p0 e.

(** A tag list as the Multiboot2 specification describes it: sizes cover the
    header, tags advance towards the end, memory-map entries have a size. *)
Inductive tags_ok (mem : Z -> Z) (stop : Z) : Z -> Prop :=
| tags_end p0 : stop < p0 + 8 < 18446744073709551616 -> tags_ok mem stop p0
| tags_zero p0 : p0 + 8 <= stop -> rd32 mem p0 = 0 -> tags_ok mem stop p0
| tags_cons p0 : p0 + 8 <= stop -> rd32 mem p0 <> 0 ->
    p0 + 8 <= tag_next mem p0 ->
    (rd32 mem p0 = MB2_TAG_MMAP -> 0 < rd32 mem (p0 + 8) /\
       forall i, 0 <= i < tag_entries mem p0 -> entry_good mem (tag_entry mem p0 i)) ->
    tags_ok mem stop (tag_next mem p0) -> tags_ok mem stop p0.

Lemma mmap_tag_ok mem p0 p :
  pmm_ok p -> 0 < rd32 mem (p0 + 8) ->
  (forall i, 0 <= i < tag_entries mem p0 -> entry_good mem (tag_entry mem p0 i)) ->
  exists p', mmap_tag mem p0 p = Some p' /\ pmm_ok p' /\
    forall f, 0 <= f < PMM_MAX_FRAMES ->
      (is_free p' f = true <-> is_free p f = true \/
         exists i, 0 <= i < tag_entries mem p0 /\ covers mem (tag_entry mem p0 i) f).
Proof.
  intros Hok Hes Hgood. unfold mmap_tag. destruct (Z.eqb_spec (rd32 mem (p0 + 8)) 0); [lia|].
  eexists. split; [reflexivity|]. fold (tag_entries mem p0).
  assert (0 <= tag_entries mem p0).
  { apply Z.div_pos; [apply u32_range|lia]. }
  apply (for_range_ind (fun k q => pmm_ok q /\ forall f, 0 <= f < PMM_MAX_FRAMES ->
    (is_free q f = true <-> is_free p f = true \/
       exists i, 0 <= i < k /\ covers mem (tag_entry mem p0 i) f))); [lia| |].
  - split; [exact Hok|]. intros f Hf. split; [auto|]. intros [?|(i & ? & _)]; [assumption|lia].
  - intros k q Hk [Hq Hfr]. fold (tag_entry mem p0 k).
    destruct (mmap_entry_ok mem (tag_entry mem p0 k) q Hq (Hgood k Hk)) as [Hq' Hfr'].
    split; [exact Hq'|]. intros f Hf. rewrite Hfr', Hfr by exact Hf. split.
    + intros [[?|(i & Hi & Hc)]|Hc]; [auto|right; exists i; split; [lia|exact Hc]|
        right; exists k; split; [lia|exact Hc]].
    + intros [?|(i & Hi & Hc)]; [auto|]. destruct (Z.eq_dec i k) as [->|]; [auto|].
      left. right. exists i. split; [lia|exact Hc].
Qed.

Lemma mmap_scan_ok mem stop p0 :
  tags_ok mem stop p0 -> forall fuel p,
  0 <= p0 -> stop < 18446744073709551608 -> stop - p0 < 8 * Z.of_nat fuel -> pmm_ok p ->
  exists p', mmap_scan mem fuel p0 stop p = InitOk p' /\ pmm_ok p' /\
    forall f, 0 <= f < PMM_MAX_FRAMES ->
      (is_free p' f = true <-> is_free p f = true \/ exists e, map_entry mem stop p0 e /\ covers mem e f).
Proof.
  induction 1 as [p0 Hend|p0 Hle Hty|p0 Hle Hty Hadv Hmap Hrest IH];
    intros fuel p H0 Hmax Hfuel Hok.
  - exists p. split; [destruct fuel; cbn [mmap_scan]; rewrite u64_small by lia; replace (p0 + 8 <=? stop) with false by lia; reflexivity|].
    split; [exact Hok|]. intros f Hf. split; [auto|]. intros [?|(e & He & _)]; [assumption|].
    inversion He; lia.
  - exists p. split.
    { destruct fuel as [|fuel]; [lia|]. cbn [mmap_scan]. rewrite u64_small by lia. replace (p0 + 8 <=? stop) with true by lia.
      rewrite Hty. reflexivity. }
    split; [exact Hok|]. intros f Hf. split; [auto|]. intros [?|(e & He & _)]; [assumption|].
    inversion He as [? ? ? Hx|]; [rewrite Hty in Hx; discriminate|contradiction].
  - pose proof (u64_range (p0 + Z.land (u32 (rd32 mem (p0 + 4) + 7)) (not64 7))) as Hr.
    fold (tag_next mem p0) in Hr.
    destruct fuel as [|fuel]; [lia|]. cbn [mmap_scan].
    rewrite (u64_small (p0 + 8)) by lia. replace (p0 + 8 <=? stop) with true by lia. apply Z.eqb_neq in Hty as Hty'. rewrite Hty'.
    fold (tag_next mem p0).
    destruct (Z.eqb_spec (rd32 mem p0) MB2_TAG_MMAP) as [Em|Em].
    + destruct (Hmap Em) as [Hes Hgood]. destruct (mmap_tag_ok mem p0 p Hok Hes Hgood) as (p1 & -> & Hok1 & Hf1).
      destruct (IH fuel p1) as (p2 & -> & Hok2 & Hf2); [lia|lia|lia|exact Hok1|].
      exists p2. split; [reflexivity|]. split; [exact Hok2|]. intros f Hf. rewrite Hf2, Hf1 by exact Hf. split.
      * intros [[?|(i & Hi & Hc)]|(e & He & Hc)]; [auto| |];
          right; eexists; (split; [|exact Hc]); [apply me_here; auto|apply me_next; auto].
      * intros [?|(e & He & Hc)]; [auto|]. inversion He; subst; [left; right; eauto|right; eauto].
    + destruct (IH fuel p) as (p2 & -> & Hok2 & Hf2); [lia|lia|lia|exact Hok|].
      exists p2. split; [reflexivity|]. split; [exact Hok2|]. intros f Hf. rewrite Hf2 by exact Hf. split.
      * intros [?|(e & He & Hc)]; [auto|]. right. exists e. split; [apply me_next; auto|exact Hc].
      * intros [?|(e & He & Hc)]; [auto|]. inversion He; subst; [contradiction|eauto].
Qed.

(** * The allocator in use *)

(** The calls the rest of the kernel makes after [tpmm_init]: frames given
    back are page-aligned addresses other than 0, ranges lie below 16 TiB. *)
Inductive pmm_step : pmm -> pmm -> Prop :=
| ps_alloc p : pmm_step p (tpmm_alloc p).2
| ps_alloc_low p : pmm_step p (tpmm_alloc_low p).2
| ps_contig p n : 0 < n -> pmm_step p (tpmm_alloc_contig n p).2
| ps_low_contig p n : 0 < n -> pmm_step p (tpmm_alloc_low_contig n p).2
| ps_free p phys : PAGE_SIZE <= phys < 17592186044416 -> pmm_step p (tpmm_free phys p)
| ps_reserve p base size p' : 0 <= base -> 0 <= size -> base + size <= 17592186044416 ->
    tpmm_reserve_range base size p = Some p' -> pmm_step p p'
| ps_release p base size p' : PAGE_SIZE <= base -> 0 <= size -> base + size <= 17592186044416 ->
    tpmm_release_range base size p = Some p' -> pmm_step p p'.

Lemma alloc_post_inv cap p res : pmm_inv p -> alloc_post cap p res -> pmm_inv res.2.
Proof. intros Hinv [[-> _]|(f & _ & _ & _ & _ & H)]; [exact Hinv|exact H]. Qed.

Lemma contig_post_inv n cap p res : pmm_inv p -> contig_post n cap p res -> pmm_inv res.2.
Proof. intros Hinv [[-> _]|(f & _ & _ & _ & _ & _ & H)]; [exact Hinv|exact H]. Qed.

Lemma zero_frame_used p : is_free p 0 = false <-> used (bitmap p) 0 = true.
Proof. unfold is_free. destruct (used (bitmap p) 0); split; auto. Qed.

Lemma pmm_step_inv p p' : pmm_inv p -> pmm_step p p' -> pmm_inv p'.
Proof.
  intros Hinv Hs. assert (0 <= 0 < PMM_MAX_FRAMES) as HZ by (unfold PMM_MAX_FRAMES; lia).
  pose proof Hinv as [Hok H0]. rewrite <- zero_frame_used in H0. destruct Hs.
  - eapply alloc_post_inv, alloc_ok; assumption.
  - eapply alloc_post_inv, alloc_low_ok; assumption.
  - eapply contig_post_inv, alloc_contig_ok; assumption.
  - eapply contig_post_inv, alloc_low_contig_ok; assumption.
  - destruct (free_ok phys p Hok) as (Hok' & _ & Hf); [unfold PAGE_SIZE in *; lia|].
    split; [exact Hok'|]. apply zero_frame_used. rewrite Hf, H0, orb_false_l by exact HZ.
    unfold PAGE_SIZE in *. zlia.
  - destruct (reserve_region_ok base size p Hok) as (q & E & Hok' & _ & Hf); try assumption.
    unfold tpmm_reserve_range in *. assert (p' = q) as -> by congruence.
    split; [exact Hok'|]. apply zero_frame_used. rewrite Hf, H0 by exact HZ. reflexivity.
  - destruct (release_range_ok base size p Hok) as (q & E & Hok' & _ & Hf); try assumption; [unfold PAGE_SIZE in *; lia|].
    assert (p' = q) as -> by congruence. split; [exact Hok'|]. apply zero_frame_used.
    rewrite Hf, H0, orb_false_l by exact HZ. unfold in_pages, PAGE_SIZE in *. zlia.
Qed.

(** C35. [tpmm_init] on a well-formed Multiboot2 information structure
    terminates and leaves exactly these frames free: the frames below 4 GiB
    that some memory-map entry of type 1 covers completely, outside the first
    MiB and outside the kernel image; the counters agree with the bitmap. *)
Theorem pmm_init_correct mem fuel kstart kend mbi p :
  0 <= mbi -> 0 <= rd32 mem mbi < 8 * Z.of_nat fuel ->
  mbi + rd32 mem mbi < 18446744073709551608 ->
  tags_ok mem (mbi + rd32 mem mbi) (mbi + 8) ->
  0 <= kstart <= kend -> kend <= 17592186044416 ->
  exists p', tpmm_init mem fuel kstart kend mbi p = InitOk p' /\ pmm_inv p' /\
    forall f, 0 <= f < PMM_MAX_FRAMES ->
      (is_free p' f = true <->
       (exists e, map_entry mem (mbi + rd32 mem mbi) (mbi + 8) e /\ covers mem e f) /\
       256 <= f /\ in_pages kstart (kend - kstart) f = false).
Proof.
  intros Hm Hsz Hmax Htags Hk Hkmax. unfold tpmm_init.
  rewrite !u64_small by lia.
  assert (pmm_ok (mk_pmm (all_used (bitmap p)) 0 0 0)) as H0.
  { constructor; simpl; try lia; [unfold PMM_MAX_FRAMES; lia|reflexivity|]. intros f Hf. apply all_used_used. lia. }
  destruct (mmap_scan_ok _ _ _ Htags fuel _ ltac:(lia) ltac:(lia) ltac:(lia) H0) as (p1 & -> & Hok1 & Hf1).
  destruct (reserve_region_ok 0 0x100000 p1 Hok1) as (p2 & -> & Hok2 & Ht2 & Hf2); [lia..|].
  destruct (reserve_region_ok kstart (kend - kstart) p2 Hok2) as (p3 & -> & Hok3 & Ht3 & Hf3); [lia..|].
  exists p3. split; [reflexivity|].
  assert (forall f, 0 <= f -> in_pages 0 0x100000 f = (f <? 256)) as Hlow
    by (intros f Hf; unfold in_pages, PAGE_SIZE; zlia).
  split; [split; [exact Hok3|]|].
  - apply zero_frame_used. rewrite Hf3, Hf2, Hlow by (unfold PMM_MAX_FRAMES; lia).
    rewrite andb_false_r. reflexivity.
  - intros f Hf. rewrite Hf3, Hf2, Hlow, !andb_true_iff, !negb_true_iff, Hf1 by (exact Hf || lia).
    assert (is_free (mk_pmm (all_used (bitmap p)) 0 0 0) f = false) as Hn.
    { unfold is_free. simpl. rewrite all_used_used by exact Hf. reflexivity. }
    rewrite Hn, Z.ltb_ge. intuition congruence.
Qed.

(** [tpmm_alloc] and [tpmm_alloc_low] either return the address of a frame
    that was free (below 1 GiB for the latter, never frame 0), mark that frame
    and no other, and decrement the free count by one; or they return 0 with
    the state unchanged, and then no such frame is free. *)
Theorem pmm_alloc_correct p :
  pmm_inv p ->
  alloc_post PMM_MAX_FRAMES p (tpmm_alloc p) /\ alloc_post 0x40000 p (tpmm_alloc_low p).
Proof. intros Hinv. split; [apply alloc_ok|apply alloc_low_ok]; exact Hinv. Qed.

(** C3. [tpmm_alloc_contig] and [tpmm_alloc_low_contig] either return a run of
    [pages] frames that were all free (below 1 GiB for the latter), mark
    exactly these and subtract [pages] from the free count; or they return 0
    with the state unchanged, and then neither the part above nor the part
    below the hint contains such a run. *)
Theorem pmm_contig_correct pages p :
  pmm_inv p -> 0 < pages ->
  contig_post pages (total_frames p) p (tpmm_alloc_contig pages p) /\
  contig_post pages (Z.min 0x40000 (total_frames p)) p (tpmm_alloc_low_contig pages p).
Proof. intros Hinv Hp. split; [apply alloc_contig_ok|apply alloc_low_contig_ok]; assumption. Qed.

(** Allocation and release are inverse: releasing the range returned by
    [tpmm_alloc_contig] with [tpmm_release_range] succeeds and restores the
    free set and the free count. *)
Theorem pmm_alloc_free_roundtrip pages p r p' :
  pmm_inv p -> 0 < pages -> tpmm_alloc_contig pages p = (r, p') -> r <> 0 ->
  exists p'', tpmm_release_range r (pages * PAGE_SIZE) p' = Some p'' /\ pmm_inv p'' /\
    free_frames p'' = free_frames p /\
    forall f, 0 <= f < PMM_MAX_FRAMES -> is_free p'' f = is_free p f.
Proof.
  intros Hinv Hp E Hr. pose proof (alloc_contig_ok pages p Hinv Hp) as Hpost. rewrite E in Hpost.
  destruct Hpost as [[Hx _]|(st & Hst & Hle & Er & Htk & Hn & Hinv' & H0')]; [congruence|]. simpl in *. subst r.
  pose proof (po_total p (proj1 Hinv)) as HT. unfold PMM_MAX_FRAMES, PAGE_SIZE in *.
  destruct (release_range_ok (st * 4096) (pages * 4096) p' Hinv') as (p'' & Ep & Hok'' & Ht'' & Hf''); [lia..|].
  assert (total_frames p' = total_frames p) as Ht'.
  { unfold tpmm_alloc_contig, contig_from, take_run in E.
    destruct (contig_scan _ _ _ _ _ _) as [?|[? ?]]; [|destruct (contig_scan _ _ _ _ _ _)];
      repeat destruct (for_range _ _ _ _); inv_pairs; reflexivity || congruence. }
  assert (forall f, 0 <= f < 1048576 -> is_free p'' f = is_free p f) as Hsame.
  { intros f Hf. unfold PMM_MAX_FRAMES in Hf''. rewrite Hf'' by exact Hf. destruct (Htk f Hf) as [T1 T2].
    destruct (in_pages (st * 4096) (pages * 4096) f) eqn:Ei; unfold in_pages, PAGE_SIZE in Ei.
    - destruct T1 as [-> ->]; [zlia|]. simpl. zlia.
    - rewrite T2 by zlia. rewrite orb_false_r. reflexivity. }
  exists p''. split; [exact Ep|]. split; [split; [exact Hok''|]|split; [|exact Hsame]].
  - apply zero_frame_used. rewrite Hsame by lia. apply zero_frame_used, Hinv.
  - rewrite (po_free p'' Hok''), (po_free p (proj1 Hinv)), Ht'', Ht'.
    apply count_range_ext. intros i Hi. apply Hsame. lia.
Qed.

(** The allocator's invariant over any sequence of calls: the counters
    always agree with the bitmap ([free_frames] is the number of clear bits
    below [total_frames], used plus free is the total), the hint stays inside
    the managed range, no frame outside it and never frame 0 becomes free. *)
Theorem pmm_invariant p p' :
  pmm_inv p -> star pmm_step p p' ->
  free_frames p' = count_range (is_free p') 0 (total_frames p') /\
  tpmm_used_frames p' + tpmm_free_frames p' = total_frames p' /\
  first_free_hint p' <= total_frames p' <= PMM_MAX_FRAMES /\
  (forall f, total_frames p' <= f < PMM_MAX_FRAMES -> is_free p' f = false) /\
  is_free p' 0 = false.
Proof.
  intros Hinv Hs. assert (pmm_inv p') as [Hok H0]
    by (refine (star_invariant pmm_step pmm_inv pmm_step_inv _ _ Hs Hinv)).
  pose proof (free_count_max p' Hok) as Hm. destruct Hok as [H1 H2 H3 H4]. unfold PMM_MAX_FRAMES in *.
  split; [exact H2|]. split; [unfold tpmm_used_frames, tpmm_free_frames; rewrite u32_small; lia|].
  split; [lia|]. split; [|apply zero_frame_used, H0].
  intros f Hf. unfold is_free. rewrite H4 by exact Hf. reflexivity.
Qed.

(** * Concrete instances *)

(** Eight managed frames, of which 3, 4, 6 and 7 are free. *)
Definition demo_pmm : pmm :=
  avail_frame 7 (avail_frame 6 (avail_frame 4 (avail_frame 3 (mk_pmm (all_used gmap_empty) 0 0 0)))).

Lemma demo_pmm_inv : pmm_inv demo_pmm.
Proof.
  split; [|vm_compute; reflexivity].
  do 4 (apply avail_frame_ok; [|unfold PMM_MAX_FRAMES; lia]).
  constructor; simpl; try lia; [unfold PMM_MAX_FRAMES; lia|reflexivity|].
  intros f Hf. apply all_used_used. lia.
Qed.

Lemma pmm_alloc_correct_witness :
  alloc_post PMM_MAX_FRAMES demo_pmm (tpmm_alloc demo_pmm) /\ (tpmm_alloc demo_pmm).1 = 12288.
Proof. split; [exact (proj1 (pmm_alloc_correct demo_pmm demo_pmm_inv))|vm_compute; reflexivity]. Defined.

Lemma pmm_contig_correct_witness :
  contig_post 2 (total_frames demo_pmm) demo_pmm (tpmm_alloc_contig 2 demo_pmm) /\
  (tpmm_alloc_contig 3 demo_pmm).1 = 0.
Proof.
  split; [exact (proj1 (pmm_contig_correct 2 demo_pmm demo_pmm_inv eq_refl))|vm_compute; reflexivity].
Defined.

Lemma demo_contig : tpmm_alloc_contig 2 demo_pmm = (12288, (tpmm_alloc_contig 2 demo_pmm).2).
Proof.
  destruct (tpmm_alloc_contig 2 demo_pmm) as [r q] eqn:E. cbn [snd]. f_equal.
  change r with (r, q).1. rewrite <- E. vm_compute. reflexivity.
Qed.

Lemma demo_free_count : free_frames demo_pmm = 4.
Proof. vm_compute. reflexivity. Qed.

Lemma pmm_alloc_free_roundtrip_witness :
  exists p'', tpmm_release_range 12288 8192 (tpmm_alloc_contig 2 demo_pmm).2 = Some p'' /\
    free_frames p'' = 4.
Proof.
  pose proof (pmm_alloc_free_roundtrip 2 demo_pmm 12288 (tpmm_alloc_contig 2 demo_pmm).2 demo_pmm_inv
    eq_refl demo_contig ltac:(discriminate)) as (p'' & E & _ & Hn & _).
  exists p''. split; [exact E|exact (eq_trans Hn demo_free_count)].
Defined.

Lemma pmm_invariant_witness :
  is_free (tpmm_free 12288 (tpmm_alloc demo_pmm).2) 0 = false.
Proof.
  apply (pmm_invariant demo_pmm _ demo_pmm_inv).
  eapply star_step; [apply ps_alloc|]. apply star_one, ps_free. unfold PAGE_SIZE. lia.
Defined.

(** A boot information block with one available entry, 1 MiB to 1 MiB + 16 KiB. *)
Definition demo_mbi : Z -> Z := fun a => byte_at
  [56;0;0;0; 0;0;0;0;
   6;0;0;0; 40;0;0;0; 24;0;0;0; 0;0;0;0;
   0;0;16;0; 0;0;0;0; 0;64;0;0; 0;0;0;0; 1;0;0;0; 0;0;0;0;
   0;0;0;0; 8;0;0;0] (a - 4096).

Lemma demo_tags_ok : tags_ok demo_mbi (4096 + rd32 demo_mbi 4096) (4096 + 8).
Proof.
  apply tags_cons; [vm_compute; congruence|vm_compute; congruence|vm_compute; congruence| |].
  - intros _. split; [vm_compute; reflexivity|]. intros i Hi.
    assert (tag_entries demo_mbi (4096 + 8) = 1) as E by (vm_compute; reflexivity).
    assert (i = 0) as -> by lia. unfold entry_good.
    split; [|split]; [vm_compute; split; congruence|vm_compute; congruence|vm_compute; reflexivity].
  - apply tags_zero; [vm_compute; congruence|vm_compute; reflexivity].
Qed.

Lemma pmm_init_correct_witness :
  exists p', tpmm_init demo_mbi 8 1048576 1052672 4096 (mk_pmm gmap_empty 0 0 0) = InitOk p' /\
    pmm_inv p' /\ (is_free p' 257 = true <->
      (exists e, map_entry demo_mbi (4096 + rd32 demo_mbi 4096) (4096 + 8) e /\ covers demo_mbi e 257) /\
       256 <= 257 /\ in_pages 1048576 (1052672 - 1048576) 257 = false).
Proof.
  pose proof (pmm_init_correct demo_mbi 8 1048576 1052672 4096 (mk_pmm gmap_empty 0 0 0)
    ltac:(lia) ltac:(vm_compute; split; congruence) ltac:(vm_compute; congruence) demo_tags_ok
    ltac:(lia) ltac:(lia)) as (p' & E & Hinv & Hf).
  exists p'. split; [exact E|]. split; [exact Hinv|]. apply Hf. unfold PMM_MAX_FRAMES. lia.
Defined.

(** Contiguous requests can fail although a run exists: after two
    single-frame allocations, one release, one contiguous allocation and one
    more release, the two adjacent frames 3 and 4 are free, but the hint points
    between them and a request for two frames returns 0. *)
Theorem contig_misses_run_across_hint :
  exists p, star pmm_step demo_pmm p /\ is_free p 3 = true /\ is_free p 4 = true /\
    (tpmm_alloc_contig 2 p).1 = 0.
Proof.
  exists (tpmm_free 16384 (tpmm_alloc_contig 2 (tpmm_free 12288 (tpmm_alloc (tpmm_alloc demo_pmm).2).2)).2).
  split; [|split; [vm_compute; reflexivity|split; vm_compute; reflexivity]].
  eapply star_step; [apply ps_alloc|]. eapply star_step; [apply ps_alloc|].
  eapply star_step; [apply (ps_free _ 12288); unfold PAGE_SIZE; lia|].
  eapply star_step; [apply (ps_contig _ 2); lia|].
  apply star_one, (ps_free _ 16384). unfold PAGE_SIZE. lia.
Qed.
