(* ===== verification/Tmalloc.v ===== *)
(** The kernel heap of [src/tmalloc.c]: a first-fit free list threaded through
    block headers, and a bump region refilled in page-sized chunks.

    Block headers live in a memory of 64-bit words ([size] at offset 0, [meta]
    at offset 8).  The pointer-to-pointer [pp] of the first-fit loop is either
    the variable [free_list] ([None]) or the [meta] field of a block.  The
    frame allocator and the kernel mapping functions that [grow_heap] calls
    are the interface [HeapBackend]. *)
From stdpp Require Import prelude gmap list numbers sorting.
From Stdlib Require Import ZArith Lia ZifyBool.
From S2P Require Import Prelude.
#[local] Open Scope Z_scope.

Definition MALLOC_MAGIC : Z := 0x54474C41.
Definition HEADER_SIZE : Z := 16.
Definition HEAP_VIRT_BASE : Z := 0xFFFFFFFFC0000000.
Definition ALIGN16 (x : Z) : Z := Z.land (u64 (x + 15)) (not64 15).

(** [tpmm_alloc_contig], [tpmm_free], [vmm_map_page] and [vmm_unmap_page]. *)
Class HeapBackend (B : Type) := {
  hb_alloc_contig : Z -> B -> Z * B;
  hb_free : Z -> B -> B;
  hb_map_page : Z -> Z -> Z -> B -> Z * B;
  hb_unmap_page : Z -> B -> B
}.

Record heap (B : Type) := mk_heap {
  hmem : gmap Z Z;
  free_list : Z;
  bump : Z;
  bump_end : Z;
  heap_virt : Z;
  total_bytes : Z;
  used_bytes : Z;
  block_count : Z;
  backend : B
}.
Arguments mk_heap {B}. Arguments hmem {B}. Arguments free_list {B}. Arguments bump {B}.
Arguments bump_end {B}. Arguments heap_virt {B}. Arguments total_bytes {B}.
Arguments used_bytes {B}. Arguments block_count {B}. Arguments backend {B}.

Section ops.
Context {B : Type} `{HeapBackend B}.
Implicit Types h : heap B.

Definition with_backend (b : B) h : heap B :=
  mk_heap (hmem h) (free_list h) (bump h) (bump_end h) (heap_virt h) (total_bytes h)
    (used_bytes h) (block_count h) b.

(** Undo of a failed growth: unmap what was mapped, give all frames back. *)
Definition grow_undo (virt base i pages : Z) (b : B) : B :=
  for_range (fun j b => hb_free (u64 (base + j * 4096)) b) 0 pages
    (for_range (fun j b => hb_unmap_page (u64 (virt + j * 4096)) b) 0 i b).

(** The mapping loop, [true] when all pages were mapped; [VMM_PAGE_WRITE |
    VMM_PAGE_NX] is [0x8000000000000002]. *)
Fixpoint grow_map (virt base pages i : Z) (n : nat) (b : B) : bool * B :=
  match n with
  | O => (true, b)
  | S n' =>
      let '(r, b1) := hb_map_page (u64 (virt + i * 4096)) (u64 (base + i * 4096)) 0x8000000000000002 b in
      if negb (r =? 0) then (false, grow_undo virt base i pages b1)
      else grow_map virt base pages (i + 1) n' b1
  end.

Definition grow_heap (need : Z) h : heap B :=
  let chunk := if need >? 65536 then need else 65536 in
  let pages := u64 (chunk + 4095) / 4096 in
  let '(base, b1) := hb_alloc_contig pages (backend h) in
  if base =? 0 then with_backend b1 h
  else
    let '(ok, b2) := grow_map (heap_virt h) base pages 0 (Z.to_nat pages) b1 in
    if negb ok then with_backend b2 h
    else
      let stop := u64 (heap_virt h + pages * 4096) in
      mk_heap (hmem h) (free_list h) (u64 (heap_virt h + HEADER_SIZE)) stop stop
        (u64 (total_bytes h + pages * 4096)) (used_bytes h) (block_count h) b2.

(** [*pp] and [*pp = v] *)
Definition load_link (pp : option Z) h : Z :=
  match pp with None => free_list h | Some prev => rd (hmem h) (prev + 8) end.

Definition store_link (pp : option Z) (v : Z) h : heap B :=
  match pp with
  | None => mk_heap (hmem h) v (bump h) (bump_end h) (heap_virt h) (total_bytes h)
              (used_bytes h) (block_count h) (backend h)
  | Some prev => mk_heap (<[prev + 8 := v]> (hmem h)) (free_list h) (bump h) (bump_end h)
              (heap_virt h) (total_bytes h) (used_bytes h) (block_count h) (backend h)
  end.

Definition store_word (a v : Z) h : heap B :=
  mk_heap (<[a := v]> (hmem h)) (free_list h) (bump h) (bump_end h) (heap_virt h) (total_bytes h)
    (used_bytes h) (block_count h) (backend h).

(** [used_bytes += n; block_count += k;] *)
Definition account (n k : Z) h : heap B :=
  mk_heap (hmem h) (free_list h) (bump h) (bump_end h) (heap_virt h) (total_bytes h)
    (u64 (used_bytes h + n)) (u32 (block_count h + k)) (backend h).

(** The search loop: [Some (Some (pp, b))] when block [b] is large enough,
    [Some None] at the end of the list, [None] when the fuel runs out. *)
Fixpoint first_fit (mem : gmap Z Z) (want : Z) (fuel : nat) (pp : option Z) (b : Z)
  : option (option (option Z * Z)) :=
  if b =? 0 then Some None
  else if rd mem b >=? want then Some (Some (pp, b))
  else match fuel with
       | O => None
       | S fuel' => first_fit mem want fuel' (Some b) (rd mem (b + 8))
       end.

(** The body of the loop for the chosen block. *)
Definition take_block (pp : option Z) (b want : Z) h : heap B :=
  let h1 := store_link pp (rd (hmem h) (b + 8)) h in
  let h2 := if rd (hmem h1) b >=? u64 (want + HEADER_SIZE + 16) then
              let rest := u64 (b + HEADER_SIZE + want) in
              let r1 := store_word rest (u64 (rd (hmem h1) b - want - HEADER_SIZE)) h1 in
              let r2 := store_word (rest + 8) (load_link pp r1) r1 in
              store_link pp rest r2
            else h1 in
  account want 1 (store_word (b + 8) MALLOC_MAGIC (store_word b want h2)).

(** Bump carve. *)
Definition carve (want : Z) h : heap B :=
  let b := bump h in
  let h1 := store_word (b + 8) MALLOC_MAGIC (store_word b want h) in
  account want 1
    (mk_heap (hmem h1) (free_list h1) (u64 (bump h1 + HEADER_SIZE + want)) (bump_end h1) (heap_virt h1)
       (total_bytes h1) (used_bytes h1) (block_count h1) (backend h1)).

Definition bump_full (want : Z) h : bool := u64 (bump h + want + HEADER_SIZE) >? bump_end h.

Definition tmalloc (fuel : nat) (size : Z) h : option (Z * heap B) :=
  let want0 := ALIGN16 size in
  let want := if want0 <? 16 then 16 else want0 in
  match first_fit (hmem h) want fuel None (free_list h) with
  | None => None
  | Some (Some (pp, b)) => Some (b, take_block pp b want h)
  | Some None =>
      let h1 := if bump_full want h then grow_heap (u64 (want + HEADER_SIZE)) h else h in
      if bump_full want h1 then Some (0, h1) else Some (bump h1, carve want h1)
  end.

Definition tfree (ptr : Z) h : heap B :=
  if ptr =? 0 then h
  else if negb (rd (hmem h) (ptr + 8) =? MALLOC_MAGIC) then h
  else
    let h1 := account (- rd (hmem h) ptr) (-1) h in
    let h2 := store_word (ptr + 8) (free_list h1) h1 in
    mk_heap (hmem h2) ptr (bump h2) (bump_end h2) (heap_virt h2) (total_bytes h2)
      (used_bytes h2) (block_count h2) (backend h2).

Definition tmalloc_total h : Z := total_bytes h.
Definition tmalloc_used h : Z := used_bytes h.
Definition tmalloc_blocks h : Z := block_count h.

(** Static initial values. *)
Definition heap_boot (m : gmap Z Z) (b : B) : heap B := mk_heap m 0 0 0 HEAP_VIRT_BASE 0 0 0 b.
End ops.

(** * Blocks, the free list and the invariant *)

(** A block: header address and payload size; it occupies [16 + size] bytes. *)
Abbreviation block := (Z * Z)%type.
Definition b_end (x : block) : Z := x.1 + HEADER_SIZE + x.2.

Definition apart (x y : block) : Prop := b_end x <= y.1 \/ b_end y <= x.1.

Fixpoint all_apart (l : list block) : Prop :=
  match l with
  | [] => True
  | x :: l' => Forall (apart x) l' /\ all_apart l'
  end.

(** The list reached from [head] through the [meta] fields. *)
Fixpoint chain (mem : gmap Z Z) (head : Z) (l : list block) : Prop :=
  match l with
  | [] => head = 0
  | (a, n) :: l' => head = a /\ a <> 0 /\ rd mem a = n /\ chain mem (rd mem (a + 8)) l'
  end.

Definition block_ok (top : Z) (x : block) : Prop :=
  HEAP_VIRT_BASE <= x.1 /\ x.1 mod 16 = 0 /\ x.2 mod 16 = 0 /\ 16 <= x.2 /\ b_end x <= top.

Definition sizes (l : list block) : Z := foldr (fun x s => x.2 + s) 0 l.

Record heap_inv {B} (h : heap B) (live frees : list block) : Prop := {
  hi_chain : chain (hmem h) (free_list h) frees;
  hi_live : Forall (fun x => rd (hmem h) x.1 = x.2 /\ rd (hmem h) (x.1 + 8) = MALLOC_MAGIC) live;
  hi_ok : Forall (block_ok (bump h)) (live ++ frees);
  hi_apart : all_apart (live ++ frees);
  hi_bump : 0 <= bump h <= bump_end h /\ bump_end h <= heap_virt h /\ bump h mod 16 = 0 /\
    (bump_end h = 0 \/ HEAP_VIRT_BASE <= bump h);
  hi_virt : HEAP_VIRT_BASE <= heap_virt h < 18446744073709551616 /\ heap_virt h mod 4096 = 0;
  hi_used : used_bytes h = u64 (sizes live);
  hi_count : block_count h = u32 (Z.of_nat (length live))
}.

Lemma apart_sym x y : apart x y -> apart y x.
Proof. unfold apart. tauto. Qed.

Lemma all_apart_perm l l' : l ≡ₚ l' -> all_apart l -> all_apart l'.
Proof.
  induction 1 as [|x l l' Hp IH|x y l|l1 l2 l3 _ IH1 _ IH2]; simpl; auto.
  - intros [Hf Ha]. split; [|auto]. rewrite <- Hp. exact Hf.
  - intros [Hx [Hy Ha]]. apply Forall_cons in Hx as [Hxy Hx].
    split; [constructor; [apply apart_sym, Hxy|exact Hy]|]. auto.
Qed.

Lemma all_apart_app l1 l2 :
  all_apart (l1 ++ l2) <-> all_apart l1 /\ all_apart l2 /\ Forall (fun x => Forall (apart x) l2) l1.
Proof.
  induction l1 as [|x l1 IH]; simpl.
  - split; [auto|tauto].
  - rewrite Forall_app, IH, Forall_cons. tauto.
Qed.

(** The two header words of the blocks of [l] are not at address [a]. *)
Definition outside (a : Z) (l : list block) : Prop := Forall (fun y => a <> y.1 /\ a <> y.1 + 8) l.

Definition nonneg (l : list block) : Prop := Forall (fun y => 0 <= y.2) l.

Lemma apart_outside x a l :
  Forall (apart x) l -> nonneg l -> x.1 <= a < b_end x -> outside a l.
Proof.
  intros Ha Hn Hr. unfold outside, nonneg in *. rewrite Forall_forall in *.
  intros y Hy. specialize (Ha y Hy). specialize (Hn y Hy). simpl in Hn.
  unfold apart, b_end, HEADER_SIZE in *. lia.
Qed.

Lemma chain_store_outside mem a v l head :
  outside a l -> chain mem head l -> chain (<[a := v]> mem) head l.
Proof.
  revert head. induction l as [|[b n] l IH]; intros head Ho; simpl; [auto|].
  apply Forall_cons in Ho as [[H1 H2] Ho]. simpl in H1, H2.
  rewrite !rd_insert_ne by assumption. intros (? & ? & ? & ?). auto.
Qed.

(** Redirecting the last link of [pre ++ [x]]. *)
Lemma chain_relink mem pre x l head v l' :
  chain mem head ((pre ++ [x]) ++ l) -> chain mem v l' ->
  all_apart ((pre ++ [x]) ++ l') -> nonneg ((pre ++ [x]) ++ l') ->
  chain (<[x.1 + 8 := v]> mem) head ((pre ++ [x]) ++ l').
Proof.
  revert head. induction pre as [|[a n] pre IH]; intros head; simpl.
  - destruct x as [a n]. simpl. intros (-> & H0 & Hn & _) Hv [Hap _] Hnn.
    apply Forall_cons in Hnn as [Hn0 Hnn]. simpl in Hn0.
    rewrite rd_insert_ne, rd_insert_eq by lia. repeat (split; [assumption || reflexivity|]).
    apply chain_store_outside; [|exact Hv]. apply (apart_outside (a, n)); auto.
    unfold b_end, HEADER_SIZE. simpl. lia.
  - intros (-> & H0 & Hn & Hc) Hv [Hap Hrest] Hnn. apply Forall_cons in Hnn as [Hn0 Hnn]. simpl in Hn0.
    assert (apart (a, n) x /\ 0 <= x.2) as [Hx Hx0].
    { unfold nonneg in *. rewrite Forall_forall in Hap, Hnn. split; [apply Hap|apply Hnn];
        rewrite !elem_of_app, list_elem_of_singleton; auto. }
    unfold apart, b_end, HEADER_SIZE in Hx. simpl in Hx.
    rewrite !rd_insert_ne by lia. repeat (split; [assumption || reflexivity|]). auto.
Qed.

(** The link that points behind [pre]. *)
Definition last_link (pre : list block) : option Z := fst <$> last pre.

Section chains.
Context {B : Type} `{HeapBackend B}.
Implicit Types h : heap B.

Lemma store_link_spec h pre l v l' :
  chain (hmem h) (free_list h) (pre ++ l) -> chain (hmem h) v l' ->
  all_apart (pre ++ l') -> nonneg (pre ++ l') ->
  let h' := store_link (last_link pre) v h in
  chain (hmem h') (free_list h') (pre ++ l') /\ chain (hmem h') (load_link (last_link pre) h') l' /\
  (forall a, outside a pre -> rd (hmem h') a = rd (hmem h) a).
Proof.
  intros Hc Hv Ha Hn h'. subst h'. unfold last_link.
  destruct pre as [|x pre] using rev_ind; [simpl; auto|]. clear IHpre.
  rewrite last_snoc. simpl. split; [eapply chain_relink; eauto|].
  split.
  { rewrite rd_insert_eq. apply chain_store_outside; [|exact Hv].
    unfold nonneg in Hn. rewrite !Forall_app, Forall_singleton in Hn. destruct Hn as [[_ Hx] Hn].
    apply all_apart_app in Ha as (_ & _ & Ha). rewrite Forall_app, Forall_singleton in Ha.
    apply (apart_outside x); [apply Ha|exact Hn|unfold b_end, HEADER_SIZE; lia]. }
  intros a Ho. unfold outside in Ho.
  rewrite Forall_app, Forall_singleton in Ho. apply rd_insert_ne. intros E. apply Ho. auto.
Qed.

Lemma first_fit_spec mem want l fuel pp head :
  chain mem head l -> (length l <= fuel)%nat ->
  (first_fit mem want fuel pp head = Some None /\ Forall (fun x => x.2 < want) l) \/
  (exists pre b n post, l = pre ++ (b, n) :: post /\ want <= n /\ Forall (fun x => x.2 < want) pre /\
     first_fit mem want fuel pp head =
       Some (Some (match last_link pre with Some p => Some p | None => pp end, b))).
Proof.
  revert fuel pp head. induction l as [|[a n] l IH]; intros fuel pp head Hc Hf; simpl in Hc.
  { left. subst head. destruct fuel; auto. }
  destruct Hc as (-> & H0 & Hn & Hc). simpl in Hf. apply Z.eqb_neq in H0.
  destruct (Z.geb_spec (rd mem a) want) as [Hge|Hlt].
  - right. exists [], a, n, l. split; [reflexivity|]. split; [lia|]. split; [constructor|].
    destruct fuel; simpl; rewrite H0; replace (rd mem a >=? want) with true by lia; reflexivity.
  - destruct fuel as [|fuel]; [lia|]. cbn [first_fit]. rewrite H0.
    replace (rd mem a >=? want) with false by lia.
    destruct (IH fuel (Some a) (rd mem (a + 8)) Hc ltac:(lia)) as [[-> Hall]|(pre & b & k & post & -> & Hk & Hall & ->)].
    + left. split; [reflexivity|]. constructor; [simpl; lia|exact Hall].
    + right. exists ((a, n) :: pre), b, k, post. split; [reflexivity|]. split; [exact Hk|].
      split; [constructor; [simpl; lia|exact Hall]|]. unfold last_link.
      rewrite last_cons. destruct (last pre); reflexivity.
Qed.

(** The part of the invariant that [take_block] and [tfree] rearrange. *)
Lemma heap_inv_nonneg h live frees : heap_inv h live frees -> nonneg (live ++ frees).
Proof.
  intros Hi. pose proof (hi_ok _ _ _ Hi) as Hok. unfold nonneg. rewrite Forall_forall in *.
  intros x Hx. destruct (Hok x Hx) as (_ & _ & _ & ? & _). lia.
Qed.

(** The words written by [take_block] at the block itself. *)
Definition split_rest (b n want : Z) : list block :=
  if n >=? want + HEADER_SIZE + 16 then [(b + HEADER_SIZE + want, n - want - HEADER_SIZE)] else [].

Lemma split_rest_inside b n want :
  0 <= want <= n -> nonneg (split_rest b n want) /\ all_apart ((b, want) :: split_rest b n want) /\
  Forall (fun r => b <= r.1 /\ b_end r <= b_end (b, n)) ((b, want) :: split_rest b n want).
Proof.
  intros Hw. unfold split_rest, nonneg, apart, b_end, HEADER_SIZE.
  destruct (Z.geb_spec n (want + 16 + 16)).
  - split; [constructor; simpl; [lia|constructor]|]. split.
    + split; [|split; [constructor|exact I]]. constructor; [|constructor].
      unfold apart, b_end, HEADER_SIZE. simpl. lia.
    + constructor; simpl; [lia|]. constructor; simpl; [lia|constructor].
  - split; [constructor|]. split; [split; [constructor|exact I]|].
    constructor; simpl; [lia|constructor].
Qed.

(** Shrinking a block to parts inside it keeps it apart from the others. *)
Lemma apart_inside x y l :
  Forall (apart x) l -> x.1 <= y.1 -> b_end y <= b_end x -> Forall (apart y) l.
Proof.
  intros Hf H1 H2. eapply Forall_impl; [exact Hf|]. intros z Hz. unfold apart in *. lia.
Qed.

Lemma all_apart_shrink x ys l :
  all_apart (x :: l) -> all_apart ys -> Forall (fun y => x.1 <= y.1 /\ b_end y <= b_end x) ys ->
  all_apart (ys ++ l).
Proof.
  intros [Hx Hl] Hys Hin. apply all_apart_app. split; [exact Hys|]. split; [exact Hl|].
  eapply Forall_impl; [exact Hin|]. intros y [H1 H2]. eapply apart_inside; eauto.
Qed.


Lemma load_link_store h pre a v :
  outside a pre -> load_link (last_link pre) (store_word a v h) = load_link (last_link pre) h.
Proof.
  intros Ho. unfold last_link. destruct (last pre) as [x|] eqn:E; [|reflexivity]. simpl.
  apply last_Some_elem_of in E. unfold outside in Ho. rewrite Forall_forall in Ho.
  destruct (Ho x E) as [_ Hx]. apply rd_insert_ne. auto.
Qed.

(** Writing the header of the remainder and linking it in. *)
Lemma link_rest_chain h pre post rest sz :
  chain (hmem h) (free_list h) (pre ++ post) -> chain (hmem h) (load_link (last_link pre) h) post ->
  all_apart (pre ++ (rest, sz) :: post) -> nonneg (pre ++ (rest, sz) :: post) -> rest <> 0 ->
  let r1 := store_word rest sz h in
  let h' := store_link (last_link pre) rest (store_word (rest + 8) (load_link (last_link pre) r1) r1) in
  chain (hmem h') (free_list h') (pre ++ (rest, sz) :: post) /\
  (forall a, outside a pre -> a <> rest -> a <> rest + 8 -> rd (hmem h') a = rd (hmem h) a).
Proof.
  intros Hc Hl Ha Hn H0 r1 h'.
  assert (Hr : Forall (apart (rest, sz)) (pre ++ post) /\ nonneg (pre ++ post) /\ 0 <= sz).
  { assert (Hp : pre ++ (rest, sz) :: post ≡ₚ (rest, sz) :: pre ++ post) by (symmetry; apply Permutation_middle).
    apply (all_apart_perm _ _ Hp) in Ha as [Ha _]. unfold nonneg in *. rewrite Hp, Forall_cons in Hn.
    simpl in Hn. tauto. }
  destruct Hr as (Hra & Hrn & Hsz).
  assert (forall a, rest <= a < rest + 16 -> outside a pre /\ outside a post) as Hout.
  { intros a Hr. apply (proj1 (Forall_app _ pre post)), (apart_outside (rest, sz)); auto.
    unfold b_end, HEADER_SIZE. simpl. lia. }
  destruct (Hout rest ltac:(lia)) as [O1 O2]. destruct (Hout (rest + 8) ltac:(lia)) as [O3 O4].
  set (r2 := store_word (rest + 8) (load_link (last_link pre) r1) r1) in *.
  assert (Hc2 : chain (hmem r2) (free_list r2) (pre ++ post)).
  { apply chain_store_outside; [apply Forall_app; split; assumption|].
    apply chain_store_outside; [apply Forall_app; split; assumption|exact Hc]. }
  assert (Hv2 : chain (hmem r2) rest ((rest, sz) :: post)).
  { assert (hmem r2 = <[rest + 8 := load_link (last_link pre) h]> (<[rest := sz]> (hmem h))) as ->.
    { unfold r2, r1. simpl. rewrite <- (load_link_store h pre rest sz O1). reflexivity. }
    cbn [chain]. split; [reflexivity|]. split; [exact H0|].
    rewrite rd_insert_ne, !rd_insert_eq by lia. split; [reflexivity|].
    apply chain_store_outside; [exact O4|]. apply chain_store_outside; [exact O2|exact Hl]. }
  destruct (store_link_spec r2 pre post rest ((rest, sz) :: post) Hc2 Hv2 Ha Hn) as (Hfin & _ & Hfr).
  split; [exact Hfin|]. intros a Ho Hne1 Hne2. unfold h'. rewrite Hfr by exact Ho.
  unfold r2, r1. simpl. rewrite !rd_insert_ne by auto. reflexivity.
Qed.

(** The links up to a block of the list, and the list behind it. *)
Lemma chain_at mem head pre b n post :
  chain mem head (pre ++ (b, n) :: post) -> b <> 0 /\ rd mem b = n /\ chain mem (rd mem (b + 8)) post.
Proof.
  revert head. induction pre as [|[a k] pre IH]; simpl; intros head.
  - intros (_ & ? & ? & ?). auto.
  - intros (_ & _ & _ & Hc). eauto.
Qed.

(** The chain and the memory after [take_block]. *)
Lemma take_block_chain h pre b n post want :
  chain (hmem h) (free_list h) (pre ++ (b, n) :: post) ->
  all_apart (pre ++ (b, n) :: post) -> nonneg (pre ++ (b, n) :: post) ->
  0 <= want <= n -> HEADER_SIZE <= b -> b + HEADER_SIZE + n < 18446744073709551616 ->
  let h' := take_block (last_link pre) b want h in
  chain (hmem h') (free_list h') (pre ++ split_rest b n want ++ post) /\
  rd (hmem h') b = want /\ rd (hmem h') (b + 8) = MALLOC_MAGIC /\
  (forall a, outside a pre -> ~ (b <= a < b_end (b, n)) -> rd (hmem h') a = rd (hmem h) a).
Proof.
  intros Hc Ha Hn Hw Hb0 Hmax h'. destruct (split_rest_inside b n want Hw) as (Hrn & Hra & Hrin).
  assert (Hperm : pre ++ (b, n) :: post ≡ₚ (b, n) :: pre ++ post) by (symmetry; apply Permutation_middle).
  pose proof (all_apart_perm _ _ Hperm Ha) as Ha2. unfold nonneg in Hn. rewrite Hperm, Forall_cons in Hn.
  destruct Hn as [_ Hn2]. fold (nonneg (pre ++ post)) in Hn2.
  assert (Forall (apart (b, want)) (split_rest b n want ++ pre ++ post) /\
          all_apart (split_rest b n want ++ pre ++ post)) as [Hbout Hap]
    by exact (all_apart_shrink _ _ _ Ha2 Hra Hrin).
  assert (Hap' : all_apart (pre ++ split_rest b n want ++ post)).
  { eapply all_apart_perm; [|exact Hap]. rewrite !app_assoc. apply Permutation_app_tail, Permutation_app_comm. }
  assert (Hnn' : nonneg (pre ++ split_rest b n want ++ post)) by (unfold nonneg in *; rewrite !Forall_app in *; tauto).
  destruct (chain_at _ _ _ _ _ _ Hc) as (Hbne & Hbn & Hpost).
  destruct Ha2 as [Hb2 Ha2].
  assert (Hbo : forall a, b <= a < b_end (b, n) -> outside a (pre ++ post))
    by (intros a Hr; apply (apart_outside (b, n)); auto).
  assert (Hbr : forall a, b <= a < b + 16 -> outside a (pre ++ split_rest b n want ++ post)).
  { intros a Hr. unfold outside. rewrite Permutation_app_swap_app. apply (apart_outside (b, want)); [exact Hbout| |].
    - unfold nonneg in *. rewrite !Forall_app in *. tauto.
    - unfold b_end, HEADER_SIZE. simpl. lia. }
  destruct (store_link_spec h pre ((b, n) :: post) (rd (hmem h) (b + 8)) post Hc Hpost Ha2 Hn2) as (Hc1 & Hl1 & Hf1).
  set (h1 := store_link (last_link pre) (rd (hmem h) (b + 8)) h) in *.
  assert (Hpre : forall a, b <= a < b_end (b, n) -> outside a pre) by (intros a Hr; apply (Forall_app _ pre post), Hbo, Hr).
  assert (b <= b < b_end (b, n) /\ b <= b + 8 < b_end (b, n)) as [Hin1 Hin2] by (unfold b_end, HEADER_SIZE; simpl; lia).
  assert (exists h2, h' = account want 1 (store_word (b + 8) MALLOC_MAGIC (store_word b want h2)) /\
    chain (hmem h2) (free_list h2) (pre ++ split_rest b n want ++ post) /\
    forall a, outside a pre -> ~ (b <= a < b_end (b, n)) -> rd (hmem h2) a = rd (hmem h1) a) as (h2 & -> & Hc2 & Hf2).
  { eexists. split; [reflexivity|]. fold h1. rewrite Hf1, Hbn by auto. unfold split_rest in *.
    rewrite (u64_small (want + HEADER_SIZE + 16)) by (unfold HEADER_SIZE in *; lia).
    destruct (Z.geb_spec n (want + HEADER_SIZE + 16)) as [Hge|Hlt]; [|auto].
    unfold HEADER_SIZE in *. rewrite (u64_small (b + 16 + want)), (u64_small (n - want - 16)) by lia.
    destruct (link_rest_chain h1 pre post (b + 16 + want) (n - want - 16) Hc1 Hl1 Hap' Hnn') as [Hx Hy]; [lia|].
    split; [exact Hx|]. intros a Ho Hr. apply Hy; [exact Ho| |]; unfold b_end, HEADER_SIZE in Hr; simpl in Hr; lia. }
  simpl. split; [|split; [|split]].
  - do 2 (apply chain_store_outside; [apply Hbr; lia|]). exact Hc2.
  - rewrite rd_insert_ne, rd_insert_eq by lia. reflexivity.
  - apply rd_insert_eq.
  - intros a Ho Hr. rewrite !rd_insert_ne by lia. rewrite Hf2, Hf1 by auto. reflexivity.
Qed.
End chains.

Lemma ALIGN16_spec size :
  0 <= size < 18446744073709551600 ->
  size <= ALIGN16 size < size + 16 /\ ALIGN16 size mod 16 = 0.
Proof.
  intros Hs. assert (ALIGN16 size = size + 15 - (size + 15) mod 16) as ->; [|zlia].
  unfold ALIGN16. rewrite u64_small by lia. change 15 with (2 ^ 4 - 1) at 2.
  apply (land_not64_align (size + 15) 4); [unfold in_u64|]; lia.
Qed.

(** The size of the block that serves a request. *)
Definition want_of (size : Z) : Z := if ALIGN16 size <? 16 then 16 else ALIGN16 size.

Lemma want_of_spec size :
  0 <= size < 18446744073709551584 ->
  size <= want_of size < size + 32 /\ 16 <= want_of size /\ want_of size mod 16 = 0.
Proof.
  intros Hs. destruct (ALIGN16_spec size ltac:(lia)) as [H1 H2]. unfold want_of.
  destruct (Z.ltb_spec (ALIGN16 size) 16); [split; [lia|split; [lia|reflexivity]]|lia].
Qed.

Section heap.
Context {B : Type} `{HeapBackend B}.
Implicit Types h : heap B.

(** Enough virtual space left above the heap for a request. *)
Definition room (size : Z) h : Prop := heap_virt h + size + 73728 < 18446744073709551616.

Lemma heap_inv_backend h live frees b :
  heap_inv h live frees -> heap_inv (with_backend b h) live frees.
Proof. intros [? ? ? ? ? ? ? ?]. constructor; assumption. Qed.

Lemma grow_heap_inv h live frees need :
  heap_inv h live frees -> 16 <= need -> heap_virt h + need + 69632 < 18446744073709551616 ->
  heap_inv (grow_heap need h) live frees /\
  (grow_heap need h = with_backend (backend (grow_heap need h)) h \/
   bump (grow_heap need h) = heap_virt h + HEADER_SIZE /\
   heap_virt h + Z.max need 65536 <= bump_end (grow_heap need h)).
Proof.
  intros Hi Hn Hr. unfold grow_heap. set (chunk := if need >? 65536 then need else 65536).
  assert (chunk = Z.max need 65536) as Hch by (unfold chunk; case_if; lia).
  pose proof Hi as [H1 H2 H3 H4 (H5 & H5' & H5'' & H5b) (H6 & H6') H7 H8]. unfold HEAP_VIRT_BASE in *.
  rewrite (u64_small (chunk + 4095)) by lia. set (pages := (chunk + 4095) / 4096).
  assert (chunk <= pages * 4096 <= chunk + 4095) as Hp by (unfold pages; zlia).
  destruct (hb_alloc_contig pages (backend h)) as [base b1].
  destruct (base =? 0); [split; [apply heap_inv_backend, Hi|left; reflexivity]|].
  destruct (grow_map _ _ _ _ _ _) as [[|] b2]; simpl;
    [|split; [apply heap_inv_backend, Hi|left; reflexivity]].
  unfold HEADER_SIZE. rewrite (u64_small (heap_virt h + 16)), (u64_small (heap_virt h + pages * 4096)) by lia.
  split; [|right; lia]. constructor; simpl; auto.
  - eapply Forall_impl; [exact H3|]. intros x (? & ? & ? & ? & ?). unfold block_ok. repeat split; try assumption. lia.
  - unfold HEAP_VIRT_BASE. zlia.
  - unfold HEAP_VIRT_BASE. zlia.
Qed.

(** A new block above all others. *)
Lemma carve_inv h live frees want :
  heap_inv h live frees -> bump_full want h = false -> 16 <= want -> want mod 16 = 0 ->
  bump h + want + HEADER_SIZE < 18446744073709551616 ->
  heap_inv (carve want h) ((bump h, want) :: live) frees /\ bump h <> 0.
Proof.
  intros Hi Hf Hw Hm Hmax. pose proof Hi as [H1 H2 H3 H4 (H5 & H5' & H5'' & H5b) (H6 & H6') H7 H8].
  pose proof (heap_inv_nonneg _ _ _ Hi) as Hnn. unfold bump_full in Hf. rewrite u64_small in Hf by (unfold HEADER_SIZE in *; lia).
  unfold HEADER_SIZE, HEAP_VIRT_BASE in *.
  assert (Forall (apart (bump h, want)) (live ++ frees)) as Hap.
  { eapply Forall_impl; [exact H3|]. intros x (_ & _ & _ & _ & Hx). right. exact Hx. }
  assert (forall a, bump h <= a < bump h + 16 -> outside a live /\ outside a frees) as Hout.
  { intros a Ha. apply (proj1 (Forall_app _ live frees)), (apart_outside (bump h, want)); auto.
    unfold b_end, HEADER_SIZE. simpl. lia. }
  destruct (Hout (bump h) ltac:(lia)) as [O1 O2]. destruct (Hout (bump h + 8) ltac:(lia)) as [O3 O4].
  assert (HEAP_VIRT_BASE <= bump h) by (unfold HEAP_VIRT_BASE; lia).
  split; [|unfold HEAP_VIRT_BASE in *; lia]. unfold carve. constructor; simpl.
  - do 2 (apply chain_store_outside; [assumption|]). exact H1.
  - constructor; [simpl; rewrite rd_insert_ne, !rd_insert_eq by lia; auto|].
    unfold outside in *. rewrite Forall_forall in *. intros x Hx. specialize (O1 x Hx). specialize (O3 x Hx).
    simpl in O1, O3. rewrite !rd_insert_ne by (intros ?; lia). apply H2, Hx.
  - unfold HEADER_SIZE. rewrite u64_small by lia. constructor.
    + unfold block_ok, b_end, HEADER_SIZE. simpl. lia.
    + eapply Forall_impl; [exact H3|]. intros x (? & ? & ? & ? & ?). unfold block_ok. repeat split; try assumption. lia.
  - split; [exact Hap|exact H4].
  - unfold HEADER_SIZE. rewrite u64_small by lia. unfold HEAP_VIRT_BASE. split; [lia|]. split; [lia|]. split; [zlia|lia].
  - unfold HEAP_VIRT_BASE. auto.
  - rewrite H7. unfold u64. rewrite Zplus_mod_idemp_l. f_equal. lia.
  - rewrite H8. unfold u32. rewrite Zplus_mod_idemp_l. f_equal. lia.
Qed.

Lemma take_block_fields pp b want h :
  let h' := take_block pp b want h in
  bump h' = bump h /\ bump_end h' = bump_end h /\ heap_virt h' = heap_virt h /\
  used_bytes h' = u64 (used_bytes h + want) /\ block_count h' = u32 (block_count h + 1).
Proof. unfold take_block, store_link. destruct pp; simpl; case_if; repeat split; reflexivity. Qed.

(** Serving a request from the free list. *)
Lemma take_block_inv h live pre b n post want :
  heap_inv h live (pre ++ (b, n) :: post) -> 16 <= want <= n -> want mod 16 = 0 ->
  heap_inv (take_block (last_link pre) b want h) ((b, want) :: live) (pre ++ split_rest b n want ++ post).
Proof.
  intros Hi Hw Hm. pose proof Hi as [H1 H2 H3 H4 (H5 & H5' & H5'' & H5b) (H6 & H6') H7 H8].
  pose proof (heap_inv_nonneg _ _ _ Hi) as Hnn. unfold nonneg in Hnn. apply Forall_app in Hnn as [Hnl Hnf].
  apply all_apart_app in H4 as (Hal & Haf & Hcross). apply Forall_app in H3 as [Hokl Hokf].
  assert (block_ok (bump h) (b, n)) as Hb by (rewrite Forall_forall in Hokf; apply Hokf, elem_of_app; right; left).
  pose proof Hb as (Hb1 & Hb2 & Hb3 & Hb4 & Hb5). unfold b_end, HEADER_SIZE in Hb5. simpl in *. unfold HEAP_VIRT_BASE in Hb1.
  destruct (take_block_chain h pre b n post want H1 Haf Hnf) as (Hc & Hhd & Hmg & Hfr); [lia|unfold HEADER_SIZE; lia..|].
  destruct (split_rest_inside b n want ltac:(lia)) as (_ & Hra & Hrin).
  destruct (take_block_fields (last_link pre) b want h) as (F1 & F2 & F3 & F4 & F5).
  assert (Hrok : Forall (block_ok (bump h)) ((b, want) :: split_rest b n want)).
  { constructor; [unfold block_ok, b_end, HEADER_SIZE, HEAP_VIRT_BASE; simpl; lia|].
    unfold split_rest, HEADER_SIZE. destruct (Z.geb_spec n (want + 16 + 16)); [|constructor].
    constructor; [|constructor]. unfold block_ok, b_end, HEADER_SIZE, HEAP_VIRT_BASE. simpl. zlia. }
  assert (Hlive : Forall (fun x => Forall (apart x) (pre ++ post) /\ apart x (b, n)) live).
  { eapply Forall_impl; [exact Hcross|]. intros x Hx.
    rewrite Forall_app, Forall_cons in Hx. rewrite Forall_app. tauto. }
  assert (Hout : forall x, x ∈ live -> forall a, x.1 <= a < x.1 + 16 -> outside a pre /\ ~ (b <= a < b_end (b, n))).
  { intros x Hx a Ha. rewrite Forall_forall in Hlive, Hnl. destruct (Hlive x Hx) as [Hx1 Hx2].
    specialize (Hnl x Hx). simpl in Hnl. unfold nonneg in *. apply Forall_app in Hnf as [Hn1 _].
    apply Forall_app in Hx1 as [Hx1 _].
    split; [apply (apart_outside x); auto; unfold b_end, HEADER_SIZE; lia|].
    unfold apart, b_end, HEADER_SIZE in *. simpl in *. lia. }
  constructor.
  - exact Hc.
  - constructor; [auto|]. rewrite Forall_forall in H2 |- *. intros x Hx.
    destruct (Hout x Hx x.1 ltac:(lia)) as [O1 O2]. destruct (Hout x Hx (x.1 + 8) ltac:(lia)) as [O3 O4].
    rewrite !Hfr by assumption. apply H2, Hx.
  - apply Forall_cons in Hrok as [Hr1 Hr2]. rewrite Forall_app, Forall_cons in Hokf.
    rewrite F1. simpl. constructor; [exact Hr1|]. rewrite !Forall_app. tauto.
  - assert (Hp : (b, n) :: live ++ (pre ++ post) ≡ₚ live ++ pre ++ (b, n) :: post)
      by (rewrite <- Permutation_middle, <- Permutation_middle; reflexivity).
    assert (all_apart (((b, want) :: split_rest b n want) ++ (live ++ pre ++ post))) as Hx.
    { apply (all_apart_shrink (b, n)); [|exact Hra|exact Hrin].
      apply (all_apart_perm (live ++ pre ++ (b, n) :: post)); [symmetry; exact Hp|].
      apply all_apart_app. auto. }
    eapply all_apart_perm; [|exact Hx]. simpl. constructor.
    rewrite !app_assoc. apply Permutation_app_tail. rewrite <- (app_assoc (split_rest b n want)).
    apply Permutation_app_comm.
  - rewrite F1, F2, F3. auto.
  - rewrite F3. auto.
  - rewrite F4, H7. unfold u64. rewrite Zplus_mod_idemp_l. f_equal. simpl. lia.
  - rewrite F5, H8. unfold u32. rewrite Zplus_mod_idemp_l. f_equal. simpl. lia.
Qed.

(** [tmalloc], every branch. *)
Lemma tmalloc_spec fuel size h live frees :
  heap_inv h live frees -> 0 <= size -> room size h -> (length frees <= fuel)%nat ->
  exists r h', tmalloc fuel size h = Some (r, h') /\
    ((r = 0 /\ heap_inv h' live frees /\ Forall (fun x => x.2 < want_of size) frees) \/
     (r <> 0 /\ size <= want_of size /\ exists frees', heap_inv h' ((r, want_of size) :: live) frees')).
Proof.
  intros Hi Hs Hroom Hf. unfold room in Hroom.
  pose proof (hi_virt _ _ _ Hi) as [Hv _]. pose proof (hi_bump _ _ _ Hi) as (Hb1 & Hb2 & _).
  unfold HEAP_VIRT_BASE in Hv. destruct (want_of_spec size ltac:(lia)) as (Hw1 & Hw2 & Hw3).
  unfold tmalloc. fold (want_of size). set (want := want_of size) in *.
  destruct (first_fit_spec (hmem h) want frees fuel None (free_list h) (hi_chain _ _ _ Hi) Hf)
    as [[-> Hall]|(pre & b & n & post & -> & Hn & _ & ->)].
  - rewrite (u64_small (want + HEADER_SIZE)) by (unfold HEADER_SIZE; lia).
    set (h1 := if bump_full want h then grow_heap (want + HEADER_SIZE) h else h).
    assert (heap_inv h1 live frees /\ (bump h1 = bump h \/ bump h1 = heap_virt h + HEADER_SIZE)) as [Hi1 Hb].
    { unfold h1. destruct (bump_full want h); [|auto].
      destruct (grow_heap_inv h live frees (want + HEADER_SIZE) Hi) as [Hg [E|[E _]]];
        [unfold HEADER_SIZE; lia|unfold HEADER_SIZE; lia| |]; (split; [exact Hg|]); [left|right; exact E].
      rewrite E. reflexivity. }
    destruct (bump_full want h1) eqn:E; eexists _, _; (split; [reflexivity|]); [left; auto|].
    destruct (carve_inv h1 live frees want Hi1 E) as [Hi2 Hnz]; [lia|lia|unfold HEADER_SIZE in *; lia|].
    right. split; [exact Hnz|]. split; [lia|]. eexists. exact Hi2.
  - eexists _, _. split; [reflexivity|]. right.
    destruct (chain_at _ _ _ _ _ _ (hi_chain _ _ _ Hi)) as (Hb & _ & _).
    split; [exact Hb|]. split; [lia|]. exists (pre ++ split_rest b n want ++ post).
    replace (match last_link pre with Some p => Some p | None => None end) with (last_link pre)
      by (destruct (last_link pre); reflexivity).
    apply take_block_inv; [exact Hi|lia|lia].
Qed.

Lemma tfree_spec h l1 a n l2 frees :
  heap_inv h (l1 ++ (a, n) :: l2) frees -> heap_inv (tfree a h) (l1 ++ l2) ((a, n) :: frees).
Proof.
  intros Hi. pose proof Hi as [H1 H2 H3 H4 H5 H6 H7 H8].
  assert (Hp : (l1 ++ (a, n) :: l2) ++ frees ≡ₚ (a, n) :: (l1 ++ l2) ++ frees)
    by (rewrite <- Permutation_middle; reflexivity).
  rewrite Forall_app, Forall_cons in H2. destruct H2 as (Hl1 & [Hn Hm] & Hl2). simpl in Hn, Hm.
  pose proof (heap_inv_nonneg _ _ _ Hi) as Hnn. unfold nonneg in Hnn. rewrite Hp, Forall_cons in Hnn.
  rewrite Hp in H3. apply (all_apart_perm _ _ Hp) in H4 as [Hap Hrest].
  apply Forall_cons in H3 as [Hok Hoks]. pose proof Hok as (Ha & _). simpl in Ha. unfold HEAP_VIRT_BASE in Ha.
  assert (outside (a + 8) (l1 ++ l2) /\ outside (a + 8) frees) as [O1 O2].
  { apply (proj1 (Forall_app _ (l1 ++ l2) frees)), (apart_outside (a, n)); [exact Hap|apply Hnn|].
    destruct Hok as (_ & _ & _ & ? & _). unfold b_end, HEADER_SIZE. simpl in *. lia. }
  unfold tfree. destruct (Z.eqb_spec a 0); [lia|]. rewrite Hm, Z.eqb_refl. simpl. constructor; simpl.
  - split; [reflexivity|]. split; [lia|]. rewrite rd_insert_ne, rd_insert_eq by lia. split; [exact Hn|].
    apply chain_store_outside; assumption.
  - assert (Forall (fun x => rd (hmem h) x.1 = x.2 /\ rd (hmem h) (x.1 + 8) = MALLOC_MAGIC) (l1 ++ l2)) as Hl
      by (apply Forall_app; auto).
    unfold outside in O1. rewrite Forall_forall in *. intros x Hx. destruct (O1 x Hx) as [? ?].
    rewrite !rd_insert_ne by (intros ?; lia). apply Hl, Hx.
  - rewrite <- Permutation_middle. constructor; assumption.
  - eapply all_apart_perm; [apply Permutation_middle|]. split; assumption.
  - exact H5.
  - exact H6.
  - rewrite H7, Hn. unfold u64. rewrite Zplus_mod_idemp_l. f_equal. unfold sizes. rewrite !foldr_app. simpl.
    assert (forall s, foldr (fun x s => x.2 + s) s l1 = foldr (fun x s => x.2 + s) 0 l1 + s) as Hsum
      by (intros s; clear; induction l1 as [|y l IH]; simpl; lia).
    rewrite Hsum, (Hsum (foldr _ 0 l2)). lia.
  - rewrite H8. unfold u32. rewrite Zplus_mod_idemp_l. f_equal. rewrite !length_app. simpl. lia.
Qed.
End heap.

Lemma first_fit_mono mem want fuel k pp b x :
  first_fit mem want fuel pp b = Some x -> first_fit mem want (fuel + k) pp b = Some x.
Proof.
  revert pp b. induction fuel as [|fuel IH]; intros pp b; cbn [first_fit Nat.add].
  - intros E. destruct k; cbn [first_fit]; [exact E|].
    destruct (b =? 0); [exact E|]. destruct (rd mem b >=? want); [exact E|discriminate].
  - destruct (b =? 0); [auto|]. destruct (rd mem b >=? want); [auto|]. apply IH.
Qed.

Section clients.
Context {B : Type} `{HeapBackend B}.
Implicit Types h : heap B.

Lemma tmalloc_mono fuel k size h x : tmalloc fuel size h = Some x -> tmalloc (fuel + k) size h = Some x.
Proof.
  unfold tmalloc. destruct (first_fit _ _ fuel _ _) as [y|] eqn:E; [|discriminate].
  rewrite (first_fit_mono _ _ _ k _ _ _ E). auto.
Qed.

(** Clients of the heap that leave the 16 header bytes of their blocks alone:
    they allocate, free blocks they own, and write words behind the header. *)
Inductive heap_step : heap B * list block -> heap B * list block -> Prop :=
| hs_malloc h live fuel size r h' :
    0 <= size -> room size h -> tmalloc fuel size h = Some (r, h') ->
    heap_step (h, live) (h', if r =? 0 then live else (r, want_of size) :: live)
| hs_free h l1 a n l2 :
    heap_step (h, l1 ++ (a, n) :: l2) (tfree a h, l1 ++ l2)
| hs_store h live x a v :
    x ∈ live -> x.1 + HEADER_SIZE <= a < b_end x -> heap_step (h, live) (store_word a v h, live).

Lemma store_inv h live frees x a v :
  heap_inv h live frees -> x ∈ live -> x.1 + HEADER_SIZE <= a < b_end x ->
  heap_inv (store_word a v h) live frees.
Proof.
  intros Hi Hx Ha. pose proof (heap_inv_nonneg _ _ _ Hi) as Hnn. pose proof Hi as [H1 H2 H3 H4 H5 H6 H7 H8].
  destruct (elem_of_Permutation live x) as [[l1 Hp] _]; [exact Hx|].
  assert (Hp2 : live ++ frees ≡ₚ x :: (l1 ++ frees)) by (rewrite Hp; reflexivity).
  apply (all_apart_perm _ _ Hp2) in H4 as H4'. destruct H4' as [Hap _].
  unfold nonneg in Hnn. rewrite Hp2, Forall_cons in Hnn. destruct Hnn as [Hx0 Hnn].
  unfold b_end, HEADER_SIZE in Ha.
  assert (outside a l1 /\ outside a frees) as [O1 O2].
  { apply (proj1 (Forall_app _ l1 frees)), (apart_outside x); [exact Hap|exact Hnn|].
    unfold b_end, HEADER_SIZE. lia. }
  constructor; simpl; auto.
  - apply chain_store_outside; assumption.
  - rewrite Hp in H2 |- *. apply Forall_cons in H2 as [[Hx1 Hx2] H2].
    constructor; [rewrite !rd_insert_ne by lia; auto|]. unfold outside in O1. rewrite Forall_forall in *.
    intros y Hy. destruct (O1 y Hy) as [? ?]. rewrite !rd_insert_ne by (intros ?; lia). apply H2, Hy.
Qed.

Lemma heap_step_inv x y :
  (exists frees, heap_inv x.1 x.2 frees) -> heap_step x y -> exists frees, heap_inv y.1 y.2 frees.
Proof.
  intros [frees Hi] Hs. destruct Hs as [h live fuel size r h' Hsz Hroom E|h l1 a n l2|h live x a v Hx Ha]; simpl in *.
  - apply (tmalloc_mono _ (length frees)) in E.
    destruct (tmalloc_spec (fuel + length frees) size h live frees Hi Hsz Hroom) as (r' & h'' & E' & Hcase); [lia|].
    rewrite E' in E. inv_pairs. destruct Hcase as [(-> & Hi' & _)|(Hr & _ & frees' & Hi')].
    + simpl. eauto.
    + apply Z.eqb_neq in Hr. rewrite Hr. eauto.
  - eexists. apply tfree_spec, Hi.
  - eexists. eapply store_inv; eauto.
Qed.

Lemma heap_reachable_inv m b h live :
  star heap_step (heap_boot m b, []) (h, live) -> exists frees, heap_inv h live frees.
Proof.
  intros Hs.
  refine (star_invariant heap_step (fun x => exists frees, heap_inv x.1 x.2 frees) heap_step_inv _ _ Hs _).
  exists []. constructor; simpl; unfold HEAP_VIRT_BASE; try constructor; try reflexivity; try lia.
  split; [lia|]. split; [reflexivity|left; reflexivity].
Qed.


(** Free and allocate again: a block given back with [tfree] is the first
    one [tmalloc] hands out to a request that fits in it, whatever the state
    of the rest of the heap. *)
Theorem heap_free_reuses fuel size h l1 a n l2 frees :
  heap_inv h (l1 ++ (a, n) :: l2) frees -> 0 <= size < 18446744073709551584 -> want_of size <= n ->
  exists h', tmalloc fuel size (tfree a h) = Some (a, h') /\
    exists frees', heap_inv h' ((a, want_of size) :: l1 ++ l2) frees'.
Proof.
  intros Hi Hs Hn. pose proof (tfree_spec _ _ _ _ _ _ Hi) as Hi'.
  destruct (want_of_spec size Hs) as (_ & Hw2 & Hw3).
  pose proof (hi_chain _ _ _ Hi') as Hc. simpl in Hc. destruct Hc as (Ef & Ha & En & _).
  exists (take_block None a (want_of size) (tfree a h)). split.
  - unfold tmalloc. fold (want_of size). rewrite Ef. apply Z.eqb_neq in Ha.
    destruct fuel; cbn [first_fit]; rewrite Ha, En; replace (n >=? want_of size) with true by lia; reflexivity.
  - eexists. apply (take_block_inv (tfree a h) (l1 ++ l2) [] a n frees (want_of size)); [exact Hi'|lia|lia].
Qed.
End clients.

(** * Concrete runs *)

(** A backend that always has frames and maps every page. *)
Definition easy_backend : HeapBackend unit := {|
  hb_alloc_contig := fun _ u => (1048576, u);
  hb_free := fun _ u => u;
  hb_map_page := fun _ _ _ u => (0, u);
  hb_unmap_page := fun _ u => u
|}.

Definition demo_heap : heap unit := @heap_boot unit gmap_empty tt.

(** Two blocks of 16 bytes. *)
Definition demo_heap2 : heap unit :=
  match @tmalloc unit easy_backend 1 8 demo_heap with
  | Some (_, h) => match @tmalloc unit easy_backend 1 8 h with Some (_, h') => h' | None => h end
  | None => demo_heap
  end.
Definition demo_a : Z := HEAP_VIRT_BASE + 16.
Definition demo_b : Z := HEAP_VIRT_BASE + 48.

Lemma demo_heap_run :
  star (@heap_step unit easy_backend) (demo_heap, []) (demo_heap2, [(demo_b, 16); (demo_a, 16)]).
Proof.
  eapply star_step.
  { eapply (hs_malloc _ _ 1 8); [lia|vm_compute; reflexivity|vm_compute; reflexivity]. }
  eapply star_step.
  { eapply (hs_malloc _ _ 1 8); [lia|vm_compute; reflexivity|vm_compute; reflexivity]. }
  apply star_refl.
Qed.


Lemma heap_free_reuses_witness :
  exists h', @tmalloc unit easy_backend 1 10 (tfree demo_a demo_heap2) = Some (demo_a, h').
Proof.
  destruct (heap_reachable_inv (H := easy_backend) gmap_empty tt demo_heap2 _ demo_heap_run) as [frees Hi].
  destruct (heap_free_reuses (H := easy_backend) 1 10 demo_heap2 [(demo_b, 16)] demo_a 16 [] frees Hi)
    as (h' & E & _); [lia|vm_compute; congruence|].
  exists h'. exact E.
Defined.

(** [tmalloc] returns the address of the header, not of the payload behind
    it: a client that stores into the first word of its 8-byte object overwrites
    the block size.  After such a store and a [tfree], the next request returns
    a block that overlaps another live allocation. *)
Theorem header_store_breaks_heap :
  exists h1 h2 h3,
    @tmalloc unit easy_backend 1 8 demo_heap = Some (demo_a, h1) /\
    @tmalloc unit easy_backend 1 8 h1 = Some (demo_b, h2) /\
    @tmalloc unit easy_backend 1 1000 (tfree demo_a (store_word demo_a 4096 h2)) = Some (demo_a, h3) /\
    demo_a < demo_b < demo_a + 1000.
Proof.
  eexists _, _, _. split; [vm_compute; reflexivity|]. split; [vm_compute; reflexivity|].
  split; [vm_compute; reflexivity|vm_compute; split; reflexivity].
Qed.

(** A client that fills its object cannot free it: after a 16-byte object
    is zeroed, [tfree] finds no magic number and returns without any effect. *)
Theorem zeroed_block_is_leaked :
  exists h1, @tmalloc unit easy_backend 1 16 demo_heap = Some (demo_a, h1) /\
    let h2 := store_word (demo_a + 8) 0 (store_word demo_a 0 h1) in
    tfree demo_a h2 = h2 /\ tmalloc_used h2 = 16.
Proof. eexists. split; [vm_compute; reflexivity|]. split; vm_compute; reflexivity. Qed.

(** Sizes at the edges: a request of 65520 bytes fails although growing the
    heap by exactly that much succeeded (the bump pointer starts 16 bytes into
    the chunk); a request of 1 GiB on a non-empty heap wraps around the address
    space and is answered with a block that was never mapped; a request of
    [SIZE_MAX] bytes is rounded to 0 and answered with a 16-byte block. *)
Theorem tmalloc_edge_sizes :
  (exists h, @tmalloc unit easy_backend 1 65520 demo_heap = Some (0, h) /\ tmalloc_total h = 65536) /\
  (exists h, @tmalloc unit easy_backend 1 1073741824 demo_heap2 = Some (HEAP_VIRT_BASE + 80, h) /\
     bump h = 96 /\ tmalloc_total h = 65536) /\
  (exists h, @tmalloc unit easy_backend 1 18446744073709551615 demo_heap = Some (demo_a, h) /\
     tmalloc_used h = 16).
Proof.
  split; [|split]; eexists; (split; [vm_compute; reflexivity|]); repeat split; vm_compute; reflexivity.
Qed.
