(* ===== verification/Tvmm.v ===== *)
(** The virtual memory manager of [src/tvmm.c] and [src/tvmm.h]: four-level
    page tables reached through the physmap window.

    Page-table words live in a memory keyed by their kernel-virtual address;
    a table pointer is the address of its first word.  Frames come from the
    modelled frame allocator ([Tpmm]); the two heap calls (for the
    [vmm_aspace_t] records) are the interface [SmallHeap] of the prelude.  [invlpg] and the
    TLB are not modelled: translations are those of the tables in memory. *)
From stdpp Require Import prelude gmap list numbers.
From Stdlib Require Import ZArith Lia ZifyBool Btauto.
From S2P Require Import Prelude Tpmm.
#[local] Open Scope Z_scope.

Definition VMM_PAGE_PRESENT : Z := 1.
Definition VMM_PAGE_WRITE : Z := 2.
Definition VMM_PAGE_USER : Z := 4.
Definition VMM_PAGE_NX : Z := 0x8000000000000000.
Definition VMM_PAGE_HUGE : Z := 128.              (* [1ull << 7] in the code *)
Definition VMM_VIRT_BASE : Z := 0xFFFFFFFF80000000.
Definition VMM_USER_BASE : Z := 0x8000000000.
Definition VMM_USER_END : Z := 0x10000000000.
Definition ADDR_MASK : Z := 0xFFFFFFFFFF000.
Definition KERNEL_PML4_START : Z := 256.

Definition VMM_PHYS_TO_VIRT (p : Z) : Z := u64 (p + VMM_VIRT_BASE).
Definition TABLE_OF (e : Z) : Z := VMM_PHYS_TO_VIRT (Z.land e ADDR_MASK).

Definition PML4_INDEX (v : Z) : Z := Z.land (Z.shiftr v 39) 511.
Definition PDPT_INDEX (v : Z) : Z := Z.land (Z.shiftr v 30) 511.
Definition PD_INDEX (v : Z) : Z := Z.land (Z.shiftr v 21) 511.
Definition PT_INDEX (v : Z) : Z := Z.land (Z.shiftr v 12) 511.


Record vmm_aspace_t := mk_aspace { pml4_phys : Z; pml4 : Z }.

(** Memory words and frames: all that the table functions touch. *)
Record vmem := mk_vmem { words : gmap Z Z; frames : pmm }.

Record vmm (H : Type) := mk_vmm {
  vm : vmem;
  vheap : H;
  spaces : gmap Z vmm_aspace_t;    (* [vmm_aspace_t] objects by address *)
  kernel_as : Z;                   (* [&kernel_aspace] *)
  current : Z;
  cr3 : Z
}.
Arguments mk_vmm {H}. Arguments vm {H}. Arguments vheap {H}. Arguments spaces {H}.
Arguments kernel_as {H}. Arguments current {H}. Arguments cr3 {H}.

(** [table[index]] *)
Definition entry (m : gmap Z Z) (table index : Z) : Z := rd m (table + 8 * index).
Definition set_entry (table index v : Z) (m : gmap Z Z) : gmap Z Z := <[table + 8 * index := v]> m.

(** [tmemset(table, 0, 4096)] *)
Definition clear_table (table : Z) (m : gmap Z Z) : gmap Z Z :=
  for_range (fun i m => set_entry table i 0 m) 0 512 m.

Definition table_ensure (table index flags : Z) (s : vmem) : option Z * vmem :=
  let e := entry (words s) table index in
  if has e VMM_PAGE_PRESENT then (Some (TABLE_OF e), s)
  else
    let '(frame, p') := tpmm_alloc_low (frames s) in
    if frame =? 0 then (None, mk_vmem (words s) p')
    else
      let next := TABLE_OF frame in
      let m1 := clear_table next (words s) in
      let v := Z.lor (Z.lor (Z.lor frame VMM_PAGE_PRESENT) VMM_PAGE_WRITE) (Z.land flags VMM_PAGE_USER) in
      (Some next, mk_vmem (set_entry table index v m1) p').

Definition table_lookup (m : gmap Z Z) (table index : Z) : option Z :=
  let e := entry m table index in
  if negb (has e VMM_PAGE_PRESENT) then None else Some (TABLE_OF e).

(** The three nested [table_ensure] calls and the store of the leaf entry. *)
Definition map_in (top virt phys flags : Z) (s : vmem) : Z * vmem :=
  match table_ensure top (PML4_INDEX virt) flags s with
  | (None, s1) => (-1, s1)
  | (Some pdpt, s1) =>
      match table_ensure pdpt (PDPT_INDEX virt) flags s1 with
      | (None, s2) => (-1, s2)
      | (Some pd, s2) =>
          match table_ensure pd (PD_INDEX virt) flags s2 with
          | (None, s3) => (-1, s3)
          | (Some pt, s3) =>
              (0, mk_vmem (set_entry pt (PT_INDEX virt)
                     (Z.lor (Z.lor (Z.land phys ADDR_MASK) flags) VMM_PAGE_PRESENT) (words s3)) (frames s3))
          end
      end
  end.

Definition unmap_in (top virt : Z) (s : vmem) : vmem :=
  match table_lookup (words s) top (PML4_INDEX virt) with
  | None => s
  | Some pdpt =>
      match table_lookup (words s) pdpt (PDPT_INDEX virt) with
      | None => s
      | Some pd =>
          match table_lookup (words s) pd (PD_INDEX virt) with
          | None => s
          | Some pt => mk_vmem (set_entry pt (PT_INDEX virt) 0 (words s)) (frames s)
          end
      end
  end.

(** The walk of [vmm_aspace_phys] and [vmm_kernel_phys]: [Some frame] is
    "return 1 with [*phys]", [None] is "return 0". *)
Definition phys_in (m : gmap Z Z) (top virt : Z) : option Z :=
  match table_lookup m top (PML4_INDEX virt) with
  | None => None
  | Some pdpt =>
      match table_lookup m pdpt (PDPT_INDEX virt) with
      | None => None
      | Some pd =>
          let e := entry m pd (PD_INDEX virt) in
          if has e VMM_PAGE_HUGE then Some (Z.land e ADDR_MASK)
          else match table_lookup m pd (PD_INDEX virt) with
               | None => None
               | Some pt =>
                   let pte := entry m pt (PT_INDEX virt) in
                   if negb (has pte VMM_PAGE_PRESENT) then None else Some (Z.land pte ADDR_MASK)
               end
      end
  end.

(** [page_has] on the table [top] of the current space. *)
Definition page_has (m : gmap Z Z) (top virt need : Z) : bool :=
  match table_lookup m top (PML4_INDEX virt) with
  | None => false
  | Some pdpt =>
      match table_lookup m pdpt (PDPT_INDEX virt) with
      | None => false
      | Some pd =>
          let pe := entry m pd (PD_INDEX virt) in
          if has pe VMM_PAGE_HUGE then Z.land pe need =? need
          else match table_lookup m pd (PD_INDEX virt) with
               | None => false
               | Some pt => Z.land (entry m pt (PT_INDEX virt)) need =? need
               end
      end
  end.

(** The processor's walk: the direct-map address behind a virtual address. *)
Definition translate (m : gmap Z Z) (top v : Z) : option Z :=
  pdpt ← table_lookup m top (PML4_INDEX v);
  pd ← table_lookup m pdpt (PDPT_INDEX v);
  let e := entry m pd (PD_INDEX v) in
  if negb (has e VMM_PAGE_PRESENT) then None
  else if has e VMM_PAGE_HUGE then Some (TABLE_OF e + v mod 0x200000)
  else
    let pte := entry m (TABLE_OF e) (PT_INDEX v) in
    if has pte VMM_PAGE_PRESENT then Some (TABLE_OF pte + v mod 4096) else None.

(** The page loop of [vmm_range_user]. *)
Fixpoint range_walk (m : gmap Z Z) (top need stop : Z) (fuel : nat) (p : Z) : option bool :=
  if p <? stop then
    match fuel with
    | O => None
    | S fuel' => if negb (page_has m top p need) then Some false
                 else range_walk m top need stop fuel' (u64 (p + 4096))
    end
  else Some true.

Definition range_user (m : gmap Z Z) (top addr len write : Z) : option bool :=
  let need0 := Z.lor VMM_PAGE_PRESENT VMM_PAGE_USER in
  let need := if negb (write =? 0) then Z.lor need0 VMM_PAGE_WRITE else need0 in
  if len =? 0 then Some true
  else if addr <? VMM_USER_BASE then Some false
  else if (addr >? VMM_USER_END) || (len >? u64 (VMM_USER_END - addr)) then Some false
  else range_walk m top need (u64 (addr + len)) (Z.to_nat (len / 4096 + 2)) (Z.land addr (not64 4095)).

Definition kernel_slot (virt_index : Z) : bool :=
  (virt_index =? 0) || (virt_index >=? KERNEL_PML4_START).

(** [free_table]: frees what the entries of a table point to, not the table. *)
Fixpoint free_table (level : nat) (table : Z) (s : vmem) : vmem :=
  for_range (fun i s =>
    let e := entry (words s) table i in
    if negb (has e VMM_PAGE_PRESENT) then s
    else
      let s1 := match level with
                | O => s
                | S l => if negb (has e VMM_PAGE_HUGE) then free_table l (TABLE_OF e) s else s
                end in
      mk_vmem (words s1) (tpmm_free (Z.land e ADDR_MASK) (frames s1))) 0 512 s.

Section spaces.
Context {H : Type} `{SmallHeap H}.
Implicit Types s : vmm H.

Definition with_vm (m : vmem) s : vmm H :=
  mk_vmm m (vheap s) (spaces s) (kernel_as s) (current s) (cr3 s).

Definition space s (a : Z) : vmm_aspace_t := default (mk_aspace 0 0) (spaces s !! a).
Definition cur_top s : Z := pml4 (space s (current s)).

Definition vmm_init s : vmm H :=
  mk_vmm (vm s) (vheap s) (<[kernel_as s := mk_aspace (cr3 s) (TABLE_OF (cr3 s))]> (spaces s))
    (kernel_as s) (kernel_as s) (cr3 s).

(** Copies slot 0 and 256..511 of the kernel's PML4. *)
Definition share_kernel (ktop top : Z) (m : gmap Z Z) : gmap Z Z :=
  for_range (fun i m => if (i =? 0) || (i >=? KERNEL_PML4_START)
                        then set_entry top i (entry m ktop i) m else m) 0 512 m.

Definition vmm_aspace_create s : Z * vmm H :=
  let '(frame, p') := tpmm_alloc_low (frames (vm s)) in
  if frame =? 0 then (0, with_vm (mk_vmem (words (vm s)) p') s)
  else
    let top := TABLE_OF frame in
    let m1 := clear_table top (words (vm s)) in
    let m2 := share_kernel (pml4 (space s (kernel_as s))) top m1 in
    let '(a, h') := sh_malloc 16 (vheap s) in
    if a =? 0 then
      (0, mk_vmm (mk_vmem m2 (tpmm_free frame p')) h' (spaces s) (kernel_as s) (current s) (cr3 s))
    else
      (a, mk_vmm (mk_vmem m2 p') h' (<[a := mk_aspace frame top]> (spaces s)) (kernel_as s)
            (current s) (cr3 s)).

Definition vmm_aspace_destroy (a : Z) s : vmm H :=
  if (a =? 0) || (a =? current s) then s
  else
    let sp := space s a in
    let m1 := for_range (fun i m =>
                let e := entry (words m) (pml4 sp) i in
                if has e VMM_PAGE_PRESENT then free_table 2 (TABLE_OF e) m else m)
                1 KERNEL_PML4_START (vm s) in
    mk_vmm (mk_vmem (words m1) (tpmm_free (pml4_phys sp) (frames m1))) (sh_free a (vheap s))
      (delete a (spaces s)) (kernel_as s) (current s) (cr3 s).

Definition vmm_aspace_switch (a : Z) s : vmm H :=
  mk_vmm (vm s) (vheap s) (spaces s) (kernel_as s) a (pml4_phys (space s a)).

Definition vmm_range_user (addr len write : Z) s : option bool :=
  range_user (words (vm s)) (cur_top s) addr len write.

Definition vmm_aspace_map (a virt phys flags : Z) s : Z * vmm H :=
  if kernel_slot (PML4_INDEX virt) then (-1, s)
  else let '(r, m) := map_in (pml4 (space s a)) virt phys flags (vm s) in (r, with_vm m s).

Definition vmm_aspace_unmap (a virt : Z) s : vmm H :=
  if kernel_slot (PML4_INDEX virt) then s
  else with_vm (unmap_in (pml4 (space s a)) virt (vm s)) s.

Definition vmm_aspace_phys (a virt : Z) s : option Z :=
  if kernel_slot (PML4_INDEX virt) then None else phys_in (words (vm s)) (pml4 (space s a)) virt.

Definition vmm_map_page (virt phys flags : Z) s : Z * vmm H :=
  let idx := PML4_INDEX virt in
  if (idx >? 0) && (idx <? KERNEL_PML4_START) then (-1, s)
  else let '(r, m) := map_in (cur_top s) virt phys flags (vm s) in (r, with_vm m s).

Definition vmm_unmap_page (virt : Z) s : vmm H :=
  let idx := PML4_INDEX virt in
  if (idx >? 0) && (idx <? KERNEL_PML4_START) then s
  else with_vm (unmap_in (cur_top s) virt (vm s)) s.

Definition vmm_kernel_phys (virt : Z) s : option Z :=
  let idx := PML4_INDEX virt in
  if (idx >? 0) && (idx <? KERNEL_PML4_START) then None else phys_in (words (vm s)) (cur_top s) virt.
End spaces.

(** * Bits of entries *)

Lemma ADDR_MASK_testbit i : Z.testbit ADDR_MASK i = (12 <=? i) && (i <? 52).
Proof.
  change ADDR_MASK with (Z.shiftl (Z.ones 40) 12).
  destruct (Z.ltb_spec i 0); [rewrite Z.testbit_neg_r by lia; lia|].
  rewrite Z.shiftl_spec, Z.testbit_ones by lia. lia.
Qed.

Lemma mask_idem x : Z.land (Z.land x ADDR_MASK) ADDR_MASK = Z.land x ADDR_MASK.
Proof. rewrite <- Z.land_assoc, Z.land_diag. reflexivity. Qed.

(** A frame address below 2^52 survives the mask. *)
Lemma mask_frame f : 0 <= f < 2 ^ 40 -> Z.land (f * PAGE_SIZE) ADDR_MASK = f * PAGE_SIZE.
Proof.
  intros Hf. unfold PAGE_SIZE. change 4096 with (2 ^ 12). rewrite <- Z.shiftl_mul_pow2 by lia.
  apply Z.bits_inj'. intros i Hi. rewrite Z.land_spec, ADDR_MASK_testbit, Z.shiftl_spec by lia.
  destruct (Z.ltb_spec i 12).
  - rewrite Z.testbit_neg_r by lia. reflexivity.
  - destruct (Z.ltb_spec i 52); [replace (12 <=? i) with true by lia; rewrite andb_true_r; reflexivity|].
    rewrite (testbit_high 40 f) by lia. reflexivity.
Qed.

Lemma TABLE_OF_frame f : 0 <= f < 0x40000 -> TABLE_OF (f * PAGE_SIZE) = VMM_VIRT_BASE + f * PAGE_SIZE.
Proof.
  intros Hf. unfold TABLE_OF, VMM_PHYS_TO_VIRT. rewrite mask_frame by lia.
  unfold VMM_VIRT_BASE, PAGE_SIZE in *. rewrite u64_small; lia.
Qed.

(** The entry written by [table_ensure]. *)
Definition table_word (frame flags : Z) : Z :=
  Z.lor (Z.lor (Z.lor frame VMM_PAGE_PRESENT) VMM_PAGE_WRITE) (Z.land flags VMM_PAGE_USER).

Lemma user_bit_cases flags : Z.land flags VMM_PAGE_USER = 0 \/ Z.land flags VMM_PAGE_USER = 4.
Proof.
  pose proof (has_pow2 flags 2 ltac:(lia)) as Hh. unfold has in Hh. change (2 ^ 2) with VMM_PAGE_USER in Hh.
  destruct (Z.testbit flags 2) eqn:E; [right|left].
  - apply Z.bits_inj'. intros i Hi. change 4 with (2 ^ 2). change VMM_PAGE_USER with (2 ^ 2).
    rewrite Z.land_spec, Z.pow2_bits_eqb by lia. destruct (Z.eqb_spec 2 i) as [<-|]; [rewrite E|]; btauto.
  - apply Z.eqb_eq. destruct (Z.land flags VMM_PAGE_USER =? 0); [reflexivity|discriminate].
Qed.

Lemma table_word_spec f flags :
  0 <= f < 0x40000 ->
  has (table_word (f * PAGE_SIZE) flags) VMM_PAGE_PRESENT = true /\
  has (table_word (f * PAGE_SIZE) flags) VMM_PAGE_HUGE = false /\
  TABLE_OF (table_word (f * PAGE_SIZE) flags) = TABLE_OF (f * PAGE_SIZE).
Proof.
  intros Hf. unfold table_word. change VMM_PAGE_PRESENT with (2 ^ 0). change VMM_PAGE_HUGE with (2 ^ 7).
  rewrite !has_pow2 by lia.
  assert (Hlow : forall i, i < 12 -> Z.testbit (f * PAGE_SIZE) i = false).
  { intros i Hi. unfold PAGE_SIZE. change 4096 with (2 ^ 12). apply Z.mul_pow2_bits_low. lia. }
  rewrite !Z.lor_spec, !Hlow by lia.
  destruct (user_bit_cases flags) as [E|E]; rewrite E.
  - split; [reflexivity|]. split; [reflexivity|]. unfold TABLE_OF. f_equal.
    rewrite !Z.land_lor_distr_l. change (Z.land (2 ^ 0) ADDR_MASK) with 0.
    change (Z.land VMM_PAGE_WRITE ADDR_MASK) with 0. change (Z.land 0 ADDR_MASK) with 0.
    rewrite !Z.lor_0_r. reflexivity.
  - split; [reflexivity|]. split; [reflexivity|]. unfold TABLE_OF. f_equal.
    rewrite !Z.land_lor_distr_l. change (Z.land (2 ^ 0) ADDR_MASK) with 0.
    change (Z.land VMM_PAGE_WRITE ADDR_MASK) with 0. change (Z.land 4 ADDR_MASK) with 0.
    rewrite !Z.lor_0_r. reflexivity.
Qed.

(** The leaf entry written by the map functions. *)
Lemma leaf_word_spec phys flags :
  Z.land flags ADDR_MASK = 0 ->
  let e := Z.lor (Z.lor (Z.land phys ADDR_MASK) flags) VMM_PAGE_PRESENT in
  has e VMM_PAGE_PRESENT = true /\ Z.land e ADDR_MASK = Z.land phys ADDR_MASK.
Proof.
  intros Hf e. split.
  - unfold e. change VMM_PAGE_PRESENT with (2 ^ 0). rewrite has_pow2, Z.lor_spec by lia. apply orb_true_r.
  - unfold e. rewrite !Z.land_lor_distr_l, mask_idem, Hf. change (Z.land VMM_PAGE_PRESENT ADDR_MASK) with 0.
    rewrite !Z.lor_0_r. reflexivity.
Qed.

(** The four indices and the page number. *)
Lemma index_div v k : 0 <= k -> Z.land (Z.shiftr v k) 511 = (v / 2 ^ k) mod 512.
Proof.
  intros Hk. change 511 with (Z.ones 9). rewrite Z.land_ones, Z.shiftr_div_pow2 by lia. reflexivity.
Qed.

Lemma index_range v :
  0 <= PML4_INDEX v < 512 /\ 0 <= PDPT_INDEX v < 512 /\ 0 <= PD_INDEX v < 512 /\ 0 <= PT_INDEX v < 512.
Proof. unfold PML4_INDEX, PDPT_INDEX, PD_INDEX, PT_INDEX. rewrite !index_div by lia. zlia. Qed.

(** Canonical lower-half addresses are determined by their indices. *)
Lemma same_indices v w :
  0 <= v < 281474976710656 -> 0 <= w < 281474976710656 ->
  PML4_INDEX v = PML4_INDEX w -> PDPT_INDEX v = PDPT_INDEX w -> PD_INDEX v = PD_INDEX w ->
  PT_INDEX v = PT_INDEX w -> v / PAGE_SIZE = w / PAGE_SIZE.
Proof.
  intros Hv Hw. unfold PML4_INDEX, PDPT_INDEX, PD_INDEX, PT_INDEX, PAGE_SIZE. rewrite !index_div by lia.
  change (2 ^ 39) with 549755813888. change (2 ^ 30) with 1073741824. change (2 ^ 21) with 2097152.
  change (2 ^ 12) with 4096. zlia.
Qed.

(** * Page tables as a forest

    [own] assigns to every user page table its level (4 for a PML4) and the
    path of indices that leads to it from its PML4: a table has exactly one
    parent, and no two tables share a path. *)
Abbreviation ownership := (gmap Z (Z * Z)).

Definition slot_ok (l i : Z) : Prop := 0 <= i < 512 /\ (l = 4 -> 1 <= i < KERNEL_PML4_START).

Record tree_ok (own : ownership) (s : vmem) : Prop := {
  to_pmm : pmm_inv (frames s);
  to_frame : forall t l p, own !! t = Some (l, p) -> 1 <= l <= 4 /\
    exists f, 0 < f < 0x40000 /\ t = VMM_VIRT_BASE + f * PAGE_SIZE /\ is_free (frames s) f = false;
  to_inj : forall t1 t2 x, own !! t1 = Some x -> own !! t2 = Some x -> t1 = t2;
  to_child : forall t l p i, own !! t = Some (l, p) -> 2 <= l -> slot_ok l i ->
    has (entry (words s) t i) VMM_PAGE_PRESENT = true ->
    own !! TABLE_OF (entry (words s) t i) = Some (l - 1, p * 512 + i);
  to_parent : forall c l q, own !! c = Some (l, q) -> l <= 3 ->
    exists t, own !! t = Some (l + 1, q / 512) /\ slot_ok (l + 1) (q mod 512) /\
      has (entry (words s) t (q mod 512)) VMM_PAGE_PRESENT = true /\
      TABLE_OF (entry (words s) t (q mod 512)) = c;
  to_small : forall t p i, own !! t = Some (2, p) -> 0 <= i < 512 ->
    has (entry (words s) t i) VMM_PAGE_HUGE = false
}.

(** Words of different table slots are different words. *)
Lemma word_inj f1 f2 i1 i2 :
  0 <= i1 < 512 -> 0 <= i2 < 512 ->
  VMM_VIRT_BASE + f1 * PAGE_SIZE + 8 * i1 = VMM_VIRT_BASE + f2 * PAGE_SIZE + 8 * i2 -> f1 = f2 /\ i1 = i2.
Proof. unfold PAGE_SIZE. lia. Qed.

Lemma clear_table_words t m a :
  rd (clear_table t m) a = if existsb (fun i => a =? t + 8 * i) (seqZ 0 512) then 0 else rd m a.
Proof.
  unfold clear_table.
  refine (for_range_ind (fun k m' => rd m' a =
    if existsb (fun i => a =? t + 8 * i) (seqZ 0 k) then 0 else rd m a) _ 0 512 m _ _ _); [lia|reflexivity|].
  intros k m' Hk IH. unfold set_entry.
  rewrite (seqZ_app 0 k 1) by lia. rewrite existsb_app.
  assert (seqZ (0 + k) 1 = [k]) as -> by (rewrite seqZ_cons by lia; reflexivity).
  cbn [existsb]. rewrite orb_false_r.
  destruct (Z.eqb_spec a (t + 8 * k)) as [->|Hne].
  - rewrite rd_insert_eq, orb_true_r. reflexivity.
  - rewrite rd_insert_ne, orb_false_r by auto. exact IH.
Qed.

Lemma clear_table_entry t m i : 0 <= i < 512 -> entry (clear_table t m) t i = 0.
Proof.
  intros Hi. unfold entry. rewrite clear_table_words.
  replace (existsb (fun j => t + 8 * i =? t + 8 * j) (seqZ 0 512)) with true; [reflexivity|].
  symmetry. apply existsb_exists. exists i. split; [apply list_elem_of_In, elem_of_seqZ; lia|lia].
Qed.

Lemma clear_table_other f1 f2 m i :
  f1 <> f2 -> 0 <= i < 512 ->
  entry (clear_table (VMM_VIRT_BASE + f1 * PAGE_SIZE) m) (VMM_VIRT_BASE + f2 * PAGE_SIZE) i
  = entry m (VMM_VIRT_BASE + f2 * PAGE_SIZE) i.
Proof.
  intros Hne Hi. unfold entry. rewrite clear_table_words.
  destruct (existsb _ _) eqn:E; [|reflexivity].
  apply existsb_exists in E as (j & Hj & E). apply list_elem_of_In, elem_of_seqZ in Hj.
  apply Z.eqb_eq, word_inj in E; [|lia..]. destruct E. congruence.
Qed.

Lemma set_entry_eq t i v m : entry (set_entry t i v m) t i = v.
Proof. apply rd_insert_eq. Qed.

Lemma set_entry_other f1 f2 i j v m :
  0 <= i < 512 -> 0 <= j < 512 -> (f1, i) <> (f2, j) ->
  entry (set_entry (VMM_VIRT_BASE + f1 * PAGE_SIZE) i v m) (VMM_VIRT_BASE + f2 * PAGE_SIZE) j
  = entry m (VMM_VIRT_BASE + f2 * PAGE_SIZE) j.
Proof.
  intros Hi Hj Hne. apply rd_insert_ne. intros E. apply word_inj in E; [|lia..].
  destruct E. congruence.
Qed.

Lemma has_0 k : has 0 k = false.
Proof. reflexivity. Qed.

(** A lookup in an owned table stays in the forest. *)
Lemma lookup_own own s t l p i c :
  tree_ok own s -> own !! t = Some (l, p) -> 2 <= l -> slot_ok l i ->
  table_lookup (words s) t i = Some c -> own !! c = Some (l - 1, p * 512 + i).
Proof.
  intros Hok Ht Hl Hi. unfold table_lookup.
  destruct (has (entry (words s) t i) VMM_PAGE_PRESENT) eqn:E; [|discriminate].
  simpl. intros [= <-]. eapply to_child; eauto.
Qed.

Definition user_virt (v : Z) : Prop := 0 <= v < 281474976710656 /\ kernel_slot (PML4_INDEX v) = false.

Lemma user_slot v : user_virt v -> slot_ok 4 (PML4_INDEX v).
Proof.
  intros [_ Hk]. pose proof (index_range v). unfold slot_ok, kernel_slot, KERNEL_PML4_START in *. lia.
Qed.

(** Adding an empty table below a missing entry changes no translation. *)
Lemma phys_add_table own s m' t l p i top P virt :
  tree_ok own s -> own !! t = Some (l, p) -> 2 <= l ->
  (forall t2 i2 x, own !! t2 = Some x -> 0 <= i2 < 512 -> (t2, i2) <> (t, i) ->
     entry m' t2 i2 = entry (words s) t2 i2) ->
  has (entry (words s) t i) VMM_PAGE_PRESENT = false ->
  has (entry m' t i) VMM_PAGE_HUGE = false ->
  (forall j, 0 <= j < 512 -> entry m' (TABLE_OF (entry m' t i)) j = 0) ->
  own !! top = Some (4, P) -> user_virt virt ->
  phys_in m' top virt = phys_in (words s) top virt.
Proof.
  intros Hok Ht Hl Hsame Hnp Hnh Hzero Htop Hu.
  destruct (index_range virt) as (R4 & R3 & R2 & R1). pose proof (user_slot virt Hu) as U4.
  assert (Hz : forall j, 0 <= j < 512 -> table_lookup m' (TABLE_OF (entry m' t i)) j = None).
  { intros j Hj. unfold table_lookup. rewrite Hzero by exact Hj. reflexivity. }
  assert (Hold : table_lookup (words s) t i = None) by (unfold table_lookup; rewrite Hnp; reflexivity).
  assert (Hlk : forall t2 i2 x, own !! t2 = Some x -> 0 <= i2 < 512 -> (t2, i2) <> (t, i) ->
    table_lookup m' t2 i2 = table_lookup (words s) t2 i2).
  { intros t2 i2 x H1 H2 H3. unfold table_lookup. erewrite Hsame by eauto. reflexivity. }
  assert (Hnew : forall c, table_lookup m' t i = Some c -> c = TABLE_OF (entry m' t i)).
  { intros c. unfold table_lookup. destruct (negb _); [discriminate|]. intros [= <-]. reflexivity. }
  unfold phys_in.
  destruct (decide ((top, PML4_INDEX virt) = (t, i))) as [[= -> Ei]|N4].
  { rewrite Ei, Hold. destruct (table_lookup m' t i) as [c|]; [|reflexivity].
    rewrite (Hnew c eq_refl), Hz by exact R3. reflexivity. }
  rewrite (Hlk _ _ _ Htop R4 N4).
  destruct (table_lookup (words s) top (PML4_INDEX virt)) as [t3|] eqn:E4; [|reflexivity].
  pose proof (lookup_own _ _ _ _ _ _ _ Hok Htop ltac:(lia) U4 E4) as O3. simpl in O3.
  destruct (decide ((t3, PDPT_INDEX virt) = (t, i))) as [[= -> Ei]|N3].
  { rewrite Ei, Hold. destruct (table_lookup m' t i) as [c|]; [|reflexivity].
    rewrite (Hnew c eq_refl), Hzero, Hz by exact R2. reflexivity. }
  rewrite (Hlk _ _ _ O3 R3 N3).
  destruct (table_lookup (words s) t3 (PDPT_INDEX virt)) as [t2|] eqn:E3; [|reflexivity].
  pose proof (lookup_own _ _ _ _ _ _ _ Hok O3 ltac:(lia) ltac:(split; [exact R3|lia]) E3) as O2. simpl in O2.
  destruct (decide ((t2, PD_INDEX virt) = (t, i))) as [[= -> Ei]|N2].
  { rewrite Ei, Hold, Hnh. rewrite Ei in R2. rewrite (to_small _ _ Hok _ _ _ O2 R2).
    destruct (table_lookup m' t i) as [c|]; [|reflexivity].
    rewrite (Hnew c eq_refl), Hzero by exact R1. reflexivity. }
  rewrite (Hsame _ _ _ O2 R2 N2), (Hlk _ _ _ O2 R2 N2). case_if; [reflexivity|].
  destruct (table_lookup (words s) t2 (PD_INDEX virt)) as [t1|] eqn:E2; [|reflexivity].
  pose proof (lookup_own _ _ _ _ _ _ _ Hok O2 ltac:(lia) ltac:(split; [exact R2|lia]) E2) as O1. simpl in O1.
  rewrite (Hsame _ _ _ O1 R1); [reflexivity|]. intros [= -> _]. rewrite Ht in O1. injection O1. lia.
Qed.

(** ** A fresh table below a missing entry *)
Section fresh.
Variables (own : ownership) (s : vmem) (f t l p i flags : Z) (p' : pmm).
Hypothesis Hok : tree_ok own s.
Hypothesis Ht : own !! t = Some (l, p).
Hypothesis Hl : 2 <= l.
Hypothesis Hi : slot_ok l i.
Hypothesis Hnp : has (entry (words s) t i) VMM_PAGE_PRESENT = false.
Hypothesis Hf : 0 < f < 0x40000.
Hypothesis Htk : takes (fun g => g = f) (frames s) p'.
Hypothesis Hp' : pmm_inv p'.

Definition fresh_next : Z := VMM_VIRT_BASE + f * PAGE_SIZE.
Definition fresh_mem : gmap Z Z :=
  set_entry t i (table_word (f * PAGE_SIZE) flags) (clear_table fresh_next (words s)).
Definition fresh_own : ownership := <[fresh_next := (l - 1, p * 512 + i)]> own.

Lemma fresh_frame t2 x : own !! t2 = Some x ->
  exists f2, f2 <> f /\ t2 = VMM_VIRT_BASE + f2 * PAGE_SIZE /\ 0 < f2 < 0x40000.
Proof.
  assert (is_free (frames s) f = true) by (apply (Htk f); [unfold PMM_MAX_FRAMES; lia|reflexivity]).
  destruct x as [l2 p2]. intros H2. destruct (to_frame _ _ Hok _ _ _ H2) as (_ & f2 & Hr & E2 & Hu2).
  exists f2. split; [congruence|auto].
Qed.

Lemma fresh_none : own !! fresh_next = None.
Proof.
  destruct (own !! fresh_next) as [x|] eqn:E; [|reflexivity].
  destruct (fresh_frame _ _ E) as (f2 & Hne & E2 & _). unfold fresh_next, PAGE_SIZE in E2. lia.
Qed.

Lemma fresh_same t2 i2 x : own !! t2 = Some x -> 0 <= i2 < 512 -> (t2, i2) <> (t, i) ->
  entry fresh_mem t2 i2 = entry (words s) t2 i2.
Proof.
  intros H2 Hi2 Hne. destruct (fresh_frame _ _ H2) as (f2 & Hf2 & -> & _).
  destruct (fresh_frame _ _ Ht) as (ft & Hft & Et & _). unfold fresh_mem. rewrite Et in *.
  rewrite set_entry_other by (try apply Hi; try lia; intros [= -> ->]; apply Hne; congruence).
  apply clear_table_other; [auto|lia].
Qed.

Lemma fresh_at : entry fresh_mem t i = table_word (f * PAGE_SIZE) flags.
Proof. apply set_entry_eq. Qed.

Lemma fresh_zero j : 0 <= j < 512 -> entry fresh_mem fresh_next j = 0.
Proof.
  intros Hj. destruct (fresh_frame _ _ Ht) as (ft & Hft & Et & _). unfold fresh_mem, fresh_next. rewrite Et.
  rewrite set_entry_other by (try apply Hi; try lia; intros [= -> _]; congruence).
  apply clear_table_entry. exact Hj.
Qed.

Lemma fresh_word : has (entry fresh_mem t i) VMM_PAGE_PRESENT = true /\
  has (entry fresh_mem t i) VMM_PAGE_HUGE = false /\ TABLE_OF (entry fresh_mem t i) = fresh_next.
Proof.
  rewrite fresh_at. destruct (table_word_spec f flags ltac:(lia)) as (W1 & W2 & W3).
  rewrite TABLE_OF_frame in W3 by lia. auto.
Qed.

Lemma fresh_cases t2 x : fresh_own !! t2 = Some x ->
  (t2 = fresh_next /\ x = (l - 1, p * 512 + i)) \/ (t2 <> fresh_next /\ own !! t2 = Some x).
Proof.
  intros H2. unfold fresh_own in H2. destruct (decide (t2 = fresh_next)) as [->|Hne].
  - rewrite lookup_insert_eq in H2. left. split; congruence.
  - rewrite lookup_insert_ne in H2 by auto. auto.
Qed.

Lemma fresh_sub t2 x : own !! t2 = Some x -> fresh_own !! t2 = Some x.
Proof.
  intros H2. unfold fresh_own. rewrite lookup_insert_ne; [exact H2|].
  pose proof fresh_none. congruence.
Qed.

(** The path of the new table, split into parent path and index. *)
Lemma fresh_path : (p * 512 + i) / 512 = p /\ (p * 512 + i) mod 512 = i.
Proof. pose proof (proj1 Hi). zlia. Qed.

Lemma fresh_nopath t2 : own !! t2 <> Some (l - 1, p * 512 + i).
Proof.
  intros H2. pose proof (to_frame _ _ Hok _ _ _ Ht) as [Hl4 _].
  destruct (to_parent _ _ Hok _ _ _ H2 ltac:(lia)) as (t0 & Ho & _ & Hp & _).
  destruct fresh_path as [E1 E2]. rewrite E1, Z.sub_add in Ho. rewrite E2 in Hp.
  rewrite (to_inj _ _ Hok _ _ _ Ho Ht) in Hp. congruence.
Qed.

Lemma fresh_tree : tree_ok fresh_own (mk_vmem fresh_mem p').
Proof.
  destruct fresh_word as (W1 & W2 & W3). pose proof (to_frame _ _ Hok _ _ _ Ht) as [Hl4 _].
  constructor; cbn [frames words].
  - exact Hp'.
  - intros t2 l2 p2 H2. destruct (fresh_cases _ _ H2) as [[-> [= -> ->]]|[_ H2']].
    + split; [lia|]. exists f. split; [lia|]. split; [reflexivity|]. apply (Htk f); [unfold PMM_MAX_FRAMES; lia|reflexivity].
    + destruct (to_frame _ _ Hok _ _ _ H2') as (Hl2 & f2 & Hr & E2 & Hu2). split; [exact Hl2|].
      exists f2. split; [exact Hr|]. split; [exact E2|].
      destruct (fresh_frame _ _ H2') as (f3 & Hf3 & E3 & _).
      destruct (Htk f2) as [_ ->]; [unfold PMM_MAX_FRAMES; lia|exact Hu2|unfold PAGE_SIZE in *; lia].
  - intros t1 t2 x H1 H2. destruct (fresh_cases _ _ H1) as [[-> ->]|[_ H1']], (fresh_cases _ _ H2) as [[-> E2]|[_ H2']];
      [reflexivity| | |eapply to_inj; eauto].
    + exfalso. eapply fresh_nopath, H2'.
    + exfalso. rewrite E2 in H1'. eapply fresh_nopath, H1'.
  - intros t2 l2 p2 j H2 Hl2 Hj. destruct (fresh_cases _ _ H2) as [[-> [= -> ->]]|[Hne H2']].
    + rewrite fresh_zero by apply Hj. discriminate.
    + destruct (decide ((t2, j) = (t, i))) as [[= -> ->]|Hn].
      * rewrite W3. intros _. unfold fresh_own. rewrite lookup_insert_eq. rewrite Ht in H2'. congruence.
      * rewrite (fresh_same _ _ _ H2') by (apply Hj || exact Hn). intros Hp. apply fresh_sub. eapply to_child; eauto.
  - intros c l2 q H2 Hl2. destruct (fresh_cases _ _ H2) as [[-> [= -> ->]]|[Hne H2']].
    + exists t. destruct fresh_path as [-> ->]. rewrite Z.sub_add. split; [apply fresh_sub, Ht|auto].
    + destruct (to_parent _ _ Hok _ _ _ H2' Hl2) as (t2 & Ho & Hs & Hp & Hc).
      exists t2. split; [apply fresh_sub, Ho|]. split; [exact Hs|].
      rewrite (fresh_same _ _ _ Ho) by (apply Hs || (intros [= -> E]; rewrite E in Hp; congruence)). auto.
  - intros t2 p2 j H2 Hj. destruct (fresh_cases _ _ H2) as [[-> [= E ->]]|[Hne H2']].
    + rewrite fresh_zero by exact Hj. reflexivity.
    + destruct (decide ((t2, j) = (t, i))) as [[= -> ->]|Hn]; [exact W2|].
      rewrite (fresh_same _ _ _ H2' Hj Hn). eapply to_small; eauto.
Qed.
End fresh.

(** What [table_ensure] promises: a child table in the forest, or no memory;
    translations and kernel slots keep their values. *)
Definition kernel_same (own : ownership) (m m' : gmap Z Z) : Prop :=
  forall t P i, own !! t = Some (4, P) -> 0 <= i < 512 -> kernel_slot i = true ->
    entry m' t i = entry m t i.
Definition phys_same (own : ownership) (m m' : gmap Z Z) : Prop :=
  forall top P virt, own !! top = Some (4, P) -> user_virt virt -> phys_in m' top virt = phys_in m top virt.

(** Present entries of owned tables keep pointing to the same table. *)
Definition lookup_kept (own : ownership) (m m' : gmap Z Z) : Prop :=
  forall t x i c, own !! t = Some x -> 0 <= i < 512 ->
    table_lookup m t i = Some c -> table_lookup m' t i = Some c.

(** No frame below 1 GiB is left. *)
Definition no_low_frame (p : pmm) : Prop :=
  forall f, 0 <= f < Z.min 0x40000 (total_frames p) -> is_free p f = false.

Lemma table_ensure_spec own s t l p i flags r s' :
  tree_ok own s -> own !! t = Some (l, p) -> 2 <= l -> slot_ok l i ->
  table_ensure t i flags s = (r, s') ->
  exists own', own ⊆ own' /\ tree_ok own' s' /\ kernel_same own (words s) (words s') /\
    phys_same own (words s) (words s') /\ lookup_kept own (words s) (words s') /\
    match r with
    | None => no_low_frame (frames s')
    | Some c => own' !! c = Some (l - 1, p * 512 + i) /\ table_lookup (words s') t i = Some c
    end.
Proof.
  intros Hok Ht Hl Hi E. unfold table_ensure in E.
  destruct (has (entry (words s) t i) VMM_PAGE_PRESENT) eqn:Hp.
  { injection E as <- <-. exists own. split; [reflexivity|]. split; [exact Hok|].
    split; [intros ? ? ? ? ? ?; reflexivity|]. split; [intros ? ? ? ? ?; reflexivity|].
    split; [intros ? ? ? ? _ _ Hx; exact Hx|]. split; [eapply to_child; eauto|]. unfold table_lookup. rewrite Hp. reflexivity. }
  pose proof (alloc_low_ok (frames s) (to_pmm _ _ Hok)) as Hal.
  destruct (tpmm_alloc_low (frames s)) as [fr p'].
  destruct Hal as [[[= -> ->] Hnone]|(f & Hf & Efr & Htk & _ & Hinv)].
  { simpl in E. injection E as <- <-. exists own. split; [reflexivity|]. split; [destruct Hok; constructor; assumption|].
    split; [intros ? ? ? ? ? ?; reflexivity|]. split; [intros ? ? ? ? ?; reflexivity|].
    split; [intros ? ? ? ? _ _ Hx; exact Hx|exact Hnone]. }
  simpl in Efr, Htk, Hinv. subst fr. unfold PAGE_SIZE in E at 1.
  destruct (Z.eqb_spec (f * 4096) 0); [lia|]. rewrite TABLE_OF_frame in E by lia.
  fold (fresh_next f) in E. fold (table_word (f * PAGE_SIZE) flags) in E.
  fold (fresh_mem s f t i flags) in E. injection E as <- <-. simpl.
  assert (0 < f < 0x40000) as Hf' by lia.
  assert (has (entry (fresh_mem s f t i flags) t i) VMM_PAGE_PRESENT = true /\
    has (entry (fresh_mem s f t i flags) t i) VMM_PAGE_HUGE = false /\
    TABLE_OF (entry (fresh_mem s f t i flags) t i) = fresh_next f) as (W1 & W2 & W3)
    by (eapply fresh_word; eauto).
  exists (fresh_own own f l p i). split; [|split; [|split; [|split; [|split; [|split]]]]].
  - apply insert_subseteq. eapply fresh_none; eauto.
  - eapply fresh_tree; eauto.
  - intros t2 P j H2 Hj Hk. eapply (fresh_same own s f t l p i flags p'); eauto.
    intros [= -> ->]. rewrite Ht in H2. injection H2 as -> ->. destruct Hi as [_ Hi].
    unfold kernel_slot, KERNEL_PML4_START in *. lia.
  - intros top P virt Htop Hu. eapply (phys_add_table own s _ t l p i); eauto.
    + intros t2 i2 x H2 Hi2 Hne. eapply (fresh_same own s f t l p i flags p'); eauto.
    + rewrite W3. intros j Hj. eapply (fresh_zero own s f t l p i flags p'); eauto.
  - intros t2 x j c H2 Hj. destruct (decide ((t2, j) = (t, i))) as [[= -> ->]|Hne].
    + unfold table_lookup at 1. rewrite Hp. discriminate.
    + assert (entry (fresh_mem s f t i flags) t2 j = entry (words s) t2 j) as Es
        by (eapply (fresh_same own s f t l p i flags p'); eauto).
      unfold table_lookup. rewrite Es. auto.
  - apply lookup_insert_eq.
  - unfold table_lookup. rewrite W1, W3. reflexivity.
Qed.

(** ** Leaf entries *)

(** The path of the page table that covers [virt] in the space with path [P]. *)
Definition pt_path (P virt : Z) : Z := ((P * 512 + PML4_INDEX virt) * 512 + PDPT_INDEX virt) * 512 + PD_INDEX virt.

Section leaf.
Variables (own : ownership) (s : vmem) (pt q i v : Z).
Hypothesis Hok : tree_ok own s.
Hypothesis Hpt : own !! pt = Some (1, q).
Hypothesis Hi : 0 <= i < 512.

Definition leaf_mem : gmap Z Z := set_entry pt i v (words s).

Lemma leaf_same t l p j : own !! t = Some (l, p) -> 0 <= j < 512 -> (t, j) <> (pt, i) ->
  entry leaf_mem t j = entry (words s) t j.
Proof.
  intros Ht Hj Hne. destruct (to_frame _ _ Hok _ _ _ Ht) as (_ & f & _ & Et & _).
  destruct (to_frame _ _ Hok _ _ _ Hpt) as (_ & f1 & _ & E1 & _). unfold leaf_mem. rewrite Et, E1 in *.
  apply set_entry_other; auto. intros [= -> ->]. apply Hne. reflexivity.
Qed.

Lemma leaf_upper t l p j : own !! t = Some (l, p) -> 2 <= l -> 0 <= j < 512 ->
  entry leaf_mem t j = entry (words s) t j.
Proof.
  intros Ht Hl Hj. eapply leaf_same; eauto. intros [= -> _]. rewrite Hpt in Ht. injection Ht. lia.
Qed.

Lemma leaf_tree : tree_ok own (mk_vmem leaf_mem (frames s)).
Proof.
  constructor; cbn [words frames].
  - apply (to_pmm _ _ Hok).
  - apply (to_frame _ _ Hok).
  - apply (to_inj _ _ Hok).
  - intros t l p j Ht Hl Hj. rewrite (leaf_upper _ _ _ _ Ht Hl) by apply Hj. eapply to_child; eauto.
  - intros c l q' Hc Hl. destruct (to_parent _ _ Hok _ _ _ Hc Hl) as (t & Ht & Hs & Hp & Et).
    exists t. pose proof (to_frame _ _ Hok _ _ _ Hc) as [Hl1 _].
    rewrite (leaf_upper _ _ _ _ Ht) by (lia || apply Hs). auto.
  - intros t p j Ht Hj. rewrite (leaf_upper _ _ _ _ Ht) by (lia || exact Hj). eapply to_small; eauto.
Qed.

Lemma leaf_kernel : kernel_same own (words s) leaf_mem.
Proof. intros t P j Ht Hj _. eapply leaf_upper; eauto. lia. Qed.

(** The walk for [virt] in terms of the old memory. *)
Lemma leaf_walk top P virt :
  own !! top = Some (4, P) -> user_virt virt ->
  (pt_path P virt = q -> PT_INDEX virt <> i) -> phys_in leaf_mem top virt = phys_in (words s) top virt.
Proof.
  intros Htop Hu Hne. destruct (index_range virt) as (R4 & R3 & R2 & R1). pose proof (user_slot virt Hu) as U4.
  assert (Hlk : forall t l p j, own !! t = Some (l, p) -> 2 <= l -> 0 <= j < 512 ->
    table_lookup leaf_mem t j = table_lookup (words s) t j).
  { intros t l p j Ht Hl Hj. unfold table_lookup. rewrite (leaf_upper _ _ _ _ Ht Hl Hj). reflexivity. }
  unfold phys_in. rewrite (Hlk _ _ _ _ Htop ltac:(lia) R4).
  destruct (table_lookup (words s) top (PML4_INDEX virt)) as [t3|] eqn:E4; [|reflexivity].
  pose proof (lookup_own _ _ _ _ _ _ _ Hok Htop ltac:(lia) U4 E4) as O3. simpl in O3.
  rewrite (Hlk _ _ _ _ O3 ltac:(lia) R3).
  destruct (table_lookup (words s) t3 (PDPT_INDEX virt)) as [t2|] eqn:E3; [|reflexivity].
  pose proof (lookup_own _ _ _ _ _ _ _ Hok O3 ltac:(lia) ltac:(split; [exact R3|lia]) E3) as O2. simpl in O2.
  rewrite (leaf_upper _ _ _ _ O2 ltac:(lia) R2), (Hlk _ _ _ _ O2 ltac:(lia) R2). case_if; [reflexivity|].
  destruct (table_lookup (words s) t2 (PD_INDEX virt)) as [t1|] eqn:E2; [|reflexivity].
  pose proof (lookup_own _ _ _ _ _ _ _ Hok O2 ltac:(lia) ltac:(split; [exact R2|lia]) E2) as O1. simpl in O1.
  rewrite (leaf_same _ _ _ _ O1 R1); [reflexivity|]. intros [= -> Ei].
  apply Hne; [|exact Ei]. rewrite Hpt in O1. injection O1 as ->. reflexivity.
Qed.

Lemma leaf_here top virt t3 t2 :
  table_lookup leaf_mem top (PML4_INDEX virt) = Some t3 ->
  table_lookup leaf_mem t3 (PDPT_INDEX virt) = Some t2 ->
  table_lookup leaf_mem t2 (PD_INDEX virt) = Some pt ->
  has (entry leaf_mem t2 (PD_INDEX virt)) VMM_PAGE_HUGE = false -> PT_INDEX virt = i ->
  phys_in leaf_mem top virt = if has v VMM_PAGE_PRESENT then Some (Z.land v ADDR_MASK) else None.
Proof.
  intros E4 E3 E2 Hh Ei. unfold phys_in. rewrite E4, E3, Hh, E2, Ei. unfold leaf_mem at 1 2.
  rewrite set_entry_eq. destruct (has v VMM_PAGE_PRESENT); reflexivity.
Qed.
End leaf.

(** ** Mapping and unmapping one page *)

Lemma pt_path_inj P P2 v w :
  pt_path P v = pt_path P2 w ->
  P = P2 /\ PML4_INDEX v = PML4_INDEX w /\ PDPT_INDEX v = PDPT_INDEX w /\ PD_INDEX v = PD_INDEX w.
Proof. unfold pt_path. pose proof (index_range v). pose proof (index_range w). lia. Qed.

(** Another space or another page. *)
Definition elsewhere (top virt top2 virt2 : Z) : Prop :=
  top2 <> top \/ virt2 / PAGE_SIZE <> virt / PAGE_SIZE.

Lemma elsewhere_leaf own s top P virt top2 P2 virt2 :
  tree_ok own s -> own !! top = Some (4, P) -> own !! top2 = Some (4, P2) ->
  user_virt virt -> user_virt virt2 -> elsewhere top virt top2 virt2 ->
  pt_path P2 virt2 = pt_path P virt -> PT_INDEX virt2 <> PT_INDEX virt.
Proof.
  intros Hok Ht Ht2 [Hv _] [Hw _] He Hp Hi. apply pt_path_inj in Hp as (-> & E4 & E3 & E2).
  destruct He as [He|He]; apply He; [eapply to_inj; eauto|]. apply same_indices; assumption.
Qed.

Lemma phys_same_trans own own' m1 m2 m3 :
  own ⊆ own' -> phys_same own m1 m2 -> phys_same own' m2 m3 -> phys_same own m1 m3.
Proof.
  intros Hs H1 H2 top P virt Ht Hu. rewrite (H2 top P virt); [eauto| |exact Hu].
  eapply lookup_weaken; eauto.
Qed.

Lemma kernel_same_trans own own' m1 m2 m3 :
  own ⊆ own' -> kernel_same own m1 m2 -> kernel_same own' m2 m3 -> kernel_same own m1 m3.
Proof.
  intros Hs H1 H2 t P i Ht Hi Hk. rewrite (H2 t P i); [eauto| |exact Hi|exact Hk].
  eapply lookup_weaken; eauto.
Qed.

(** What one call to a map function may do to the tables. *)
Definition map_post (own : ownership) (top virt phys : Z) (s : vmem) (r : Z) (s' : vmem) : Prop :=
  exists own', own ⊆ own' /\ tree_ok own' s' /\ kernel_same own (words s) (words s') /\
    ((r = 0 /\ phys_in (words s') top virt = Some (Z.land phys ADDR_MASK)) \/
     (r = -1 /\ phys_in (words s') top virt = phys_in (words s) top virt /\ no_low_frame (frames s'))) /\
    (forall top2 P2 virt2, own !! top2 = Some (4, P2) -> user_virt virt2 ->
       elsewhere top virt top2 virt2 -> phys_in (words s') top2 virt2 = phys_in (words s) top2 virt2).

Lemma map_post_fail own own' top P virt phys s s' :
  own !! top = Some (4, P) -> user_virt virt -> own ⊆ own' -> tree_ok own' s' ->
  kernel_same own (words s) (words s') -> phys_same own (words s) (words s') -> no_low_frame (frames s') ->
  map_post own top virt phys s (-1) s'.
Proof.
  intros Ht Hu Hs Hok Hk Hp Hn. exists own'. split; [exact Hs|]. split; [exact Hok|]. split; [exact Hk|].
  split; [right; split; [reflexivity|split; [eapply Hp; eauto|exact Hn]]|].
  intros top2 P2 virt2 Ht2 Hu2 _. eapply Hp; eauto.
Qed.

Lemma map_in_spec own s top P virt phys flags r s' :
  tree_ok own s -> own !! top = Some (4, P) -> user_virt virt -> Z.land flags ADDR_MASK = 0 ->
  map_in top virt phys flags s = (r, s') -> map_post own top virt phys s r s'.
Proof.
  intros Hok Htop Hu Hfl E. unfold map_in in E.
  destruct (index_range virt) as (R4 & R3 & R2 & R1). pose proof (user_slot virt Hu) as U4.
  destruct (table_ensure top (PML4_INDEX virt) flags s) as [r1 s1] eqn:E1.
  destruct (table_ensure_spec own s top 4 P _ flags r1 s1 Hok Htop ltac:(lia) U4 E1)
    as (own1 & S1 & Hok1 & K1 & P1 & L1 & C1).
  destruct r1 as [pdpt|]; [|injection E as <- <-; eapply map_post_fail; eauto].
  destruct C1 as [O1 X1]. simpl in O1.
  destruct (table_ensure pdpt (PDPT_INDEX virt) flags s1) as [r2 s2] eqn:E2.
  destruct (table_ensure_spec own1 s1 pdpt 3 _ _ flags r2 s2 Hok1 O1 ltac:(lia) ltac:(split; [exact R3|lia]) E2)
    as (own2 & S2 & Hok2 & K2 & P2 & L2 & C2).
  assert (S12 : own ⊆ own2) by (etransitivity; eauto).
  pose proof (kernel_same_trans _ _ _ _ _ S1 K1 K2) as K12. pose proof (phys_same_trans _ _ _ _ _ S1 P1 P2) as P12.
  destruct r2 as [pd|]; [|injection E as <- <-; eapply map_post_fail; eauto].
  destruct C2 as [O2 X2]. simpl in O2.
  destruct (table_ensure pd (PD_INDEX virt) flags s2) as [r3 s3] eqn:E3.
  destruct (table_ensure_spec own2 s2 pd 2 _ _ flags r3 s3 Hok2 O2 ltac:(lia) ltac:(split; [exact R2|lia]) E3)
    as (own3 & S3 & Hok3 & K3 & P3 & L3 & C3).
  assert (S13 : own ⊆ own3) by (etransitivity; eauto).
  pose proof (kernel_same_trans _ _ _ _ _ S12 K12 K3) as K13. pose proof (phys_same_trans _ _ _ _ _ S12 P12 P3) as P13.
  destruct r3 as [pt|]; [|injection E as <- <-; eapply map_post_fail; eauto].
  destruct C3 as [O3 X3]. simpl in O3. injection E as <- <-.
  set (v := Z.lor (Z.lor (Z.land phys ADDR_MASK) flags) VMM_PAGE_PRESENT).
  destruct (leaf_word_spec phys flags Hfl) as [V1 V2]. fold v in V1, V2.
  pose proof (lookup_weaken _ _ _ _ Htop S13) as Htop3.
  pose proof (lookup_weaken _ _ _ _ O2 S3) as O2'.
  pose proof (lookup_weaken _ _ _ _ (lookup_weaken _ _ _ _ O1 S2) S3) as O1'.
  fold (leaf_mem s3 pt (PT_INDEX virt) v). exists own3. split; [exact S13|].
  split; [eapply leaf_tree; eauto|].
  split; [eapply (kernel_same_trans own own3); [exact S13|exact K13|eapply leaf_kernel; eauto]|]. split.
  - left. split; [reflexivity|]. simpl.
    assert (Hup : forall t l p j c, own3 !! t = Some (l, p) -> 2 <= l -> 0 <= j < 512 ->
      table_lookup (words s3) t j = Some c -> table_lookup (leaf_mem s3 pt (PT_INDEX virt) v) t j = Some c).
    { intros t l p j c Ht Hl Hj. unfold table_lookup. erewrite leaf_upper by eauto. auto. }
    rewrite (leaf_here s3 pt (PT_INDEX virt) v top virt pdpt pd); [rewrite V1, V2; reflexivity| | | | |reflexivity].
    + apply (Hup _ _ _ _ _ Htop3); [lia|exact R4|].
      apply (L3 _ _ _ _ (lookup_weaken _ _ _ _ Htop S12) R4), (L2 _ _ _ _ (lookup_weaken _ _ _ _ Htop S1) R4), X1.
    + apply (Hup _ _ _ _ _ O1'); [lia|exact R3|]. apply (L3 _ _ _ _ (lookup_weaken _ _ _ _ O1 S2) R3), X2.
    + apply (Hup _ _ _ _ _ O2'); [lia|exact R2|exact X3].
    + erewrite leaf_upper by (eauto; lia). eapply (to_small _ _ Hok3); eauto.
  - intros top2 Q virt2 Ht2 Hu2 He. simpl.
    rewrite (leaf_walk own3 s3 pt _ (PT_INDEX virt) v Hok3 O3 R1 top2 Q virt2);
      [eapply P13; eauto|eapply lookup_weaken; eauto|exact Hu2|].
    fold (pt_path P virt). apply (elsewhere_leaf own3 s3 top P virt top2 Q virt2); eauto using lookup_weaken.
Qed.

Definition unmap_post (own : ownership) (top virt : Z) (s s' : vmem) : Prop :=
  tree_ok own s' /\ kernel_same own (words s) (words s') /\ frames s' = frames s /\
  phys_in (words s') top virt = None /\
  (forall top2 P2 virt2, own !! top2 = Some (4, P2) -> user_virt virt2 ->
     elsewhere top virt top2 virt2 -> phys_in (words s') top2 virt2 = phys_in (words s) top2 virt2).

Lemma unmap_in_spec own s top P virt :
  tree_ok own s -> own !! top = Some (4, P) -> user_virt virt ->
  unmap_post own top virt s (unmap_in top virt s).
Proof.
  intros Hok Htop Hu. unfold unmap_in.
  destruct (index_range virt) as (R4 & R3 & R2 & R1). pose proof (user_slot virt Hu) as U4.
  assert (Hsame : phys_in (words s) top virt = None -> unmap_post own top virt s s).
  { intros Hn. split; [exact Hok|]. split; [intros ? ? ? ? ? ?; reflexivity|]. auto. }
  destruct (table_lookup (words s) top (PML4_INDEX virt)) as [t3|] eqn:E4;
    [|apply Hsame; unfold phys_in; rewrite E4; reflexivity].
  pose proof (lookup_own _ _ _ _ _ _ _ Hok Htop ltac:(lia) U4 E4) as O3. simpl in O3.
  destruct (table_lookup (words s) t3 (PDPT_INDEX virt)) as [t2|] eqn:E3;
    [|apply Hsame; unfold phys_in; rewrite E4, E3; reflexivity].
  pose proof (lookup_own _ _ _ _ _ _ _ Hok O3 ltac:(lia) ltac:(split; [exact R3|lia]) E3) as O2. simpl in O2.
  pose proof (to_small _ _ Hok _ _ _ O2 R2) as Hsm.
  destruct (table_lookup (words s) t2 (PD_INDEX virt)) as [t1|] eqn:E2;
    [|apply Hsame; unfold phys_in; rewrite E4, E3, Hsm, E2; reflexivity].
  pose proof (lookup_own _ _ _ _ _ _ _ Hok O2 ltac:(lia) ltac:(split; [exact R2|lia]) E2) as O1. simpl in O1.
  fold (leaf_mem s t1 (PT_INDEX virt) 0).
  assert (Hup : forall t l p j, own !! t = Some (l, p) -> 2 <= l -> 0 <= j < 512 ->
    table_lookup (leaf_mem s t1 (PT_INDEX virt) 0) t j = table_lookup (words s) t j).
  { intros t l p j Ht Hl Hj. unfold table_lookup. erewrite leaf_upper by eauto. reflexivity. }
  split; [eapply leaf_tree; eauto|]. split; [eapply leaf_kernel; eauto|]. split; [reflexivity|]. split.
  - cbn [words]. erewrite (leaf_here s t1 (PT_INDEX virt) 0 top virt t3 t2); [reflexivity| | | | |reflexivity].
    + rewrite (Hup _ _ _ _ Htop) by (lia || exact R4). exact E4.
    + rewrite (Hup _ _ _ _ O3) by (lia || exact R3). exact E3.
    + rewrite (Hup _ _ _ _ O2) by (lia || exact R2). exact E2.
    + erewrite leaf_upper by (eauto; lia). exact Hsm.
  - intros top2 Q virt2 Ht2 Hu2 He. cbn [words].
    eapply (leaf_walk own s t1 _ (PT_INDEX virt) 0 Hok O1 R1 top2 Q virt2 Ht2 Hu2).
    fold (pt_path P virt). apply (elsewhere_leaf own s top P virt top2 Q virt2); auto.
Qed.

(** ** Pointer validation *)

(** The indices of an address are those of its page. *)
Lemma page_has_page m top a need :
  0 <= a < 281474976710656 -> page_has m top (a - a mod 4096) need = page_has m top a need.
Proof.
  intros Ha. unfold page_has, PML4_INDEX, PDPT_INDEX, PD_INDEX, PT_INDEX. rewrite !index_div by lia.
  change (2 ^ 39) with 549755813888. change (2 ^ 30) with 1073741824. change (2 ^ 21) with 2097152.
  change (2 ^ 12) with 4096.
  replace ((a - a mod 4096) / 549755813888) with (a / 549755813888) by zlia.
  replace ((a - a mod 4096) / 1073741824) with (a / 1073741824) by zlia.
  replace ((a - a mod 4096) / 2097152) with (a / 2097152) by zlia.
  replace ((a - a mod 4096) / 4096) with (a / 4096) by zlia. reflexivity.
Qed.

Lemma has_of_land e need : Z.testbit need 0 = true -> Z.land e need = need -> has e VMM_PAGE_PRESENT = true.
Proof.
  intros Hb E. change VMM_PAGE_PRESENT with (2 ^ 0). rewrite has_pow2 by lia.
  rewrite <- E, Z.land_spec in Hb. apply andb_true_iff in Hb. apply Hb.
Qed.

(** A page that the pointer check accepts has a translation. *)
Lemma page_has_translate m top v need : Z.testbit need 0 = true -> page_has m top v need = true ->
  is_Some (translate m top v).
Proof.
  intros Hb. unfold page_has, translate. destruct (table_lookup m top (PML4_INDEX v)) as [pdpt|]; [|discriminate].
  destruct (table_lookup m pdpt (PDPT_INDEX v)) as [pd|] eqn:Epd; [|discriminate]. cbn [mbind option_bind].
  rewrite Epd. cbn [mbind option_bind]. set (e := entry m pd (PD_INDEX v)). destruct (has e VMM_PAGE_HUGE) eqn:Eh.
  - intros E. apply Z.eqb_eq in E. rewrite (has_of_land e need Hb E). simpl. eauto.
  - unfold table_lookup. fold e. destruct (has e VMM_PAGE_PRESENT); [|discriminate]. cbn [negb].
    intros E. apply Z.eqb_eq in E. rewrite (has_of_land _ need Hb E). eauto.
Qed.

Lemma range_walk_spec m top need stop fuel p :
  0 <= p -> p mod 4096 = 0 -> stop <= VMM_USER_END -> stop - p <= 4096 * Z.of_nat fuel ->
  exists b, range_walk m top need stop fuel p = Some b /\
    (b = true <-> forall a, p <= a < stop -> page_has m top a need = true).
Proof.
  unfold VMM_USER_END. revert p. induction fuel as [|fuel IH]; intros p Hp Hal Hs Hf; cbn [range_walk];
    destruct (Z.ltb_spec p stop) as [Hlt|Hge]; [lia|eexists; split; [reflexivity|split; [lia|auto]]| |
      eexists; split; [reflexivity|split; [lia|auto]]].
  destruct (page_has m top p need) eqn:E; simpl.
  - rewrite u64_small by lia. destruct (IH (p + 4096)) as (b & -> & Hb); [lia|zlia|lia|lia|].
    exists b. split; [reflexivity|]. rewrite Hb. split; intros Hall a Ha; [|apply Hall; lia].
    destruct (Z.ltb_spec a (p + 4096)); [|apply Hall; lia].
    rewrite <- page_has_page by lia. replace (a - a mod 4096) with p by zlia. exact E.
  - exists false. split; [reflexivity|]. split; [discriminate|]. intros Hall. rewrite Hall in E by lia. discriminate E.
Qed.

Lemma range_user_spec m top addr len write :
  in_u64 addr -> in_u64 len ->
  exists b, range_user m top addr len write = Some b /\
    (b = true <-> len = 0 \/
       VMM_USER_BASE <= addr /\ addr + len <= VMM_USER_END /\
       forall a, addr <= a < addr + len ->
         page_has m top a (if negb (write =? 0) then 7 else 5) = true).
Proof.
  intros Ha Hl. unfold range_user, in_u64, VMM_USER_BASE in *.
  change (if negb (write =? 0) then _ else _) with (if negb (write =? 0) then 7 else 5).
  set (need := if negb (write =? 0) then 7 else 5).
  destruct (Z.eqb_spec len 0) as [->|Hl0]; [exists true; split; [reflexivity|tauto]|].
  destruct (Z.ltb_spec addr 0x8000000000); [exists false; split; [reflexivity|split; [discriminate|lia]]|].
  destruct (Z.gtb_spec addr VMM_USER_END) as [Hg|Hg]; simpl orb;
    [exists false; split; [reflexivity|split; [discriminate|lia]]|].
  rewrite (u64_small (VMM_USER_END - addr)) by (unfold VMM_USER_END in *; lia).
  destruct (Z.gtb_spec len (VMM_USER_END - addr)) as [Hx|Hx];
    [exists false; split; [reflexivity|split; [discriminate|lia]]|].
  rewrite (u64_small (addr + len)) by (unfold VMM_USER_END in *; lia).
  change (not64 4095) with (not64 (2 ^ 12 - 1)). rewrite land_not64_align by (unfold in_u64; lia).
  change (2 ^ 12) with 4096.
  destruct (range_walk_spec m top need (addr + len) (Z.to_nat (len / 4096 + 2)) (addr - addr mod 4096))
    as (b & -> & Hb); [zlia|zlia|lia|zlia|].
  exists b. split; [reflexivity|]. rewrite Hb. split.
  - intros Hall. right. split; [lia|]. split; [lia|]. intros a Hr. apply Hall. zlia.
  - intros [?|(_ & _ & Hall)] a Hr; [contradiction|]. unfold VMM_USER_END in *.
    destruct (Z.ltb_spec a addr); [|apply Hall; lia].
    rewrite <- (page_has_page m top a need) by zlia.
    replace (a - a mod 4096) with (addr - addr mod 4096) by zlia.
    rewrite (page_has_page m top addr need) by lia. apply Hall. lia.
Qed.

(** ** Creating a space *)

Lemma share_kernel_spec kf f m :
  kf <> f -> let top := VMM_VIRT_BASE + f * PAGE_SIZE in let ktop := VMM_VIRT_BASE + kf * PAGE_SIZE in
  (forall i, 0 <= i < 512 -> entry (share_kernel ktop top m) top i =
     if kernel_slot i then entry m ktop i else entry m top i) /\
  (forall f2 i, f2 <> f -> 0 <= i < 512 ->
     entry (share_kernel ktop top m) (VMM_VIRT_BASE + f2 * PAGE_SIZE) i = entry m (VMM_VIRT_BASE + f2 * PAGE_SIZE) i).
Proof.
  intros Hne top ktop. unfold share_kernel.
  assert (forall k m', 0 <= k <= 512 ->
    m' = for_range (fun i m => if (i =? 0) || (i >=? KERNEL_PML4_START) then set_entry top i (entry m ktop i) m else m) 0 k m ->
    (forall i, 0 <= i < 512 -> entry m' top i = if kernel_slot i && (i <? k) then entry m ktop i else entry m top i) /\
    (forall f2 i, f2 <> f -> 0 <= i < 512 -> entry m' (VMM_VIRT_BASE + f2 * PAGE_SIZE) i = entry m (VMM_VIRT_BASE + f2 * PAGE_SIZE) i)) as Hgen.
  { intros k m' Hk ->.
    apply (for_range_ind (fun k m' =>
      (forall i, 0 <= i < 512 -> entry m' top i = if kernel_slot i && (i <? k) then entry m ktop i else entry m top i) /\
      (forall f2 i, f2 <> f -> 0 <= i < 512 -> entry m' (VMM_VIRT_BASE + f2 * PAGE_SIZE) i = entry m (VMM_VIRT_BASE + f2 * PAGE_SIZE) i))).
    - lia.
    - split; [|auto]. intros i Hi. replace (i <? 0) with false by lia. rewrite andb_false_r. reflexivity.
    - intros j m' Hj [I1 I2]. fold (kernel_slot j). destruct (kernel_slot j) eqn:Ek; split.
      + intros i Hi. destruct (Z.eq_dec i j) as [->|Hn].
        * rewrite set_entry_eq, Ek. replace (j <? j + 1) with true by lia. simpl. apply I2; [exact Hne|lia].
        * unfold top. rewrite set_entry_other by (try lia; congruence). fold top. rewrite I1 by exact Hi.
          replace (i <? j + 1) with (i <? j) by lia. reflexivity.
      + intros f2 i Hf Hi. unfold top. rewrite set_entry_other by (try lia; congruence). apply I2; assumption.
      + intros i Hi. rewrite I1 by exact Hi. destruct (Z.eq_dec i j) as [->|Hn]; [rewrite Ek; reflexivity|].
        replace (i <? j + 1) with (i <? j) by lia. reflexivity.
      + intros f2 i Hf Hi. apply I2; assumption. }
  destruct (Hgen 512 _ ltac:(lia) eq_refl) as [G1 G2]. split; [|exact G2].
  intros i Hi. rewrite G1 by exact Hi. replace (i <? 512) with true by lia. rewrite andb_true_r. reflexivity.
Qed.

Section create.
Variables (own : ownership) (s : vmem) (f kf P : Z) (p' : pmm).
Hypothesis Hok : tree_ok own s.
Hypothesis Hf : 0 < f < 0x40000.
Hypothesis Htk : takes (fun g => g = f) (frames s) p'.
Hypothesis Hp' : pmm_inv p'.
Hypothesis Hkf : kf <> f.
Hypothesis HP : forall t, own !! t <> Some (4, P).

Definition new_top : Z := VMM_VIRT_BASE + f * PAGE_SIZE.
Definition new_mem : gmap Z Z :=
  share_kernel (VMM_VIRT_BASE + kf * PAGE_SIZE) new_top (clear_table new_top (words s)).

Lemma new_other f2 i : f2 <> f -> 0 <= i < 512 ->
  entry new_mem (VMM_VIRT_BASE + f2 * PAGE_SIZE) i = entry (words s) (VMM_VIRT_BASE + f2 * PAGE_SIZE) i.
Proof.
  intros Hf2 Hi. destruct (share_kernel_spec kf f (clear_table new_top (words s)) Hkf) as [_ S2].
  unfold new_mem, new_top in *. rewrite S2 by assumption. apply clear_table_other; auto.
Qed.

Lemma new_entry i : 0 <= i < 512 ->
  entry new_mem new_top i = if kernel_slot i then entry (words s) (VMM_VIRT_BASE + kf * PAGE_SIZE) i else 0.
Proof.
  intros Hi. destruct (share_kernel_spec kf f (clear_table new_top (words s)) Hkf) as [S1 _].
  unfold new_mem, new_top in *. rewrite S1, clear_table_entry by exact Hi.
  rewrite clear_table_other by (auto; lia). reflexivity.
Qed.

Lemma new_none : own !! new_top = None.
Proof.
  destruct (own !! new_top) as [[l2 p2]|] eqn:E; [|reflexivity].
  destruct (to_frame _ _ Hok _ _ _ E) as (_ & f2 & _ & E2 & Hu).
  assert (f2 = f) as -> by (unfold new_top, PAGE_SIZE in E2; lia).
  destruct (Htk f) as [Hx _]; [unfold PMM_MAX_FRAMES; lia|]. destruct (Hx eq_refl). congruence.
Qed.

Lemma new_same t2 l2 p2 i : own !! t2 = Some (l2, p2) -> 0 <= i < 512 -> entry new_mem t2 i = entry (words s) t2 i.
Proof.
  intros H2 Hi. destruct (to_frame _ _ Hok _ _ _ H2) as (_ & f2 & Hr & -> & Hu). apply new_other; [|exact Hi].
  intros ->. destruct (Htk f) as [Hx _]; [unfold PMM_MAX_FRAMES; lia|]. destruct (Hx eq_refl). congruence.
Qed.

Lemma new_tree : tree_ok (<[new_top := (4, P)]> own) (mk_vmem new_mem p').
Proof.
  pose proof new_none as Hnone.
  assert (Hsub : forall t2 x, own !! t2 = Some x -> <[new_top := (4, P)]> own !! t2 = Some x)
    by (intros t2 x H2; rewrite lookup_insert_ne; [exact H2|congruence]).
  assert (Hcase : forall t2 x, <[new_top := (4, P)]> own !! t2 = Some x ->
    (t2 = new_top /\ x = (4, P)) \/ own !! t2 = Some x).
  { intros t2 x H2. destruct (decide (t2 = new_top)) as [->|Hne].
    - rewrite lookup_insert_eq in H2. left. split; congruence.
    - rewrite lookup_insert_ne in H2 by auto. auto. }
  constructor; cbn [words frames].
  - exact Hp'.
  - intros t2 l2 p2 H2. destruct (Hcase _ _ H2) as [[-> [= -> ->]]|H2'].
    + split; [lia|]. exists f. split; [lia|]. split; [reflexivity|]. apply (Htk f); [unfold PMM_MAX_FRAMES; lia|reflexivity].
    + destruct (to_frame _ _ Hok _ _ _ H2') as (Hl & f2 & Hr & E2 & Hu). split; [exact Hl|]. exists f2.
      split; [exact Hr|]. split; [exact E2|]. destruct (Htk f2) as [T1 T2]; [unfold PMM_MAX_FRAMES; lia|].
      destruct (Z.eq_dec f2 f) as [->|Hn]; [apply T1; reflexivity|rewrite T2 by exact Hn; exact Hu].
  - intros t1 t2 x H1 H2. destruct (Hcase _ _ H1) as [[-> ->]|H1'], (Hcase _ _ H2) as [[-> E]|H2'];
      [reflexivity|exfalso; eapply HP, H2'|exfalso; subst x; eapply HP, H1'|eapply to_inj; eauto].
  - intros t2 l2 p2 i H2 Hl Hi. destruct (Hcase _ _ H2) as [[-> [= -> ->]]|H2'].
    + rewrite new_entry by apply Hi. destruct Hi as [Hi Hu]. specialize (Hu eq_refl).
      unfold kernel_slot. unfold KERNEL_PML4_START in *.
      replace ((i =? 0) || (i >=? 256)) with false by lia. discriminate.
    + rewrite (new_same _ _ _ _ H2') by apply Hi. intros Hp. apply Hsub. eapply to_child; eauto.
  - intros c l q Hc Hl. destruct (Hcase _ _ Hc) as [[_ [= -> _]]|Hc']; [lia|].
    destruct (to_parent _ _ Hok _ _ _ Hc' Hl) as (t2 & Ho & Hs & Hp & Ht). exists t2.
    split; [apply Hsub, Ho|]. rewrite (new_same _ _ _ _ Ho) by apply Hs. auto.
  - intros t2 p2 i H2 Hi. destruct (Hcase _ _ H2) as [[-> [=]]|H2'].
    rewrite (new_same _ _ _ _ H2' Hi). eapply to_small; eauto.
Qed.
End create.

(** * Properties *)

#[local] Opaque clear_table share_kernel.

Section properties.
Context {H : Type} `{SmallHeap H}.
Implicit Types s : vmm H.

(** C4. [vmm_aspace_map]: success makes exactly the page of [virt] in that space
    translate to the frame of [phys]; failure (out of page-table frames, and
    then no frame below 1 GiB is free) changes no translation.  In both cases
    every other page of this and of every other address space translates as
    before, the shared kernel slots of every PML4 keep their entries, and the
    tables still form a forest. *)
Theorem vmm_map_correct own a virt phys flags P s r s' :
  tree_ok own (vm s) -> own !! pml4 (space s a) = Some (4, P) -> user_virt virt ->
  Z.land flags ADDR_MASK = 0 -> vmm_aspace_map a virt phys flags s = (r, s') ->
  ((r = 0 /\ vmm_aspace_phys a virt s' = Some (Z.land phys ADDR_MASK)) \/
   (r = -1 /\ vmm_aspace_phys a virt s' = vmm_aspace_phys a virt s /\ no_low_frame (frames (vm s')))) /\
  (forall a2 P2 virt2, own !! pml4 (space s a2) = Some (4, P2) -> user_virt virt2 ->
     elsewhere (pml4 (space s a)) virt (pml4 (space s a2)) virt2 ->
     vmm_aspace_phys a2 virt2 s' = vmm_aspace_phys a2 virt2 s) /\
  exists own', own ⊆ own' /\ tree_ok own' (vm s') /\ kernel_same own (words (vm s)) (words (vm s')).
Proof.
  intros Hok Ht Hu Hfl E. unfold vmm_aspace_map in E. pose proof (proj2 Hu) as Hk. rewrite Hk in E.
  destruct (map_in (pml4 (space s a)) virt phys flags (vm s)) as [r1 m1] eqn:Em. injection E as <- <-.
  destruct (map_in_spec own _ _ P _ _ _ _ _ Hok Ht Hu Hfl Em) as (own' & Hs & Hok' & Hks & Hr & Ho).
  unfold vmm_aspace_phys. rewrite Hk. split; [exact Hr|]. split; [|exists own'; auto].
  intros a2 P2 virt2 Ht2 Hu2 He. destruct Hu2 as [Hu2 Hk2]. rewrite Hk2. eapply Ho; [exact Ht2|split; assumption|exact He].
Qed.

(** [vmm_aspace_unmap] removes exactly one translation: the page of [virt]
    no longer translates, every other page of every space does as before, the
    kernel slots and the frame allocator are untouched. *)
Theorem vmm_unmap_correct own a virt P s :
  tree_ok own (vm s) -> own !! pml4 (space s a) = Some (4, P) -> user_virt virt ->
  let s' := vmm_aspace_unmap a virt s in
  vmm_aspace_phys a virt s' = None /\
  (forall a2 P2 virt2, own !! pml4 (space s a2) = Some (4, P2) -> user_virt virt2 ->
     elsewhere (pml4 (space s a)) virt (pml4 (space s a2)) virt2 ->
     vmm_aspace_phys a2 virt2 s' = vmm_aspace_phys a2 virt2 s) /\
  tree_ok own (vm s') /\ kernel_same own (words (vm s)) (words (vm s')) /\ frames (vm s') = frames (vm s).
Proof.
  intros Hok Ht Hu s'. destruct (unmap_in_spec own (vm s) _ P virt Hok Ht Hu) as (H1 & H2 & H3 & H4 & H5).
  subst s'. unfold vmm_aspace_unmap, vmm_aspace_phys. rewrite (proj2 Hu). split; [exact H4|]. split; [|auto].
  intros a2 P2 virt2 Ht2 [Hu2 Hk2] He. rewrite Hk2. eapply H5; [exact Ht2|split; assumption|exact He].
Qed.

(** The kernel half cannot be changed through an address space: for an
    address in slot 0 or 256..511, map fails without any effect and unmap does
    nothing. *)
Theorem vmm_kernel_half_protected a virt phys flags s :
  kernel_slot (PML4_INDEX virt) = true ->
  vmm_aspace_map a virt phys flags s = (-1, s) /\ vmm_aspace_unmap a virt s = s /\
  vmm_aspace_phys a virt s = None.
Proof.
  intros Hk. unfold vmm_aspace_map, vmm_aspace_unmap, vmm_aspace_phys. rewrite Hk. auto.
Qed.


Lemma aspace_create_spec own kf P s a s' :
  tree_ok own (vm s) -> (forall t, own !! t <> Some (4, P)) ->
  0 <= kf < 0x40000 -> pml4 (space s (kernel_as s)) = VMM_VIRT_BASE + kf * PAGE_SIZE ->
  is_free (frames (vm s)) kf = false -> vmm_aspace_create s = (a, s') -> a <> 0 ->
  let top := pml4 (space s' a) in
  own !! top = None /\ tree_ok (<[top := (4, P)]> own) (vm s') /\
  (forall i, 0 <= i < 512 -> entry (words (vm s')) top i =
     if kernel_slot i then entry (words (vm s)) (pml4 (space s (kernel_as s))) i else 0) /\
  (forall virt, user_virt virt -> vmm_aspace_phys a virt s' = None) /\
  (forall t l p i, own !! t = Some (l, p) -> 0 <= i < 512 ->
     entry (words (vm s')) t i = entry (words (vm s)) t i).
Proof.
  intros Hok HP Hkf Hk Hkfree E Ha top. unfold vmm_aspace_create in E.
  pose proof (alloc_low_ok (frames (vm s)) (to_pmm _ _ Hok)) as Hal.
  destruct (tpmm_alloc_low (frames (vm s))) as [fr p'].
  destruct Hal as [[[= -> ->] _]|(f & Hf & Efr & Htk & _ & Hinv)]; [simpl in E; injection E as <- _; contradiction|].
  simpl in Efr, Htk, Hinv. subst fr. unfold PAGE_SIZE in E at 1.
  destruct (Z.eqb_spec (f * 4096) 0); [lia|]. rewrite TABLE_OF_frame, Hk in E by lia.
  change (VMM_VIRT_BASE + f * PAGE_SIZE) with (new_top f) in E.
  change (share_kernel _ _ _) with (new_mem (vm s) f kf) in E.
  destruct (sh_malloc 16 (vheap s)) as [a0 h']. destruct (Z.eqb_spec a0 0); [injection E as <- _; contradiction|].
  injection E as <- <-. assert (Hf' : 0 < f < 0x40000) by lia.
  assert (top = new_top f) as Etop by (unfold top, space; cbn [spaces]; rewrite lookup_insert_eq; reflexivity).
  assert (kf <> f) as Hne.
  { intros ->. destruct (Htk f) as [Hx _]; [unfold PMM_MAX_FRAMES; lia|]. destruct (Hx eq_refl). congruence. }
  clearbody top. subst top. cbn [vm words].
  split; [eapply new_none; eauto|]. split; [eapply new_tree; eauto|].
  split; [intros i Hi; rewrite Hk; eapply new_entry; eauto|]. split.
  - intros virt Hu. unfold vmm_aspace_phys. rewrite (proj2 Hu). unfold space. cbn [spaces vm words].
    rewrite lookup_insert_eq. cbn [default pml4]. unfold phys_in, table_lookup. rewrite (new_entry (vm s) f kf Hne) by apply index_range.
    rewrite (proj2 Hu). reflexivity.
  - intros t l p i Ht Hi. eapply new_same; eauto.
Qed.

(** [vmm_aspace_create] returns a space whose kernel slots equal the
    kernel's and whose user half is empty; no translation of another space
    changes and the new PML4 joins the forest. *)
Theorem vmm_create_correct own kf P s a s' :
  tree_ok own (vm s) -> (forall t, own !! t <> Some (4, P)) ->
  0 <= kf < 0x40000 -> pml4 (space s (kernel_as s)) = VMM_VIRT_BASE + kf * PAGE_SIZE ->
  is_free (frames (vm s)) kf = false -> vmm_aspace_create s = (a, s') -> a <> 0 ->
  let top := pml4 (space s' a) in
  own !! top = None /\ tree_ok (<[top := (4, P)]> own) (vm s') /\
  (forall i, 0 <= i < 512 -> entry (words (vm s')) top i =
     if kernel_slot i then entry (words (vm s)) (pml4 (space s (kernel_as s))) i else 0) /\
  (forall virt, user_virt virt -> vmm_aspace_phys a virt s' = None) /\
  (forall t l p i, own !! t = Some (l, p) -> 0 <= i < 512 ->
     entry (words (vm s')) t i = entry (words (vm s)) t i).
Proof. apply aspace_create_spec. Qed.
End properties.

#[local] Transparent clear_table share_kernel.

(** * Concrete instances *)

(** A heap that hands out consecutive 32-byte records. *)
#[local] Instance demo_small_heap : SmallHeap Z := { sh_malloc _ h := (h, h + 32); sh_free _ h := h }.

(** The kernel's PML4 in frame 1, frames 3, 4, 6 and 7 free. *)
Definition demo_vmm : vmm Z :=
  mk_vmm (mk_vmem gmap_empty demo_pmm) 65536
    (<[40960 := mk_aspace 4096 (VMM_VIRT_BASE + 1 * PAGE_SIZE)]> (∅ : gmap Z vmm_aspace_t)) 40960 40960 4096.
Definition demo_vmm1 : vmm Z := (vmm_aspace_create demo_vmm).2.
Definition demo_own : ownership := <[VMM_VIRT_BASE + 3 * PAGE_SIZE := (4, 1)]> ∅.

Lemma demo_tree : tree_ok ∅ (vm demo_vmm).
Proof. constructor; [exact demo_pmm_inv|intros * Hx; discriminate Hx..]. Qed.

Lemma demo_create_eq : vmm_aspace_create demo_vmm = (65536, demo_vmm1).
Proof.
  unfold demo_vmm1. destruct (vmm_aspace_create demo_vmm) as [a v] eqn:E. cbn [snd]. f_equal.
  change a with (a, v).1. rewrite <- E. vm_compute. reflexivity.
Qed.

Lemma demo_top1 : pml4 (space demo_vmm1 65536) = VMM_VIRT_BASE + 3 * PAGE_SIZE.
Proof. vm_compute. reflexivity. Qed.

Lemma demo_kernel_used : is_free (frames (vm demo_vmm)) 1 = false.
Proof. vm_compute. reflexivity. Qed.

Lemma demo_tree1 : tree_ok demo_own (vm demo_vmm1).
Proof.
  pose proof (aspace_create_spec ∅ 1 1 demo_vmm 65536 demo_vmm1 demo_tree
    ltac:(intros t Hx; discriminate Hx) ltac:(lia) eq_refl demo_kernel_used demo_create_eq ltac:(lia)) as (_ & Ht & _).
  rewrite demo_top1 in Ht. exact Ht.
Qed.

Lemma demo_own_top : demo_own !! pml4 (space demo_vmm1 65536) = Some (4, 1).
Proof. rewrite demo_top1. apply lookup_insert_eq. Qed.

Lemma demo_user : user_virt VMM_USER_BASE.
Proof. split; [unfold VMM_USER_BASE; lia|reflexivity]. Qed.

Lemma vmm_create_correct_witness : entry (words (vm demo_vmm1)) (pml4 (space demo_vmm1 65536)) 1 = 0.
Proof.
  pose proof (vmm_create_correct ∅ 1 1 demo_vmm 65536 demo_vmm1 demo_tree
    ltac:(intros t Hx; discriminate Hx) ltac:(lia) eq_refl demo_kernel_used demo_create_eq ltac:(lia))
    as (_ & _ & He & _).
  exact (He 1 ltac:(lia)).
Defined.

(** One user page mapped in the new space. *)
Abbreviation demo_mapped := (vmm_aspace_map 65536 VMM_USER_BASE 0x100000 6 demo_vmm1).

Lemma demo_mapped_eq : demo_mapped = (0, demo_mapped.2).
Proof.
  destruct demo_mapped as [a v] eqn:E. cbn [snd]. f_equal. change a with (a, v).1. rewrite <- E.
  vm_compute. reflexivity.
Qed.

Lemma vmm_map_correct_witness :
  vmm_aspace_phys 65536 VMM_USER_BASE demo_mapped.2 = Some (Z.land 0x100000 ADDR_MASK).
Proof.
  pose proof (vmm_map_correct demo_own 65536 VMM_USER_BASE 0x100000 6 1 demo_vmm1 0 demo_mapped.2
    demo_tree1 demo_own_top demo_user eq_refl demo_mapped_eq) as [[[_ Hm]|[Hx _]] _]; [exact Hm|discriminate Hx].
Defined.

Lemma vmm_unmap_correct_witness :
  vmm_aspace_phys 65536 VMM_USER_BASE (vmm_aspace_unmap 65536 VMM_USER_BASE demo_vmm1) = None.
Proof.
  exact (proj1 (vmm_unmap_correct demo_own 65536 VMM_USER_BASE 1 demo_vmm1 demo_tree1 demo_own_top demo_user)).
Defined.

Lemma vmm_kernel_half_protected_witness : vmm_aspace_map 65536 0x1000 0x100000 6 demo_vmm = (-1, demo_vmm).
Proof. exact (proj1 (vmm_kernel_half_protected 65536 0x1000 0x100000 6 demo_vmm eq_refl)). Defined.


(** [vmm_aspace_destroy] leaks a page-table frame: a space with one mapped
    page takes four frames; destroying it gives back the PML4, the page
    directory and the page table, but not the page-directory-pointer table. *)
Theorem aspace_destroy_leaks_pdpt :
  let s2 := vmm_aspace_destroy 65536 demo_mapped.2 in
  free_frames (frames (vm demo_vmm)) = 4 /\ demo_mapped.1 = 0 /\
  free_frames (frames (vm demo_mapped.2)) = 0 /\ free_frames (frames (vm s2)) = 3 /\
  is_free (frames (vm s2)) 4 = false.
Proof.
  cbv zeta. split; [vm_compute; reflexivity|]. split; [vm_compute; reflexivity|].
  split; [vm_compute; reflexivity|]. split; vm_compute; reflexivity.
Qed.
