(* ===== verification/Tstring.v ===== *)
(** The string library of [src/tstring.c]: C strings and byte blocks in a byte
    memory, number formatting and the bounded formatter [tsprintf].

    Memory is a finite map from addresses to bytes; source and destination
    may overlap, so every read sees the writes before it.  Loops over strings
    take fuel, and [None] means that it ran out.  The formatter's variadic
    arguments are a list of 64-bit register values, which each conversion
    reads at its own type. *)
From stdpp Require Import prelude gmap list numbers.
From Stdlib Require Import ZArith Lia ZifyBool.
From S2P Require Import Prelude.
#[local] Open Scope Z_scope.

Abbreviation bytes := (gmap Z Z).

(** * Strings *)

Fixpoint strlen_from (m : bytes) (fuel : nat) (s n : Z) : option Z :=
  if rd m (s + n) =? 0 then Some n
  else match fuel with O => None | S f => strlen_from m f s (n + 1) end.

Definition tstrlen (m : bytes) (fuel : nat) (s : Z) : option Z := strlen_from m fuel s 0.

Fixpoint tstrcmp (m : bytes) (fuel : nat) (a b : Z) : option Z :=
  if negb (rd m a =? 0) && (rd m a =? rd m b)
  then match fuel with O => None | S f => tstrcmp m f (a + 1) (b + 1) end
  else Some (u8 (rd m a) - u8 (rd m b)).

Fixpoint strncmp_from (m : bytes) (a b i : Z) (n : nat) : Z :=
  match n with
  | O => 0
  | S n' =>
      let d := u8 (rd m (a + i)) - u8 (rd m (b + i)) in
      if negb (d =? 0) || (rd m (a + i) =? 0) then d else strncmp_from m a b (i + 1) n'
  end.

Definition tstrncmp (m : bytes) (a b n : Z) : Z := strncmp_from m a b 0 (Z.to_nat n).

(** [while (( *d++ = *s++ ));] *)
Fixpoint copy_string (fuel : nat) (d s : Z) (m : bytes) : option bytes :=
  let c := rd m s in
  let m' := <[d := c]> m in
  if c =? 0 then Some m'
  else match fuel with O => None | S f => copy_string f (d + 1) (s + 1) m' end.

Definition tstrcpy (fuel : nat) (dst src : Z) (m : bytes) : option bytes := copy_string fuel dst src m.

(** The two loops of [tstrncpy]. *)
Fixpoint strncpy_from (dst src i : Z) (n : nat) (m : bytes) : bytes :=
  match n with
  | O => m
  | S n' =>
      if negb (rd m (src + i) =? 0)
      then strncpy_from dst src (i + 1) n' (<[dst + i := rd m (src + i)]> m)
      else for_loop (fun j m => <[dst + j := 0]> m) i n m
  end.

Definition tstrncpy (dst src n : Z) (m : bytes) : bytes := strncpy_from dst src 0 (Z.to_nat n) m.

Definition tstrcat (fuel : nat) (dst src : Z) (m : bytes) : option bytes :=
  match tstrlen m fuel dst with
  | None => None
  | Some n => copy_string fuel (dst + n) src m
  end.

Fixpoint tstartswith (m : bytes) (fuel : nat) (s prefix : Z) : option Z :=
  if negb (rd m prefix =? 0) then
    if negb (rd m s =? rd m prefix) then Some 0
    else match fuel with O => None | S f => tstartswith m f (s + 1) (prefix + 1) end
  else Some 1.

(** [Some None] is a null pointer; [char] is signed. *)
Fixpoint tstrchr (m : bytes) (fuel : nat) (s c : Z) : option (option Z) :=
  if negb (rd m s =? 0) then
    if s8 (rd m s) =? c then Some (Some s)
    else match fuel with O => None | S f => tstrchr m f (s + 1) c end
  else Some (if c =? 0 then Some s else None).

(** * Byte blocks *)

Definition tmemset (s c n : Z) (m : bytes) : bytes :=
  for_range (fun i m => <[s + i := u8 c]> m) 0 n m.

Definition tmemcpy (dst src n : Z) (m : bytes) : bytes :=
  for_range (fun i m => <[dst + i := rd m (src + i)]> m) 0 n m.

(** [for (i = n; i > 0; i--) d[i - 1] = s[i - 1];] *)
Fixpoint copy_down (dst src : Z) (n : nat) (m : bytes) : bytes :=
  match n with
  | O => m
  | S n' => copy_down dst src n' (<[dst + Z.of_nat n' := rd m (src + Z.of_nat n')]> m)
  end.

Definition tmemmove (dst src n : Z) (m : bytes) : bytes :=
  if dst <? src then tmemcpy dst src n m
  else if dst >? src then copy_down dst src (Z.to_nat n) m
  else m.

Fixpoint memcmp_from (m : bytes) (a b i : Z) (n : nat) : Z :=
  match n with
  | O => 0
  | S n' =>
      let d := rd m (a + i) - rd m (b + i) in
      if negb (d =? 0) then d else memcmp_from m a b (i + 1) n'
  end.

Definition tmemcmp (m : bytes) (a b n : Z) : Z := memcmp_from m a b 0 (Z.to_nat n).

(** * Numbers *)

(** The table [digits[]]. *)
Definition digit_char (d : Z) : Z := if d <? 10 then 48 + d else 87 + d.

(** [while (val) { tmp[i++] = digits[val % base]; val /= base; }] with [room]
    free slots in [tmp]; the result is the digits in the order they are put
    out.  [None] is a write past the end of [tmp]. *)
Fixpoint digits_loop (room : nat) (base val : Z) (acc : list Z) : option (list Z) :=
  if val =? 0 then Some acc
  else match room with
       | O => None
       | S r => digits_loop r base (val / base) (digit_char (val mod base) :: acc)
       end.

(** The digits of [val] by way of a buffer of [room] slots. *)
Definition to_digits (room : nat) (base val : Z) : option (list Z) :=
  if val =? 0 then Some [48] else digits_loop room base val [].

Fixpoint store_bytes (buf : Z) (l : list Z) (m : bytes) : bytes :=
  match l with
  | [] => m
  | c :: l' => store_bytes (buf + 1) l' (<[buf := c]> m)
  end.

Definition titoa (val buf base : Z) (m : bytes) : option bytes :=
  match to_digits 16 base val with
  | None => None
  | Some l => Some (store_bytes buf (l ++ [0]) m)
  end.

(** * Formatting *)

(** [buf_put]: memory and the running length. *)
Definition buf_put (buf cap c : Z) (st : bytes * Z) : bytes * Z :=
  let '(m, i) := st in
  (if u64 (i + 1) <? cap then <[buf + i := c]> m else m, u64 (i + 1)).

Definition buf_puts (buf cap : Z) (l : list Z) (st : bytes * Z) : bytes * Z :=
  fold_left (fun st c => buf_put buf cap c st) l st.

Definition buf_putu (buf cap u : Z) (st : bytes * Z) : option (bytes * Z) :=
  match to_digits 12 10 u with
  | None => None
  | Some l => Some (buf_puts buf cap l st)
  end.

Definition buf_putx (buf cap u : Z) (st : bytes * Z) : option (bytes * Z) :=
  match to_digits 10 16 u with
  | None => None
  | Some l => Some (buf_puts buf cap l st)
  end.

(** [while ( *s) buf_put(buf, cap, &i, *s++);] *)
Fixpoint put_string (buf cap : Z) (fuel : nat) (s : Z) (st : bytes * Z) : option (bytes * Z) :=
  let c := rd st.1 s in
  if c =? 0 then Some st
  else match fuel with O => None | S f => put_string buf cap f (s + 1) (buf_put buf cap c st) end.

Definition null_text : list Z := [40; 110; 117; 108; 108; 41].       (* "(null)" *)

(** One conversion, [c] the character after the percent sign: the number of
    format characters and the arguments left. [None] is a missing argument or
    a loop without end. *)
Definition convert (buf cap : Z) (fuel : nat) (c : Z) (args : list Z) (st : bytes * Z)
  : option (Z * list Z * (bytes * Z)) :=
  if c =? 37 then Some (1, args, buf_put buf cap 37 st)
  else if c =? 115 then
    match args with
    | [] => None
    | a :: rest => st' ← (if a =? 0 then Some (buf_puts buf cap null_text st) else put_string buf cap fuel a st);
                   Some (1, rest, st')
    end
  else if c =? 100 then
    match args with
    | [] => None
    | a :: rest =>
        let v := s32 a in
        let '(v, st) := if v <? 0 then (s32 (u32 (0 - u32 v)), buf_put buf cap 45 st) else (v, st) in
        st' ← buf_putu buf cap (u32 v) st; Some (1, rest, st')
    end
  else if c =? 117 then
    match args with
    | [] => None
    | a :: rest => st' ← buf_putu buf cap (u32 a) st; Some (1, rest, st')
    end
  else if c =? 120 then
    match args with
    | [] => None
    | a :: rest => st' ← buf_putx buf cap (u32 a) st; Some (1, rest, st')
    end
  else if c =? 112 then
    match args with
    | [] => None
    | a :: rest => st' ← buf_putx buf cap (u32 a) (buf_puts buf cap [48; 120] st); Some (1, rest, st')
    end
  else if c =? 99 then
    match args with
    | [] => None
    | a :: rest => Some (1, rest, buf_put buf cap (u8 a) st)
    end
  else Some (0, args, buf_put buf cap 37 st).

Fixpoint format_loop (buf cap : Z) (fuel : nat) (fmt : Z) (args : list Z) (st : bytes * Z)
  : option (bytes * Z) :=
  let c := rd st.1 fmt in
  if c =? 0 then Some st
  else match fuel with
  | O => None
  | S f =>
      if negb (c =? 37) then format_loop buf cap f (fmt + 1) args (buf_put buf cap c st)
      else
        match convert buf cap fuel (rd st.1 (fmt + 1)) args st with
        | None => None
        | Some (k, args', st') => format_loop buf cap f (fmt + 1 + k) args' st'
        end
  end.

Definition tsprintf (fuel : nat) (buf cap fmt : Z) (args : list Z) (m : bytes) : option (Z * bytes) :=
  match format_loop buf cap fuel fmt args (m, 0) with
  | None => None
  | Some (m', i) =>
      Some (s32 i, if i <? cap then <[buf + i := 0]> m'
                   else if cap >? 0 then <[buf + cap - 1 := 0]> m' else m')
  end.

(** * C strings *)

(** The nonzero bytes [s] followed by a zero are at [p]. *)
Fixpoint cstr (m : bytes) (p : Z) (s : list Z) : Prop :=
  match s with
  | [] => rd m p = 0
  | c :: s' => 0 < c < 256 /\ rd m p = c /\ cstr m (p + 1) s'
  end.

Abbreviation len l := (Z.of_nat (length l)).

(** Byte-wise lexicographic order. *)
Fixpoint lex (a b : list Z) : comparison :=
  match a, b with
  | [], [] => Eq
  | [], _ => Lt
  | _, [] => Gt
  | x :: a', y :: b' => match x ?= y with Eq => lex a' b' | c => c end
  end.

Lemma cstr_frame m m' p s :
  (forall x, p <= x <= p + len s -> rd m' x = rd m x) -> cstr m p s -> cstr m' p s.
Proof.
  revert p. induction s as [|c s IH]; intros p Hf; cbn [cstr length]; [intros <-; apply Hf; simpl; lia|].
  cbn [length] in Hf. intros (Hc & Hp & Hs). split; [exact Hc|]. split; [rewrite Hf by lia; exact Hp|].
  apply IH; [|exact Hs]. intros x Hx. apply Hf. lia.
Qed.

Lemma cstr_app m p a b :
  cstr m p (a ++ b) <-> Forall (fun c => 0 < c < 256) a /\
    (forall k c, a !! k = Some c -> rd m (p + Z.of_nat k) = c) /\ cstr m (p + len a) b.
Proof.
  revert p. induction a as [|x a IH]; intros p; cbn [app cstr length].
  { replace (p + Z.of_nat 0) with p by lia. split; [intros Hb; split; [constructor|split; [discriminate|exact Hb]]|].
    intros (_ & _ & Hb). exact Hb. }
  rewrite IH. replace (p + 1 + len a) with (p + Z.of_nat (S (length a))) by lia. split.
  - intros (Hx & Hp & Ha & Hl & Hb). split; [constructor; assumption|]. split; [|exact Hb].
    intros [|k] c Hk; [injection Hk as <-; replace (p + Z.of_nat 0) with p by lia; exact Hp|].
    specialize (Hl k c Hk). replace (p + Z.of_nat (S k)) with (p + 1 + Z.of_nat k) by lia. exact Hl.
  - intros (Ha & Hl & Hb). inversion Ha as [|? ? Hx Ha']. subst. split; [exact Hx|].
    split; [specialize (Hl O x eq_refl); replace (p + Z.of_nat 0) with p in Hl by lia; exact Hl|].
    split; [exact Ha'|]. split; [|exact Hb]. intros k c Hk. specialize (Hl (S k) c Hk).
    replace (p + 1 + Z.of_nat k) with (p + Z.of_nat (S k)) by lia. exact Hl.
Qed.

Lemma strlen_from_spec m fuel p s n :
  cstr m (p + n) s -> (length s <= fuel)%nat -> strlen_from m fuel p n = Some (n + len s).
Proof.
  revert n s. induction fuel as [|fuel IH]; intros n s Hs Hl; cbn [strlen_from];
    destruct s as [|c s]; cbn [cstr length] in *; try lia.
  1,2: rewrite Hs; simpl; f_equal; lia.
  destruct Hs as (Hc & Hp & Hs). rewrite Hp. replace (c =? 0) with false by lia.
  rewrite (IH (n + 1) s); [f_equal; lia| |lia]. replace (p + (n + 1)) with (p + n + 1) by lia. exact Hs.
Qed.

(** Two strings start with the same byte, or the loop of [tstrcmp] ends. *)
Definition heads_differ (a b : list Z) : Prop :=
  match a, b with x :: _, y :: _ => x <> y | _, _ => True end.

Lemma strcmp_cases a b :
  (exists x a' b', a = x :: a' /\ b = x :: b') \/ heads_differ a b.
Proof.
  destruct a as [|x a], b as [|y b]; try (right; exact I).
  destruct (Z.eq_dec x y) as [->|Hne]; [left; eauto|right; exact Hne].
Qed.

Lemma strcmp_exit m fuel a b sa sb :
  cstr m a sa -> cstr m b sb -> heads_differ sa sb ->
  exists r, tstrcmp m fuel a b = Some r /\ (r ?= 0) = lex sa sb /\ (r = 0 <-> sa = sb).
Proof.
  intros Ha Hb Hd. exists (u8 (rd m a) - u8 (rd m b)).
  assert (0 <= rd m a < 256 /\ 0 <= rd m b < 256) as [Ra Rb].
  { destruct sa, sb; cbn [cstr] in Ha, Hb; lia. }
  rewrite !u8_small by assumption.
  assert (negb (rd m a =? 0) && (rd m a =? rd m b) = false) as Hexit.
  { destruct sa, sb; cbn [cstr heads_differ] in Ha, Hb, Hd; lia. }
  split; [destruct fuel; cbn [tstrcmp]; rewrite Hexit, !u8_small by assumption; reflexivity|].
  rewrite <- Z.compare_sub.
  destruct sa as [|x sa], sb as [|y sb]; cbn [cstr heads_differ lex] in *.
  - rewrite Ha, Hb. split; [reflexivity|split; [reflexivity|lia]].
  - split; [apply Z.compare_lt_iff; lia|split; [lia|discriminate]].
  - split; [apply Z.compare_gt_iff; lia|split; [lia|discriminate]].
  - destruct Ha as (_ & -> & _), Hb as (_ & -> & _). split; [|split; [lia|congruence]].
    destruct (x ?= y) eqn:E; try reflexivity. apply Z.compare_eq in E. contradiction.
Qed.

Lemma strcmp_spec m fuel a b sa sb :
  cstr m a sa -> cstr m b sb -> (length sa <= fuel)%nat ->
  exists r, tstrcmp m fuel a b = Some r /\ (r ?= 0) = lex sa sb /\ (r = 0 <-> sa = sb).
Proof.
  revert a b sa sb. induction fuel as [|fuel IH]; intros a b sa sb Ha Hb Hl.
  { destruct sa; [|simpl in Hl; lia]. apply (strcmp_exit _ _ _ _ _ _ Ha Hb I). }
  destruct (strcmp_cases sa sb) as [(x & sa' & sb' & -> & ->)|Hd]; [|apply (strcmp_exit _ _ _ _ _ _ Ha Hb Hd)].
  cbn [cstr length lex] in *. destruct Ha as (Hx & Ex & Ha), Hb as (Hy & Ey & Hb).
  cbn [tstrcmp]. rewrite Ex, Ey, Z.eqb_refl. replace (negb (x =? 0) && true) with true by lia.
  destruct (IH (a + 1) (b + 1) sa' sb' Ha Hb ltac:(lia)) as (r & E & Hc & H0).
  exists r. rewrite Z.compare_refl. split; [exact E|]. split; [exact Hc|]. rewrite H0. split; congruence.
Qed.

(** [tstrcmp] on two C strings returns, and the sign of the result is their
    byte-wise lexicographic order (so it is zero exactly for equal strings). *)
Theorem tstrcmp_correct m fuel a b sa sb :
  cstr m a sa -> cstr m b sb -> (length sa <= fuel)%nat ->
  exists r, tstrcmp m fuel a b = Some r /\ (r ?= 0) = lex sa sb /\ (r = 0 <-> sa = sb).
Proof. apply strcmp_spec. Qed.

(** Copying a string to a place that does not overlap it. *)
Lemma copy_string_spec s : forall fuel d p m,
  cstr m p s -> (length s <= fuel)%nat -> p + len s < d \/ d + len s < p ->
  exists m', copy_string fuel d p m = Some m' /\ cstr m' d s /\
    forall x, x < d \/ d + len s < x -> rd m' x = rd m x.
Proof.
  induction s as [|c s IH]; intros fuel d p m Hs Hl Hsep; cbn [cstr length] in *.
  { exists (<[d := 0]> m). destruct fuel; cbn [copy_string]; rewrite Hs; (split; [reflexivity|]);
      (split; [apply rd_insert_eq|intros x Hx; apply rd_insert_ne; lia]). }
  destruct Hs as (Hc & Hp & Hs). destruct fuel as [|fuel]; [lia|]. cbn [copy_string]. rewrite Hp.
  replace (c =? 0) with false by lia.
  destruct (IH fuel (d + 1) (p + 1) (<[d := c]> m)) as (m' & E & Hd & Hout); [|lia|lia|].
  { eapply cstr_frame; [|exact Hs]. intros x Hx. apply rd_insert_ne. lia. }
  exists m'. split; [exact E|]. split.
  - split; [exact Hc|]. split; [rewrite Hout by lia; apply rd_insert_eq|exact Hd].
  - intros x Hx. rewrite Hout by lia. apply rd_insert_ne. lia.
Qed.

(** [tstrcat] appends: when the source does not overlap the result, the
    destination holds the concatenation afterwards and no other byte changed. *)
Theorem tstrcat_correct m fuel dst src a b :
  cstr m dst a -> cstr m src b -> (length a <= fuel)%nat -> (length b <= fuel)%nat ->
  src + len b < dst + len a \/ dst + len a + len b < src ->
  exists m', tstrcat fuel dst src m = Some m' /\ cstr m' dst (a ++ b) /\
    forall x, x < dst + len a \/ dst + len a + len b < x -> rd m' x = rd m x.
Proof.
  intros Ha Hb Hla Hlb Hsep. unfold tstrcat, tstrlen.
  rewrite (strlen_from_spec m fuel dst a 0); [|replace (dst + 0) with dst by lia; exact Ha|exact Hla].
  replace (0 + len a) with (len a) by lia.
  destruct (copy_string_spec b fuel (dst + len a) src m Hb Hlb Hsep) as (m' & E & Hd & Hout).
  exists m'. split; [exact E|]. split; [|exact Hout].
  replace a with (a ++ []) in Ha by apply app_nil_r.
  apply cstr_app in Ha as (Hf & Hl & _). apply cstr_app. split; [exact Hf|]. split; [|exact Hd].
  intros k c Hk. rewrite Hout; [apply Hl, Hk|]. apply lookup_lt_Some in Hk. lia.
Qed.

(** * Byte blocks *)

Lemma tmemset_spec s c n m x :
  0 <= n -> rd (tmemset s c n m) x = if (s <=? x) && (x <? s + n) then u8 c else rd m x.
Proof.
  intros Hn. unfold tmemset.
  refine (for_range_ind (fun k m' => rd m' x = if (s <=? x) && (x <? s + k) then u8 c else rd m x) _ 0 n m Hn _ _).
  { replace ((s <=? x) && (x <? s + 0)) with false by lia. reflexivity. }
  intros k m' Hk IH. destruct (Z.eq_dec x (s + k)) as [->|Hne].
  - rewrite rd_insert_eq. replace ((s <=? s + k) && (s + k <? s + (k + 1))) with true by lia. reflexivity.
  - rewrite rd_insert_ne, IH by lia.
    replace ((s <=? x) && (x <? s + (k + 1))) with ((s <=? x) && (x <? s + k)) by lia. reflexivity.
Qed.

(** The forward copy is right when the destination starts below the source or
    past its end. *)
Lemma tmemcpy_spec dst src n m x :
  0 <= n -> dst <= src \/ src + n <= dst ->
  rd (tmemcpy dst src n m) x = if (dst <=? x) && (x <? dst + n) then rd m (src + (x - dst)) else rd m x.
Proof.
  intros Hn Hs. unfold tmemcpy.
  refine (for_range_ind (fun k m' => forall x, rd m' x =
    if (dst <=? x) && (x <? dst + k) then rd m (src + (x - dst)) else rd m x) _ 0 n m Hn _ _ x).
  { intros y. replace ((dst <=? y) && (y <? dst + 0)) with false by lia. reflexivity. }
  intros k m' Hk IH y. destruct (Z.eq_dec y (dst + k)) as [->|Hne].
  - rewrite rd_insert_eq, IH. replace ((dst <=? src + k) && (src + k <? dst + k)) with false by lia.
    replace ((dst <=? dst + k) && (dst + k <? dst + (k + 1))) with true by lia. f_equal. lia.
  - rewrite rd_insert_ne, IH by lia.
    replace ((dst <=? y) && (y <? dst + (k + 1))) with ((dst <=? y) && (y <? dst + k)) by lia. reflexivity.
Qed.

Lemma copy_down_spec dst src n m x :
  src < dst ->
  rd (copy_down dst src n m) x =
    if (dst <=? x) && (x <? dst + Z.of_nat n) then rd m (src + (x - dst)) else rd m x.
Proof.
  intros Hs. revert m. induction n as [|n IH]; intros m; cbn [copy_down].
  { replace ((dst <=? x) && (x <? dst + Z.of_nat 0)) with false by lia. reflexivity. }
  rewrite IH. destruct (Z.eq_dec x (dst + Z.of_nat n)) as [->|Hne].
  - replace ((dst <=? dst + Z.of_nat n) && (dst + Z.of_nat n <? dst + Z.of_nat n)) with false by lia.
    rewrite rd_insert_eq. replace ((dst <=? dst + Z.of_nat n) && (dst + Z.of_nat n <? dst + Z.of_nat (S n))) with true by lia.
    f_equal. lia.
  - replace ((dst <=? x) && (x <? dst + Z.of_nat (S n))) with ((dst <=? x) && (x <? dst + Z.of_nat n)) by lia.
    destruct ((dst <=? x) && (x <? dst + Z.of_nat n)) eqn:E; rewrite rd_insert_ne by lia; reflexivity.
Qed.

Lemma tmemmove_spec dst src n m x :
  0 <= n -> rd (tmemmove dst src n m) x =
    if (dst <=? x) && (x <? dst + n) then rd m (src + (x - dst)) else rd m x.
Proof.
  intros Hn. unfold tmemmove. destruct (Z.ltb_spec dst src) as [Hlt|Hge].
  { apply tmemcpy_spec; lia. }
  destruct (Z.gtb_spec dst src).
  - rewrite copy_down_spec by lia. replace (dst + Z.of_nat (Z.to_nat n)) with (dst + n) by lia. reflexivity.
  - replace src with dst by lia. destruct (_ && _); [f_equal; lia|reflexivity].
Qed.

(** C37. [tmemmove] copies correctly for every overlap: afterwards the
    destination holds the bytes the source held before, and nothing else
    changed. *)
Theorem tmemmove_correct dst src n m x :
  0 <= n -> rd (tmemmove dst src n m) x =
    if (dst <=? x) && (x <? dst + n) then rd m (src + (x - dst)) else rd m x.
Proof. apply tmemmove_spec. Qed.

(** * Numbers *)

Definition digit_val (c : Z) : Z := if c <? 58 then c - 48 else c - 87.

(** The number a string of digits denotes. *)
Definition value (base : Z) (l : list Z) : Z := fold_left (fun a c => a * base + digit_val c) l 0.

Lemma digit_roundtrip d : 0 <= d < 16 -> digit_val (digit_char d) = d /\ 0 < digit_char d < 256.
Proof. intros Hd. unfold digit_char, digit_val. destruct (Z.ltb_spec d 10); case_if; lia. Qed.

Lemma value_snoc base l c : value base (l ++ [c]) = value base l * base + digit_val c.
Proof. unfold value. rewrite fold_left_app. reflexivity. Qed.

Lemma digits_loop_spec base room val acc :
  2 <= base <= 16 -> 0 <= val < base ^ Z.of_nat room ->
  exists l, digits_loop room base val acc = Some (l ++ acc) /\ value base l = val /\
    (length l <= room)%nat /\ Forall (fun c => 0 < c < 256) l.
Proof.
  intros Hb. revert val acc. induction room as [|room IH]; intros val acc Hv; cbn [digits_loop].
  { change (base ^ Z.of_nat 0) with 1 in Hv. replace val with 0 by lia. exists []. repeat split; [simpl; lia|constructor]. }
  destruct (Z.eqb_spec val 0) as [->|Hne]; [exists []; repeat split; [simpl; lia|constructor]|].
  destruct (digit_roundtrip (val mod base)) as [Hd Hr]; [pose proof (Z.mod_pos_bound val base); lia|].
  destruct (IH (val / base) (digit_char (val mod base) :: acc)) as (l & E & Hval & Hl & Hf).
  { split; [apply Z.div_pos; lia|]. apply Z.div_lt_upper_bound; [lia|].
    rewrite <- Z.pow_succ_r by lia. replace (Z.succ (Z.of_nat room)) with (Z.of_nat (S room)) by lia. lia. }
  exists (l ++ [digit_char (val mod base)]). rewrite <- app_assoc. split; [exact E|].
  split; [rewrite value_snoc, Hval, Hd; pose proof (Z.div_mod val base); lia|].
  rewrite length_app. simpl. split; [lia|]. apply Forall_app. split; [exact Hf|]. constructor; [exact Hr|constructor].
Qed.

Lemma to_digits_spec base room val :
  2 <= base <= 16 -> (1 <= room)%nat -> 0 <= val < base ^ Z.of_nat room ->
  exists l, to_digits room base val = Some l /\ value base l = val /\ (1 <= length l <= room)%nat /\
    Forall (fun c => 0 < c < 256) l.
Proof.
  intros Hb Hr Hv. unfold to_digits. destruct (Z.eqb_spec val 0) as [->|Hne].
  { exists [48]. repeat split; [simpl; lia|simpl; lia|]. constructor; [lia|constructor]. }
  destruct (digits_loop_spec base room val [] Hb Hv) as (l & E & Hval & Hl & Hf).
  exists l. rewrite app_nil_r in E. split; [exact E|]. split; [exact Hval|]. split; [|exact Hf].
  destruct l; [|simpl in *; lia]. exfalso. apply Hne. rewrite <- Hval. reflexivity.
Qed.

Lemma store_bytes_spec l : forall buf m,
  (forall k c, l !! k = Some c -> rd (store_bytes buf l m) (buf + Z.of_nat k) = c) /\
  (forall x, x < buf \/ buf + len l <= x -> rd (store_bytes buf l m) x = rd m x).
Proof.
  induction l as [|c l IH]; intros buf m; cbn [store_bytes length]; [split; [discriminate|auto]|].
  destruct (IH (buf + 1) (<[buf := c]> m)) as [H1 H2]. split.
  - intros [|k] x Hk; [|replace (buf + Z.of_nat (S k)) with (buf + 1 + Z.of_nat k) by lia; apply H1, Hk].
    injection Hk as ->. rewrite H2 by lia. replace (buf + Z.of_nat 0) with buf by lia. apply rd_insert_eq.
  - intros x Hx. rewrite H2 by lia. apply rd_insert_ne. lia.
Qed.

Lemma titoa_spec val buf base m :
  2 <= base <= 16 -> 0 <= val < base ^ 16 ->
  exists m' l, titoa val buf base m = Some m' /\ cstr m' buf l /\ value base l = val /\
    (1 <= length l <= 16)%nat /\ (forall x, x < buf \/ buf + len l < x -> rd m' x = rd m x).
Proof.
  intros Hb Hv. destruct (to_digits_spec base 16 val Hb ltac:(lia) Hv) as (l & E & Hval & Hl & Hf).
  unfold titoa. rewrite E. exists (store_bytes buf (l ++ [0]) m), l. split; [reflexivity|].
  destruct (store_bytes_spec (l ++ [0]) buf m) as [H1 H2].
  split; [|split; [exact Hval|split; [exact Hl|]]].
  - replace l with (l ++ []) at 2 by apply app_nil_r. apply cstr_app. split; [exact Hf|]. split.
    + intros k c Hk. apply H1. apply lookup_app_l_Some, Hk.
    + simpl. apply H1. rewrite lookup_app_r by lia. rewrite Nat.sub_diag. reflexivity.
  - intros x Hx. apply H2. rewrite length_app. simpl. lia.
Qed.

(** [titoa] writes a C string of digits that denotes the number, at most
    16 of them and nothing else, for every value that fits 16 digits in the
    base; in base 10 and 16 that is every 32-bit value. *)
Theorem titoa_roundtrip val buf base m :
  2 <= base <= 16 -> 0 <= val < base ^ 16 ->
  exists m' l, titoa val buf base m = Some m' /\ cstr m' buf l /\ value base l = val /\
    (1 <= length l <= 16)%nat /\ (forall x, x < buf \/ buf + len l < x -> rd m' x = rd m x).
Proof. apply titoa_spec. Qed.

(** In base 2 the 16-byte scratch buffer of [titoa] is too small: from
    65536 on the digit loop writes past its end. *)
Theorem titoa_base2_overflows buf m :
  titoa 65535 buf 2 m <> None /\ titoa 65536 buf 2 m = None.
Proof. split; [discriminate|reflexivity]. Qed.

(** * Formatting

    The text a format denotes.  [str] gives the strings behind the pointers
    that [%s] may meet. *)
Section formatting.
Context (str : Z -> option (list Z)).

Definition conv (c : Z) (args : list Z) : option (Z * list Z * list Z) :=
  if c =? 37 then Some (1, args, [37])
  else if c =? 115 then
    a ← head args; s ← (if a =? 0 then Some null_text else str a); Some (1, tail args, s)
  else if c =? 100 then
    a ← head args; l ← to_digits 12 10 (Z.abs (s32 a));
    Some (1, tail args, if s32 a <? 0 then 45 :: l else l)
  else if c =? 117 then a ← head args; l ← to_digits 12 10 (u32 a); Some (1, tail args, l)
  else if c =? 120 then a ← head args; l ← to_digits 10 16 (u32 a); Some (1, tail args, l)
  else if c =? 112 then a ← head args; l ← to_digits 10 16 (u32 a); Some (1, tail args, 48 :: 120 :: l)
  else if c =? 99 then a ← head args; Some (1, tail args, [u8 a])
  else Some (0, args, [37]).

Fixpoint render (f args : list Z) : option (list Z) :=
  match f with
  | [] => Some []
  | c :: rest =>
      if negb (c =? 37) then cons c <$> render rest args
      else
        match conv (hd 0 rest) args with
        | None => None
        | Some (n, args', out) =>
            app out <$> match rest with
                        | [] => Some []
                        | _ :: rest' => if n =? 0 then render rest args' else render rest' args'
                        end
        end
  end.
End formatting.

(** A conversion consumes one format character or none. *)
Lemma conv_consumes str c args n args' out :
  conv str c args = Some (n, args', out) -> n <> 0 -> n = 1.
Proof.
  unfold conv. intros E Hn. destruct args as [|a rest]; cbn [head tail mbind option_bind] in E.
  - repeat (destruct (c =? _); [congruence|]). congruence.
  - destruct (c =? 37); [congruence|]. destruct (c =? 115).
    { destruct (a =? 0); [simpl in E; congruence|]. destruct (str a); simpl in E; congruence. }
    destruct (c =? 100); [destruct (to_digits 12 10 (Z.abs (s32 a))); simpl in E; congruence|].
    destruct (c =? 117); [destruct (to_digits 12 10 (u32 a)); simpl in E; congruence|].
    destruct (c =? 120); [destruct (to_digits 10 16 (u32 a)); simpl in E; congruence|].
    destruct (c =? 112); [destruct (to_digits 10 16 (u32 a)); simpl in E; congruence|].
    destruct (c =? 99); congruence.
Qed.

(** The buffer after [pre] was put out: its first [cap - 1] bytes are stored,
    nothing else was written. *)
Definition filled (m0 : bytes) (buf cap : Z) (pre : list Z) (st : bytes * Z) : Prop :=
  st.2 = len pre /\
  (forall x, x < buf \/ buf + cap - 1 <= x -> rd st.1 x = rd m0 x) /\
  (forall k c, pre !! k = Some c -> Z.of_nat k < cap - 1 -> rd st.1 (buf + Z.of_nat k) = c).

Section puts.
Context (m0 : bytes) (buf cap : Z).

Lemma put_filled pre st c :
  len pre + 1 < 18446744073709551616 -> filled m0 buf cap pre st ->
  filled m0 buf cap (pre ++ [c]) (buf_put buf cap c st).
Proof.
  intros Hl. destruct st as [m i]. intros (Hi & Hout & Hin). cbn [fst snd] in *. subst i.
  unfold buf_put. rewrite u64_small by lia. unfold filled. cbn [fst snd]. rewrite length_app. simpl (length [c]).
  split; [lia|]. split.
  - intros x Hx. destruct (Z.ltb_spec (len pre + 1) cap); [|apply Hout, Hx].
    rewrite rd_insert_ne by lia. apply Hout, Hx.
  - intros k x Hk Hc. apply lookup_app_Some in Hk as [Hk|[Hge Hk]].
    + pose proof (lookup_lt_Some _ _ _ Hk). destruct (_ <? cap); [rewrite rd_insert_ne by lia|]; apply Hin; assumption.
    + destruct (k - length pre)%nat eqn:Ek; [|discriminate Hk]. injection Hk as ->.
      replace (len pre + 1 <? cap) with true by lia. replace (Z.of_nat k) with (len pre) by lia. apply rd_insert_eq.
Qed.

Lemma puts_filled l : forall pre st,
  len pre + len l < 18446744073709551616 -> filled m0 buf cap pre st ->
  filled m0 buf cap (pre ++ l) (buf_puts buf cap l st).
Proof.
  induction l as [|c l IH]; intros pre st Hl Hf; cbn [buf_puts fold_left]; [rewrite app_nil_r; exact Hf|].
  cbn [length] in Hl. replace (pre ++ c :: l) with ((pre ++ [c]) ++ l) by (rewrite <- app_assoc; reflexivity).
  apply IH; [rewrite length_app; simpl; lia|]. apply put_filled; [lia|exact Hf].
Qed.

(** Away from the buffer: text read while the buffer is being filled. *)
Definition apart_from_buf (p n : Z) : Prop := p + n < buf \/ buf + cap - 1 <= p.

Lemma put_string_filled s : forall fuel p pre st,
  cstr m0 p s -> apart_from_buf p (len s) -> (length s <= fuel)%nat ->
  len pre + len s < 18446744073709551616 -> filled m0 buf cap pre st ->
  exists st', put_string buf cap fuel p st = Some st' /\ filled m0 buf cap (pre ++ s) st'.
Proof.
  unfold apart_from_buf. induction s as [|c s IH]; intros fuel p pre st Hs Ha Hl Hm Hf; cbn [cstr length] in *.
  { exists st. rewrite app_nil_r. split; [|exact Hf]. destruct Hf as (_ & Hout & _).
    destruct fuel; cbn [put_string]; rewrite Hout, Hs by lia; reflexivity. }
  destruct Hs as (Hc & Hp & Hs). destruct fuel as [|fuel]; [lia|]. cbn [put_string].
  rewrite (proj1 (proj2 Hf)), Hp by lia. replace (c =? 0) with false by lia.
  replace (pre ++ c :: s) with ((pre ++ [c]) ++ s) by (rewrite <- app_assoc; reflexivity).
  apply IH; [exact Hs|lia|lia|rewrite length_app; simpl; lia|]. apply put_filled; [lia|exact Hf].
Qed.

Lemma digits10 u : 0 <= u < 4294967296 -> exists l, to_digits 12 10 u = Some l.
Proof. intros Hu. destruct (to_digits_spec 10 12 u) as (l & E & _); [lia|lia|simpl; lia|]. eauto. Qed.

Lemma s32_range x : -2147483648 <= s32 x < 2147483648.
Proof. unfold s32. pose proof (u32_range x). case_if; lia. Qed.

(** [(uint32_t)(int)(0u - (uint32_t)v)] is the absolute value, INT_MIN included. *)
Lemma negated_abs v : -2147483648 <= v < 0 -> u32 (s32 (u32 (0 - u32 v))) = Z.abs v.
Proof. intros Hv. unfold s32. case_if; zlia. Qed.

Context (str : Z -> option (list Z)).
Hypothesis str_ok : forall a s, str a = Some s -> cstr m0 a s /\ apart_from_buf a (len s).

Lemma convert_filled fuel c args pre st n args' out :
  (forall a s, str a = Some s -> (length s <= fuel)%nat) ->
  conv str c args = Some (n, args', out) -> len pre + len out < 18446744073709551616 ->
  filled m0 buf cap pre st ->
  exists st', convert buf cap fuel c args st = Some (n, args', st') /\ filled m0 buf cap (pre ++ out) st'.
Proof.
  intros Hfuel E Hm Hf. unfold conv in E. unfold convert, buf_putu, buf_putx.
  assert (forall x, out = [x] -> filled m0 buf cap (pre ++ out) (buf_put buf cap x st)) as Hput
    by (intros x ->; apply put_filled; [simpl in Hm; lia|exact Hf]).
  assert (filled m0 buf cap (pre ++ out) (buf_puts buf cap out st)) as Hputs by (apply puts_filled; assumption).
  destruct (c =? 37); [injection E as <- <- <-; eauto|].
  destruct args as [|a rest];
    [repeat (destruct (c =? _); [discriminate E|]); injection E as <- <- <-; eauto|].
  cbn [head tail mbind option_bind] in E. destruct (c =? 115).
  { destruct (a =? 0); [injection E as <- <- <-; eauto|].
    destruct (str a) as [s|] eqn:Es; [|discriminate E]. injection E as <- <- <-.
    destruct (str_ok a s Es) as [H1 H2].
    destruct (put_string_filled s fuel a pre st H1 H2 (Hfuel _ _ Es) Hm Hf) as (st' & -> & Hf'). eauto. }
  destruct (c =? 100).
  { pose proof (s32_range a) as Hr. destruct (digits10 (Z.abs (s32 a))) as [l El]; [lia|].
    rewrite El in E. injection E as <- <- <-. destruct (Z.ltb_spec (s32 a) 0).
    - rewrite negated_abs, El by lia. eauto.
    - rewrite u32_small by lia. rewrite Z.abs_eq in El by lia. rewrite El. eauto. }
  destruct (c =? 117); [destruct (to_digits 12 10 (u32 a)); [injection E as <- <- <-; eauto|discriminate E]|].
  destruct (c =? 120); [destruct (to_digits 10 16 (u32 a)); [injection E as <- <- <-; eauto|discriminate E]|].
  destruct (c =? 112); [destruct (to_digits 10 16 (u32 a)); [injection E as <- <- <-; eauto|discriminate E]|].
  destruct (c =? 99); injection E as <- <- <-; eauto.
Qed.

Lemma format_loop_filled fuel : forall p f args pre st out,
  (forall a s, str a = Some s -> (length f + length s <= fuel)%nat) ->
  cstr m0 p f -> apart_from_buf p (len f) -> (length f <= fuel)%nat ->
  render str f args = Some out -> len pre + len out < 18446744073709551616 -> filled m0 buf cap pre st ->
  exists st', format_loop buf cap fuel p args st = Some st' /\ filled m0 buf cap (pre ++ out) st'.
Proof.
  unfold apart_from_buf. induction fuel as [|fuel IH]; intros p f args pre st out Hstr Hp Ha Hl E Hm Hf;
    (destruct f as [|c f];
     [injection E as <-; exists st; rewrite app_nil_r; split; [|exact Hf]; cbn [format_loop];
      rewrite (proj1 (proj2 Hf)), Hp by (simpl in Ha; lia); reflexivity|]); cbn [length] in *; [lia|].
  destruct Hp as (Hc & Hp0 & Hp). cbn [format_loop]. rewrite (proj1 (proj2 Hf)), Hp0 by lia.
  replace (c =? 0) with false by lia. cbn [render] in E. destruct (Z.eqb_spec c 37) as [->|Hne]; cbn [negb] in E |- *.
  - assert (rd st.1 (p + 1) = hd 0 f) as ->.
    { rewrite (proj1 (proj2 Hf)) by lia. destruct f; cbn [cstr hd] in *; [exact Hp|apply Hp]. }
    destruct (conv str (hd 0 f) args) as [[[n args'] o]|] eqn:Ec; [|discriminate E].
    destruct (match f with [] => Some [] | _ :: f' => if n =? 0 then render str f args' else render str f' args' end)
      as [tl|] eqn:Et; [|discriminate E]. injection E as <-. rewrite length_app in Hm.
    destruct (convert_filled (S fuel) (hd 0 f) args pre st n args' o) as (st' & -> & Hf');
      [intros a s Es; specialize (Hstr a s Es); lia|exact Ec|lia|exact Hf|].
    rewrite app_assoc.
    destruct f as [|k f].
    + injection Et as <-. rewrite app_nil_r. exists st'. split; [|exact Hf'].
      assert (n = 0) as -> by (unfold conv in Ec; simpl in Ec; congruence).
      cbn [cstr] in Hp. destruct fuel; cbn [format_loop]; rewrite (proj1 (proj2 Hf')) by (simpl in Ha; lia);
        replace (p + 1 + 0) with (p + 1) by lia; rewrite Hp; reflexivity.
    + cbn [length] in *. cbn [cstr] in Hp. destruct Hp as (Hk & Hpk & Hp).
      destruct (Z.eqb_spec n 0) as [->|Hn].
      * replace (p + 1 + 0) with (p + 1) by lia.
        apply (IH (p + 1) (k :: f)); [| |cbn [length]; lia..|exact Et|rewrite length_app; lia|exact Hf'].
        -- intros a s Es. specialize (Hstr a s Es). cbn [length]. lia.
        -- split; [exact Hk|]. split; [exact Hpk|exact Hp].
      * assert (n = 1) as -> by (eapply conv_consumes; eauto).
        apply (IH (p + 1 + 1) f); [|exact Hp|lia|lia|exact Et|rewrite length_app; lia|exact Hf'].
        intros a s Es. specialize (Hstr a s Es). lia.
  - destruct (render str f args) as [tl|] eqn:Et; [|discriminate E]. injection E as <-. cbn [length] in Hm.
    replace (pre ++ c :: tl) with ((pre ++ [c]) ++ tl) by (rewrite <- app_assoc; reflexivity).
    apply (IH (p + 1) f); [|exact Hp|lia|lia|exact Et|rewrite length_app; simpl; lia|].
    + intros a s Es. specialize (Hstr a s Es). lia.
    + apply put_filled; [lia|exact Hf].
Qed.
End puts.

Lemma tsprintf_spec str fuel buf cap fmt f args out m :
  (forall a s, str a = Some s ->
     cstr m a s /\ apart_from_buf buf cap a (len s) /\ (length f + length s <= fuel)%nat) ->
  cstr m fmt f -> apart_from_buf buf cap fmt (len f) -> (length f <= fuel)%nat -> 0 < cap ->
  render str f args = Some out -> len out < 2147483648 ->
  exists m', tsprintf fuel buf cap fmt args m = Some (len out, m') /\
    (forall x, x < buf \/ buf + cap <= x -> rd m' x = rd m x) /\
    (forall k c, out !! k = Some c -> Z.of_nat k < cap - 1 -> rd m' (buf + Z.of_nat k) = c) /\
    rd m' (buf + Z.min (len out) (cap - 1)) = 0.
Proof.
  intros Hstr Hf Ha Hl Hcap E Hlen.
  destruct (format_loop_filled m buf cap str ltac:(intros a s Es; destruct (Hstr a s Es) as (? & ? & _); auto)
    fuel fmt f args [] (m, 0) out) as ([m1 i] & El & Hi & Hout & Hin); try assumption.
  - intros a s Es. destruct (Hstr a s Es) as (_ & _ & Hn). exact Hn.
  - simpl. lia.
  - split; [reflexivity|]. split; [auto|discriminate].
  - cbn [app fst snd] in *. subst i. unfold tsprintf. rewrite El.
    assert (s32 (len out) = len out) as -> by (unfold s32; rewrite u32_small by lia; case_if; lia).
    eexists. split; [reflexivity|]. replace (cap >? 0) with true by lia.
    destruct (Z.ltb_spec (len out) cap) as [Hlt|Hge].
    + split; [intros x Hx; rewrite rd_insert_ne by lia; apply Hout; lia|]. split.
      * intros k c Hk Hc. pose proof (lookup_lt_Some _ _ _ Hk). rewrite rd_insert_ne by lia. apply Hin; assumption.
      * replace (Z.min (len out) (cap - 1)) with (len out) by lia. apply rd_insert_eq.
    + split; [intros x Hx; rewrite rd_insert_ne by lia; apply Hout; lia|]. split.
      * intros k c Hk Hc. rewrite rd_insert_ne by lia. apply Hin; assumption.
      * replace (Z.min (len out) (cap - 1)) with (cap - 1) by lia.
        replace (buf + (cap - 1)) with (buf + cap - 1) by lia. apply rd_insert_eq.
Qed.

(** C28. [tsprintf] is a bounded formatter: for a format that denotes the text
    [out], it returns the length of [out]; the buffer then holds the first
    [cap - 1] bytes of [out] followed by a zero, and no byte outside the [cap]
    bytes of the buffer is written, however long the text. *)
Theorem tsprintf_correct str fuel buf cap fmt f args out m :
  (forall a s, str a = Some s ->
     cstr m a s /\ apart_from_buf buf cap a (len s) /\ (length f + length s <= fuel)%nat) ->
  cstr m fmt f -> apart_from_buf buf cap fmt (len f) -> (length f <= fuel)%nat -> 0 < cap ->
  render str f args = Some out -> len out < 2147483648 ->
  exists m', tsprintf fuel buf cap fmt args m = Some (len out, m') /\
    (forall x, x < buf \/ buf + cap <= x -> rd m' x = rd m x) /\
    (forall k c, out !! k = Some c -> Z.of_nat k < cap - 1 -> rd m' (buf + Z.of_nat k) = c) /\
    rd m' (buf + Z.min (len out) (cap - 1)) = 0.
Proof. apply tsprintf_spec. Qed.

(** * Bounded copies *)

(** The zero-filling loop of [tstrncpy]. *)
Lemma zero_tail dst lo n m x :
  rd (for_loop (fun j m => <[dst + j := 0]> m) lo n m) x =
    if (dst + lo <=? x) && (x <? dst + lo + Z.of_nat n) then 0 else rd m x.
Proof.
  replace (dst + lo + Z.of_nat n) with (dst + (lo + Z.of_nat n)) by lia.
  refine (for_loop_ind (fun k m' => rd m' x = if (dst + lo <=? x) && (x <? dst + k) then 0 else rd m x) _ lo n m _ _).
  { replace ((dst + lo <=? x) && (x <? dst + lo)) with false by lia. reflexivity. }
  intros k m' Hk IH. destruct (Z.eq_dec x (dst + k)) as [->|Hne].
  - rewrite rd_insert_eq. replace ((dst + lo <=? dst + k) && (dst + k <? dst + (k + 1))) with true by lia. reflexivity.
  - rewrite rd_insert_ne, IH by lia.
    replace ((dst + lo <=? x) && (x <? dst + (k + 1))) with ((dst + lo <=? x) && (x <? dst + k)) by lia. reflexivity.
Qed.

Lemma strncpy_from_spec dst src s : forall n i m,
  cstr m (src + i) s -> src + i + len s < dst + i \/ dst + i + Z.of_nat n <= src + i ->
  let m' := strncpy_from dst src i n m in
  (forall k, 0 <= k < Z.of_nat n -> rd m' (dst + i + k) = nth (Z.to_nat k) s 0) /\
  (forall x, x < dst + i \/ dst + i + Z.of_nat n <= x -> rd m' x = rd m x).
Proof.
  induction s as [|c s IH]; intros n i m Hs Hsep; (destruct n as [|n]; [split; [lia|reflexivity]|]);
    cbn [cstr length] in *; cbn [strncpy_from].
  - rewrite Hs. change (negb (0 =? 0)) with false. cbv iota zeta. split.
    + intros k Hk. rewrite zero_tail. replace ((dst + i <=? dst + i + k) && _) with true by lia.
      destruct (Z.to_nat k); reflexivity.
    + intros x Hx. rewrite zero_tail. replace ((dst + i <=? x) && _) with false by lia. reflexivity.
  - destruct Hs as (Hc & Hp & Hs). rewrite Hp. replace (negb (c =? 0)) with true by lia. cbv iota zeta.
    destruct (IH n (i + 1) (<[dst + i := c]> m)) as [H1 H2]; [|lia|].
    { replace (src + (i + 1)) with (src + i + 1) by lia. eapply cstr_frame; [|exact Hs].
      intros x Hx. apply rd_insert_ne. lia. }
    split.
    + intros k Hk. destruct (Z.eq_dec k 0) as [->|Hne].
      * rewrite H2 by lia. replace (dst + i + 0) with (dst + i) by lia. apply rd_insert_eq.
      * replace (dst + i + k) with (dst + (i + 1) + (k - 1)) by lia. rewrite H1 by lia.
        replace (Z.to_nat k) with (S (Z.to_nat (k - 1))) by lia. reflexivity.
    + intros x Hx. rewrite H2 by lia. apply rd_insert_ne. lia.
Qed.

Lemma strncpy_bytes dst src n s m :
  cstr m src s -> 0 <= n -> src + len s < dst \/ dst + n <= src ->
  let m' := tstrncpy dst src n m in
  (forall k, 0 <= k < n -> rd m' (dst + k) = nth (Z.to_nat k) s 0) /\
  (forall x, x < dst \/ dst + n <= x -> rd m' x = rd m x).
Proof.
  intros Hs Hn Hsep m'.
  destruct (strncpy_from_spec dst src s (Z.to_nat n) 0 m) as [H1 H2];
    [replace (src + 0) with src by lia; exact Hs|lia|]. fold (tstrncpy dst src n m) in H1, H2. fold m' in H1, H2.
  split; [intros k Hk; replace (dst + k) with (dst + 0 + k) by lia; apply H1; lia|].
  intros x Hx. apply H2. lia.
Qed.

Lemma cstr_bytes m p s : cstr m p s <-> Forall (fun c => 0 < c < 256) s /\ forall k, 0 <= k <= len s -> rd m (p + k) = nth (Z.to_nat k) s 0.
Proof.
  replace s with (s ++ []) at 1 by apply app_nil_r. rewrite cstr_app. cbn [cstr]. split.
  - intros (Hf & Hb & H0). split; [exact Hf|]. intros k Hk. destruct (Z.eq_dec k (len s)) as [->|Hne].
    + rewrite H0, Nat2Z.id, nth_overflow by lia. reflexivity.
    + destruct (lookup_lt_is_Some_2 s (Z.to_nat k)) as [c Hc]; [lia|].
      rewrite (nth_lookup_Some _ _ _ _ Hc). replace k with (Z.of_nat (Z.to_nat k)) at 1 by lia. apply Hb, Hc.
  - intros (Hf & Hb). split; [exact Hf|]. split.
    + intros k c Hk. pose proof (lookup_lt_Some _ _ _ Hk). rewrite Hb by lia.
      rewrite Nat2Z.id. apply nth_lookup_Some, Hk.
    + rewrite Hb by lia. apply nth_overflow. lia.
Qed.

(** A string that fits is copied as a string. *)
Lemma strncpy_cstr dst src n s m :
  cstr m src s -> len s < n -> src + len s < dst \/ dst + n <= src -> cstr (tstrncpy dst src n m) dst s.
Proof.
  intros Hs Hn Hsep. destruct (strncpy_bytes dst src n s m Hs ltac:(lia) Hsep) as [H1 _].
  apply cstr_bytes in Hs as [Hf _]. apply cstr_bytes. split; [exact Hf|]. intros k Hk. apply H1. lia.
Qed.

(** [tstrncpy] fills exactly [n] bytes: the string, cut off at [n] bytes,
    followed by zeros.  So the copy is terminated exactly when the string is
    shorter than [n]. *)
Theorem tstrncpy_correct dst src n s m :
  cstr m src s -> 0 <= n -> src + len s < dst \/ dst + n <= src ->
  let m' := tstrncpy dst src n m in
  (forall k, 0 <= k < n -> rd m' (dst + k) = nth (Z.to_nat k) s 0) /\
  (forall x, x < dst \/ dst + n <= x -> rd m' x = rd m x) /\
  ((exists k, 0 <= k < n /\ rd m' (dst + k) = 0) <-> len s < n).
Proof.
  intros Hs Hn Hsep m'. destruct (strncpy_bytes dst src n s m Hs Hn Hsep) as [Hk H2]. fold m' in Hk, H2.
  split; [exact Hk|]. split; [exact H2|]. split.
  - intros (k & Hr & H0). rewrite Hk in H0 by exact Hr.
    destruct (Z.ltb_spec (len s) n); [assumption|exfalso].
    replace s with (s ++ []) in Hs by apply app_nil_r. apply cstr_app in Hs as (Hf & _ & _).
    rewrite List.Forall_forall in Hf. specialize (Hf (nth (Z.to_nat k) s 0)).
    rewrite H0 in Hf. enough (0 < 0 < 256) by lia. apply Hf. rewrite <- H0. apply nth_In. lia.
  - intros Hl. exists (len s). split; [lia|]. rewrite Hk by lia. apply nth_overflow. lia.
Qed.

(** * Concrete strings *)

(** "ab" at 100, "%s=%d" at 200. *)
Definition demo_text : bytes := store_bytes 100 [97; 98; 0] (store_bytes 200 [37; 115; 61; 37; 100; 0] ∅).

Lemma demo_ab : cstr demo_text 100 [97; 98].
Proof. cbn [cstr]. repeat split; try lia; vm_compute; reflexivity. Qed.

Lemma demo_fmt : cstr demo_text 200 [37; 115; 61; 37; 100].
Proof. cbn [cstr]. repeat split; try lia; vm_compute; reflexivity. Qed.

Lemma tstrcmp_correct_witness :
  exists r, tstrcmp demo_text 5 100 200 = Some r /\ (r ?= 0) = Gt /\ (r = 0 <-> [97; 98] = [37; 115; 61; 37; 100]).
Proof. exact (tstrcmp_correct demo_text 5 100 200 _ _ demo_ab demo_fmt ltac:(simpl; lia)). Defined.

Lemma tstrcat_correct_witness :
  exists m', tstrcat 5 100 200 demo_text = Some m' /\ cstr m' 100 [97; 98; 37; 115; 61; 37; 100].
Proof.
  destruct (tstrcat_correct demo_text 5 100 200 _ _ demo_ab demo_fmt ltac:(simpl; lia) ltac:(simpl; lia)
    ltac:(simpl; lia)) as (m' & E & Hc & _). exists m'. split; [exact E|exact Hc].
Defined.

Lemma tmemmove_correct_witness : rd (tmemmove 101 100 2 demo_text) 102 = 98.
Proof. rewrite (tmemmove_correct 101 100 2 demo_text 102 ltac:(lia)). vm_compute. reflexivity. Defined.

Lemma titoa_roundtrip_witness :
  exists m' l, titoa 4294967295 300 10 demo_text = Some m' /\ cstr m' 300 l /\ value 10 l = 4294967295.
Proof.
  destruct (titoa_roundtrip 4294967295 300 10 demo_text ltac:(lia) ltac:(lia)) as (m' & l & E & Hc & Hv & _).
  exists m', l. split; [exact E|]. split; [exact Hc|exact Hv].
Defined.

(** The pointers that [%s] may meet in the example. *)
Definition demo_str (a : Z) : option (list Z) := if a =? 100 then Some [97; 98] else None.

Lemma tsprintf_correct_witness :
  exists m', tsprintf 7 300 4 200 [100; -5] demo_text = Some (5, m') /\ rd m' 302 = 61 /\ rd m' 303 = 0.
Proof.
  destruct (tsprintf_correct demo_str 7 300 4 200 [37; 115; 61; 37; 100] [100; -5] [97; 98; 61; 45; 53] demo_text)
    as (m' & E & _ & Hin & H0).
  - intros a s. unfold demo_str. destruct (Z.eqb_spec a 100) as [->|]; [|discriminate]. intros [= <-].
    split; [exact demo_ab|]. split; [unfold apart_from_buf; simpl; lia|simpl; lia].
  - exact demo_fmt.
  - unfold apart_from_buf. simpl. lia.
  - simpl. lia.
  - lia.
  - vm_compute. reflexivity.
  - simpl. lia.
  - exists m'. split; [exact E|]. split; [exact (Hin 2%nat 61 eq_refl ltac:(lia))|exact H0].
Defined.

Lemma tstrncpy_correct_witness : rd (tstrncpy 300 100 2 demo_text) 301 = 98.
Proof.
  destruct (tstrncpy_correct 300 100 2 [97; 98] demo_text demo_ab ltac:(lia) ltac:(simpl; lia)) as (H1 & _).
  exact (H1 1 ltac:(lia)).
Defined.
