(* ===== verification/Telf.v ===== *)
(** The ELF64 parser of [src/telf_core.h] and the loader of [src/telf.c].

    The blob is a list of bytes; a read outside it is [None], so a parse that
    would read out of bounds is a visible outcome and not a default value.
    The loader runs on the modelled address spaces ([Tvmm]); the bytes it
    writes through the physmap window are a separate byte memory, keyed by
    kernel-virtual address: the frames it fills are freshly allocated, so they
    hold no page table. *)
From stdpp Require Import prelude gmap list numbers.
From Stdlib Require Import ZArith Lia ZifyBool.
From S2P Require Import Prelude Tstring Tpmm Tvmm.
#[local] Open Scope Z_scope.

Definition TELF_MAX_SEGMENTS : Z := 4.
Definition TELF_PROT_READ : Z := 1.
Definition TELF_PROT_WRITE : Z := 2.
Definition TELF_PROT_EXEC : Z := 4.

Record telf_segment_t := mk_seg {
  seg_vaddr : Z; seg_offset : Z; seg_filesz : Z; seg_memsz : Z; seg_prot : Z }.

Record telf_plan_t := mk_plan { plan_entry : Z; plan_nsegs : Z; plan_segs : list telf_segment_t }.

#[global] Instance telf_segment_inhabited : Inhabited telf_segment_t := populate (mk_seg 0 0 0 0 0).
#[global] Instance telf_segment_eq_dec : EqDecision telf_segment_t.
Proof. solve_decision. Defined.

Definition TELF_OK : Z := 0.
Definition TELF_E_BAD_MAGIC : Z := -1.
Definition TELF_E_BAD_CLASS : Z := -2.
Definition TELF_E_BAD_DATA : Z := -3.
Definition TELF_E_BAD_TYPE : Z := -4.
Definition TELF_E_BAD_MACHINE : Z := -5.
Definition TELF_E_BAD_VERSION : Z := -6.
Definition TELF_E_TRUNC : Z := -7.
Definition TELF_E_NO_LOAD : Z := -8.
Definition TELF_E_TOO_MANY : Z := -9.
Definition TELF_E_RANGE : Z := -10.
Definition TELF_E_BAD_ALIGN : Z := -11.
Definition TELF_E_PHDR : Z := -12.

(** [b[off]], [None] outside the blob. *)
Definition rd8 (b : list Z) (off : Z) : option Z :=
  if (0 <=? off) && (off <? Z.of_nat (length b)) then b !! Z.to_nat off else None.

Definition telf_rd16 (b : list Z) (off : Z) : option Z :=
  b0 ← rd8 b off; b1 ← rd8 b (u64 (off + 1));
  Some (u16 (Z.lor b0 (Z.shiftl b1 8))).

Definition telf_rd32 (b : list Z) (off : Z) : option Z :=
  b0 ← rd8 b off; b1 ← rd8 b (u64 (off + 1)); b2 ← rd8 b (u64 (off + 2)); b3 ← rd8 b (u64 (off + 3));
  Some (u32 (Z.lor (Z.lor (Z.lor b0 (Z.shiftl b1 8)) (Z.shiftl b2 16)) (Z.shiftl b3 24))).

Definition telf_rd64 (b : list Z) (off : Z) : option Z :=
  lo ← telf_rd32 b off; hi ← telf_rd32 b (u64 (off + 4));
  Some (u64 (Z.lor lo (Z.shiftl hi 32))).

(** How a step of the parser ends: out of bounds, error code, or a value. *)
Inductive pres (A : Type) := POob | PErr (rc : Z) | POk (a : A).
Arguments POob {A}. Arguments PErr {A}. Arguments POk {A}.

Definition pbind {A B} (x : pres A) (k : A -> pres B) : pres B :=
  match x with POob => POob | PErr rc => PErr rc | POk a => k a end.
Definition pread {A} (x : option A) : pres A := match x with None => POob | Some a => POk a end.
(** [if (c) return rc;] *)
Definition pfail_if (c : bool) (rc : Z) : pres unit := if c then PErr rc else POk tt.

Declare Scope parse_scope.
Notation "x <- e ;; k" := (pbind e (fun x => k)) (at level 100, e at next level, right associativity) : parse_scope.
Notation "e ;;; k" := (pbind e (fun _ => k)) (at level 100, right associativity) : parse_scope.
#[local] Open Scope parse_scope.

Definition seg_prot_of (flags : Z) : Z :=
  u8 (Z.lor (Z.lor (if has flags 4 then TELF_PROT_READ else 0)
                   (if has flags 2 then TELF_PROT_WRITE else 0))
            (if has flags 1 then TELF_PROT_EXEC else 0)).

(** One program header at [off], already of type [PT_LOAD]. *)
Definition load_phdr (blob : list Z) (size off : Z) : pres telf_segment_t :=
  flags <- pread (telf_rd32 blob (u64 (off + 4))) ;;
  poff <- pread (telf_rd64 blob (u64 (off + 8))) ;;
  vaddr <- pread (telf_rd64 blob (u64 (off + 16))) ;;
  filesz <- pread (telf_rd64 blob (u64 (off + 32))) ;;
  memsz <- pread (telf_rd64 blob (u64 (off + 40))) ;;
  align <- pread (telf_rd64 blob (u64 (off + 48))) ;;
  pfail_if ((poff >? size) || (filesz >? u64 (size - poff))) TELF_E_TRUNC ;;;
  pfail_if (memsz <? filesz) TELF_E_RANGE ;;;
  pfail_if (vaddr >? u64 (18446744073709551615 - memsz)) TELF_E_RANGE ;;;
  pfail_if (negb (align =? 0) && negb (Z.land align (u64 (align - 1)) =? 0)) TELF_E_BAD_ALIGN ;;;
  pfail_if ((align >? 1) && negb (vaddr mod align =? poff mod align)) TELF_E_BAD_ALIGN ;;;
  POk (mk_seg vaddr (u32 poff) (u32 filesz) (u32 memsz) (seg_prot_of flags)).

(** The loop over the program headers; [segs] are those found so far. *)
Fixpoint phdr_loop (blob : list Z) (size phoff phentsz i : Z) (n : nat) (segs : list telf_segment_t)
  : pres (list telf_segment_t) :=
  match n with
  | O => POk segs
  | S n' =>
      let off := u64 (phoff + u64 (i * phentsz)) in
      pfail_if (u64 (off + 56) >? size) TELF_E_TRUNC ;;;
      ty <- pread (telf_rd32 blob off) ;;
      if negb (ty =? 1) then phdr_loop blob size phoff phentsz (i + 1) n' segs
      else
        pfail_if (Z.of_nat (length segs) =? TELF_MAX_SEGMENTS) TELF_E_TOO_MANY ;;;
        s <- load_phdr blob size off ;;
        phdr_loop blob size phoff phentsz (i + 1) n' (segs ++ [s])
  end.

(** Page-rounded start and end of a segment, as the overlap check uses them. *)
Definition seg_lo (s : telf_segment_t) : Z := Z.land (seg_vaddr s) (not64 0xFFF).
Definition seg_hi (s : telf_segment_t) : Z := u64 (seg_vaddr s + seg_memsz s).

Definition overlaps (a b : telf_segment_t) : bool := (seg_lo a <? seg_hi b) && (seg_lo b <? seg_hi a).

(** Some pair [i < j] overlaps. *)
Fixpoint any_overlap (segs : list telf_segment_t) : bool :=
  match segs with
  | [] => false
  | s :: rest => existsb (overlaps s) rest || any_overlap rest
  end.

Definition telf_parse (blob : list Z) : pres telf_plan_t :=
  let size := Z.of_nat (length blob) in
  pfail_if (size <? 64) TELF_E_TRUNC ;;;
  m0 <- pread (rd8 blob 0) ;; m1 <- pread (rd8 blob 1) ;; m2 <- pread (rd8 blob 2) ;; m3 <- pread (rd8 blob 3) ;;
  pfail_if (negb (m0 =? 127) || negb (m1 =? 69) || negb (m2 =? 76) || negb (m3 =? 70)) TELF_E_BAD_MAGIC ;;;
  c <- pread (rd8 blob 4) ;; pfail_if (negb (c =? 2)) TELF_E_BAD_CLASS ;;;
  d <- pread (rd8 blob 5) ;; pfail_if (negb (d =? 1)) TELF_E_BAD_DATA ;;;
  v <- pread (rd8 blob 6) ;; pfail_if (negb (v =? 1)) TELF_E_BAD_VERSION ;;;
  ty <- pread (telf_rd16 blob 16) ;; pfail_if (negb (ty =? 2)) TELF_E_BAD_TYPE ;;;
  mach <- pread (telf_rd16 blob 18) ;; pfail_if (negb (mach =? 62)) TELF_E_BAD_MACHINE ;;;
  ver <- pread (telf_rd32 blob 20) ;; pfail_if (negb (ver =? 1)) TELF_E_BAD_VERSION ;;;
  entry <- pread (telf_rd64 blob 24) ;;
  phoff <- pread (telf_rd64 blob 32) ;;
  phentsz <- pread (telf_rd16 blob 54) ;;
  phnum <- pread (telf_rd16 blob 56) ;;
  pfail_if (phentsz <? 56) TELF_E_PHDR ;;;
  pfail_if (phnum =? 0) TELF_E_NO_LOAD ;;;
  pfail_if (phnum >? TELF_MAX_SEGMENTS) TELF_E_TOO_MANY ;;;
  segs <- phdr_loop blob size phoff phentsz 0 (Z.to_nat phnum) [] ;;
  pfail_if (Z.of_nat (length segs) =? 0) TELF_E_NO_LOAD ;;;
  pfail_if (any_overlap segs) TELF_E_RANGE ;;;
  POk (mk_plan entry (Z.of_nat (length segs)) segs).

(** * The parser *)

Lemma rd8_Some b off : 0 <= off < Z.of_nat (length b) -> is_Some (rd8 b off).
Proof.
  intros Ho. unfold rd8. replace ((0 <=? off) && (off <? Z.of_nat (length b))) with true by lia.
  apply lookup_lt_is_Some. lia.
Qed.

Lemma rd16_Some b off : 0 <= off -> off + 2 <= Z.of_nat (length b) < 18446744073709551616 ->
  is_Some (telf_rd16 b off).
Proof.
  intros H0 Hl. unfold telf_rd16. rewrite u64_small by lia.
  destruct (rd8_Some b off) as [? ->]; [lia|]. destruct (rd8_Some b (off + 1)) as [? ->]; [lia|]. simpl. eauto.
Qed.

Lemma rd32_Some b off : 0 <= off -> off + 4 <= Z.of_nat (length b) < 18446744073709551616 ->
  is_Some (telf_rd32 b off).
Proof.
  intros H0 Hl. unfold telf_rd32. rewrite !u64_small by lia.
  destruct (rd8_Some b off) as [? ->]; [lia|]. destruct (rd8_Some b (off + 1)) as [? ->]; [lia|].
  destruct (rd8_Some b (off + 2)) as [? ->]; [lia|]. destruct (rd8_Some b (off + 3)) as [? ->]; [lia|]. simpl. eauto.
Qed.

Lemma rd64_Some b off : 0 <= off -> off + 8 <= Z.of_nat (length b) < 18446744073709551616 ->
  is_Some (telf_rd64 b off).
Proof.
  intros H0 Hl. unfold telf_rd64. rewrite u64_small by lia.
  destruct (rd32_Some b off) as [? ->]; [lia..|]. destruct (rd32_Some b (off + 4)) as [? ->]; [lia..|]. simpl. eauto.
Qed.

Lemma rd64_range b off v : telf_rd64 b off = Some v -> in_u64 v.
Proof.
  unfold telf_rd64. destruct (telf_rd32 b off) as [lo|]; [|discriminate]. simpl.
  destruct (telf_rd32 b _) as [hi|]; [|discriminate]. simpl. intros [= <-]. apply u64_range.
Qed.

Lemma rd16_range b off v : telf_rd16 b off = Some v -> 0 <= v < 65536.
Proof.
  unfold telf_rd16. destruct (rd8 b off) as [x|]; [|discriminate]. simpl.
  destruct (rd8 b _) as [y|]; [|discriminate]. simpl. intros [= <-]. apply Z.mod_pos_bound. lia.
Qed.

(** Steps through a successful parse. *)
Lemma pbind_Ok {A B} (x : pres A) (k : A -> pres B) b :
  pbind x k = POk b -> exists a, x = POk a /\ k a = POk b.
Proof. destruct x; [discriminate..|]. simpl. eauto. Qed.

Lemma pread_Ok {A} (x : option A) a : pread x = POk a -> x = Some a.
Proof. destruct x; simpl; congruence. Qed.

Lemma pfail_Ok c rc x : pfail_if c rc = POk x -> c = false.
Proof. destruct c; simpl; congruence. Qed.

(** Inverts the head of a successful chain of steps. *)
Ltac pinv H :=
  repeat match type of H with
  | pbind _ _ = POk _ =>
      let a := fresh "a" in let E := fresh "E" in
      apply pbind_Ok in H as (a & E & H);
      first [apply pread_Ok in E | apply pfail_Ok in E; clear a | idtac]
  end.

(** A chain of steps that cannot read out of bounds. *)
Lemma pbind_safe {A B} (x : pres A) (k : A -> pres B) :
  x <> POob -> (forall a, x = POk a -> k a <> POob) -> pbind x k <> POob.
Proof. intros Hx Hk. destruct x; simpl; [congruence|discriminate|auto]. Qed.

Lemma pread_safe {A} (x : option A) : is_Some x -> pread x <> POob.
Proof. intros [a ->]. discriminate. Qed.

Lemma pfail_safe c rc : pfail_if c rc <> POob.
Proof. destruct c; discriminate. Qed.

#[local] Hint Resolve pread_safe pfail_safe : trig.

(** What the loader may rely on for a segment: its file bytes are inside the
    blob; the 64-bit memory size covers them and does not wrap. *)
Definition seg_ok (size : Z) (s : telf_segment_t) : Prop :=
  0 <= seg_offset s /\ 0 <= seg_filesz s /\ seg_offset s + seg_filesz s <= size /\ in_u64 (seg_vaddr s) /\
  exists memsz, seg_memsz s = u32 memsz /\ seg_filesz s <= memsz /\ seg_vaddr s + memsz < 18446744073709551616.

Lemma load_phdr_ok blob size off s :
  0 <= size < 4294967296 -> load_phdr blob size off = POk s -> seg_ok size s.
Proof.
  intros Hs E. unfold load_phdr in E. pinv E. injection E as <-.
  repeat match goal with Hr : telf_rd64 _ _ = Some _ |- _ => apply rd64_range in Hr end.
  unfold in_u64 in *. apply orb_false_iff in E6 as [E6a E6b].
  assert (a0 <= size) by lia. rewrite u64_small in E6b by lia. rewrite u64_small in E8 by lia.
  unfold seg_ok, in_u64. simpl. rewrite (u32_small a0), (u32_small a2) by lia.
  split; [lia|]. split; [lia|]. split; [lia|]. split; [lia|]. exists a3. split; [reflexivity|lia].
Qed.

Lemma load_phdr_safe blob off :
  0 <= off -> off + 56 <= Z.of_nat (length blob) < 18446744073709551616 ->
  load_phdr blob (Z.of_nat (length blob)) off <> POob.
Proof.
  intros H0 Hl. unfold load_phdr. rewrite !u64_small by lia.
  apply pbind_safe; [apply pread_safe, rd32_Some; lia|intros ? _].
  do 5 (apply pbind_safe; [apply pread_safe, rd64_Some; lia|intros ? _]).
  do 5 (apply pbind_safe; [apply pfail_safe|intros ? _]). discriminate.
Qed.

Lemma phdr_loop_ok blob size phoff phentsz n i segs out :
  0 <= size < 4294967296 -> phdr_loop blob size phoff phentsz i n segs = POk out ->
  Forall (seg_ok size) segs -> (length segs <= 4)%nat -> Forall (seg_ok size) out /\ (length out <= 4)%nat.
Proof.
  intros Hs. revert i segs. induction n as [|n IH]; intros i segs E Hf Hl; cbn [phdr_loop] in E.
  { injection E as <-. auto. }
  pinv E. destruct (negb (a =? 1)); [eauto|]. pinv E. unfold TELF_MAX_SEGMENTS in *.
  eapply IH; [exact E| |].
  - apply Forall_app. split; [exact Hf|]. apply Forall_singleton. eapply load_phdr_ok; eauto.
  - rewrite length_app. simpl. lia.
Qed.

Lemma phdr_loop_safe blob phoff phentsz n i segs :
  0 <= i -> 0 <= phoff -> 0 <= phentsz -> Z.of_nat (length blob) < 18446744073709551616 ->
  phoff + (i + Z.of_nat n) * phentsz + 56 < 18446744073709551616 ->
  phdr_loop blob (Z.of_nat (length blob)) phoff phentsz i n segs <> POob.
Proof.
  intros Hi Hp He Hl. revert i segs Hi. induction n as [|n IH]; intros i segs Hi Hmax; cbn [phdr_loop]; [discriminate|].
  assert (0 <= i * phentsz) by nia.
  assert (i * phentsz <= (i + Z.of_nat (S n)) * phentsz) by nia.
  rewrite (u64_small (i * phentsz)), (u64_small (phoff + i * phentsz)) by lia.
  apply pbind_safe; [apply pfail_safe|]. intros ? Hf. apply pfail_Ok in Hf. rewrite u64_small in Hf by lia.
  apply pbind_safe; [apply pread_safe, rd32_Some; lia|intros ty _].
  destruct (negb (ty =? 1)); [apply IH; lia|].
  apply pbind_safe; [apply pfail_safe|intros ? _].
  apply pbind_safe; [apply load_phdr_safe; lia|intros s _]. apply IH; lia.
Qed.

Lemma overlaps_sym a b : overlaps a b = overlaps b a.
Proof. unfold overlaps. apply andb_comm. Qed.

Lemma any_overlap_pairs segs i j a b :
  any_overlap segs = false -> segs !! i = Some a -> segs !! j = Some b -> i <> j -> overlaps a b = false.
Proof.
  revert i j. induction segs as [|s rest IH]; intros i j Hno Hi Hj Hne; [discriminate|].
  simpl in Hno. apply orb_false_iff in Hno as [He Hr].
  assert (forall k x, rest !! k = Some x -> overlaps s x = false) as Hs.
  { intros k x Hk. apply list_elem_of_lookup_2 in Hk. destruct (overlaps s x) eqn:E; [|reflexivity].
    rewrite <- He. symmetry. apply existsb_exists. exists x. split; [apply list_elem_of_In, Hk|exact E]. }
  destruct i as [|i], j as [|j]; simpl in Hi, Hj; [congruence| | |eapply IH; eauto].
  - injection Hi as ->. eauto.
  - injection Hj as ->. rewrite overlaps_sym. eauto.
Qed.

Lemma parse_ok_segs blob plan :
  Z.of_nat (length blob) < 4294967296 -> telf_parse blob = POk plan ->
  Forall (seg_ok (Z.of_nat (length blob))) (plan_segs plan) /\
  1 <= plan_nsegs plan <= TELF_MAX_SEGMENTS /\ plan_nsegs plan = Z.of_nat (length (plan_segs plan)) /\
  any_overlap (plan_segs plan) = false.
Proof.
  intros Hl E. unfold telf_parse in E. pinv E. injection E as <-. simpl.
  match goal with Hp : phdr_loop _ _ _ _ _ _ _ = POk _ |- _ =>
    destruct (phdr_loop_ok _ (Z.of_nat (length blob)) _ _ _ _ _ _ ltac:(lia) Hp) as [Hf Hn]; [constructor|simpl; lia|] end.
  unfold TELF_MAX_SEGMENTS in *. split; [exact Hf|]. split; [lia|]. auto.
Qed.

(** A plan accepted by [telf_parse] is one to four segments whose file
    bytes lie inside the blob, whose 64-bit memory size is at least the file
    size and does not wrap, and no two of which overlap (comparing
    page-rounded starts with the ends the plan records). *)
Theorem telf_parse_sound blob plan :
  Z.of_nat (length blob) < 4294967296 -> telf_parse blob = POk plan ->
  1 <= plan_nsegs plan <= TELF_MAX_SEGMENTS /\ plan_nsegs plan = Z.of_nat (length (plan_segs plan)) /\
  Forall (seg_ok (Z.of_nat (length blob))) (plan_segs plan) /\
  (forall i j a b, plan_segs plan !! i = Some a -> plan_segs plan !! j = Some b -> i <> j ->
     overlaps a b = false).
Proof.
  intros Hl E. destruct (parse_ok_segs blob plan Hl E) as (Hf & Hn & He & Ho).
  split; [exact Hn|]. split; [exact He|]. split; [exact Hf|].
  intros i j a b Hi Hj Hne. eapply any_overlap_pairs; eauto.
Qed.

(** The parser reads only inside the blob whenever the program-header
    offset is not within 2^20 of the end of the 64-bit range, whatever else
    the blob contains; it always returns. *)
Theorem telf_parse_in_bounds blob phoff :
  Z.of_nat (length blob) < 18446744073709551616 ->
  telf_rd64 blob 32 = Some phoff -> phoff < 18446744073708503040 ->
  telf_parse blob <> POob.
Proof.
  intros Hl Hph Hmax. unfold telf_parse.
  apply pbind_safe; [apply pfail_safe|]. intros ? Hsz. apply pfail_Ok in Hsz.
  do 4 (apply pbind_safe; [apply pread_safe, rd8_Some; lia|intros ? _]). apply pbind_safe; [apply pfail_safe|intros ? _].
  do 3 (apply pbind_safe; [apply pread_safe, rd8_Some; lia|intros ? _]; apply pbind_safe; [apply pfail_safe|intros ? _]).
  do 2 (apply pbind_safe; [apply pread_safe, rd16_Some; lia|intros ? _]; apply pbind_safe; [apply pfail_safe|intros ? _]).
  apply pbind_safe; [apply pread_safe, rd32_Some; lia|intros ? _]; apply pbind_safe; [apply pfail_safe|intros ? _].
  do 2 (apply pbind_safe; [apply pread_safe, rd64_Some; lia|]; intros ? ?).
  apply pbind_safe; [apply pread_safe, rd16_Some; lia|]. intros phentsz He. apply pread_Ok, rd16_range in He.
  apply pbind_safe; [apply pread_safe, rd16_Some; lia|]. intros phnum Hn. apply pread_Ok, rd16_range in Hn.
  do 2 (apply pbind_safe; [apply pfail_safe|intros ? _]).
  apply pbind_safe; [apply pfail_safe|]. intros ? Hmaxn. apply pfail_Ok in Hmaxn. unfold TELF_MAX_SEGMENTS in Hmaxn.
  rewrite Hph in *. match goal with Hx : pread (Some _) = POk _ |- _ => injection Hx as <- end.
  pose proof (rd64_range _ _ _ Hph) as Hr. unfold in_u64 in Hr.
  apply pbind_safe; [apply phdr_loop_safe; try lia; nia|intros ? _].
  do 2 (apply pbind_safe; [apply pfail_safe|intros ? _]). discriminate.
Qed.

(** * Encoding of an executable

    The inverse of the reader: a 64-byte ELF64 header, one program header and
    the bytes of the segment. *)
Definition le_byte (v k : Z) : Z := (v / 2 ^ (8 * k)) mod 256.
Definition le16 (v : Z) : list Z := [le_byte v 0; le_byte v 1].
Definition le32 (v : Z) : list Z := [le_byte v 0; le_byte v 1; le_byte v 2; le_byte v 3].
Definition le64 (v : Z) : list Z := le32 v ++ le32 (v / 4294967296).

Definition elf_header (entry phoff phnum : Z) : list Z :=
  [127; 69; 76; 70; 2; 1; 1; 0; 0; 0; 0; 0; 0; 0; 0; 0] ++ le16 2 ++ le16 62 ++ le32 1 ++
  le64 entry ++ le64 phoff ++ le64 0 ++ le32 0 ++ le16 64 ++ le16 56 ++ le16 phnum ++ le16 0 ++ le16 0 ++ le16 0.

Definition elf_phdr (flags off vaddr filesz memsz align : Z) : list Z :=
  le32 1 ++ le32 flags ++ le64 off ++ le64 vaddr ++ le64 0 ++ le64 filesz ++ le64 memsz ++ le64 align.

Definition elf_image (entry flags vaddr memsz : Z) (data : list Z) : list Z :=
  elf_header entry 64 1 ++ elf_phdr flags 120 vaddr (Z.of_nat (length data)) memsz 0 ++ data.

Lemma le_byte_testbit v k i : 0 <= i -> 0 <= k ->
  Z.testbit (le_byte v k) i = (i <? 8) && Z.testbit v (i + 8 * k).
Proof.
  intros Hi Hk. unfold le_byte. change 256 with (2 ^ 8).
  rewrite Z.testbit_mod_pow2, Z.div_pow2_bits by lia. reflexivity.
Qed.

Lemma join16 v : u16 (Z.lor (le_byte v 0) (Z.shiftl (le_byte v 1) 8)) = u16 v.
Proof.
  unfold u16. change 65536 with (2 ^ 16). apply Z.bits_inj'. intros i Hi.
  rewrite !Z.testbit_mod_pow2, Z.lor_spec, Z.shiftl_spec by lia. rewrite le_byte_testbit by lia.
  replace (i + 8 * 0) with i by lia. destruct (Z.ltb_spec i 16); [|reflexivity].
  destruct (Z.ltb_spec i 8).
  - rewrite (Z.testbit_neg_r _ (i - 8)), orb_false_r by lia. reflexivity.
  - rewrite le_byte_testbit by lia. replace (i - 8 <? 8) with true by lia.
    replace (i - 8 + 8 * 1) with i by lia. reflexivity.
Qed.

Lemma join32 v :
  u32 (Z.lor (Z.lor (Z.lor (le_byte v 0) (Z.shiftl (le_byte v 1) 8)) (Z.shiftl (le_byte v 2) 16))
         (Z.shiftl (le_byte v 3) 24)) = u32 v.
Proof.
  unfold u32. change 4294967296 with (2 ^ 32). apply Z.bits_inj'. intros i Hi.
  rewrite !Z.testbit_mod_pow2, !Z.lor_spec, !Z.shiftl_spec by lia. rewrite le_byte_testbit by lia.
  destruct (Z.ltb_spec i 32); [|reflexivity]. simpl andb at 1.
  assert (Hs : forall k, 0 <= k -> Z.testbit (le_byte v k) (i - 8 * k) = (8 * k <=? i) && (i <? 8 * k + 8) && Z.testbit v i).
  { intros k Hk. destruct (Z.leb_spec (8 * k) i).
    - rewrite le_byte_testbit by lia. replace (i - 8 * k + 8 * k) with i by lia.
      replace (i - 8 * k <? 8) with (i <? 8 * k + 8) by lia. reflexivity.
    - rewrite Z.testbit_neg_r by lia. reflexivity. }
  pose proof (Hs 1 ltac:(lia)) as H1. pose proof (Hs 2 ltac:(lia)) as H2. pose proof (Hs 3 ltac:(lia)) as H3.
  change (8 * 1) with 8 in H1. change (8 * 2) with 16 in H2. change (8 * 3) with 24 in H3.
  rewrite H1, H2, H3. replace (i + 8 * 0) with i by lia.
  destruct (Z.testbit v i); [|rewrite !andb_false_r; reflexivity]. lia.
Qed.

Lemma join64 v : u64 (Z.lor (u32 v) (Z.shiftl (u32 (v / 4294967296)) 32)) = u64 v.
Proof.
  unfold u64, u32. change 18446744073709551616 with (2 ^ 64). change 4294967296 with (2 ^ 32).
  apply Z.bits_inj'. intros i Hi. rewrite !Z.testbit_mod_pow2, Z.lor_spec, Z.shiftl_spec, Z.testbit_mod_pow2 by lia.
  destruct (Z.ltb_spec i 64); [|reflexivity]. simpl. destruct (Z.ltb_spec i 32).
  - rewrite (Z.testbit_neg_r _ (i - 32)) by lia. rewrite orb_false_r. reflexivity.
  - rewrite Z.testbit_mod_pow2, Z.div_pow2_bits by lia. replace (i - 32 <? 32) with true by lia. simpl. f_equal. lia.
Qed.

(** Reads inside a prefix do not see what follows it. *)
Lemma rd8_app b c off : 0 <= off < Z.of_nat (length b) -> rd8 (b ++ c) off = rd8 b off.
Proof.
  intros Ho. unfold rd8. rewrite length_app.
  replace ((0 <=? off) && (off <? Z.of_nat (length b + length c))) with true by lia.
  replace ((0 <=? off) && (off <? Z.of_nat (length b))) with true by lia.
  apply lookup_app_l. lia.
Qed.

Lemma rd16_app b c off : 0 <= off -> off + 2 <= Z.of_nat (length b) < 4294967296 ->
  telf_rd16 (b ++ c) off = telf_rd16 b off.
Proof. intros H0 Hl. unfold telf_rd16. rewrite !u64_small, !rd8_app by lia. reflexivity. Qed.

Lemma rd32_app b c off : 0 <= off -> off + 4 <= Z.of_nat (length b) < 4294967296 ->
  telf_rd32 (b ++ c) off = telf_rd32 b off.
Proof. intros H0 Hl. unfold telf_rd32. rewrite !u64_small, !rd8_app by lia. reflexivity. Qed.

Lemma rd64_app b c off : 0 <= off -> off + 8 <= Z.of_nat (length b) < 4294967296 ->
  telf_rd64 (b ++ c) off = telf_rd64 b off.
Proof. intros H0 Hl. unfold telf_rd64. rewrite !u64_small, !rd32_app by lia. reflexivity. Qed.

(** The 120 bytes in front of the segment data, and its fields. *)
Definition elf_front (entry flags vaddr filesz memsz : Z) : list Z :=
  elf_header entry 64 1 ++ elf_phdr flags 120 vaddr filesz memsz 0.

Lemma elf_front_field64 entry flags vaddr filesz memsz off v :
  telf_rd64 (elf_front entry flags vaddr filesz memsz) off =
    Some (u64 (Z.lor (u32 (Z.lor (Z.lor (Z.lor (le_byte v 0) (Z.shiftl (le_byte v 1) 8))
      (Z.shiftl (le_byte v 2) 16)) (Z.shiftl (le_byte v 3) 24)))
      (Z.shiftl (u32 (Z.lor (Z.lor (Z.lor (le_byte (v / 4294967296) 0) (Z.shiftl (le_byte (v / 4294967296) 1) 8))
      (Z.shiftl (le_byte (v / 4294967296) 2) 16)) (Z.shiftl (le_byte (v / 4294967296) 3) 24))) 32))) ->
  telf_rd64 (elf_front entry flags vaddr filesz memsz) off = Some (u64 v).
Proof. intros ->. rewrite !join32, join64. reflexivity. Qed.

(** A table of one loadable header at offset 64. *)
Lemma phdr_loop_one blob size :
  120 <= size -> telf_rd32 blob 64 = Some 1 ->
  phdr_loop blob size 64 56 0 1 [] = (s <- load_phdr blob size 64 ;; POk [s]).
Proof.
  intros Hs Ht. cbn [phdr_loop]. change (u64 (64 + u64 (0 * 56))) with 64. change (u64 (64 + 56)) with 120.
  replace (120 >? size) with false by lia. cbn [pfail_if pbind]. rewrite Ht. reflexivity.
Qed.

(** Encoding and parsing are inverse: an executable with one loadable
    segment of up to 4 GiB is parsed back to exactly its entry point, address,
    file range, memory size and protection. *)
Theorem telf_parse_roundtrip entry flags vaddr memsz data :
  in_u64 entry -> in_u64 vaddr -> in_u32 flags ->
  Z.of_nat (length data) <= memsz < 4294967296 -> vaddr + memsz < 18446744073709551616 ->
  Z.of_nat (length data) < 4294967000 ->
  telf_parse (elf_image entry flags vaddr memsz data) =
    POk (mk_plan entry 1 [mk_seg vaddr 120 (Z.of_nat (length data)) memsz (seg_prot_of flags)]).
Proof.
  intros He Hv Hf Hm Hw Hd.
  assert (elf_image entry flags vaddr memsz data =
    elf_front entry flags vaddr (Z.of_nat (length data)) memsz ++ data) as ->
    by (unfold elf_image, elf_front; rewrite <- app_assoc; reflexivity).
  set (F := Z.of_nat (length data)) in *. set (front := elf_front entry flags vaddr F memsz).
  assert (Hlen : Z.of_nat (length front) = 120) by reflexivity.
  assert (Hsize : Z.of_nat (length (front ++ data)) = 120 + F) by (rewrite length_app; lia).
  assert (R64 : forall off v, 0 <= off -> off + 8 <= 120 -> in_u64 v ->
    telf_rd64 front off = Some (u64 v) -> telf_rd64 (front ++ data) off = Some v).
  { intros off v H0 H1 Hr E. rewrite rd64_app, E by lia. rewrite u64_small; [reflexivity|exact Hr]. }
  assert (E24 : telf_rd64 (front ++ data) 24 = Some entry)
    by (apply R64; [lia|lia|exact He|apply elf_front_field64; reflexivity]).
  assert (E32 : telf_rd64 (front ++ data) 32 = Some 64)
    by (apply R64; [lia|lia|unfold in_u64; lia|apply elf_front_field64; reflexivity]).
  assert (E72 : telf_rd64 (front ++ data) 72 = Some 120)
    by (apply R64; [lia|lia|unfold in_u64; lia|apply elf_front_field64; reflexivity]).
  assert (E80 : telf_rd64 (front ++ data) 80 = Some vaddr)
    by (apply R64; [lia|lia|exact Hv|apply elf_front_field64; reflexivity]).
  assert (E96 : telf_rd64 (front ++ data) 96 = Some F)
    by (apply R64; [lia|lia|unfold in_u64; lia|apply elf_front_field64; reflexivity]).
  assert (E104 : telf_rd64 (front ++ data) 104 = Some memsz)
    by (apply R64; [lia|lia|unfold in_u64; lia|apply elf_front_field64; reflexivity]).
  assert (E112 : telf_rd64 (front ++ data) 112 = Some 0)
    by (apply R64; [lia|lia|unfold in_u64; lia|apply elf_front_field64; reflexivity]).
  assert (E68 : telf_rd32 (front ++ data) 68 = Some flags).
  { rewrite rd32_app by lia. change (telf_rd32 front 68) with
      (Some (u32 (Z.lor (Z.lor (Z.lor (le_byte flags 0) (Z.shiftl (le_byte flags 1) 8))
        (Z.shiftl (le_byte flags 2) 16)) (Z.shiftl (le_byte flags 3) 24)))).
    rewrite join32, u32_small; [reflexivity|exact Hf]. }
  unfold telf_parse. rewrite Hsize. replace (120 + F <? 64) with false by lia.
  rewrite (rd8_app front data 0), (rd8_app front data 1), (rd8_app front data 2), (rd8_app front data 3),
    (rd8_app front data 4), (rd8_app front data 5), (rd8_app front data 6) by lia.
  rewrite (rd16_app front data 16), (rd16_app front data 18), (rd32_app front data 20),
    (rd16_app front data 54), (rd16_app front data 56) by lia.
  change (telf_rd16 front 54) with (Some 56). change (telf_rd16 front 56) with (Some 1).
  rewrite E24, E32. cbn [pbind pread pfail_if].
  change (rd8 front 0) with (Some 127). change (rd8 front 1) with (Some 69). change (rd8 front 2) with (Some 76).
  change (rd8 front 3) with (Some 70). change (rd8 front 4) with (Some 2). change (rd8 front 5) with (Some 1).
  change (rd8 front 6) with (Some 1). change (telf_rd16 front 16) with (Some 2).
  change (telf_rd16 front 18) with (Some 62). change (telf_rd32 front 20) with (Some 1).
  change (Z.to_nat 1) with 1%nat.
  cbn [pread pbind]. cbn [pfail_if Z.eqb Z.ltb Z.gtb Z.compare Pos.compare Pos.compare_cont Pos.eqb negb orb pbind].
  change (1 >? TELF_MAX_SEGMENTS) with false. cbn [pfail_if pbind].
  rewrite (phdr_loop_one (front ++ data) (120 + F)); [|lia|rewrite rd32_app by lia; reflexivity].
  unfold load_phdr.
  change (u64 (64 + 4)) with 68. change (u64 (64 + 8)) with 72. change (u64 (64 + 16)) with 80.
  change (u64 (64 + 32)) with 96. change (u64 (64 + 40)) with 104. change (u64 (64 + 48)) with 112.
  rewrite E68, E72, E80, E96, E104, E112. cbn [pread pbind].
  unfold in_u64, in_u32 in *. rewrite (u64_small (120 + F - 120)), (u64_small (18446744073709551615 - memsz)) by lia.
  replace ((120 >? 120 + F) || (F >? 120 + F - 120)) with false by lia.
  replace (memsz <? F) with false by lia. replace (vaddr >? 18446744073709551615 - memsz) with false by lia.
  change (negb (0 =? 0)) with false. change (0 >? 1) with false. cbn [andb pfail_if pbind].
  rewrite (u32_small 120), (u32_small F), (u32_small memsz) by lia. reflexivity.
Qed.

Lemma telf_parse_roundtrip_witness :
  telf_parse (elf_image 0x8000000000 5 0x8000000000 4096 [144; 144; 195]) =
    POk (mk_plan 0x8000000000 1 [mk_seg 0x8000000000 120 3 4096 (seg_prot_of 5)]).
Proof.
  apply (telf_parse_roundtrip 0x8000000000 5 0x8000000000 4096 [144; 144; 195]); unfold in_u64, in_u32; simpl; lia.
Defined.

Definition demo_elf : list Z := elf_image 0x8000000000 5 0x8000000000 4096 [144; 144; 195].
Definition demo_plan : telf_plan_t := mk_plan 0x8000000000 1 [mk_seg 0x8000000000 120 3 4096 5].

Lemma telf_parse_sound_witness :
  Forall (seg_ok (Z.of_nat (length demo_elf))) (plan_segs demo_plan).
Proof. apply (telf_parse_sound demo_elf demo_plan); vm_compute; reflexivity. Defined.

Lemma telf_parse_in_bounds_witness : telf_parse demo_elf <> POob.
Proof. apply (telf_parse_in_bounds demo_elf 64); vm_compute; reflexivity. Defined.

(** A header with a program-header offset just below 2^64 defeats the
    bounds check: the sum wraps to 0 and the parser reads outside the blob. *)
Theorem telf_phoff_wraps :
  telf_parse (elf_header 0 (2 ^ 64 - 56) 1) = POob.
Proof. vm_compute. reflexivity. Qed.

(** The memory size is truncated to 32 bits after it was checked: an
    executable whose segment claims 4 GiB + 1 byte is accepted with a plan that
    reserves 1 byte of memory for 8192 bytes of file data. *)
Theorem telf_memsz_truncated :
  exists plan s, telf_parse (elf_image 0x8000000000 5 0x8000000000 4294967297 (replicate (Z.to_nat 8192) 0)) = POk plan /\
    plan_segs plan = [s] /\ seg_filesz s = 8192 /\ seg_memsz s = 1.
Proof. eexists _, _. split; [vm_compute; reflexivity|]. split; [reflexivity|]. split; reflexivity. Qed.

(** * The loader

    [telf_load]: the state is the virtual memory manager and the bytes behind
    the physmap window, by kernel-virtual address.  [None] as the result code
    is a read outside the blob. *)

(** [tmemcpy(dst, blob + off, n)]: [i] bytes are already copied. *)
Fixpoint copy_in (blob : list Z) (off dst i : Z) (n : nat) (mem : gmap Z Z) : option (gmap Z Z) :=
  match n with
  | O => Some mem
  | S n' =>
      match rd8 blob (off + i) with
      | None => None
      | Some b => copy_in blob off dst (i + 1) n' (<[u64 (dst + i) := b]> mem)
      end
  end.

Definition seg_pages (s : telf_segment_t) : Z :=
  let first := Z.land (seg_vaddr s) (not64 0xFFF) in
  let last := Z.land (u64 (seg_vaddr s + seg_memsz s - 1)) (not64 0xFFF) in
  u64 (last - first) / 4096 + 1.

Definition seg_flags (s : telf_segment_t) : Z :=
  let flags := VMM_PAGE_USER in
  let flags := if has (seg_prot s) TELF_PROT_WRITE then Z.lor flags VMM_PAGE_WRITE else flags in
  if negb (has (seg_prot s) TELF_PROT_EXEC) then Z.lor flags VMM_PAGE_NX else flags.

Section load.
Context {H : Type} `{SmallHeap H}.
Implicit Types v : vmm H.

(** The defensive check: some page of the segment is already mapped. *)
Definition seg_taken (a first pages : Z) v : bool :=
  match find_range (fun p => match vmm_aspace_phys a (u64 (first + p * 4096)) v with
                             | Some _ => true | None => false end) 0 pages with
  | Some _ => true
  | None => false
  end.

(** The mapping loop, from page [p] on. *)
Fixpoint map_pages (a first phys flags p : Z) (n : nat) v : bool * vmm H :=
  match n with
  | O => (true, v)
  | S n' =>
      match vmm_aspace_map a (u64 (first + p * 4096)) (u64 (phys + p * 4096)) flags v with
      | (rc, v') => if negb (rc =? 0) then (false, v') else map_pages a first phys flags (p + 1) n' v'
      end
  end.

(** The body of the segment loop. *)
Definition load_segment (a : Z) (blob : list Z) (s : telf_segment_t) v (mem : gmap Z Z)
  : option Z * (vmm H * gmap Z Z) :=
  if (seg_vaddr s <? VMM_USER_BASE) || (u64 (seg_vaddr s + seg_memsz s) >? VMM_USER_END)
  then (Some TELF_E_RANGE, (v, mem))
  else
    let first := Z.land (seg_vaddr s) (not64 0xFFF) in
    let pages := seg_pages s in
    if seg_taken a first pages v then (Some TELF_E_RANGE, (v, mem))
    else
      let '(phys, p') := tpmm_alloc_low_contig pages (frames (vm v)) in
      let v1 := with_vm (mk_vmem (words (vm v)) p') v in
      if phys =? 0 then (Some TELF_E_RANGE, (v1, mem))
      else
        match map_pages a first phys (seg_flags s) 0 (Z.to_nat pages) v1 with
        | (false, v2) => (Some TELF_E_RANGE, (v2, mem))
        | (true, v2) =>
            let dst := VMM_PHYS_TO_VIRT phys in
            match copy_in blob (seg_offset s) dst 0 (Z.to_nat (seg_filesz s)) mem with
            | None => (None, (v2, mem))
            | Some mem1 =>
                (Some TELF_OK,
                 (v2, if seg_memsz s >? seg_filesz s
                      then tmemset (u64 (dst + seg_filesz s)) 0 (seg_memsz s - seg_filesz s) mem1
                      else mem1))
            end
        end.

Fixpoint load_segments (a : Z) (blob : list Z) (segs : list telf_segment_t) v (mem : gmap Z Z)
  : option Z * (vmm H * gmap Z Z) :=
  match segs with
  | [] => (Some TELF_OK, (v, mem))
  | s :: rest =>
      match load_segment a blob s v mem with
      | (Some rc, (v', mem')) =>
          if rc =? TELF_OK then load_segments a blob rest v' mem' else (Some rc, (v', mem'))
      | r => r
      end
  end.

Definition telf_load (a : Z) (blob : list Z) v (mem : gmap Z Z) : option Z * (vmm H * gmap Z Z) :=
  match telf_parse blob with
  | POob => (None, (v, mem))
  | PErr rc => (Some rc, (v, mem))
  | POk plan => load_segments a blob (plan_segs plan) v mem
  end.
End load.

(** ** Bytes *)

Lemma copy_in_spec blob off dst i n mem :
  0 <= i -> 0 <= off -> off + i + Z.of_nat n <= Z.of_nat (length blob) ->
  0 <= dst -> dst + i + Z.of_nat n <= 18446744073709551616 ->
  exists mem', copy_in blob off dst i n mem = Some mem' /\
    forall x, rd mem' x = if (dst + i <=? x) && (x <? dst + i + Z.of_nat n)
                          then default 0 (rd8 blob (off + (x - dst))) else rd mem x.
Proof.
  revert i mem. induction n as [|n IH]; intros i mem Hi Ho Hb Hd Hw; cbn [copy_in].
  { exists mem. split; [reflexivity|]. intros x.
    replace ((dst + i <=? x) && (x <? dst + i + Z.of_nat 0)) with false by lia. reflexivity. }
  destruct (rd8_Some blob (off + i)) as [b Eb]; [lia|]. rewrite Eb.
  destruct (IH (i + 1) (<[u64 (dst + i) := b]> mem)) as (mem' & E & Hm); [lia..|].
  exists mem'. split; [exact E|]. intros x. rewrite Hm, u64_small by lia.
  destruct (Z.eq_dec x (dst + i)) as [->|Hne].
  - replace ((dst + (i + 1) <=? dst + i) && _) with false by lia. rewrite rd_insert_eq.
    replace ((dst + i <=? dst + i) && (dst + i <? dst + i + Z.of_nat (S n))) with true by lia.
    replace (off + (dst + i - dst)) with (off + i) by lia. rewrite Eb. reflexivity.
  - rewrite rd_insert_ne by lia.
    replace ((dst + (i + 1) <=? x) && (x <? dst + (i + 1) + Z.of_nat n))
      with ((dst + i <=? x) && (x <? dst + i + Z.of_nat (S n))) by lia. reflexivity.
Qed.

(** ** Pages *)

Lemma user_range_virt x : VMM_USER_BASE <= x < VMM_USER_END -> user_virt x.
Proof.
  unfold VMM_USER_BASE, VMM_USER_END. intros Hx. split; [lia|].
  unfold kernel_slot, PML4_INDEX, KERNEL_PML4_START. rewrite index_div by lia.
  change (2 ^ 39) with 549755813888. replace (x / 549755813888) with 1 by zlia. reflexivity.
Qed.

Lemma seg_flags_bits s : Z.land (seg_flags s) ADDR_MASK = 0.
Proof.
  unfold seg_flags. destruct (has (seg_prot s) TELF_PROT_WRITE), (has (seg_prot s) TELF_PROT_EXEC); reflexivity.
Qed.

Lemma table_ensure_kept t i flags s :
  pmm_inv (frames s) -> let s' := (table_ensure t i flags s).2 in
  pmm_inv (frames s') /\ used_kept (frames s) (frames s').
Proof.
  intros Hi. unfold table_ensure. destruct (has _ _); [split; [exact Hi|intros g _; auto]|].
  pose proof (alloc_low_ok (frames s) Hi) as Ha. destruct (tpmm_alloc_low (frames s)) as [fr p'].
  destruct Ha as [[[= -> ->] _]|(f & _ & _ & Ht & _ & Hi')]; [split; [exact Hi|intros g _; auto]|].
  simpl in Ht, Hi'. destruct (fr =? 0); simpl; split; eauto using takes_kept.
Qed.

Lemma map_in_kept top virt phys flags s :
  pmm_inv (frames s) -> used_kept (frames s) (frames (map_in top virt phys flags s).2).
Proof.
  intros Hi. unfold map_in.
  pose proof (table_ensure_kept top (PML4_INDEX virt) flags s Hi) as K1.
  destruct (table_ensure top (PML4_INDEX virt) flags s) as [[t3|] s1]; destruct K1 as [I1 K1]; [|exact K1].
  pose proof (table_ensure_kept t3 (PDPT_INDEX virt) flags s1 I1) as K2.
  destruct (table_ensure t3 (PDPT_INDEX virt) flags s1) as [[t2|] s2]; destruct K2 as [I2 K2];
    [|intros g Hg Hu; apply K2, K1; assumption].
  pose proof (table_ensure_kept t2 (PD_INDEX virt) flags s2 I2) as K3.
  destruct (table_ensure t2 (PD_INDEX virt) flags s2) as [[t1|] s3]; destruct K3 as [I3 K3];
    intros g Hg Hu; apply K3, K2, K1; assumption.
Qed.

(** The walk depends on the page number only. *)
Lemma phys_in_page m top x y : 0 <= x -> 0 <= y -> x / 4096 = y / 4096 -> phys_in m top x = phys_in m top y.
Proof.
  intros Hx Hy E.
  assert (forall k, 12 <= k -> Z.land (Z.shiftr x k) 511 = Z.land (Z.shiftr y k) 511) as Hi.
  { intros k Hk. f_equal. rewrite !Z.shiftr_div_pow2 by lia. replace k with (12 + (k - 12)) by lia.
    rewrite Z.pow_add_r, <- !Z.div_div by lia. change (2 ^ 12) with 4096. rewrite E. reflexivity. }
  unfold phys_in, PML4_INDEX, PDPT_INDEX, PD_INDEX, PT_INDEX. rewrite !Hi by lia. reflexivity.
Qed.

Section load_proofs.
Context {H : Type} `{SmallHeap H}.
Implicit Types v : vmm H.

(** Translations kept between two states: every user page of another space,
    and those of space [a] outside [lo, hi). *)
Definition kept_outside (own : ownership) (a lo hi : Z) v v' : Prop :=
  forall a2 P2 x, own !! pml4 (space v a2) = Some (4, P2) -> user_virt x ->
    pml4 (space v a2) <> pml4 (space v a) \/ x < lo \/ hi <= x ->
    vmm_aspace_phys a2 x v' = vmm_aspace_phys a2 x v.

Lemma map_page_spec own a P virt phys flags v v' rc :
  tree_ok own (vm v) -> own !! pml4 (space v a) = Some (4, P) -> Z.land flags ADDR_MASK = 0 ->
  user_virt virt -> virt mod 4096 = 0 -> vmm_aspace_map a virt phys flags v = (rc, v') -> rc = 0 ->
  spaces v' = spaces v /\ used_kept (frames (vm v)) (frames (vm v')) /\
  vmm_aspace_phys a virt v' = Some (Z.land phys ADDR_MASK) /\
  kept_outside own a virt (virt + 4096) v v' /\
  exists own', own ⊆ own' /\ tree_ok own' (vm v').
Proof.
  intros Hok Ht Hfl Hu Hal E ->. unfold vmm_aspace_map in E. rewrite (proj2 Hu) in E.
  pose proof (map_in_kept (pml4 (space v a)) virt phys flags (vm v) (to_pmm _ _ Hok)) as Hk.
  destruct (map_in (pml4 (space v a)) virt phys flags (vm v)) as [r1 m1] eqn:Em. injection E as -> <-.
  destruct (map_in_spec own _ _ P _ _ _ _ _ Hok Ht Hu Hfl Em) as (own' & Hs & Hok' & _ & Hr & Ho).
  split; [reflexivity|]. split; [exact Hk|]. split; [|split; [|exists own'; auto]].
  - unfold vmm_aspace_phys. rewrite (proj2 Hu). destruct Hr as [[_ Hr]|[Hx _]]; [exact Hr|discriminate Hx].
  - intros a2 P2 x Ht2 [Hx Hkx] Hout. unfold vmm_aspace_phys. rewrite Hkx.
    apply (Ho _ P2); [exact Ht2|split; assumption|]. unfold elsewhere, PAGE_SIZE.
    destruct Hout as [Hn|Hout]; [left; exact Hn|right]. zlia.
Qed.

Lemma map_pages_spec own a P first f flags n : forall p v v',
  tree_ok own (vm v) -> own !! pml4 (space v a) = Some (4, P) -> Z.land flags ADDR_MASK = 0 ->
  first mod 4096 = 0 -> VMM_USER_BASE <= first -> 0 <= p -> first + (p + Z.of_nat n) * 4096 <= VMM_USER_END ->
  0 <= f -> f + p + Z.of_nat n <= 0x40000 ->
  map_pages a first (f * 4096) flags p n v = (true, v') ->
  spaces v' = spaces v /\ used_kept (frames (vm v)) (frames (vm v')) /\
  (forall q, p <= q < p + Z.of_nat n -> vmm_aspace_phys a (first + q * 4096) v' = Some ((f + q) * 4096)) /\
  kept_outside own a (first + p * 4096) (first + (p + Z.of_nat n) * 4096) v v' /\
  exists own', own ⊆ own' /\ tree_ok own' (vm v').
Proof.
  revert own. induction n as [|n IH]; intros own p v v' Hok Ht Hfl Hal Hlo Hp Hhi Hf Hfn E; cbn [map_pages] in E.
  { injection E as <-. split; [reflexivity|]. split; [intros g _; auto|]. split; [intros q Hq; lia|].
    split; [intros ? ? ? _ _ _; reflexivity|]. exists own. auto. }
  assert (u64 (first + p * 4096) = first + p * 4096) as Eu by (apply u64_small; unfold VMM_USER_BASE, VMM_USER_END in *; lia).
  assert (u64 (f * 4096 + p * 4096) = (f + p) * PAGE_SIZE) as Ef by (unfold PAGE_SIZE; rewrite u64_small; lia).
  rewrite Eu, Ef in E.
  destruct (vmm_aspace_map a (first + p * 4096) ((f + p) * PAGE_SIZE) flags v) as [rc v1] eqn:Em.
  destruct (Z.eqb_spec rc 0) as [Hrc|]; [|discriminate E]. cbn [negb] in E.
  assert (user_virt (first + p * 4096)) as Hu by (apply user_range_virt; lia).
  assert ((first + p * 4096) mod 4096 = 0) as Hal' by (rewrite Z.mod_add by lia; exact Hal).
  destruct (map_page_spec own a P _ _ _ v v1 rc Hok Ht Hfl Hu Hal' Em Hrc) as (S1 & K1 & M1 & O1 & own1 & Hs1 & Hok1).
  rewrite mask_frame in M1 by lia.
  assert (forall b, space v1 b = space v b) as Hsp by (intros b; unfold space; rewrite S1; reflexivity).
  pose proof (lookup_weaken _ _ _ _ Ht Hs1) as Ht1. rewrite <- (Hsp a) in Ht1.
  destruct (IH own1 (p + 1) v1 v' Hok1 Ht1 Hfl Hal Hlo ltac:(lia) ltac:(lia) Hf ltac:(lia) E)
    as (S2 & K2 & M2 & O2 & own2 & Hs2 & Hok2).
  split; [congruence|]. split; [intros g Hg Hgu; apply K2, K1; assumption|].
  split; [|split; [|exists own2; split; [etransitivity; eauto|exact Hok2]]].
  - intros q Hq. destruct (Z.eq_dec q p) as [->|Hne]; [|apply M2; lia].
    rewrite (O2 a P); [exact M1|exact Ht1|exact Hu|lia].
  - intros a2 P2 x Ht2 Hx Hout. rewrite (O2 a2 P2); [|rewrite Hsp; eapply lookup_weaken; eauto|exact Hx|rewrite !Hsp; lia].
    apply (O1 a2 P2); [exact Ht2|exact Hx|]. lia.
Qed.

(** A segment the loader handles as intended: page-aligned, not empty, its
    file part inside its memory part. *)
Definition seg_good (s : telf_segment_t) : Prop :=
  seg_vaddr s mod 4096 = 0 /\ 0 < seg_memsz s < 4294967296 /\ 0 <= seg_filesz s <= seg_memsz s.

(** The segment is in memory: its pages are mapped in space [a] to a run of
    frames from [f] on, which hold the file bytes followed by zeros. *)
Definition seg_at (a f : Z) (blob : list Z) (s : telf_segment_t) v (mem : gmap Z Z) : Prop :=
  0 < f /\ f + seg_pages s <= 0x40000 /\
  VMM_USER_BASE <= seg_vaddr s /\ seg_vaddr s + seg_memsz s <= VMM_USER_END /\
  (forall p, 0 <= p < seg_pages s -> is_free (frames (vm v)) (f + p) = false /\
     vmm_aspace_phys a (seg_vaddr s + p * 4096) v = Some ((f + p) * 4096)) /\
  (forall k, 0 <= k < seg_memsz s -> rd mem (VMM_VIRT_BASE + f * 4096 + k) =
     if k <? seg_filesz s then default 0 (rd8 blob (seg_offset s + k)) else 0).

Lemma seg_pages_good s :
  seg_good s -> VMM_USER_BASE <= seg_vaddr s -> seg_vaddr s + seg_memsz s <= VMM_USER_END ->
  Z.land (seg_vaddr s) (not64 0xFFF) = seg_vaddr s /\ seg_pages s = (seg_memsz s - 1) / 4096 + 1.
Proof.
  intros (Hal & Hm & _) Hlo Hhi. unfold VMM_USER_BASE, VMM_USER_END in *. unfold seg_pages.
  change (not64 0xFFF) with (not64 (2 ^ 12 - 1)). rewrite (u64_small (_ + _ - 1)) by lia.
  rewrite !land_not64_align by (unfold in_u64; lia). change (2 ^ 12) with 4096.
  split; [lia|]. rewrite u64_small by zlia. zlia.
Qed.

Lemma seg_taken_false a first pages v p :
  seg_taken a first pages v = false -> 0 <= p < pages -> vmm_aspace_phys a (u64 (first + p * 4096)) v = None.
Proof.
  unfold seg_taken. destruct (find_range _ 0 pages) eqn:E; [discriminate|]. intros _ Hp.
  pose proof (proj1 (find_range_None _ _ _) E p Hp) as Hn. cbv beta in Hn.
  destruct (vmm_aspace_phys a (u64 (first + p * 4096)) v); [discriminate Hn|reflexivity].
Qed.

(** The bytes left behind the run of frames that starts at [f]. *)
Lemma segment_bytes blob s f mem mem1 :
  0 < f -> f * 4096 + seg_memsz s <= 1073741824 -> 0 <= seg_filesz s <= seg_memsz s ->
  0 <= seg_offset s -> seg_offset s + seg_filesz s <= Z.of_nat (length blob) ->
  copy_in blob (seg_offset s) (VMM_PHYS_TO_VIRT (f * 4096)) 0 (Z.to_nat (seg_filesz s)) mem = Some mem1 ->
  let mem' := if seg_memsz s >? seg_filesz s
              then tmemset (u64 (VMM_PHYS_TO_VIRT (f * 4096) + seg_filesz s)) 0 (seg_memsz s - seg_filesz s) mem1
              else mem1 in
  (forall k, 0 <= k < seg_memsz s -> rd mem' (VMM_VIRT_BASE + f * 4096 + k) =
     if k <? seg_filesz s then default 0 (rd8 blob (seg_offset s + k)) else 0) /\
  (forall x, x < VMM_VIRT_BASE + f * 4096 \/ VMM_VIRT_BASE + f * 4096 + seg_memsz s <= x -> rd mem' x = rd mem x).
Proof.
  intros Hf Hmax Hsz Ho Hob Ec mem'.
  assert (VMM_PHYS_TO_VIRT (f * 4096) = VMM_VIRT_BASE + f * 4096) as Ed
    by (unfold VMM_PHYS_TO_VIRT, VMM_VIRT_BASE; rewrite u64_small; lia).
  rewrite Ed in Ec. set (d := VMM_VIRT_BASE + f * 4096) in *.
  assert (0 <= d /\ d + seg_memsz s < 18446744073709551616) as Hd by (subst d; unfold VMM_VIRT_BASE; lia).
  destruct (copy_in_spec blob (seg_offset s) d 0 (Z.to_nat (seg_filesz s)) mem) as (m1 & E1 & Hm1); [lia..|].
  rewrite Ec in E1. injection E1 as <-.
  assert (forall x, rd mem' x = if (d + seg_filesz s <=? x) && (x <? d + seg_memsz s) then 0 else rd mem1 x) as Hm'.
  { intros x. subst mem'. rewrite Ed. destruct (Z.gtb_spec (seg_memsz s) (seg_filesz s)).
    - rewrite u64_small, tmemset_spec by lia.
      replace (d + seg_filesz s + (seg_memsz s - seg_filesz s)) with (d + seg_memsz s) by lia. reflexivity.
    - replace ((d + seg_filesz s <=? x) && (x <? d + seg_memsz s)) with false by lia. reflexivity. }
  split.
  - intros k Hk. rewrite Hm', Hm1. destruct (Z.ltb_spec k (seg_filesz s)).
    + replace ((d + seg_filesz s <=? d + k) && _) with false by lia.
      replace ((d + 0 <=? d + k) && (d + k <? d + 0 + Z.of_nat (Z.to_nat (seg_filesz s)))) with true by lia.
      do 2 f_equal. lia.
    + replace ((d + seg_filesz s <=? d + k) && (d + k <? d + seg_memsz s)) with true by lia. reflexivity.
  - intros x Hx. rewrite Hm', Hm1.
    replace ((d + seg_filesz s <=? x) && (x <? d + seg_memsz s)) with false by lia.
    replace ((d + 0 <=? x) && (x <? d + 0 + Z.of_nat (Z.to_nat (seg_filesz s)))) with false by lia. reflexivity.
Qed.

(** A successful turn of the segment loop. *)
Definition turn_post own a blob s v mem v' mem' : Prop :=
  (exists f, seg_at a f blob s v' mem') /\ spaces v' = spaces v /\
  (exists own', own ⊆ own' /\ tree_ok own' (vm v')) /\
  kept_outside own a (seg_vaddr s) (seg_vaddr s + seg_pages s * 4096) v v' /\
  (forall s0 f0, seg_good s0 -> seg_at a f0 blob s0 v mem -> seg_at a f0 blob s0 v' mem').

(** Segments loaded before stay in place: their pages are mapped, so the new
    segment's are others, and their frames are used, so the new run is disjoint. *)
Lemma seg_at_kept own a P f s v v' mem mem' blob s0 f0 :
  own !! pml4 (space v a) = Some (4, P) -> seg_good s0 -> 0 < f -> f + seg_pages s <= 0x40000 ->
  seg_memsz s <= seg_pages s * 4096 ->
  VMM_USER_BASE <= seg_vaddr s -> seg_vaddr s + seg_pages s * 4096 <= VMM_USER_END -> seg_vaddr s mod 4096 = 0 ->
  (forall p, 0 <= p < seg_pages s -> vmm_aspace_phys a (u64 (seg_vaddr s + p * 4096)) v = None) ->
  (forall g, f <= g < f + seg_pages s -> is_free (frames (vm v)) g = true) ->
  used_kept (frames (vm v)) (frames (vm v')) ->
  kept_outside own a (seg_vaddr s) (seg_vaddr s + seg_pages s * 4096) v v' ->
  (forall x, x < VMM_VIRT_BASE + f * 4096 \/ VMM_VIRT_BASE + f * 4096 + seg_memsz s <= x -> rd mem' x = rd mem x) ->
  seg_at a f0 blob s0 v mem -> seg_at a f0 blob s0 v' mem'.
Proof.
  intros Ht Hg0 Hf Hfn Hms Hlo Hhi Hal Hnone Hfree Hkept Hout Hmem (Hf0 & Hfn0 & Hlo0 & Hhi0 & Hpg & Hby).
  destruct (seg_pages_good s0 Hg0 Hlo0 Hhi0) as [_ Epg]. destruct Hg0 as (Hal0 & Hm0 & _).
  split; [exact Hf0|]. split; [exact Hfn0|]. split; [exact Hlo0|]. split; [exact Hhi0|]. split.
  - intros p Hp. destruct (Hpg p Hp) as [Hu Hph]. split; [apply Hkept; [unfold PMM_MAX_FRAMES; lia|exact Hu]|].
    rewrite (Hout a P); [exact Hph|exact Ht|apply user_range_virt; rewrite Epg in Hp; zlia|].
    right. destruct (Z.ltb_spec (seg_vaddr s0 + p * 4096) (seg_vaddr s)); [left; lia|].
    destruct (Z.leb_spec (seg_vaddr s + seg_pages s * 4096) (seg_vaddr s0 + p * 4096)); [right; lia|]. exfalso.
    assert (exists q, 0 <= q < seg_pages s /\ seg_vaddr s0 + p * 4096 = seg_vaddr s + q * 4096) as (q & Hq & Eq).
    { exists ((seg_vaddr s0 + p * 4096 - seg_vaddr s) / 4096). zlia. }
    specialize (Hnone q Hq). rewrite <- Eq in Hnone.
    rewrite u64_small in Hnone by (unfold VMM_USER_BASE, VMM_USER_END in *; lia). congruence.
  - intros k Hk. rewrite Hmem; [apply Hby, Hk|].
    destruct (Z.ltb_spec (VMM_VIRT_BASE + f0 * 4096 + k) (VMM_VIRT_BASE + f * 4096)); [left; lia|].
    destruct (Z.leb_spec (VMM_VIRT_BASE + f * 4096 + seg_memsz s) (VMM_VIRT_BASE + f0 * 4096 + k)); [right; lia|]. exfalso.
    assert (0 <= k / 4096 < seg_pages s0) as Hkp by (rewrite Epg; zlia).
    destruct (Hpg _ Hkp) as [Hu _]. rewrite Hfree in Hu by zlia. discriminate.
Qed.

(** Taking frames that no table uses keeps the forest. *)
Lemma tree_ok_takes own m fs p' :
  tree_ok own m -> takes fs (frames m) p' -> pmm_inv p' -> tree_ok own (mk_vmem (words m) p').
Proof.
  intros [T1 T2 T3 T4 T5 T6] Htk Hinv. constructor; try assumption. intros t l p Hown.
  destruct (T2 t l p Hown) as [Hl (g & Hg1 & Hg2 & Hg3)]. split; [exact Hl|]. exists g.
  split; [exact Hg1|]. split; [exact Hg2|]. apply (takes_kept _ _ _ Htk); [unfold PMM_MAX_FRAMES; lia|exact Hg3].
Qed.

Lemma load_segment_spec own a P blob s v mem v' mem' :
  tree_ok own (vm v) -> own !! pml4 (space v a) = Some (4, P) -> seg_good s ->
  seg_ok (Z.of_nat (length blob)) s ->
  load_segment a blob s v mem = (Some TELF_OK, (v', mem')) -> turn_post own a blob s v mem v' mem'.
Proof.
  intros Hok Ht Hg (Ho & Hf0 & Hob & Hvr & m64 & Em & Hfm & Hw) E. unfold load_segment in E.
  destruct (_ || _) eqn:Er in E; [discriminate E|]. apply orb_false_iff in Er as [Elo Ehi].
  pose proof Hg as (Hal & Hm & Hfs).
  assert (seg_memsz s <= m64) by (rewrite Em; unfold u32; apply Z.mod_le; lia).
  rewrite u64_small in Ehi by (unfold in_u64 in *; lia).
  destruct (seg_pages_good s Hg) as [Efirst Epg]; [lia..|]. rewrite Efirst in E.
  assert (seg_memsz s <= seg_pages s * 4096) as Hms by (rewrite Epg; zlia).
  assert (seg_vaddr s + seg_pages s * 4096 <= VMM_USER_END) as Hpe by (rewrite Epg; unfold VMM_USER_END in *; zlia).
  destruct (seg_taken a (seg_vaddr s) (seg_pages s) v) eqn:Etk; [discriminate E|].
  pose proof (alloc_low_contig_ok (seg_pages s) (frames (vm v)) (to_pmm _ _ Hok) ltac:(rewrite Epg; zlia)) as Hal'.
  destruct (tpmm_alloc_low_contig (seg_pages s) (frames (vm v))) as [phys p'].
  destruct Hal' as [[[= -> ->] _]|(f & Hf & Hfn & Eph & Htk & _ & Hinv)]; [discriminate E|].
  cbn [fst snd] in Eph, Htk, Hinv. change PAGE_SIZE with 4096 in Eph. subst phys.
  destruct (Z.eqb_spec (f * 4096) 0); [lia|].
  set (v1 := with_vm (mk_vmem (words (vm v)) p') v) in E.
  assert (tree_ok own (vm v1)) as Hok1 by (eapply tree_ok_takes; eauto).
  destruct (map_pages a (seg_vaddr s) (f * 4096) (seg_flags s) 0 (Z.to_nat (seg_pages s)) v1) as [[|] v2] eqn:Emp; [|discriminate E].
  destruct (copy_in _ _ _ _ _ _) as [mem1|] eqn:Ec in E; [|discriminate E]. injection E as <- <-.
  assert (0 < seg_pages s) as Hpos by (rewrite Epg; zlia).
  destruct (map_pages_spec own a P (seg_vaddr s) f (seg_flags s) (Z.to_nat (seg_pages s)) 0 v1 v2 Hok1 Ht
    (seg_flags_bits s) Hal ltac:(lia) ltac:(lia) ltac:(lia) ltac:(lia) ltac:(lia) Emp) as (S2 & K2 & M2 & O2 & own2 & Hs2 & Hok2).
  destruct (segment_bytes blob s f mem mem1 Hf ltac:(lia) Hfs Ho Hob Ec) as [B1 B2].
  replace (0 + Z.of_nat (Z.to_nat (seg_pages s))) with (seg_pages s) in * by lia.
  replace (seg_vaddr s + 0 * 4096) with (seg_vaddr s) in O2 by lia.
  assert (forall g, f <= g < f + seg_pages s -> is_free (frames (vm v)) g = true /\ is_free p' g = false) as Hrun.
  { intros g Hgr. destruct (Htk g) as [Hx _]; [unfold PMM_MAX_FRAMES; lia|]. apply Hx, Hgr. }
  split; [|split; [exact S2|split; [exists own2; auto|split; [exact O2|]]]].
  - exists f. split; [exact Hf|]. split; [lia|]. split; [lia|]. split; [lia|]. split; [|exact B1].
    intros p Hp. split; [|apply M2; lia]. apply K2; [unfold PMM_MAX_FRAMES; lia|]. apply Hrun. lia.
  - intros s0 f1 Hg0. apply (seg_at_kept own a P f s); auto; try lia.
    + intros p Hp. eapply seg_taken_false; eauto.
    + intros g Hgr. apply Hrun, Hgr.
    + intros g Hgr Hu. apply K2; [exact Hgr|]. apply (takes_kept _ _ _ Htk); assumption.
Qed.

Lemma load_segments_spec own a P blob segs v mem v' mem' :
  tree_ok own (vm v) -> own !! pml4 (space v a) = Some (4, P) ->
  Forall seg_good segs -> Forall (seg_ok (Z.of_nat (length blob))) segs ->
  load_segments a blob segs v mem = (Some TELF_OK, (v', mem')) ->
  Forall (fun s => exists f, seg_at a f blob s v' mem') segs /\ spaces v' = spaces v /\
  (exists own', own ⊆ own' /\ tree_ok own' (vm v')) /\
  (forall a2 P2 x, own !! pml4 (space v a2) = Some (4, P2) -> user_virt x ->
     pml4 (space v a2) <> pml4 (space v a) -> vmm_aspace_phys a2 x v' = vmm_aspace_phys a2 x v) /\
  (forall s0 f0, seg_good s0 -> seg_at a f0 blob s0 v mem -> seg_at a f0 blob s0 v' mem').
Proof.
  revert own v mem. induction segs as [|s segs IH]; intros own v mem Hok Ht Hg Hs E; cbn [load_segments] in E.
  { injection E as <- <-. split; [constructor|]. split; [reflexivity|]. split; [exists own; auto|]. auto. }
  apply list.Forall_cons in Hg as [Hg Hgs], Hs as [Hs Hss].
  destruct (load_segment a blob s v mem) as [[rc|] [v1 mem1]] eqn:E1; [|discriminate E].
  destruct (Z.eqb_spec rc TELF_OK) as [->|Hne]; [|injection E as -> _ _; contradiction].
  destruct (load_segment_spec own a P blob s v mem v1 mem1 Hok Ht Hg Hs E1)
    as ((f & Hat) & S1 & (own1 & Hs1 & Hok1) & O1 & L1).
  assert (forall b, space v1 b = space v b) as Hsp by (intros b; unfold space; rewrite S1; reflexivity).
  destruct (IH own1 v1 mem1 Hok1) as (F2 & S2 & (own2 & Hs2 & Hok2) & O2 & L2);
    [rewrite Hsp; eapply lookup_weaken; eauto|exact Hgs|exact Hss|exact E|].
  split; [constructor; [exists f; apply L2; [exact Hg|exact Hat]|exact F2]|].
  split; [congruence|]. split; [exists own2; split; [etransitivity; eauto|exact Hok2]|]. split.
  - intros a2 P2 x Ht2 Hx Hne. rewrite (O2 a2 P2); [|rewrite Hsp; eapply lookup_weaken; eauto|exact Hx|rewrite !Hsp; exact Hne].
    eapply O1; eauto.
  - intros s0 f0 Hg0 Hat0. apply L2, L1; assumption.
Qed.

Lemma copy_in_total blob off dst i n mem :
  0 <= off + i -> off + i + Z.of_nat n <= Z.of_nat (length blob) -> is_Some (copy_in blob off dst i n mem).
Proof.
  revert i mem. induction n as [|n IH]; intros i mem Ho Hb; cbn [copy_in]; [eauto|].
  destruct (rd8_Some blob (off + i)) as [b ->]; [lia|]. apply IH; lia.
Qed.

Lemma load_segments_total a blob segs v mem :
  Forall (seg_ok (Z.of_nat (length blob))) segs -> is_Some (load_segments a blob segs v mem).1.
Proof.
  revert v mem. induction segs as [|s segs IH]; intros v mem Hs; cbn [load_segments]; [eexists; reflexivity|].
  apply list.Forall_cons in Hs as [(Ho & Hf & Hob & _) Hss].
  assert (is_Some (load_segment a blob s v mem).1) as [rc Erc].
  { unfold load_segment. destruct (_ || _); [eexists; reflexivity|]. destruct (seg_taken _ _ _ _); [eexists; reflexivity|].
    destruct (tpmm_alloc_low_contig _ _) as [phys p']. destruct (phys =? 0); [eexists; reflexivity|].
    destruct (map_pages _ _ _ _ _ _ _) as [[|] v2]; [|eexists; reflexivity].
    destruct (copy_in_total blob (seg_offset s) (VMM_PHYS_TO_VIRT phys) 0 (Z.to_nat (seg_filesz s)) mem) as [m1 ->];
      [lia..|eexists; reflexivity]. }
  destruct (load_segment a blob s v mem) as [[rc'|] [v1 mem1]]; [|discriminate Erc].
  destruct (rc' =? TELF_OK); [apply IH, Hss|eexists; reflexivity].
Qed.

(** What a program reads in a segment that is in memory. *)
Lemma seg_at_bytes blob a f s v mem k : seg_good s -> seg_ok (Z.of_nat (length blob)) s -> seg_at a f blob s v mem ->
  0 <= k < seg_memsz s ->
  exists phys, vmm_aspace_phys a (seg_vaddr s + k) v = Some phys /\
    let byte := rd mem (VMM_PHYS_TO_VIRT phys + k mod 4096) in
    if k <? seg_filesz s then rd8 blob (seg_offset s + k) = Some byte else byte = 0.
Proof.
  intros Hg (So & _ & Sb & _) (Hf & Hfn & Hlo & Hhi & Hpg & Hby) Hk.
  destruct (seg_pages_good s Hg Hlo Hhi) as [_ Epg]. destruct Hg as (Hal & Hm & Hfs).
  assert (0 <= k / 4096 < seg_pages s) as Hkp by (rewrite Epg; zlia).
  destruct (Hpg _ Hkp) as [_ Hph]. exists ((f + k / 4096) * 4096).
  assert (user_virt (seg_vaddr s + k) /\ user_virt (seg_vaddr s + k / 4096 * 4096)) as [[U1 K1] [U2 K2]]
    by (split; apply user_range_virt; zlia).
  split.
  - unfold vmm_aspace_phys in Hph |- *. rewrite K1. rewrite K2 in Hph. rewrite <- Hph.
    apply phys_in_page; [lia..|]. zlia.
  - assert (VMM_PHYS_TO_VIRT ((f + k / 4096) * 4096) + k mod 4096 = VMM_VIRT_BASE + f * 4096 + k) as ->.
    { unfold VMM_PHYS_TO_VIRT, VMM_VIRT_BASE. rewrite u64_small by lia. zlia. }
    cbv zeta. rewrite Hby by exact Hk. destruct (Z.ltb_spec k (seg_filesz s)); [|reflexivity].
    destruct (rd8_Some blob (seg_offset s + k)) as [b ->]; [lia|]. reflexivity.
Qed.

End load_proofs.

(** * A concrete load *)

#[local] Instance demo_records : SmallHeap Z := { sh_malloc _ h := (h, h + 32); sh_free _ h := h }.

(** Frames 3 to 9 free; the kernel's PML4 in frame 1. *)
Definition load_pmm : pmm := avail_frame 9 (avail_frame 8 (avail_frame 5 demo_pmm)).
Definition load_vmm0 : vmm Z :=
  mk_vmm (mk_vmem gmap_empty load_pmm) 65536
    (<[40960 := mk_aspace 4096 (VMM_VIRT_BASE + 1 * PAGE_SIZE)]> (∅ : gmap Z vmm_aspace_t)) 40960 40960 4096.
Definition load_vmm : vmm Z := (vmm_aspace_create load_vmm0).2.
Definition load_own : ownership := <[VMM_VIRT_BASE + 3 * PAGE_SIZE := (4, 1)]> ∅.

Lemma load_pmm_inv : pmm_inv load_pmm.
Proof.
  destruct demo_pmm_inv as [Hok _]. split; [|vm_compute; reflexivity].
  do 3 (apply avail_frame_ok; [|unfold PMM_MAX_FRAMES; lia]). exact Hok.
Qed.

Lemma load_create_eq : vmm_aspace_create load_vmm0 = (65536, load_vmm).
Proof.
  unfold load_vmm. destruct (vmm_aspace_create load_vmm0) as [a v] eqn:E. cbn [snd]. f_equal.
  change a with (a, v).1. rewrite <- E. vm_compute. reflexivity.
Qed.

Lemma load_top : pml4 (space load_vmm 65536) = VMM_VIRT_BASE + 3 * PAGE_SIZE.
Proof. vm_compute. reflexivity. Qed.

Lemma load_kernel_used : is_free (frames (vm load_vmm0)) 1 = false.
Proof. vm_compute. reflexivity. Qed.

Lemma load_tree : tree_ok load_own (vm load_vmm).
Proof.
  assert (tree_ok ∅ (vm load_vmm0)) as H0 by (constructor; [exact load_pmm_inv|intros * Hx; discriminate Hx..]).
  pose proof (aspace_create_spec ∅ 1 1 load_vmm0 65536 load_vmm H0
    ltac:(intros t Hx; discriminate Hx) ltac:(lia) eq_refl load_kernel_used load_create_eq ltac:(lia)) as (_ & Ht & _).
  rewrite load_top in Ht. exact Ht.
Qed.

Lemma load_own_top : load_own !! pml4 (space load_vmm 65536) = Some (4, 1).
Proof. rewrite load_top. apply lookup_insert_eq. Qed.

Lemma demo_plan_good : Forall seg_good (plan_segs demo_plan).
Proof. apply list.Forall_singleton. unfold seg_good. simpl. split; [reflexivity|lia]. Qed.

Lemma demo_parse : telf_parse demo_elf = POk demo_plan.
Proof. vm_compute. reflexivity. Qed.

Lemma demo_load_ok : (telf_load 65536 demo_elf load_vmm ∅).1 = Some TELF_OK.
Proof. vm_compute. reflexivity. Qed.


(** The loader drops the page offset of a segment: for a segment at
    0x8000000010 it accepts the executable, but places the first file byte at
    the start of the page instead of 16 bytes into it. *)
Theorem telf_load_drops_page_offset :
  let r := telf_load 65536 (elf_image 0x8000000010 5 0x8000000010 4000 [144; 144; 195]) load_vmm ∅ in
  r.1 = Some TELF_OK /\ vmm_aspace_phys 65536 0x8000000010 r.2.1 = Some 16384 /\
  rd r.2.2 (VMM_PHYS_TO_VIRT 16384) = 144 /\ rd r.2.2 (VMM_PHYS_TO_VIRT 16384 + 16) = 0.
Proof.
  cbv zeta. split; [vm_compute; reflexivity|]. split; [vm_compute; reflexivity|]. split; vm_compute; reflexivity.
Qed.
