(* ===== verification/Tsec.v ===== *)
(** Boot-time hardening: [src/tsec_core.h] and [src/tsec.c].  W^X for the
    kernel image, NX elsewhere, the stack guard page, physical KASLR, and the
    scrubbing of free memory.

    Page tables are words behind the physmap window, as in [Tvmm]; the bytes
    that are moved and zeroed (the image, free frames) are a separate byte
    memory.  The MSR and control registers are fields; [rdtsc] is an input. *)
From stdpp Require Import prelude gmap list numbers.
From Stdlib Require Import ZArith Lia ZifyBool Btauto.
From S2P Require Import Prelude Tstring Tpmm Tvmm.
#[local] Open Scope Z_scope.

Definition TSEC_PAGE_NX : Z := 0x8000000000000000.
Definition EFER_NXE : Z := 2048.
Definition CR4_SMEP : Z := 1048576.
Definition CR4_SMAP : Z := 2097152.
Definition PS : Z := 128.
Definition KASLR_WIN_LO : Z := 0x02000000.
Definition KASLR_WIN_HI : Z := 0x08000000.
Definition WINDOW_SIZE : Z := 2097152.
Definition IMAGE_LOCAL : Z := 0x100000.

(** * The pure part: [tsec_core.h] *)

Record bounds := mk_bounds { text_lo : Z; text_hi : Z; rodata_hi : Z; image_end : Z }.

Definition tsec_region_bounds (vbase phys_base image_local kvstart etext erodata kvend : Z) : bounds :=
  let local x := u64 (u64 (image_local + u64 (x - vbase)) - phys_base) in
  mk_bounds (local kvstart) (local etext) (local erodata) (local kvend).

Definition tsec_pte_for_off (off reloc_base image_local image_end text_lo text_hi rodata_hi : Z) : Z :=
  let flags :=
    if (off >=? text_lo) && (off <? text_hi) then 0
    else if (off >=? text_hi) && (off <? rodata_hi) then TSEC_PAGE_NX
    else Z.lor VMM_PAGE_WRITE TSEC_PAGE_NX in
  let phys :=
    if negb (reloc_base =? 0) && (off >=? image_local) && (off <? image_end)
    then u64 (reloc_base + (off - image_local)) else off in
  Z.lor (Z.lor phys VMM_PAGE_PRESENT) flags.

(** [for (i = lo; i < hi; i++) table[i] = g(i, table[i]);] *)
Definition update_table (table lo hi : Z) (g : Z -> Z -> Z) (m : gmap Z Z) : gmap Z Z :=
  for_range (fun i m => set_entry table i (g i (entry m table i)) m) lo hi m.

Definition tsec_fill_window (pt reloc_base image_local : Z) (b : bounds) (m : gmap Z Z) : gmap Z Z :=
  update_table pt 0 512 (fun i _ =>
    tsec_pte_for_off (i * 4096) reloc_base image_local (image_end b) (text_lo b) (text_hi b) (rodata_hi b)) m.

Definition guard_pte (guard phys : Z) : Z :=
  if negb (guard =? 0) && (phys >=? guard) && (phys <? u64 (guard + 4096)) then 0
  else Z.lor (Z.lor (Z.lor phys VMM_PAGE_PRESENT) VMM_PAGE_WRITE) TSEC_PAGE_NX.

Definition tsec_fill_guard_pt (pt guard : Z) (m : gmap Z Z) : gmap Z Z :=
  update_table pt 0 512 (fun i _ => guard_pte guard (i * 4096)) m.

(** * State *)

(** The linker symbols, and the address of [kaslr_base]. *)
Record image := mk_image {
  i_phys_start : Z; i_phys_end : Z; i_virt_start : Z; i_virt_end : Z; i_etext : Z; i_erodata : Z;
  i_stack_bottom : Z; i_kaslr_addr : Z }.

Record sec := mk_sec {
  smem : vmem; scr3 : Z; kaslr_base : Z; stack_guard_set : Z; efer : Z; cr4 : Z; ram : gmap Z Z }.

Definition with_smem (m : vmem) (s : sec) : sec :=
  mk_sec m (scr3 s) (kaslr_base s) (stack_guard_set s) (efer s) (cr4 s) (ram s).

(** [tmemset(pt, 0, 4096)] and the copy of a table between two frames. *)
Definition copy_table (dst src : Z) (m : gmap Z Z) : gmap Z Z :=
  for_range (fun i m => set_entry dst i (entry m src i) m) 0 512 m.

(** * Registers and entropy *)

Definition sec_enable_nxe (s : sec) : sec :=
  if negb (has (efer s) EFER_NXE)
  then mk_sec (smem s) (scr3 s) (kaslr_base s) (stack_guard_set s) (Z.lor (efer s) EFER_NXE) (cr4 s) (ram s)
  else s.

Definition sec_enable_smep_smap (s : sec) : sec :=
  mk_sec (smem s) (scr3 s) (kaslr_base s) (stack_guard_set s) (efer s)
    (Z.lor (Z.lor (cr4 s) CR4_SMEP) CR4_SMAP) (ram s).

Definition sec_read_efer (s : sec) : Z := efer s.
Definition sec_read_cr4 (s : sec) : Z := cr4 s.

(** [lo], [hi] are the halves of the time-stamp counter. *)
Definition boot_entropy (lo hi addr : Z) : Z :=
  let e := Z.lxor (Z.lxor lo (u32 (Z.shiftl hi 9))) (u32 addr) in
  let e := Z.lxor e (u32 (Z.shiftl e 13)) in
  let e := Z.lxor e (Z.shiftr e 17) in
  Z.lxor e (u32 (Z.shiftl e 5)).

(** * KASLR *)

(** [Some None] is "no module", [None] more tags than the fuel allows. *)
Fixpoint module_scan (mem : Z -> Z) (fuel : nat) (p limit : Z) : option (option (Z * Z)) :=
  if u64 (p + 8) <=? limit then
    match fuel with
    | O => None
    | S f =>
        let type := rd32 mem p in
        let size := rd32 mem (p + 4) in
        if type =? 0 then Some None
        else if (type =? 3) && (size >=? 24) then Some (Some (rd32 mem (p + 8), rd32 mem (p + 12)))
        else module_scan mem f (u64 (p + Z.land (u32 (size + 7)) (not64 7))) limit
    end
  else Some None.

Definition module_range (mem : Z -> Z) (fuel : nat) (mbi : Z) : option (option (Z * Z)) :=
  module_scan mem fuel (u64 (mbi + 8)) (u64 (mbi + rd32 mem mbi)).

(** [if (n) tpmm_free(n);] *)
Definition free_if (n : Z) (p : pmm) : pmm := if negb (n =? 0) then tpmm_free n p else p.

(** [e] with its address replaced by [frame]. *)
Definition redirect (frame e : Z) : Z := Z.lor frame (Z.land e (not64 ADDR_MASK)).

(** Its second half: copies the five tables and redirects the four entries
    that link the copies. *)
Definition copy_boot_tables (p4 n4p n3p n2p n3hp n2hp : Z) (m : gmap Z Z) : gmap Z Z :=
  let n4 := TABLE_OF n4p in
  let n3 := TABLE_OF n3p in
  let n2 := TABLE_OF n2p in
  let n3h := TABLE_OF n3hp in
  let n2h := TABLE_OF n2hp in
  let m := copy_table n4 p4 m in
  let m := copy_table n3 (TABLE_OF (entry m p4 0)) m in
  let e := entry m p4 0 in
  let m := copy_table n2 (TABLE_OF (if negb (e =? 0) then entry m (TABLE_OF e) 0 else 0)) m in
  let m := copy_table n3h (TABLE_OF (entry m p4 511)) m in
  let e := entry m p4 511 in
  let m := copy_table n2h (TABLE_OF (if negb (e =? 0) then entry m (TABLE_OF e) 510 else 0)) m in
  let m := set_entry n4 0 (redirect n3p (entry m n4 0)) m in
  let m := set_entry n4 511 (redirect n3hp (entry m n4 511)) m in
  let m := set_entry n3 0 (redirect n2p (entry m n3 0)) m in
  set_entry n3h 510 (redirect n2hp (entry m n3h 510)) m.

Definition relocate_page_tables (s : sec) : Z * sec :=
  let p4 := TABLE_OF (scr3 s) in
  let '(n4p, q) := tpmm_alloc_low (frames (smem s)) in
  let '(n3p, q) := tpmm_alloc_low q in
  let '(n2p, q) := tpmm_alloc_low q in
  let '(n3hp, q) := tpmm_alloc_low q in
  let '(n2hp, q) := tpmm_alloc_low q in
  if (n4p =? 0) || (n3p =? 0) || (n2p =? 0) || (n3hp =? 0) || (n2hp =? 0) then
    (-1, with_smem (mk_vmem (words (smem s))
           (free_if n2hp (free_if n3hp (free_if n2p (free_if n3p (free_if n4p q)))))) s)
  else
    (0, mk_sec (mk_vmem (copy_boot_tables p4 n4p n3p n2p n3hp n2hp (words (smem s))) q) n4p
          (kaslr_base s) (stack_guard_set s) (efer s) (cr4 s) (ram s)).

Definition slots : Z := (KASLR_WIN_HI - KASLR_WIN_LO) / WINDOW_SIZE.

Definition slot_base (slot : Z) : Z := KASLR_WIN_LO + slot * WINDOW_SIZE.

(** The three tests of the slot loop. *)
Definition slot_fits (img image_size : Z) (mod_range : option (Z * Z)) (p : pmm) (base : Z) : bool :=
  negb match mod_range with
       | Some (mod_start, mod_end) => (base <? mod_end) && (base + WINDOW_SIZE >? mod_start)
       | None => false
       end &&
  negb ((base <? u64 (img + image_size)) && (base + WINDOW_SIZE >? img)) &&
  match find_range (fun i => negb (tpmm_frame_used (base + i * PAGE_SIZE) p =? 0)) 0 (WINDOW_SIZE / PAGE_SIZE) with
  | Some _ => false
  | None => true
  end.

(** [None]: a loop of the model ran out of fuel. *)
Definition sec_kaslr_relocate (img : image) (mem : Z -> Z) (fuel : nat) (tsc_lo tsc_hi mbi : Z) (s : sec)
  : option (Z * sec) :=
  let start := i_phys_start img in
  let image_size := u64 (i_phys_end img - i_phys_start img) in
  mod_range ← module_range mem fuel mbi;
  let start_slot := boot_entropy tsc_lo tsc_hi (i_kaslr_addr img) mod slots in
  match find_range (fun n => slot_fits start image_size mod_range (frames (smem s))
                               (slot_base ((start_slot + n) mod slots))) 0 slots with
  | None => Some (0, s)
  | Some n =>
      let base := slot_base ((start_slot + n) mod slots) in
      p1 ← tpmm_reserve_range base image_size (frames (smem s));
      let '(rc, s1) := relocate_page_tables (with_smem (mk_vmem (words (smem s)) p1) s) in
      if negb (rc =? 0) then
        p2 ← tpmm_release_range base image_size (frames (smem s1));
        Some (0, with_smem (mk_vmem (words (smem s1)) p2) s1)
      else
        Some (1, mk_sec (smem s1) (scr3 s1) base (stack_guard_set s1) (efer s1) (cr4 s1)
                   (tmemmove (VMM_PHYS_TO_VIRT base) (VMM_PHYS_TO_VIRT start) image_size (ram s1)))
  end.

Definition sec_kernel_phys_base (s : sec) : Z := kaslr_base s.

(** * W^X and the guard page *)

Definition sec_split_window (img : image) (pd reloc_base : Z) (m : vmem) : Z * vmem :=
  let '(pt_frame, p') := tpmm_alloc_low (frames m) in
  if pt_frame =? 0 then (-1, mk_vmem (words m) p')
  else
    let pt := TABLE_OF pt_frame in
    let b := tsec_region_bounds VMM_VIRT_BASE (i_phys_start img) IMAGE_LOCAL (i_virt_start img) (i_etext img)
               (i_erodata img) (i_virt_end img) in
    let w := tsec_fill_window pt reloc_base IMAGE_LOCAL b (clear_table pt (words m)) in
    (0, mk_vmem (set_entry pd 0 (Z.lor (Z.lor pt_frame VMM_PAGE_PRESENT) VMM_PAGE_WRITE) w) p').

Definition sec_guard_stack (img : image) (s : sec) : Z * sec :=
  let guard := u64 (i_stack_bottom img - PAGE_SIZE) in
  if negb (Z.land guard (PAGE_SIZE - 1) =? 0) || (guard >=? WINDOW_SIZE) then (-1, s)
  else
    let m := smem s in
    let p2_lo := TABLE_OF (entry (words m) (TABLE_OF (entry (words m) (TABLE_OF (scr3 s)) 0)) 0) in
    let '(pt_frame, p') := tpmm_alloc_low (frames m) in
    if pt_frame =? 0 then (-1, with_smem (mk_vmem (words m) p') s)
    else
      let pt := TABLE_OF pt_frame in
      let w := tsec_fill_guard_pt pt guard (clear_table pt (words m)) in
      (0, mk_sec (mk_vmem (set_entry p2_lo 0 (Z.lor (Z.lor pt_frame VMM_PAGE_PRESENT) VMM_PAGE_WRITE) w) p')
            (scr3 s) (kaslr_base s) 1 (efer s) (cr4 s) (ram s)).

(** [table[i] |= NX] *)
Definition set_nx (table lo hi : Z) (m : gmap Z Z) : gmap Z Z :=
  update_table table lo hi (fun _ e => Z.lor e TSEC_PAGE_NX) m.

Definition sec_harden (img : image) (s0 : sec) : sec :=
  let s := sec_enable_smep_smap (sec_enable_nxe s0) in
  let m := words (smem s) in
  let pml4 := TABLE_OF (scr3 s) in
  let p2_lo := TABLE_OF (entry m (TABLE_OF (entry m pml4 0)) 0) in
  let m := set_nx p2_lo 0 512 m in
  let pd := TABLE_OF (entry m (TABLE_OF (entry m pml4 511)) 510) in
  let m := set_nx pd 1 512 m in
  let '(_, mem) := sec_split_window img pd (kaslr_base s) (mk_vmem m (frames (smem s))) in
  (sec_guard_stack img (with_smem mem s)).2.

Definition sec_stack_guard_enabled (s : sec) : Z := stack_guard_set s.

(** * Checks *)

Definition sec_leaf_flags (s : sec) (vaddr : Z) : Z :=
  let m := words (smem s) in
  let p3 := TABLE_OF (entry m (TABLE_OF (scr3 s)) (PML4_INDEX vaddr)) in
  let e3 := entry m p3 (PDPT_INDEX vaddr) in
  if negb (has e3 VMM_PAGE_PRESENT) then 0
  else if has e3 PS then e3
  else
    let e2 := entry m (TABLE_OF e3) (PD_INDEX vaddr) in
    if negb (has e2 VMM_PAGE_PRESENT) then 0
    else if has e2 PS then e2
    else entry m (TABLE_OF e2) (PT_INDEX vaddr).

Definition sec_wx_enforced (s : sec) : Z :=
  match find_range (fun i =>
          let flags := sec_leaf_flags s (u64 (VMM_VIRT_BASE + i * PAGE_SIZE)) in
          has flags VMM_PAGE_WRITE && negb (has flags TSEC_PAGE_NX)) 0 (WINDOW_SIZE / PAGE_SIZE) with
  | Some _ => 0
  | None => 1
  end.

Definition sec_nx_enforced (s : sec) : Z :=
  match find_range (fun i =>
          let flags := sec_leaf_flags s (u64 (VMM_VIRT_BASE + i * 2 * 1024 * 1024)) in
          negb (flags =? 0) && negb (has flags TSEC_PAGE_NX)) 1 512 with
  | Some _ => 0
  | None => 1
  end.

(** [sec_scrub_ram]: the loop leaves at the first frame at or above 1 GiB. *)
Definition sec_scrub_ram (s : sec) : Z * sec :=
  let p := frames (smem s) in
  let '(n, r) :=
    for_range (fun frame '(n, r) =>
      let phys := frame * PAGE_SIZE in
      if negb (tpmm_frame_used phys p =? 0) then (n, r)
      else (u32 (n + 1), tmemset (VMM_PHYS_TO_VIRT phys) 0 PAGE_SIZE r))
      0 (Z.min (tpmm_total_mem p / PAGE_SIZE) 0x40000) (0, ram s) in
  (n, mk_sec (smem s) (scr3 s) (kaslr_base s) (stack_guard_set s) (efer s) (cr4 s) r).

(** * Page-table words *)

(** The table in frame [f], seen through the window. *)
Abbreviation T f := (VMM_VIRT_BASE + f * PAGE_SIZE).

Lemma set_entry_at f i v m f2 j :
  0 <= i < 512 -> 0 <= j < 512 ->
  entry (set_entry (T f) i v m) (T f2) j = if (f2 =? f) && (j =? i) then v else entry m (T f2) j.
Proof.
  intros Hi Hj. destruct (Z.eqb_spec f2 f) as [->|Hf]; simpl.
  - destruct (Z.eqb_spec j i) as [->|Hne]; [apply set_entry_eq|]. apply set_entry_other; [assumption..|congruence].
  - apply set_entry_other; [assumption..|congruence].
Qed.

Lemma update_table_at f lo hi g m f2 j :
  0 <= lo <= hi -> hi <= 512 -> 0 <= j < 512 ->
  entry (update_table (T f) lo hi g m) (T f2) j =
    if (f2 =? f) && (lo <=? j) && (j <? hi) then g j (entry m (T f) j) else entry m (T f2) j.
Proof.
  intros Hlo Hhi Hj. unfold update_table.
  refine (for_range_ind (fun k m' => forall j, 0 <= j < 512 -> entry m' (T f2) j =
    if (f2 =? f) && (lo <=? j) && (j <? k) then g j (entry m (T f) j) else entry m (T f2) j) _ lo hi m _ _ _ j Hj); [lia| |].
  { intros i Hi. replace ((f2 =? f) && (lo <=? i) && (i <? lo)) with false by lia. reflexivity. }
  intros k m' Hk IH i Hi. rewrite set_entry_at by lia.
  destruct (Z.eqb_spec f2 f) as [->|Hf]; cbn [andb] in *; [|rewrite IH by lia; reflexivity].
  destruct (Z.eqb_spec i k) as [->|Hne].
  - rewrite IH by lia. replace ((lo <=? k) && (k <? k)) with false by lia.
    replace ((lo <=? k) && (k <? k + 1)) with true by lia. reflexivity.
  - rewrite IH by lia. replace ((lo <=? i) && (i <? k + 1)) with ((lo <=? i) && (i <? k)) by lia. reflexivity.
Qed.

Lemma clear_table_at f m f2 j :
  0 <= j < 512 -> entry (clear_table (T f) m) (T f2) j = if f2 =? f then 0 else entry m (T f2) j.
Proof.
  intros Hj. destruct (Z.eqb_spec f2 f) as [->|Hf]; [apply clear_table_entry, Hj|].
  apply clear_table_other; [congruence|exact Hj].
Qed.

Lemma copy_table_at fd fs m f2 j :
  fd <> fs -> 0 <= j < 512 ->
  entry (copy_table (T fd) (T fs) m) (T f2) j = if f2 =? fd then entry m (T fs) j else entry m (T f2) j.
Proof.
  intros Hne Hj. unfold copy_table.
  transitivity (if (f2 =? fd) && (j <? 512) then entry m (T fs) j else entry m (T f2) j);
    [|replace (j <? 512) with true by lia; rewrite andb_true_r; reflexivity].
  refine (for_range_ind (fun k m' => forall f2 j, 0 <= j < 512 -> entry m' (T f2) j =
    if (f2 =? fd) && (j <? k) then entry m (T fs) j else entry m (T f2) j) _ 0 512 m _ _ _ f2 j Hj); [lia| |].
  { intros f i Hi. replace ((f =? fd) && (i <? 0)) with false by lia. reflexivity. }
  intros k m' Hk IH f i Hi. rewrite set_entry_at, !IH by lia.
  replace ((fs =? fd) && (k <? k)) with false by lia.
  destruct (Z.eqb_spec f fd) as [->|Hf]; cbn [andb]; [|reflexivity].
  destruct (Z.eqb_spec i k) as [->|Hi2]; [replace (k <? k + 1) with true by lia; reflexivity|].
  replace (i <? k + 1) with (i <? k) by lia. reflexivity.
Qed.

(** Decides the comparisons of frame numbers and indices in the goal. *)
Ltac decide_eqs :=
  repeat match goal with
  | |- context [?a =? ?b] =>
      first [replace (a =? b) with false by lia | replace (a =? b) with true by lia]
  | |- context [?a <=? ?b] =>
      first [replace (a <=? b) with true by lia | replace (a <=? b) with false by lia]
  | |- context [?a <? ?b] =>
      first [replace (a <? b) with true by lia | replace (a <? b) with false by lia]
  end; cbn [andb orb negb].

(** Bits outside the address field. *)
Lemma frame_bit f k : 0 <= f < 2 ^ 40 -> k < 12 \/ 52 <= k -> Z.testbit (f * PAGE_SIZE) k = false.
Proof.
  intros Hf Hk. unfold PAGE_SIZE. destruct (Z.ltb_spec k 12).
  - change 4096 with (2 ^ 12). apply Z.mul_pow2_bits_low. assumption.
  - apply (testbit_high 52); [|lia]. change (2 ^ 40) with 1099511627776 in Hf. change (2 ^ 52) with 4503599627370496. lia.
Qed.

(** An entry made of a frame, the present bit and flags. *)
Lemma pte_bits f fl k : 0 <= f < 2 ^ 40 -> 0 <= k -> k < 12 \/ 52 <= k ->
  has (Z.lor (Z.lor (f * PAGE_SIZE) VMM_PAGE_PRESENT) fl) (2 ^ k) = (k =? 0) || has fl (2 ^ k).
Proof.
  intros Hf H0 Hk. rewrite !has_pow2, !Z.lor_spec, frame_bit by assumption.
  change VMM_PAGE_PRESENT with (2 ^ 0). rewrite Z.pow2_bits_eqb by lia. rewrite (Z.eqb_sym 0 k). reflexivity.
Qed.

Lemma pte_addr f fl : 0 <= f < 2 ^ 40 -> Z.land fl ADDR_MASK = 0 ->
  Z.land (Z.lor (Z.lor (f * PAGE_SIZE) VMM_PAGE_PRESENT) fl) ADDR_MASK = f * PAGE_SIZE.
Proof.
  intros Hf Hfl. rewrite !Z.land_lor_distr_l, mask_frame, Hfl by assumption.
  change (Z.land VMM_PAGE_PRESENT ADDR_MASK) with 0. rewrite !Z.lor_0_r. reflexivity.
Qed.

(** The frame behind a window offset. *)
Definition window_frame (off reloc_base image_end : Z) : Z :=
  (if negb (reloc_base =? 0) && (off >=? IMAGE_LOCAL) && (off <? image_end)
   then reloc_base + (off - IMAGE_LOCAL) else off) / PAGE_SIZE.

Definition in_text (b : bounds) (off : Z) : bool := (off >=? text_lo b) && (off <? text_hi b).
Definition in_rodata (b : bounds) (off : Z) : bool := (off >=? text_hi b) && (off <? rodata_hi b).

Definition window_pte (b : bounds) (reloc_base off : Z) : Z :=
  tsec_pte_for_off off reloc_base IMAGE_LOCAL (image_end b) (text_lo b) (text_hi b) (rodata_hi b).

Lemma window_pte_form b reloc off :
  0 <= off < WINDOW_SIZE -> off mod PAGE_SIZE = 0 -> 0 <= reloc < 2 ^ 40 -> reloc mod PAGE_SIZE = 0 ->
  0 <= window_frame off reloc (image_end b) < 2 ^ 40 /\
  window_pte b reloc off = Z.lor (Z.lor (window_frame off reloc (image_end b) * PAGE_SIZE) VMM_PAGE_PRESENT)
    (if in_text b off then 0 else if in_rodata b off then TSEC_PAGE_NX else Z.lor VMM_PAGE_WRITE TSEC_PAGE_NX).
Proof.
  intros Ho Hoa Hr Hra. unfold window_pte, tsec_pte_for_off, window_frame, in_text, in_rodata.
  change (2 ^ 40) with 1099511627776 in *. unfold WINDOW_SIZE, PAGE_SIZE, IMAGE_LOCAL in *.
  destruct (negb (reloc =? 0) && (off >=? 0x100000) && (off <? image_end b)) eqn:E.
  - rewrite u64_small by lia. split; [zlia|].
    replace ((reloc + (off - 0x100000)) / 4096 * 4096) with (reloc + (off - 0x100000)) by zlia. reflexivity.
  - split; [zlia|]. replace (off / 4096 * 4096) with off by zlia. reflexivity.
Qed.

Lemma window_wx b reloc off :
  0 <= off < WINDOW_SIZE -> off mod PAGE_SIZE = 0 -> 0 <= reloc < 2 ^ 40 -> reloc mod PAGE_SIZE = 0 ->
  let e := window_pte b reloc off in
  has e VMM_PAGE_PRESENT = true /\ has e TSEC_PAGE_NX = negb (in_text b off) /\
  has e VMM_PAGE_WRITE = negb (in_text b off) && negb (in_rodata b off) /\
  Z.land e ADDR_MASK = window_frame off reloc (image_end b) * PAGE_SIZE.
Proof.
  intros Ho Hoa Hr Hra. destruct (window_pte_form b reloc off Ho Hoa Hr Hra) as [Hf E]. cbv zeta. rewrite E.
  change VMM_PAGE_PRESENT with (2 ^ 0) at 2. change (has _ TSEC_PAGE_NX) with (has
    (Z.lor (Z.lor (window_frame off reloc (image_end b) * PAGE_SIZE) VMM_PAGE_PRESENT)
      (if in_text b off then 0 else if in_rodata b off then TSEC_PAGE_NX else Z.lor VMM_PAGE_WRITE TSEC_PAGE_NX)) (2 ^ 63)).
  change (has _ VMM_PAGE_WRITE) with (has
    (Z.lor (Z.lor (window_frame off reloc (image_end b) * PAGE_SIZE) VMM_PAGE_PRESENT)
      (if in_text b off then 0 else if in_rodata b off then TSEC_PAGE_NX else Z.lor VMM_PAGE_WRITE TSEC_PAGE_NX)) (2 ^ 1)).
  rewrite !pte_bits by lia. rewrite pte_addr; [|exact Hf|destruct (in_text b off), (in_rodata b off); reflexivity].
  destruct (in_text b off), (in_rodata b off); repeat split; reflexivity.
Qed.

(** W^X of the 4 KiB split of the kernel window, for every page: the entry
    is present; it is executable exactly for the text pages; it is writable
    exactly outside text and read-only data, so never both; and it points to
    the relocated copy exactly for the pages of the image. *)
Theorem window_pte_wx b reloc off :
  0 <= off < WINDOW_SIZE -> off mod PAGE_SIZE = 0 -> 0 <= reloc < 2 ^ 40 -> reloc mod PAGE_SIZE = 0 ->
  let e := window_pte b reloc off in
  has e VMM_PAGE_PRESENT = true /\ has e TSEC_PAGE_NX = negb (in_text b off) /\
  has e VMM_PAGE_WRITE = negb (in_text b off) && negb (in_rodata b off) /\
  Z.land e ADDR_MASK = window_frame off reloc (image_end b) * PAGE_SIZE.
Proof. apply window_wx. Qed.

(** The identity map with the guard page cut out. *)
Lemma guard_word guard v :
  guard mod PAGE_SIZE = 0 -> 0 < guard < WINDOW_SIZE -> 0 <= v < WINDOW_SIZE ->
  let e := guard_pte guard (v - v mod PAGE_SIZE) in
  if v / PAGE_SIZE =? guard / PAGE_SIZE then e = 0
  else has e VMM_PAGE_PRESENT = true /\ has e TSEC_PAGE_NX = true /\ Z.land e ADDR_MASK = v - v mod PAGE_SIZE.
Proof.
  intros Hg Hgr Hv. cbv zeta. unfold guard_pte, WINDOW_SIZE, PAGE_SIZE in *. rewrite u64_small by lia.
  destruct (Z.eqb_spec (v / 4096) (guard / 4096)) as [E|E].
  - replace (_ && _) with true by zlia. reflexivity.
  - replace (negb (guard =? 0) && (v - v mod 4096 >=? guard) && (v - v mod 4096 <? guard + 4096)) with false by zlia.
    replace (v - v mod 4096) with (v / 4096 * PAGE_SIZE) by (unfold PAGE_SIZE; zlia).
    rewrite <- (Z.lor_assoc _ VMM_PAGE_WRITE). assert (0 <= v / 4096 < 2 ^ 40) as Hf by zlia.
    split; [|split].
    + exact (pte_bits (v / 4096) (Z.lor VMM_PAGE_WRITE TSEC_PAGE_NX) 0 Hf ltac:(lia) ltac:(lia)).
    + exact (pte_bits (v / 4096) (Z.lor VMM_PAGE_WRITE TSEC_PAGE_NX) 63 Hf ltac:(lia) ltac:(lia)).
    + apply pte_addr; [exact Hf|reflexivity].
Qed.

(** * The boot page tables *)

(** The tables the boot code builds: one PML4, and for each of the identity
    map and the higher half a PDPT and a page directory of 2 MiB leaves. *)
Record boot_map (s : sec) (f4 f3l f2l f3h f2h : Z) : Prop := {
  bm_pmm : pmm_inv (frames (smem s));
  bm_used : forall f, f ∈ [f4; f3l; f2l; f3h; f2h] -> 0 < f < 0x40000 /\ is_free (frames (smem s)) f = false;
  bm_diff : NoDup [f4; f3l; f2l; f3h; f2h];
  bm_cr3 : TABLE_OF (scr3 s) = T f4;
  bm_lo3 : TABLE_OF (entry (words (smem s)) (T f4) 0) = T f3l;
  bm_lo2 : let e := entry (words (smem s)) (T f3l) 0 in
    TABLE_OF e = T f2l /\ has e VMM_PAGE_PRESENT = true /\ has e PS = false;
  bm_hi3 : TABLE_OF (entry (words (smem s)) (T f4) 511) = T f3h;
  bm_hi2 : let e := entry (words (smem s)) (T f3h) 510 in
    TABLE_OF e = T f2h /\ has e VMM_PAGE_PRESENT = true /\ has e PS = false;
  bm_leaf : forall f i, f = f2l \/ f = f2h -> 0 <= i < 512 ->
    has (entry (words (smem s)) (T f) i) VMM_PAGE_PRESENT = true -> has (entry (words (smem s)) (T f) i) PS = true
}.

(** What a page-directory entry and the table below it give. *)
Definition leaf_of (m : gmap Z Z) (e2 i : Z) : Z :=
  if negb (has e2 VMM_PAGE_PRESENT) then 0 else if has e2 PS then e2 else entry m (TABLE_OF e2) i.

Lemma leaf_walk_to s v f4 f3 f2 :
  TABLE_OF (scr3 s) = T f4 -> TABLE_OF (entry (words (smem s)) (T f4) (PML4_INDEX v)) = T f3 ->
  TABLE_OF (entry (words (smem s)) (T f3) (PDPT_INDEX v)) = T f2 ->
  has (entry (words (smem s)) (T f3) (PDPT_INDEX v)) VMM_PAGE_PRESENT = true ->
  has (entry (words (smem s)) (T f3) (PDPT_INDEX v)) PS = false ->
  sec_leaf_flags s v = leaf_of (words (smem s)) (entry (words (smem s)) (T f2) (PD_INDEX v)) (PT_INDEX v).
Proof. intros E4 E3 E2 Hp Hs. unfold sec_leaf_flags. rewrite E4, E3, Hp, Hs, E2. reflexivity. Qed.

Lemma lo_indices x : 0 <= x < 0x40000000 ->
  PML4_INDEX x = 0 /\ PDPT_INDEX x = 0 /\ PD_INDEX x = x / 2097152 /\ PT_INDEX x = (x / 4096) mod 512.
Proof.
  intros Hx. unfold PML4_INDEX, PDPT_INDEX, PD_INDEX, PT_INDEX. rewrite !index_div by lia.
  change (2 ^ 39) with 549755813888. change (2 ^ 30) with 1073741824. change (2 ^ 21) with 2097152.
  change (2 ^ 12) with 4096. repeat split; zlia.
Qed.

Lemma hi_indices x : 0 <= x < 0x40000000 ->
  let v := u64 (VMM_VIRT_BASE + x) in
  PML4_INDEX v = 511 /\ PDPT_INDEX v = 510 /\ PD_INDEX v = x / 2097152 /\ PT_INDEX v = (x / 4096) mod 512.
Proof.
  intros Hx. cbv zeta. unfold VMM_VIRT_BASE. rewrite u64_small by lia.
  unfold PML4_INDEX, PDPT_INDEX, PD_INDEX, PT_INDEX. rewrite !index_div by lia.
  change (2 ^ 39) with 549755813888. change (2 ^ 30) with 1073741824. change (2 ^ 21) with 2097152.
  change (2 ^ 12) with 4096. repeat split; zlia.
Qed.

(** An entry that [sec_split_window] and [sec_guard_stack] write. *)
Lemma dir_word f : 0 < f < 0x40000 ->
  let e := Z.lor (Z.lor (f * PAGE_SIZE) VMM_PAGE_PRESENT) VMM_PAGE_WRITE in
  has e VMM_PAGE_PRESENT = true /\ has e PS = false /\ TABLE_OF e = T f.
Proof.
  intros Hf. cbv zeta. change VMM_PAGE_PRESENT with (2 ^ 0) at 2. change PS with (2 ^ 7).
  rewrite !pte_bits by lia. split; [reflexivity|]. split; [reflexivity|].
  unfold TABLE_OF. rewrite pte_addr by (reflexivity || lia). rewrite <- (TABLE_OF_frame f) by lia.
  unfold TABLE_OF. rewrite mask_frame by lia. reflexivity.
Qed.

(** The next two frames the allocator gives out. *)
Lemma two_frames p a p1 b p2 (used : list Z) :
  pmm_inv p -> (forall f, f ∈ used -> 0 < f < 0x40000 /\ is_free p f = false) ->
  tpmm_alloc_low p = (a, p1) -> a <> 0 -> tpmm_alloc_low p1 = (b, p2) -> b <> 0 ->
  exists fa fb, a = fa * PAGE_SIZE /\ b = fb * PAGE_SIZE /\ 0 < fa < 0x40000 /\ 0 < fb < 0x40000 /\
    fa <> fb /\ (fa ∉ used) /\ (fb ∉ used).
Proof.
  intros Hi Hu Ea Ha Eb Hb. pose proof (alloc_low_ok p Hi) as H1. rewrite Ea in H1.
  destruct H1 as [[[= -> _] _]|(fa & Hfa & E1 & T1 & _ & I1)]; [contradiction|]. cbn [fst snd] in *.
  pose proof (alloc_low_ok p1 I1) as H2. rewrite Eb in H2.
  destruct H2 as [[[= -> _] _]|(fb & Hfb & E2 & T2 & _ & I2)]; [contradiction|]. cbn [fst snd] in *.
  exists fa, fb. split; [exact E1|]. split; [exact E2|]. split; [lia|]. split; [lia|].
  destruct (T1 fa ltac:(unfold PMM_MAX_FRAMES; lia)) as [F1 _]. destruct (F1 eq_refl) as [G1 G2].
  destruct (T2 fb ltac:(unfold PMM_MAX_FRAMES; lia)) as [F2 _]. destruct (F2 eq_refl) as [G3 G4].
  split; [intros ->; congruence|]. split.
  - intros Hin. destruct (Hu fa Hin). congruence.
  - intros Hin. destruct (Hu fb Hin) as [Hr Hn]. destruct (Z.eq_dec fb fa) as [->|Hne]; [congruence|].
    destruct (T1 fb ltac:(unfold PMM_MAX_FRAMES; lia)) as [_ F3]. rewrite (F3 Hne) in G3. congruence.
Qed.

(** * Hardening *)

(** Turns [NoDup] of a literal list into disequalities. *)
Ltac distinct H :=
  let Hn := fresh "Hn" in
  pose proof H as Hn; rewrite !list.NoDup_cons, !not_elem_of_cons in Hn; destruct_and? Hn.

Section harden.
Context (img : image) (s : sec) (f4 f3l f2l f3h f2h fp fg : Z) (p1 p2 : pmm).
Hypothesis Hboot : boot_map s f4 f3l f2l f3h f2h.
Hypothesis Halloc1 : tpmm_alloc_low (frames (smem s)) = (fp * PAGE_SIZE, p1).
Hypothesis Halloc2 : tpmm_alloc_low p1 = (fg * PAGE_SIZE, p2).
Hypothesis Hfp : 0 < fp < 0x40000.
Hypothesis Hfg : 0 < fg < 0x40000.
Hypothesis Hfresh : NoDup [f4; f3l; f2l; f3h; f2h; fp; fg].
Hypothesis Hguard : u64 (i_stack_bottom img - PAGE_SIZE) mod PAGE_SIZE = 0 /\
  u64 (i_stack_bottom img - PAGE_SIZE) < WINDOW_SIZE.

Definition guard_addr : Z := u64 (i_stack_bottom img - PAGE_SIZE).
Definition img_bounds : bounds :=
  tsec_region_bounds VMM_VIRT_BASE (i_phys_start img) IMAGE_LOCAL (i_virt_start img) (i_etext img)
    (i_erodata img) (i_virt_end img).

(** The memory after hardening. *)
Definition hardened_mem : gmap Z Z :=
  let m := set_nx (T f2h) 1 512 (set_nx (T f2l) 0 512 (words (smem s))) in
  let m := tsec_fill_window (T fp) (kaslr_base s) IMAGE_LOCAL img_bounds (clear_table (T fp) m) in
  let m := set_entry (T f2h) 0 (Z.lor (Z.lor (fp * PAGE_SIZE) VMM_PAGE_PRESENT) VMM_PAGE_WRITE) m in
  let m := tsec_fill_guard_pt (T fg) guard_addr (clear_table (T fg) m) in
  set_entry (T f2l) 0 (Z.lor (Z.lor (fg * PAGE_SIZE) VMM_PAGE_PRESENT) VMM_PAGE_WRITE) m.

(** Every entry after hardening, by table. *)
Lemma hardened_entry f j :
  0 <= j < 512 ->
  entry hardened_mem (T f) j =
    if f =? f2l then if j =? 0 then Z.lor (Z.lor (fg * PAGE_SIZE) VMM_PAGE_PRESENT) VMM_PAGE_WRITE
                     else Z.lor (entry (words (smem s)) (T f2l) j) TSEC_PAGE_NX
    else if f =? f2h then if j =? 0 then Z.lor (Z.lor (fp * PAGE_SIZE) VMM_PAGE_PRESENT) VMM_PAGE_WRITE
                          else Z.lor (entry (words (smem s)) (T f2h) j) TSEC_PAGE_NX
    else if f =? fp then window_pte img_bounds (kaslr_base s) (j * 4096)
    else if f =? fg then guard_pte guard_addr (j * 4096)
    else entry (words (smem s)) (T f) j.
Proof.
  intros Hj. assert (f2l <> f2h /\ f2l <> fp /\ f2l <> fg /\ f2h <> fp /\ f2h <> fg /\ fp <> fg) as Hd.
  { distinct Hfresh. repeat split; first [assumption | apply not_eq_sym; assumption]. }
  unfold hardened_mem, tsec_fill_guard_pt, tsec_fill_window, set_nx. cbv zeta.
  rewrite set_entry_at, update_table_at, clear_table_at, set_entry_at, update_table_at, clear_table_at, !update_table_at by lia.
  destruct (Z.eqb_spec f f2l) as [->|]; [destruct (Z.eqb_spec j 0) as [->|]; decide_eqs; reflexivity|].
  destruct (Z.eqb_spec f f2h) as [->|]; [destruct (Z.eqb_spec j 0) as [->|]; decide_eqs; reflexivity|].
  destruct (Z.eqb_spec f fp) as [->|]; [decide_eqs; reflexivity|].
  destruct (Z.eqb_spec f fg) as [->|]; decide_eqs; reflexivity.
Qed.

Lemma harden_eq :
  let s' := sec_harden img s in
  smem s' = mk_vmem hardened_mem p2 /\ scr3 s' = scr3 s /\ stack_guard_set s' = 1 /\
  has (efer s') EFER_NXE = true /\ cr4 s' = Z.lor (Z.lor (cr4 s) CR4_SMEP) CR4_SMAP.
Proof.
  cbv zeta. destruct Hboot as [_ _ _ B4 BL3 (BL2 & _ & _) BH3 (BH2 & _ & _) _].
  assert (f4 <> f2l /\ f3h <> f2l /\ f3l <> f2l /\ f4 <> f2h /\ f3l <> f2h /\ f4 <> fp /\ f3l <> fp) as Hd.
  { distinct Hfresh. repeat split; first [assumption | apply not_eq_sym; assumption]. }
  unfold sec_harden.
  set (s1 := sec_enable_smep_smap (sec_enable_nxe s)).
  assert (smem s1 = smem s /\ scr3 s1 = scr3 s /\ kaslr_base s1 = kaslr_base s /\
    has (efer s1) EFER_NXE = true /\ cr4 s1 = Z.lor (Z.lor (cr4 s) CR4_SMEP) CR4_SMAP) as (-> & E1 & -> & E3 & E4).
  { subst s1. unfold sec_enable_nxe, sec_enable_smep_smap.
    destruct (has (efer s) EFER_NXE) eqn:E; cbn [negb smem scr3 kaslr_base efer cr4]; repeat split; try assumption.
    change EFER_NXE with (2 ^ 11). rewrite has_pow2, Z.lor_spec, Z.pow2_bits_true by lia. apply orb_true_r. }
  rewrite E1, B4, BL3, BL2. cbv zeta.
  assert (TABLE_OF (entry (set_nx (T f2l) 0 512 (words (smem s))) (T f4) 511) = T f3h) as ->.
  { unfold set_nx. rewrite update_table_at by lia. decide_eqs. exact BH3. }
  assert (TABLE_OF (entry (set_nx (T f2l) 0 512 (words (smem s))) (T f3h) 510) = T f2h) as ->.
  { unfold set_nx. rewrite update_table_at by lia. decide_eqs. exact BH2. }
  unfold sec_split_window. cbn [frames words]. rewrite Halloc1.
  assert ((fp * PAGE_SIZE =? 0) = false) as -> by (unfold PAGE_SIZE; lia). rewrite TABLE_OF_frame by lia.
  unfold sec_guard_stack. fold guard_addr. fold guard_addr in Hguard. destruct Hguard as [Hal Hlt].
  assert (0 <= guard_addr) by apply u64_range.
  assert ((Z.land guard_addr (PAGE_SIZE - 1) =? 0) = true) as ->.
  { change (PAGE_SIZE - 1) with (Z.ones 12). rewrite Z.land_ones by lia. change (2 ^ 12) with PAGE_SIZE. lia. }
  replace (guard_addr >=? WINDOW_SIZE) with false by lia. cbn [negb orb].
  cbn [with_smem smem words frames scr3]. rewrite E1, B4, Halloc2.
  assert ((fg * PAGE_SIZE =? 0) = false) as -> by (unfold PAGE_SIZE; lia). rewrite TABLE_OF_frame by lia. cbn [snd smem scr3 stack_guard_set efer cr4].
  split; [|split; [reflexivity|split; [reflexivity|split; [exact E3|exact E4]]]].
  match goal with |- mk_vmem (set_entry (TABLE_OF ?e) _ _ _) _ = _ => assert (TABLE_OF e = T f2l) as Et end;
    [|rewrite Et; unfold hardened_mem, img_bounds; cbv zeta; reflexivity].
  unfold tsec_fill_window, set_nx.
  rewrite (set_entry_at f2h 0), update_table_at, clear_table_at, !update_table_at by lia. decide_eqs. rewrite BL3.
  rewrite (set_entry_at f2h 0), update_table_at, clear_table_at, !update_table_at by lia. decide_eqs. exact BL2.
Qed.

Let s' := sec_harden img s.

Lemma harden_words : words (smem s') = hardened_mem.
Proof. unfold s'. rewrite (proj1 harden_eq). reflexivity. Qed.

(** The walks of the higher half and of the identity map. *)
Lemma harden_hi x : 0 <= x < 0x40000000 ->
  sec_leaf_flags s' (u64 (VMM_VIRT_BASE + x)) =
  leaf_of hardened_mem (entry hardened_mem (T f2h) (x / 2097152)) ((x / 4096) mod 512).
Proof.
  intros Hx. destruct (hi_indices x Hx) as (I4 & I3 & I2 & I1).
  destruct Hboot as [_ _ _ B4 _ _ BH3 (BH2 & BHp & BHs) _].
  assert (f4 <> f2l /\ f4 <> f2h /\ f4 <> fp /\ f4 <> fg /\ f3h <> f2l /\ f3h <> f2h /\ f3h <> fp /\ f3h <> fg) as Hd.
  { distinct Hfresh. repeat split; first [assumption | apply not_eq_sym; assumption]. }
  rewrite (leaf_walk_to s' _ f4 f3h f2h); rewrite ?harden_words, ?I4, ?I3, ?I2, ?I1; [reflexivity|..].
  - rewrite <- B4. f_equal. unfold s'. exact (proj1 (proj2 harden_eq)).
  - rewrite hardened_entry by lia. decide_eqs. exact BH3.
  - rewrite hardened_entry by lia. decide_eqs. exact BH2.
  - rewrite hardened_entry by lia. decide_eqs. exact BHp.
  - rewrite hardened_entry by lia. decide_eqs. exact BHs.
Qed.

Lemma harden_lo x : 0 <= x < 0x40000000 ->
  sec_leaf_flags s' x =
  leaf_of hardened_mem (entry hardened_mem (T f2l) (x / 2097152)) ((x / 4096) mod 512).
Proof.
  intros Hx. destruct (lo_indices x Hx) as (I4 & I3 & I2 & I1).
  destruct Hboot as [_ _ _ B4 BL3 (BL2 & BLp & BLs) _ _ _].
  assert (f4 <> f2l /\ f4 <> f2h /\ f4 <> fp /\ f4 <> fg /\ f3l <> f2l /\ f3l <> f2h /\ f3l <> fp /\ f3l <> fg) as Hd.
  { distinct Hfresh. repeat split; first [assumption | apply not_eq_sym; assumption]. }
  rewrite (leaf_walk_to s' _ f4 f3l f2l); rewrite ?harden_words, ?I4, ?I3, ?I2, ?I1; [reflexivity|..].
  - rewrite <- B4. f_equal. unfold s'. exact (proj1 (proj2 harden_eq)).
  - rewrite hardened_entry by lia. decide_eqs. exact BL3.
  - rewrite hardened_entry by lia. decide_eqs. exact BL2.
  - rewrite hardened_entry by lia. decide_eqs. exact BLp.
  - rewrite hardened_entry by lia. decide_eqs. exact BLs.
Qed.

Lemma harden_window off : 0 <= off < WINDOW_SIZE ->
  sec_leaf_flags s' (u64 (VMM_VIRT_BASE + off)) = window_pte img_bounds (kaslr_base s) (off - off mod PAGE_SIZE).
Proof.
  intros Ho. unfold WINDOW_SIZE in Ho. rewrite harden_hi by lia. replace (off / 2097152) with 0 by zlia.
  assert (f2h <> f2l /\ fp <> f2l /\ fp <> f2h) as Hd.
  { distinct Hfresh. repeat split; first [assumption | apply not_eq_sym; assumption]. }
  rewrite hardened_entry by lia. decide_eqs. destruct (dir_word fp Hfp) as (W1 & W2 & W3).
  unfold leaf_of. rewrite W1, W2, W3. cbn [negb]. rewrite hardened_entry by zlia. decide_eqs.
  f_equal. unfold PAGE_SIZE. zlia.
Qed.

Lemma harden_guard v : 0 <= v < WINDOW_SIZE ->
  sec_leaf_flags s' v = guard_pte guard_addr (v - v mod PAGE_SIZE).
Proof.
  intros Ho. unfold WINDOW_SIZE in Ho. rewrite harden_lo by lia. replace (v / 2097152) with 0 by zlia.
  assert (fg <> f2l /\ fg <> f2h /\ fg <> fp) as Hd.
  { distinct Hfresh. repeat split; first [assumption | apply not_eq_sym; assumption]. }
  rewrite hardened_entry by lia. decide_eqs. destruct (dir_word fg Hfg) as (W1 & W2 & W3).
  unfold leaf_of. rewrite W1, W2, W3. cbn [negb]. rewrite hardened_entry by zlia. decide_eqs.
  f_equal. unfold PAGE_SIZE. zlia.
Qed.

(** A 2 MiB leaf marked NX is not executable. *)
Lemma nx_leaf e i : (has e VMM_PAGE_PRESENT = true -> has e PS = true) ->
  let fl := leaf_of hardened_mem (Z.lor e TSEC_PAGE_NX) i in fl = 0 \/ has fl TSEC_PAGE_NX = true.
Proof.
  intros He. cbv zeta. unfold leaf_of.
  assert (forall k, 0 <= k < 63 -> has (Z.lor e TSEC_PAGE_NX) (2 ^ k) = has e (2 ^ k)) as Hk.
  { intros k Hk. rewrite !has_pow2, Z.lor_spec by lia. change TSEC_PAGE_NX with (2 ^ 63).
    rewrite Z.pow2_bits_false by lia. apply orb_false_r. }
  change VMM_PAGE_PRESENT with (2 ^ 0) in *. change PS with (2 ^ 7) in *. rewrite !Hk by lia.
  destruct (has e (2 ^ 0)); [|left; reflexivity]. rewrite (He eq_refl). right. cbn [negb].
  change TSEC_PAGE_NX with (2 ^ 63). rewrite has_pow2, Z.lor_spec, Z.pow2_bits_true by lia. apply orb_true_r.
Qed.

Lemma harden_beyond x : WINDOW_SIZE <= x < 0x40000000 ->
  (let fl := sec_leaf_flags s' (u64 (VMM_VIRT_BASE + x)) in fl = 0 \/ has fl TSEC_PAGE_NX = true) /\
  (let fl := sec_leaf_flags s' x in fl = 0 \/ has fl TSEC_PAGE_NX = true).
Proof.
  intros Hx. unfold WINDOW_SIZE in Hx. rewrite harden_hi, harden_lo by lia.
  assert (1 <= x / 2097152 < 512) by zlia. pose proof (bm_leaf _ _ _ _ _ _ Hboot) as Hl.
  assert (f2h <> f2l) as Hd by (distinct Hfresh; apply not_eq_sym; assumption).
  rewrite !hardened_entry by lia. decide_eqs.
  split; apply nx_leaf; apply Hl; (auto || lia).
Qed.
End harden.

Lemma boot_fresh s f4 f3l f2l f3h f2h a p1 b p2 :
  boot_map s f4 f3l f2l f3h f2h ->
  tpmm_alloc_low (frames (smem s)) = (a, p1) -> a <> 0 -> tpmm_alloc_low p1 = (b, p2) -> b <> 0 ->
  exists fp fg, a = fp * PAGE_SIZE /\ b = fg * PAGE_SIZE /\ 0 < fp < 0x40000 /\ 0 < fg < 0x40000 /\
    NoDup [f4; f3l; f2l; f3h; f2h; fp; fg].
Proof.
  intros Hb Ea Ha Eb Hb0.
  destruct (two_frames _ _ _ _ _ [f4; f3l; f2l; f3h; f2h] (bm_pmm _ _ _ _ _ _ Hb) (bm_used _ _ _ _ _ _ Hb) Ea Ha Eb Hb0)
    as (fp & fg & -> & -> & Hfp & Hfg & Hne & Hn1 & Hn2).
  exists fp, fg. do 4 (split; [auto|]). change [f4; f3l; f2l; f3h; f2h; fp; fg] with ([f4; f3l; f2l; f3h; f2h] ++ [fp; fg]).
  apply list.NoDup_app. split; [exact (bm_diff _ _ _ _ _ _ Hb)|]. split.
  - intros x Hx Hin. rewrite !elem_of_cons in Hin. destruct Hin as [->|[->|Hin]]; [contradiction..|].
    apply elem_of_nil in Hin. exact Hin.
  - apply list.NoDup_cons. split; [|apply list.NoDup_singleton]. rewrite list_elem_of_singleton. exact Hne.
Qed.

(** C13. After [sec_harden], with two page-table frames available: the check
    functions [sec_wx_enforced] and [sec_nx_enforced] succeed; of the kernel
    window exactly the text is executable; nothing else of the first GiB is,
    through the higher half or the identity map; in the identity map the guard
    page below the stack, and of the first 2 MiB only it, is unmapped; and the
    NXE, SMEP and SMAP bits are set. *)
Theorem sec_harden_correct img s f4 f3l f2l f3h f2h a p1 b p2 :
  boot_map s f4 f3l f2l f3h f2h ->
  tpmm_alloc_low (frames (smem s)) = (a, p1) -> a <> 0 -> tpmm_alloc_low p1 = (b, p2) -> b <> 0 ->
  guard_addr img mod PAGE_SIZE = 0 -> 0 < guard_addr img < WINDOW_SIZE ->
  0 <= kaslr_base s < 2 ^ 40 -> kaslr_base s mod PAGE_SIZE = 0 ->
  let s' := sec_harden img s in
  sec_wx_enforced s' = 1 /\ sec_nx_enforced s' = 1 /\
  (forall off, 0 <= off < WINDOW_SIZE ->
     has (sec_leaf_flags s' (u64 (VMM_VIRT_BASE + off))) TSEC_PAGE_NX =
     negb (in_text (img_bounds img) (off - off mod PAGE_SIZE))) /\
  (forall x v, WINDOW_SIZE <= x < 0x40000000 -> v = x \/ v = u64 (VMM_VIRT_BASE + x) ->
     sec_leaf_flags s' v = 0 \/ has (sec_leaf_flags s' v) TSEC_PAGE_NX = true) /\
  (forall v, 0 <= v < WINDOW_SIZE ->
     if v / PAGE_SIZE =? guard_addr img / PAGE_SIZE then sec_leaf_flags s' v = 0
     else has (sec_leaf_flags s' v) VMM_PAGE_PRESENT = true /\ has (sec_leaf_flags s' v) TSEC_PAGE_NX = true /\
          Z.land (sec_leaf_flags s' v) ADDR_MASK = v - v mod PAGE_SIZE) /\
  sec_stack_guard_enabled s' = 1 /\ has (sec_read_efer s') EFER_NXE = true /\
  sec_read_cr4 s' = Z.lor (Z.lor (cr4 s) CR4_SMEP) CR4_SMAP.
Proof.
  intros Hb Ea Ha Eb Hb0 Hga Hg Hk Hka s'.
  destruct (boot_fresh _ _ _ _ _ _ _ _ _ _ Hb Ea Ha Eb Hb0) as (fp & fg & -> & -> & Hfp & Hfg & Hfresh).
  assert (Hguard : guard_addr img mod PAGE_SIZE = 0 /\ guard_addr img < WINDOW_SIZE) by (split; [exact Hga|lia]).
  pose proof (harden_window img s _ _ _ _ _ fp fg p1 p2 Hb Ea Eb Hfp Hfg Hfresh Hguard) as Hwin.
  pose proof (harden_guard img s _ _ _ _ _ fp fg p1 p2 Hb Ea Eb Hfp Hfg Hfresh Hguard) as Hgp.
  pose proof (harden_beyond img s _ _ _ _ _ fp fg p1 p2 Hb Ea Eb Hfp Hfg Hfresh Hguard) as Hbey.
  destruct (harden_eq img s _ _ _ _ _ fp fg p1 p2 Hb Ea Eb Hfp Hfg Hfresh Hguard) as (_ & _ & E1 & E2 & E3).
  fold s' in Hwin, Hgp, Hbey, E1, E2, E3. clearbody s'.
  assert (forall off, 0 <= off < WINDOW_SIZE ->
    0 <= off - off mod PAGE_SIZE < WINDOW_SIZE /\ (off - off mod PAGE_SIZE) mod PAGE_SIZE = 0) as Hpage.
  { intros off Ho. unfold WINDOW_SIZE, PAGE_SIZE in *. zlia. }
  split; [|split; [|split; [|split; [|split; [|auto]]]]].
  - unfold sec_wx_enforced. destruct (find_range _ _ _) as [i|] eqn:E; [|reflexivity]. exfalso.
    apply find_range_Some in E as (Hi & E & _). change (WINDOW_SIZE / PAGE_SIZE) with 512 in Hi.
    assert (0 <= i * PAGE_SIZE < WINDOW_SIZE) as Hr by (unfold WINDOW_SIZE, PAGE_SIZE; lia).
    rewrite Hwin in E by exact Hr. destruct (Hpage _ Hr) as [P1 P2].
    destruct (window_wx (img_bounds img) (kaslr_base s) _ P1 P2 Hk Hka) as (_ & X & W & _).
    rewrite X, W in E. destruct (in_text _ _), (in_rodata _ _); discriminate E.
  - unfold sec_nx_enforced. destruct (find_range _ _ _) as [i|] eqn:E; [|reflexivity]. exfalso.
    apply find_range_Some in E as (Hi & E & _).
    replace (i * 2 * 1024 * 1024) with (i * 2097152) in E by lia.
    destruct (Hbey (i * 2097152)) as [[Hz|Hz] _]; [unfold WINDOW_SIZE; lia| |]; rewrite Hz in E;
      [discriminate E|]. rewrite andb_false_r in E. discriminate E.
  - intros off Ho. rewrite Hwin by exact Ho. destruct (Hpage _ Ho) as [P1 P2].
    apply (window_wx (img_bounds img) (kaslr_base s) _ P1 P2 Hk Hka).
  - intros x v Hx [-> | ->]; [exact (proj2 (Hbey x Hx))|exact (proj1 (Hbey x Hx))].
  - intros v Hv. rewrite Hgp by exact Hv. destruct (Hpage _ Hv) as [P1 P2]. apply guard_word; assumption || lia.
Qed.

(** * Scrubbing *)

Lemma frame_used_free f p : 0 <= f < PMM_MAX_FRAMES -> (negb (tpmm_frame_used (f * PAGE_SIZE) p =? 0)) = negb (is_free p f).
Proof.
  intros Hf. unfold tpmm_frame_used, PAGE_SIZE. rewrite Z.div_mul by lia. rewrite u32_small by (unfold PMM_MAX_FRAMES in Hf; lia).
  unfold is_free, used. rewrite negb_involutive. reflexivity.
Qed.

(** [sec_scrub_ram] zeroes exactly the free frames below 1 GiB and returns
    how many there are; every byte of a frame in use, and of everything above,
    keeps its value. *)
Theorem sec_scrub_correct s n s' :
  pmm_ok (frames (smem s)) -> sec_scrub_ram s = (n, s') ->
  let p := frames (smem s) in
  let hi := Z.min (total_frames p) 0x40000 in
  n = count_range (is_free p) 0 hi /\ smem s' = smem s /\
  (forall f k, 0 <= f < 0x40000 -> 0 <= k < PAGE_SIZE ->
     rd (ram s') (T f + k) = if (f <? hi) && is_free p f then 0 else rd (ram s) (T f + k)).
Proof.
  intros Hok E p hi. pose proof (po_total p Hok) as Ht. unfold sec_scrub_ram in E. fold p in E.
  unfold tpmm_total_mem in E. rewrite Z.div_mul in E by (unfold PAGE_SIZE; lia). fold hi in E.
  set (body := fun frame '(n, r) => _) in E.
  assert ((fun k '(n, r) => n = count_range (is_free p) 0 k /\
    forall f j, 0 <= f < 0x40000 -> 0 <= j < PAGE_SIZE ->
      rd r (T f + j) = if (f <? k) && is_free p f then 0 else rd (ram s) (T f + j)) hi
    (for_range body 0 hi (0, ram s))) as Hinv.
  { apply for_range_ind; [unfold hi; lia| |].
    - split; [reflexivity|]. intros f j Hf Hj. replace (f <? 0) with false by lia. reflexivity.
    - intros k [c r] Hk [Hc Hr]. unfold body. unfold PMM_MAX_FRAMES in Ht.
      rewrite frame_used_free by (unfold PMM_MAX_FRAMES; lia).
      pose proof (count_range_bounds (is_free p) 0 k ltac:(lia)) as Hb.
      assert (count_range (is_free p) 0 (k + 1) = count_range (is_free p) 0 k + (if is_free p k then 1 else 0)) as Ek.
      { rewrite (count_range_split _ 0 k (k + 1)) by lia. f_equal. unfold count_range at 1.
        replace (Z.to_nat (k + 1 - k)) with 1%nat by lia. simpl. destruct (is_free p k); reflexivity. }
      destruct (is_free p k) eqn:Ef; cbn [negb].
      + split; [rewrite u32_small; lia|]. intros f j Hf Hj.
        unfold VMM_PHYS_TO_VIRT. rewrite u64_small by (unfold VMM_VIRT_BASE, PAGE_SIZE; lia).
        rewrite tmemset_spec by (unfold PAGE_SIZE; lia). unfold PAGE_SIZE in *.
        destruct (Z.eq_dec f k) as [->|Hne].
        * replace (_ && _) with true by lia. rewrite Ef. replace (k <? k + 1) with true by lia. reflexivity.
        * replace ((k * 4096 + VMM_VIRT_BASE <=? VMM_VIRT_BASE + f * 4096 + j) && _) with false by lia.
          rewrite Hr by lia. replace (f <? k + 1) with (f <? k) by lia. reflexivity.
      + split; [lia|]. intros f j Hf Hj. rewrite Hr by assumption.
        destruct (Z.eq_dec f k) as [->|Hne]; [rewrite Ef, !andb_false_r; reflexivity|].
        replace (f <? k + 1) with (f <? k) by lia. reflexivity. }
  destruct (for_range body 0 hi (0, ram s)) as [c r]. injection E as <- <-. destruct Hinv as [Hc Hr].
  split; [exact Hc|]. split; [reflexivity|exact Hr].
Qed.

(** * Relocating the page tables *)

(** One request for a frame below 1 GiB: the frame it takes, if any. *)
Lemma alloc_low_step p a p1 :
  pmm_inv p -> tpmm_alloc_low p = (a, p1) ->
  pmm_inv p1 /\ total_frames p1 = total_frames p /\
  (a <> 0 -> exists f, a = f * PAGE_SIZE /\ 0 < f < 0x40000 /\ f < total_frames p /\ is_free p f = true) /\
  (forall g, 0 <= g < PMM_MAX_FRAMES ->
     is_free p1 g = is_free p g && negb (negb (a =? 0) && (g =? a / PAGE_SIZE))).
Proof.
  intros Hi E. pose proof (alloc_low_ok p Hi) as Ha. rewrite E in Ha.
  assert (total_frames p1 = total_frames p) as Ht.
  { unfold tpmm_alloc_low, take_frame in E. repeat case_match; inv_pairs; reflexivity. }
  destruct Ha as [[[= -> ->] _]|(f & Hf & Ea & Htk & _ & Hi1)]; cbn [fst snd] in *.
  - split; [exact Hi|]. split; [reflexivity|]. split; [lia|]. intros g _. rewrite andb_true_r. reflexivity.
  - subst a. destruct (Htk f ltac:(unfold PMM_MAX_FRAMES; lia)) as [F1 _]. destruct (F1 eq_refl) as [F2 F3].
    split; [exact Hi1|]. split; [exact Ht|]. split; [intros _; exists f; repeat split; (assumption || lia)|].
    intros g Hg. rewrite Z.div_mul by (unfold PAGE_SIZE; lia). replace (f * PAGE_SIZE =? 0) with false by (unfold PAGE_SIZE; lia).
    cbn [negb andb]. destruct (Z.eqb_spec g f) as [->|Hne]; [rewrite F3, andb_false_r; reflexivity|].
    rewrite andb_true_r. apply (Htk g Hg). exact Hne.
Qed.

Lemma free_if_ok n p :
  pmm_ok p -> (n <> 0 -> exists f, n = f * PAGE_SIZE /\ 0 < f < total_frames p) ->
  pmm_ok (free_if n p) /\ total_frames (free_if n p) = total_frames p /\
  (forall g, 0 <= g < PMM_MAX_FRAMES ->
     is_free (free_if n p) g = is_free p g || (negb (n =? 0) && (g =? n / PAGE_SIZE))).
Proof.
  intros Hok Hn. unfold free_if. destruct (Z.eqb_spec n 0) as [->|Hne]; cbn [negb andb].
  { split; [exact Hok|]. split; [reflexivity|]. intros g _. rewrite orb_false_r. reflexivity. }
  destruct (Hn Hne) as (f & -> & Hf). pose proof (po_total p Hok). unfold PMM_MAX_FRAMES in *.
  destruct (free_ok (f * PAGE_SIZE) p Hok) as (H1 & H2 & H3); [unfold PAGE_SIZE; lia|].
  split; [exact H1|]. split; [exact H2|]. intros g Hg. rewrite H3 by exact Hg. unfold PAGE_SIZE. rewrite Z.div_mul by lia.
  f_equal. destruct (Z.eqb_spec g f) as [->|]; [|reflexivity]. simpl. lia.
Qed.

Lemma not_taken b x g :
  0 < g < 0x40000 ->
  b && negb (negb (g * PAGE_SIZE =? 0) && (x =? g * PAGE_SIZE / PAGE_SIZE)) = true -> b = true /\ x <> g.
Proof.
  intros Hg [Hb Hn]%andb_prop. split; [exact Hb|]. unfold PAGE_SIZE in Hn. rewrite Z.div_mul in Hn by lia.
  replace (g * 4096 =? 0) with false in Hn by lia. cbn [negb andb] in Hn. intros ->. rewrite Z.eqb_refl in Hn. discriminate.
Qed.

(** The five requests, and giving back what they took. *)
Section five.
Context (p : pmm) (a1 a2 a3 a4 a5 : Z) (q1 q2 q3 q4 q5 : pmm).
Hypothesis Hp : pmm_inv p.
Hypothesis E1 : tpmm_alloc_low p = (a1, q1).
Hypothesis E2 : tpmm_alloc_low q1 = (a2, q2).
Hypothesis E3 : tpmm_alloc_low q2 = (a3, q3).
Hypothesis E4 : tpmm_alloc_low q3 = (a4, q4).
Hypothesis E5 : tpmm_alloc_low q4 = (a5, q5).

Definition taken (a g : Z) : bool := negb (a =? 0) && (g =? a / PAGE_SIZE).

Lemma five_state :
  pmm_inv q5 /\ total_frames q5 = total_frames p /\
  (forall g, 0 <= g < PMM_MAX_FRAMES -> is_free q5 g =
     is_free p g && negb (taken a1 g || taken a2 g || taken a3 g || taken a4 g || taken a5 g)) /\
  Forall (fun a => a <> 0 -> exists f, a = f * PAGE_SIZE /\ 0 < f < 0x40000 /\ f < total_frames p /\ is_free p f = true)
    [a1; a2; a3; a4; a5].
Proof.
  destruct (alloc_low_step p a1 q1 Hp E1) as (I1 & T1 & A1 & F1).
  destruct (alloc_low_step q1 a2 q2 I1 E2) as (I2 & T2 & A2 & F2).
  destruct (alloc_low_step q2 a3 q3 I2 E3) as (I3 & T3 & A3 & F3).
  destruct (alloc_low_step q3 a4 q4 I3 E4) as (I4 & T4 & A4 & F4).
  destruct (alloc_low_step q4 a5 q5 I4 E5) as (I5 & T5 & A5 & F5).
  split; [exact I5|]. split; [congruence|]. split.
  - intros g Hg. rewrite F5, F4, F3, F2, F1 by exact Hg. unfold taken. btauto.
  - assert (forall a q, total_frames q = total_frames p ->
      (forall g, 0 <= g < PMM_MAX_FRAMES -> is_free q g = true -> is_free p g = true) ->
      (a <> 0 -> exists f, a = f * PAGE_SIZE /\ 0 < f < 0x40000 /\ f < total_frames q /\ is_free q f = true) ->
      a <> 0 -> exists f, a = f * PAGE_SIZE /\ 0 < f < 0x40000 /\ f < total_frames p /\ is_free p f = true) as Hback.
    { intros a q Ht Hq Ha Hn. destruct (Ha Hn) as (f & -> & Hf & Hft & Hfr). exists f. split; [reflexivity|].
      split; [exact Hf|]. split; [lia|]. apply Hq; [unfold PMM_MAX_FRAMES; lia|exact Hfr]. }
    repeat constructor.
    + exact A1.
    + apply (Hback a2 q1); [congruence| |exact A2]. intros g Hg. rewrite F1 by exact Hg. intros [? _]%andb_prop; assumption.
    + apply (Hback a3 q2); [congruence| |exact A3]. intros g Hg. rewrite F2, F1 by exact Hg.
      intros [[? _]%andb_prop _]%andb_prop; assumption.
    + apply (Hback a4 q3); [congruence| |exact A4]. intros g Hg. rewrite F3, F2, F1 by exact Hg.
      intros [[[? _]%andb_prop _]%andb_prop _]%andb_prop; assumption.
    + apply (Hback a5 q4); [congruence| |exact A5]. intros g Hg. rewrite F4, F3, F2, F1 by exact Hg.
      intros [[[[? _]%andb_prop _]%andb_prop _]%andb_prop _]%andb_prop; assumption.
Qed.

(** Frames handed out by different requests differ. *)
Lemma five_distinct g1 g2 g3 g4 g5 :
  a1 = g1 * PAGE_SIZE -> a2 = g2 * PAGE_SIZE -> a3 = g3 * PAGE_SIZE -> a4 = g4 * PAGE_SIZE -> a5 = g5 * PAGE_SIZE ->
  Forall (fun g => 0 < g < 0x40000) [g1; g2; g3; g4; g5] -> NoDup [g1; g2; g3; g4; g5].
Proof.
  intros -> -> -> -> -> Hr. rewrite !list.Forall_cons in Hr. destruct Hr as (R1 & R2 & R3 & R4 & R5 & _).
  destruct (alloc_low_step p _ q1 Hp E1) as (I1 & T1 & A1 & F1).
  destruct (alloc_low_step q1 _ q2 I1 E2) as (I2 & T2 & A2 & F2).
  destruct (alloc_low_step q2 _ q3 I2 E3) as (I3 & T3 & A3 & F3).
  destruct (alloc_low_step q3 _ q4 I3 E4) as (I4 & T4 & A4 & F4).
  destruct (alloc_low_step q4 _ q5 I4 E5) as (I5 & T5 & A5 & F5).
  assert (forall q g, 0 < g < 0x40000 ->
    (g * PAGE_SIZE <> 0 -> exists f, g * PAGE_SIZE = f * PAGE_SIZE /\ 0 < f < 0x40000 /\ f < total_frames q /\ is_free q f = true) ->
    is_free q g = true) as Hfr.
  { intros q g Hg Ha. destruct Ha as (f & Ef & _ & _ & Hf); [unfold PAGE_SIZE; lia|].
    replace g with f by (unfold PAGE_SIZE in Ef; lia). exact Hf. }
  apply Hfr in A2, A3, A4, A5; try assumption.
  rewrite F4, F3, F2, F1 in A5 by (unfold PMM_MAX_FRAMES; lia). rewrite F3, F2, F1 in A4 by (unfold PMM_MAX_FRAMES; lia).
  rewrite F2, F1 in A3 by (unfold PMM_MAX_FRAMES; lia). rewrite F1 in A2 by (unfold PMM_MAX_FRAMES; lia).
  destruct (not_taken _ _ _ R4 A5) as [C54 D54]. destruct (not_taken _ _ _ R3 C54) as [C53 D53]. destruct (not_taken _ _ _ R2 C53) as [C52 D52]. destruct (not_taken _ _ _ R1 C52) as [C51 D51].
  destruct (not_taken _ _ _ R3 A4) as [C43 D43]. destruct (not_taken _ _ _ R2 C43) as [C42 D42]. destruct (not_taken _ _ _ R1 C42) as [C41 D41].
  destruct (not_taken _ _ _ R2 A3) as [C32 D32]. destruct (not_taken _ _ _ R1 C32) as [C31 D31].
  destruct (not_taken _ _ _ R1 A2) as [C21 D21].
  clear - D51 D52 D53 D54 D41 D42 D43 D31 D32 D21. rewrite !list.NoDup_cons, !not_elem_of_cons.
  repeat match goal with |- _ /\ _ => split end;
    first [apply not_elem_of_nil | apply base.NoDup_nil_2 | apply not_eq_sym; assumption].
Qed.

Lemma five_undone :
  let q := free_if a5 (free_if a4 (free_if a3 (free_if a2 (free_if a1 q5)))) in
  pmm_ok q /\ total_frames q = total_frames p /\ forall g, 0 <= g < PMM_MAX_FRAMES -> is_free q g = is_free p g.
Proof.
  destruct five_state as ([I5 _] & T5 & F5 & HA). rewrite !list.Forall_cons in HA.
  destruct HA as (A1 & A2 & A3 & A4 & A5 & _).
  assert (forall a, (a <> 0 -> exists f, a = f * PAGE_SIZE /\ 0 < f < 0x40000 /\ f < total_frames p /\ is_free p f = true) ->
    forall q, total_frames q = total_frames p -> a <> 0 -> exists f, a = f * PAGE_SIZE /\ 0 < f < total_frames q) as Hb.
  { intros a Ha q Hq Hn. destruct (Ha Hn) as (f & -> & Hf & Hft & _). exists f. split; [reflexivity|lia]. }
  destruct (free_if_ok a1 q5 I5 (Hb a1 A1 _ T5)) as (O1 & U1 & G1).
  destruct (free_if_ok a2 _ O1 (Hb a2 A2 _ (eq_trans U1 T5))) as (O2 & U2 & G2).
  destruct (free_if_ok a3 _ O2 (Hb a3 A3 _ (eq_trans U2 (eq_trans U1 T5)))) as (O3 & U3 & G3).
  destruct (free_if_ok a4 _ O3 (Hb a4 A4 _ (eq_trans U3 (eq_trans U2 (eq_trans U1 T5))))) as (O4 & U4 & G4).
  destruct (free_if_ok a5 _ O4 (Hb a5 A5 _ (eq_trans U4 (eq_trans U3 (eq_trans U2 (eq_trans U1 T5)))))) as (O5 & U5 & G5).
  cbv zeta. split; [exact O5|].
  split; [exact (eq_trans U5 (eq_trans U4 (eq_trans U3 (eq_trans U2 (eq_trans U1 T5)))))|].
  intros g Hg. rewrite G5, G4, G3, G2, G1, F5 by exact Hg.
  assert (forall a, (a <> 0 -> exists f, a = f * PAGE_SIZE /\ 0 < f < 0x40000 /\ f < total_frames p /\ is_free p f = true) ->
    taken a g = true -> is_free p g = true) as Ht.
  { intros a Ha Htk. unfold taken in Htk. apply andb_prop in Htk as [Hn Eg].
    destruct Ha as (f & -> & _ & _ & Hf); [lia|]. unfold PAGE_SIZE in Eg. rewrite Z.div_mul in Eg by lia.
    replace g with f by lia. exact Hf. }
  pose proof (Ht a1 A1) as B1. pose proof (Ht a2 A2) as B2. pose proof (Ht a3 A3) as B3.
  pose proof (Ht a4 A4) as B4. pose proof (Ht a5 A5) as B5. fold (taken a1 g) (taken a2 g) (taken a3 g) (taken a4 g) (taken a5 g).
  destruct (taken a1 g), (taken a2 g), (taken a3 g), (taken a4 g), (taken a5 g);
    rewrite ?andb_true_r, ?andb_false_r, ?orb_true_r, ?orb_false_r; cbn [negb orb andb];
    try reflexivity; try (symmetry; auto; fail); rewrite ?andb_true_r, ?orb_false_r; reflexivity.
Qed.
End five.

Lemma redirect_spec g e : 0 < g < 0x40000 ->
  TABLE_OF (redirect (g * PAGE_SIZE) e) = T g /\
  (forall k, 0 <= k < 12 -> has (redirect (g * PAGE_SIZE) e) (2 ^ k) = has e (2 ^ k)).
Proof.
  intros Hg. unfold redirect. split.
  - unfold TABLE_OF. rewrite Z.land_lor_distr_l, mask_frame by lia.
    rewrite <- Z.land_assoc. change (Z.land (not64 ADDR_MASK) ADDR_MASK) with 0. rewrite Z.land_0_r, Z.lor_0_r.
    unfold VMM_PHYS_TO_VIRT, VMM_VIRT_BASE, PAGE_SIZE. rewrite u64_small; lia.
  - intros k Hk. rewrite !has_pow2, Z.lor_spec, Z.land_spec, frame_bit by lia.
    unfold not64. rewrite Z.lxor_spec, ADDR_MASK_testbit. change 18446744073709551615 with (Z.ones 64).
    rewrite Z.ones_spec_low by lia. replace (12 <=? k) with false by lia. cbn [andb xorb orb]. apply andb_true_r.
Qed.

Lemma TABLE_OF_nonzero e f : 0 < f -> TABLE_OF e = T f -> (e =? 0) = false.
Proof.
  intros Hf E. apply Z.eqb_neq. intros ->. change (TABLE_OF 0) with VMM_VIRT_BASE in E. unfold PAGE_SIZE in E. lia.
Qed.

Section reloc.
Context (s : sec) (f4 f3l f2l f3h f2h g4 g3l g2l g3h g2h : Z).
Hypothesis Hboot : boot_map s f4 f3l f2l f3h f2h.
Hypothesis Hg : Forall (fun g => 0 < g < 0x40000) [g4; g3l; g2l; g3h; g2h].
Hypothesis Hnd : NoDup [f4; f3l; f2l; f3h; f2h; g4; g3l; g2l; g3h; g2h].

(** The memory [relocate_page_tables] leaves when the five frames are [g4]..[g2h]. *)
Definition reloc_mem : gmap Z Z :=
  let m := copy_table (T g4) (T f4) (words (smem s)) in
  let m := copy_table (T g3l) (T f3l) m in
  let m := copy_table (T g2l) (T f2l) m in
  let m := copy_table (T g3h) (T f3h) m in
  let m := copy_table (T g2h) (T f2h) m in
  let m := set_entry (T g4) 0 (redirect (g3l * PAGE_SIZE) (entry (words (smem s)) (T f4) 0)) m in
  let m := set_entry (T g4) 511 (redirect (g3h * PAGE_SIZE) (entry (words (smem s)) (T f4) 511)) m in
  let m := set_entry (T g3l) 0 (redirect (g2l * PAGE_SIZE) (entry (words (smem s)) (T f3l) 0)) m in
  set_entry (T g3h) 510 (redirect (g2h * PAGE_SIZE) (entry (words (smem s)) (T f3h) 510)) m.

Lemma reloc_old f j : f ∈ [f4; f3l; f2l; f3h; f2h] -> 0 <= j < 512 ->
  entry reloc_mem (T f) j = entry (words (smem s)) (T f) j.
Proof.
  intros Hf Hj. distinct Hnd. rewrite !elem_of_cons, elem_of_nil in Hf.
  unfold reloc_mem. cbv zeta. rewrite !set_entry_at, !copy_table_at by (congruence || lia).
  assert (f <> g4 /\ f <> g3l /\ f <> g2l /\ f <> g3h /\ f <> g2h) as (N1 & N2 & N3 & N4 & N5).
  { destruct Hf as [->|[->|[->|[->|[->|[]]]]]]; repeat split; assumption. }
  apply Z.eqb_neq in N1, N2, N3, N4, N5. rewrite N1, N2, N3, N4, N5. reflexivity.
Qed.

Lemma reloc_new j : 0 <= j < 512 ->
  entry reloc_mem (T g4) j = (if j =? 511 then redirect (g3h * PAGE_SIZE) (entry (words (smem s)) (T f4) 511)
    else if j =? 0 then redirect (g3l * PAGE_SIZE) (entry (words (smem s)) (T f4) 0)
    else entry (words (smem s)) (T f4) j) /\
  entry reloc_mem (T g3l) j = (if j =? 0 then redirect (g2l * PAGE_SIZE) (entry (words (smem s)) (T f3l) 0)
    else entry (words (smem s)) (T f3l) j) /\
  entry reloc_mem (T g3h) j = (if j =? 510 then redirect (g2h * PAGE_SIZE) (entry (words (smem s)) (T f3h) 510)
    else entry (words (smem s)) (T f3h) j) /\
  entry reloc_mem (T g2l) j = entry (words (smem s)) (T f2l) j /\
  entry reloc_mem (T g2h) j = entry (words (smem s)) (T f2h) j.
Proof.
  intros Hj. distinct Hnd. unfold reloc_mem. cbv zeta.
  rewrite !set_entry_at, !copy_table_at by (congruence || lia).
  repeat match goal with Hx : ?a <> ?b |- _ =>
    let H1 := fresh in let H2 := fresh in
    pose proof (proj2 (Z.eqb_neq a b) Hx) as H1; pose proof (proj2 (Z.eqb_neq b a) (not_eq_sym Hx)) as H2;
    rewrite ?H1, ?H2; clear Hx end.
  rewrite !Z.eqb_refl. cbn [andb]. repeat match goal with |- _ /\ _ => split end; reflexivity.
Qed.

Lemma copy_boot_tables_eq :
  copy_boot_tables (T f4) (g4 * PAGE_SIZE) (g3l * PAGE_SIZE) (g2l * PAGE_SIZE) (g3h * PAGE_SIZE) (g2h * PAGE_SIZE)
    (words (smem s)) = reloc_mem.
Proof.
  pose proof Hg as Hr. rewrite !list.Forall_cons in Hr. destruct Hr as (R4 & R3l & R2l & R3h & R2h & _).
  pose proof Hboot as [_ Hu _ _ BL3 (BL2 & _ & _) BH3 (BH2 & _ & _) _]. distinct Hnd.
  assert (0 < f3l /\ 0 < f3h) as [P1 P2].
  { split; apply Hu; rewrite !elem_of_cons; auto 8. }
  pose proof (TABLE_OF_nonzero _ _ P1 BL3) as Z1. pose proof (TABLE_OF_nonzero _ _ P2 BH3) as Z2.
  unfold copy_boot_tables. rewrite (TABLE_OF_frame g4), (TABLE_OF_frame g3l), (TABLE_OF_frame g2l),
    (TABLE_OF_frame g3h), (TABLE_OF_frame g2h) by (clear - R4 R3l R2l R3h R2h; lia). cbv zeta. unfold reloc_mem. cbv zeta.
  assert (forall a b, a <> b -> (a =? b) = false) as Nq by (intros a b; apply Z.eqb_neq).
  set (m0 := words (smem s)) in *. set (m1 := copy_table (T g4) (T f4) m0).
  assert (entry m1 (T f4) 0 = entry m0 (T f4) 0) as K1
    by (unfold m1; rewrite copy_table_at, Nq by (congruence || lia); reflexivity).
  rewrite K1, BL3. set (m2 := copy_table (T g3l) (T f3l) m1).
  assert (entry m2 (T f4) 0 = entry m0 (T f4) 0) as K2
    by (unfold m2; rewrite copy_table_at, Nq by (congruence || lia); exact K1).
  assert (entry m2 (T f3l) 0 = entry m0 (T f3l) 0) as K3
    by (unfold m2, m1; rewrite !copy_table_at, !Nq by (congruence || lia); reflexivity).
  rewrite K2, Z1, BL3. cbn [negb]. rewrite K3, BL2. set (m3 := copy_table (T g2l) (T f2l) m2).
  assert (entry m3 (T f4) 511 = entry m0 (T f4) 511) as K4
    by (unfold m3, m2, m1; rewrite !copy_table_at, !Nq by (congruence || lia); reflexivity).
  rewrite K4, BH3. set (m4 := copy_table (T g3h) (T f3h) m3).
  assert (entry m4 (T f4) 511 = entry m0 (T f4) 511) as K5
    by (unfold m4; rewrite copy_table_at, Nq by (congruence || lia); exact K4).
  assert (entry m4 (T f3h) 510 = entry m0 (T f3h) 510) as K6
    by (unfold m4, m3, m2, m1; rewrite !copy_table_at, !Nq by (congruence || lia); reflexivity).
  rewrite K5, Z2, BH3. cbn [negb]. rewrite K6, BH2. set (m5 := copy_table (T g2h) (T f2h) m4).
  assert (forall j, 0 <= j < 512 -> entry m5 (T g4) j = entry m0 (T f4) j /\
    entry m5 (T g3l) j = entry m0 (T f3l) j /\ entry m5 (T g3h) j = entry m0 (T f3h) j) as K7.
  { intros j Hj. unfold m5, m4, m3, m2, m1. rewrite !copy_table_at, !Z.eqb_refl by (congruence || lia).
    rewrite !Nq by congruence. auto. }
  destruct (K7 0 ltac:(lia)) as (Ka & Kb & _), (K7 511 ltac:(lia)) as (Kc & _), (K7 510 ltac:(lia)) as (_ & _ & Kd).
  clearbody m5. rewrite Ka. set (m6 := set_entry (T g4) 0 _ m5).
  assert (entry m6 (T g4) 511 = entry m0 (T f4) 511) as -> by (unfold m6; rewrite set_entry_at, Z.eqb_refl by lia; exact Kc).
  set (m7 := set_entry (T g4) 511 _ m6).
  assert (entry m7 (T g3l) 0 = entry m0 (T f3l) 0) as ->
    by (unfold m7, m6; rewrite !set_entry_at, (Nq g3l g4) by (congruence || lia); exact Kb).
  set (m8 := set_entry (T g3l) 0 _ m7).
  assert (entry m8 (T g3h) 510 = entry m0 (T f3h) 510) as ->
    by (unfold m8, m7, m6; rewrite !set_entry_at, (Nq g3h g3l), (Nq g3h g4) by (congruence || lia); exact Kd).
  reflexivity.
Qed.

(** The new tables form a boot map again. *)
Lemma reloc_boot q kb sg ef c4 r :
  pmm_inv q -> (forall g, g ∈ [g4; g3l; g2l; g3h; g2h] -> is_free q g = false) ->
  boot_map (mk_sec (mk_vmem reloc_mem q) (g4 * PAGE_SIZE) kb sg ef c4 r) g4 g3l g2l g3h g2h.
Proof.
  intros Hq Hu. pose proof Hg as Hr. rewrite !list.Forall_cons in Hr. destruct Hr as (R4 & R3l & R2l & R3h & R2h & _).
  destruct Hboot as [_ _ _ _ _ (_ & LP & LS) _ (_ & HP & HS) Hleaf].
  destruct (reloc_new 0 ltac:(lia)) as (N40 & N3l & _ & _ & _).
  destruct (reloc_new 511 ltac:(lia)) as (N4h & _ & _ & _ & _).
  destruct (reloc_new 510 ltac:(lia)) as (_ & _ & N3h & _ & _).
  constructor; cbn [smem frames words scr3].
  - exact Hq.
  - intros g Hin. split; [|apply Hu, Hin]. rewrite list.Forall_forall in Hg. apply Hg, Hin.
  - change [f4; f3l; f2l; f3h; f2h; g4; g3l; g2l; g3h; g2h] with ([f4; f3l; f2l; f3h; f2h] ++ [g4; g3l; g2l; g3h; g2h]) in Hnd.
    apply list.NoDup_app in Hnd as (_ & _ & Hn). exact Hn.
  - apply TABLE_OF_frame. lia.
  - rewrite N40. apply redirect_spec, R3l.
  - cbv zeta. rewrite N3l. destruct (redirect_spec g2l (entry (words (smem s)) (T f3l) 0) R2l) as [E1 E2].
    split; [exact E1|]. change VMM_PAGE_PRESENT with (2 ^ 0). change PS with (2 ^ 7). rewrite !E2 by lia. split; assumption.
  - rewrite N4h. apply redirect_spec, R3h.
  - cbv zeta. rewrite N3h. destruct (redirect_spec g2h (entry (words (smem s)) (T f3h) 510) R2h) as [E1 E2].
    split; [exact E1|]. change VMM_PAGE_PRESENT with (2 ^ 0). change PS with (2 ^ 7). rewrite !E2 by lia. split; assumption.
  - intros f i Hf Hi. destruct (reloc_new i Hi) as (_ & _ & _ & N2l & N2h).
    destruct Hf as [->| ->]; [rewrite N2l; apply (Hleaf f2l); auto|rewrite N2h; apply (Hleaf f2h); auto].
Qed.
End reloc.

(** Two boot maps with equal page directories translate alike. *)
Lemma boot_leaf s f4 f3l f2l f3h f2h x :
  boot_map s f4 f3l f2l f3h f2h -> 0 <= x < 0x40000000 ->
  let leaf e := if has e VMM_PAGE_PRESENT then e else 0 in
  sec_leaf_flags s x = leaf (entry (words (smem s)) (T f2l) (x / 2097152)) /\
  sec_leaf_flags s (u64 (VMM_VIRT_BASE + x)) = leaf (entry (words (smem s)) (T f2h) (x / 2097152)).
Proof.
  intros [_ _ _ B4 BL3 (BL2 & BLp & BLs) BH3 (BH2 & BHp & BHs) Hleaf] Hx leaf.
  assert (0 <= x / 2097152 < 512) as Hi by zlia.
  assert (forall f i, f = f2l \/ f = f2h ->
    leaf_of (words (smem s)) (entry (words (smem s)) (T f) (x / 2097152)) i = leaf (entry (words (smem s)) (T f) (x / 2097152))) as Hl.
  { intros f i Hf. unfold leaf_of, leaf. pose proof (Hleaf f (x / 2097152) Hf Hi) as Hp.
    set (e := entry (words (smem s)) (T f) (x / 2097152)) in *.
    destruct (has e VMM_PAGE_PRESENT); [|reflexivity]. rewrite (Hp eq_refl). reflexivity. }
  destruct (lo_indices x Hx) as (I4 & I3 & I2 & I1). destruct (hi_indices x Hx) as (J4 & J3 & J2 & J1). split.
  - rewrite (leaf_walk_to s x f4 f3l f2l), I2; [apply Hl; auto|..]; rewrite ?I4, ?I3; assumption.
  - rewrite (leaf_walk_to s _ f4 f3h f2h), J2; [apply Hl; auto|..]; rewrite ?J4, ?J3; assumption.
Qed.

(** The outcome of [relocate_page_tables]. *)
Definition reloc_post s f4 f3l f2l f3h f2h rc s' : Prop :=
  kaslr_base s' = kaslr_base s /\ ram s' = ram s /\
  ((rc = -1 /\ words (smem s') = words (smem s) /\ scr3 s' = scr3 s /\ pmm_ok (frames (smem s')) /\
    total_frames (frames (smem s')) = total_frames (frames (smem s)) /\
    forall g, 0 <= g < PMM_MAX_FRAMES -> is_free (frames (smem s')) g = is_free (frames (smem s)) g) \/
   (rc = 0 /\ exists g4 g3l g2l g3h g2h, boot_map s' g4 g3l g2l g3h g2h /\
      (forall g, g ∈ [g4; g3l; g2l; g3h; g2h] -> is_free (frames (smem s)) g = true) /\
      (forall g, 0 <= g < PMM_MAX_FRAMES -> is_free (frames (smem s)) g = false -> is_free (frames (smem s')) g = false) /\
      (forall f j, f ∈ [f4; f3l; f2l; f3h; f2h] -> 0 <= j < 512 ->
         entry (words (smem s')) (T f) j = entry (words (smem s)) (T f) j) /\
      (forall x, 0 <= x < 0x40000000 -> sec_leaf_flags s' x = sec_leaf_flags s x /\
         sec_leaf_flags s' (u64 (VMM_VIRT_BASE + x)) = sec_leaf_flags s (u64 (VMM_VIRT_BASE + x))))).

Lemma relocate_spec s f4 f3l f2l f3h f2h rc s' :
  boot_map s f4 f3l f2l f3h f2h -> relocate_page_tables s = (rc, s') -> reloc_post s f4 f3l f2l f3h f2h rc s'.
Proof.
  intros Hb E. pose proof Hb as [Hp Hu Hd B4 BL3 (BL2 & _ & _) BH3 (BH2 & _ & _) _].
  unfold relocate_page_tables in E.
  destruct (tpmm_alloc_low (frames (smem s))) as [a1 q1] eqn:E1. destruct (tpmm_alloc_low q1) as [a2 q2] eqn:E2.
  destruct (tpmm_alloc_low q2) as [a3 q3] eqn:E3. destruct (tpmm_alloc_low q3) as [a4 q4] eqn:E4.
  destruct (tpmm_alloc_low q4) as [a5 q5] eqn:E5.
  destruct (_ || _) eqn:Ef in E.
  { injection E as <- <-. split; [reflexivity|]. split; [reflexivity|]. left. cbn [smem with_smem words frames scr3].
    destruct (five_undone _ _ _ _ _ _ _ _ _ _ _ Hp E1 E2 E3 E4 E5) as (U1 & U2 & U3). auto 8. }
  apply orb_false_iff in Ef as [Ef N5]. apply orb_false_iff in Ef as [Ef N4].
  apply orb_false_iff in Ef as [Ef N3]. apply orb_false_iff in Ef as [N1 N2].
  apply Z.eqb_neq in N1, N2, N3, N4, N5.
  destruct (five_state _ _ _ _ _ _ _ _ _ _ _ Hp E1 E2 E3 E4 E5) as (I5 & T5 & F5 & HA).
  rewrite !list.Forall_cons in HA. destruct HA as (A1 & A2 & A3 & A4 & A5 & _).
  destruct (A1 N1) as (g4 & -> & G4 & _ & H4). destruct (A2 N2) as (g3l & -> & G3l & _ & H3l).
  destruct (A3 N3) as (g2l & -> & G2l & _ & H2l). destruct (A4 N4) as (g3h & -> & G3h & _ & H3h).
  destruct (A5 N5) as (g2h & -> & G2h & _ & H2h). clear A1 A2 A3 A4 A5.
  assert (Hg : Forall (fun g => 0 < g < 0x40000) [g4; g3l; g2l; g3h; g2h])
    by (rewrite !list.Forall_cons; repeat (split; [assumption|]); constructor).
  assert (Hfree : forall g, g ∈ [g4; g3l; g2l; g3h; g2h] -> is_free (frames (smem s)) g = true).
  { intros g Hin. rewrite !elem_of_cons, elem_of_nil in Hin. destruct Hin as [->|[->|[->|[->|[->|[]]]]]]; assumption. }
  assert (Hnd : NoDup [f4; f3l; f2l; f3h; f2h; g4; g3l; g2l; g3h; g2h]).
  { change [f4; f3l; f2l; f3h; f2h; g4; g3l; g2l; g3h; g2h] with ([f4; f3l; f2l; f3h; f2h] ++ [g4; g3l; g2l; g3h; g2h]).
    apply list.NoDup_app. split; [exact Hd|]. split.
    - intros x Hx Hx2. destruct (Hu x Hx) as [_ Hx3]. rewrite (Hfree x Hx2) in Hx3. discriminate.
    - apply (five_distinct _ _ _ _ _ _ _ _ _ _ _ Hp E1 E2 E3 E4 E5 g4 g3l g2l g3h g2h); auto. }
  rewrite B4, (copy_boot_tables_eq s f4 f3l f2l f3h f2h g4 g3l g2l g3h g2h Hb Hg Hnd) in E. injection E as <- <-.
  split; [reflexivity|]. split; [reflexivity|]. right. split; [reflexivity|].
  exists g4, g3l, g2l, g3h, g2h.
  assert (Hused : forall g, g ∈ [g4; g3l; g2l; g3h; g2h] -> is_free q5 g = false).
  { intros g Hin. rewrite list.Forall_forall in Hg. pose proof (Hg g Hin) as Hgr.
    rewrite F5 by (unfold PMM_MAX_FRAMES; lia). apply andb_false_intro2, negb_false_iff. clear - Hin Hgr N1 N2 N3 N4 N5.
    unfold taken. apply Z.eqb_neq in N1, N2, N3, N4, N5. rewrite N1, N2, N3, N4, N5. cbn [negb andb].
    unfold PAGE_SIZE. rewrite !Z.div_mul by lia.
    rewrite !elem_of_cons, elem_of_nil in Hin. destruct Hin as [->|[->|[->|[->|[->|[]]]]]];
      rewrite Z.eqb_refl, ?orb_true_r; reflexivity. }
  pose proof (reloc_boot s f4 f3l f2l f3h f2h g4 g3l g2l g3h g2h Hb Hg Hnd q5 (kaslr_base s) (stack_guard_set s)
    (efer s) (cr4 s) (ram s) I5 Hused) as Hb'.
  split; [exact Hb'|]. split; [exact Hfree|]. cbn [smem frames words].
  split; [intros g Hgr Hn; rewrite F5, Hn by exact Hgr; reflexivity|].
  split; [intros f j Hin Hj; apply reloc_old; assumption|].
  intros x Hx. destruct (boot_leaf _ _ _ _ _ _ x Hb' Hx) as [L1 L2]. destruct (boot_leaf _ _ _ _ _ _ x Hb Hx) as [L3 L4].
  rewrite L1, L2, L3, L4. cbn [smem words].
  destruct (reloc_new s f4 f3l f2l f3h f2h g4 g3l g2l g3h g2h Hnd (x / 2097152) ltac:(zlia)) as (_ & _ & _ & -> & ->).
  split; reflexivity.
Qed.

(** * Choosing the slot *)

Lemma slots_eq : slots = 48.
Proof. reflexivity. Qed.

Lemma slot_base_range slot : 0 <= slot < slots ->
  KASLR_WIN_LO <= slot_base slot /\ slot_base slot + WINDOW_SIZE <= KASLR_WIN_HI /\ slot_base slot mod WINDOW_SIZE = 0.
Proof. rewrite slots_eq. unfold slot_base, KASLR_WIN_LO, KASLR_WIN_HI, WINDOW_SIZE. intros Hs. zlia. Qed.

(** What an accepted slot guarantees: it meets neither the boot module nor the
    image, and all its frames are free. *)
Definition slot_good (img : image) (mr : option (Z * Z)) (p : pmm) (base : Z) : Prop :=
  (forall ms me, mr = Some (ms, me) -> base + WINDOW_SIZE <= ms \/ me <= base) /\
  (base + WINDOW_SIZE <= i_phys_start img \/ i_phys_end img <= base) /\
  (forall f, base <= f * PAGE_SIZE < base + WINDOW_SIZE -> is_free p f = true).

Lemma slot_fits_good img mr p slot :
  0 <= i_phys_start img <= i_phys_end img -> i_phys_end img < 2 ^ 40 -> 0 <= slot < slots ->
  slot_fits (i_phys_start img) (u64 (i_phys_end img - i_phys_start img)) mr p (slot_base slot) = true ->
  slot_good img mr p (slot_base slot).
Proof.
  intros Hi He Hs E. destruct (slot_base_range slot Hs) as (B1 & B2 & B3).
  unfold slot_fits in E. apply andb_prop in E as [E E3]. apply andb_prop in E as [E1 E2].
  change (2 ^ 40) with 1099511627776 in He. rewrite (u64_small (i_phys_end img - _)), (u64_small (_ + _)) in E2 by lia.
  split; [|split].
  - intros ms me ->. lia.
  - lia.
  - destruct (find_range _ _ _) eqn:En; [discriminate|]. intros f Hf.
    assert (slot_base slot = slot_base slot / PAGE_SIZE * PAGE_SIZE) as Ha by (unfold WINDOW_SIZE, PAGE_SIZE in *; zlia).
    pose proof (proj1 (find_range_None _ _ _) En (f - slot_base slot / PAGE_SIZE)) as Hn. cbv beta in Hn.
    replace (slot_base slot + (f - slot_base slot / PAGE_SIZE) * PAGE_SIZE) with (f * PAGE_SIZE) in Hn by lia.
    change (WINDOW_SIZE / PAGE_SIZE) with 512 in Hn.
    rewrite frame_used_free in Hn by (unfold KASLR_WIN_LO, KASLR_WIN_HI, WINDOW_SIZE, PAGE_SIZE, PMM_MAX_FRAMES in *; lia).
    apply negb_false_iff, Hn. unfold WINDOW_SIZE, PAGE_SIZE in *. lia.
Qed.

Lemma boot_map_frames s p f4 f3l f2l f3h f2h :
  boot_map s f4 f3l f2l f3h f2h -> pmm_inv p ->
  (forall g, 0 <= g < PMM_MAX_FRAMES -> is_free (frames (smem s)) g = false -> is_free p g = false) ->
  boot_map (with_smem (mk_vmem (words (smem s)) p) s) f4 f3l f2l f3h f2h.
Proof.
  intros [H1 H2 H3 H4 H5 H6 H7 H8 H9] Hp Hk. constructor; try assumption.
  intros f Hf. destruct (H2 f Hf) as [Hr Hu]. split; [exact Hr|]. apply Hk; [unfold PMM_MAX_FRAMES; lia|exact Hu].
Qed.

(** The outcome of [sec_kaslr_relocate]. *)
Definition kaslr_post (img : image) (mr : option (Z * Z)) (s : sec) (rc : Z) (s' : sec) : Prop :=
  let size := i_phys_end img - i_phys_start img in
  let p := frames (smem s) in
  (rc = 0 /\ kaslr_base s' = kaslr_base s /\ ram s' = ram s /\ words (smem s') = words (smem s) /\ scr3 s' = scr3 s /\
   forall g, 0 <= g < PMM_MAX_FRAMES -> is_free (frames (smem s')) g = is_free p g) \/
  (rc = 1 /\ exists slot, 0 <= slot < slots /\ kaslr_base s' = slot_base slot /\ slot_good img mr p (slot_base slot) /\
   (forall g, 0 <= g < PMM_MAX_FRAMES -> is_free p g = false \/ in_pages (slot_base slot) size g = true ->
      is_free (frames (smem s')) g = false) /\
   (forall k, 0 <= k < size ->
      rd (ram s') (VMM_VIRT_BASE + slot_base slot + k) = rd (ram s) (VMM_VIRT_BASE + i_phys_start img + k)) /\
   (forall x, 0 <= x < 0x40000000 -> sec_leaf_flags s' x = sec_leaf_flags s x /\
      sec_leaf_flags s' (u64 (VMM_VIRT_BASE + x)) = sec_leaf_flags s (u64 (VMM_VIRT_BASE + x)))).

Lemma kaslr_place img mr s slot f4 f3l f2l f3h f2h :
  boot_map s f4 f3l f2l f3h f2h -> 0 <= i_phys_start img <= i_phys_end img -> i_phys_end img <= 0x40000000 ->
  i_phys_end img - i_phys_start img <= WINDOW_SIZE -> 0 <= slot < slots ->
  slot_good img mr (frames (smem s)) (slot_base slot) ->
  let base := slot_base slot in
  let size := i_phys_end img - i_phys_start img in
  exists p1, tpmm_reserve_range base size (frames (smem s)) = Some p1 /\
    forall rc s1, relocate_page_tables (with_smem (mk_vmem (words (smem s)) p1) s) = (rc, s1) ->
      (rc = -1 /\ exists p2, tpmm_release_range base size (frames (smem s1)) = Some p2 /\
         kaslr_post img mr s 0 (with_smem (mk_vmem (words (smem s1)) p2) s1)) \/
      (rc = 0 /\ kaslr_post img mr s 1
         (mk_sec (smem s1) (scr3 s1) base (stack_guard_set s1) (efer s1) (cr4 s1)
            (tmemmove (VMM_PHYS_TO_VIRT base) (VMM_PHYS_TO_VIRT (i_phys_start img)) size (ram s1)))).
Proof.
  intros Hb Hi He Hsz Hs Hgood base size. destruct (slot_base_range slot Hs) as (B1 & B2 & B3). fold base in B1, B2, B3.
  pose proof (bm_pmm _ _ _ _ _ _ Hb) as [Hok H0].
  unfold KASLR_WIN_LO, KASLR_WIN_HI, WINDOW_SIZE in B1, B2, B3, Hsz.
  destruct (reserve_region_ok base size (frames (smem s)) Hok) as (p1 & E1 & Hok1 & T1 & F1); [lia..|].
  exists p1. split; [exact E1|]. intros rc s1 Er.
  assert (Hwin : forall g, in_pages base size g = true -> is_free (frames (smem s)) g = true).
  { intros g Hg. apply Hgood. fold base. unfold in_pages, PAGE_SIZE, WINDOW_SIZE in *. zlia. }
  assert (pmm_inv p1) as Hinv1.
  { split; [exact Hok1|]. apply zero_frame_used. rewrite F1 by (unfold PMM_MAX_FRAMES; lia).
    apply zero_frame_used in H0. rewrite H0. reflexivity. }
  assert (Hb1 : boot_map (with_smem (mk_vmem (words (smem s)) p1) s) f4 f3l f2l f3h f2h).
  { apply boot_map_frames; [exact Hb|exact Hinv1|]. intros g Hg Hn. rewrite F1, Hn by exact Hg. reflexivity. }
  destruct (relocate_spec _ _ _ _ _ _ _ _ Hb1 Er) as (K1 & K2 & [(-> & W & C & Hq & Tq & Fq)|(-> & g4 & g3l & g2l & g3h & g2h & Hb' & Hfr & Hk & _ & Hl)]);
    cbn [with_smem smem words frames kaslr_base ram scr3] in *.
  - left. split; [reflexivity|].
    destruct (release_range_ok base size (frames (smem s1)) Hq) as (p2 & E2 & _ & T2 & F2); [lia..|].
    exists p2. split; [exact E2|]. left. do 5 (split; [assumption || reflexivity|]).
    intros g Hg. cbn [with_smem smem frames]. rewrite F2, Fq, F1 by exact Hg.
    destruct (in_pages base size g) eqn:Ein; cbn [negb andb orb]; [|rewrite andb_true_r, orb_false_r; reflexivity].
    rewrite (Hwin g Ein). assert (total_frames (frames (smem s1)) = total_frames (frames (smem s))) as -> by congruence.
    pose proof (free_in_range _ g Hok Hg (Hwin g Ein)). replace (g <? _) with true by lia. reflexivity.
  - right. split; [reflexivity|]. right. split; [reflexivity|]. exists slot. split; [exact Hs|].
    split; [reflexivity|]. split; [exact Hgood|]. split; [|split; [|exact Hl]].
    + intros g Hg Hn. apply Hk; [exact Hg|]. rewrite F1 by exact Hg. fold base size in Hn.
      destruct Hn as [Hn|Hn]; rewrite Hn; [reflexivity|apply andb_false_r].
    + intros k Hk0. cbn [ram]. rewrite K2. unfold VMM_PHYS_TO_VIRT, VMM_VIRT_BASE.
      fold base size in Hk0. rewrite !u64_small by lia. rewrite tmemmove_spec by lia.
      replace (_ && _) with true by lia. f_equal. lia.
Qed.


(** * A concrete machine

    Tables in frames 1 to 5, free frames 6 to 15 and one free slot of 2 MiB at
    32 MiB; the image is two pages at 1 MiB, its text the first one. *)
Definition demo_frames : pmm :=
  for_range avail_frame 8192 8704 (for_range avail_frame 6 16 (mk_pmm (all_used gmap_empty) 0 0 0)).

Definition demo_words : gmap Z Z :=
  set_entry (T 1) 0 (2 * PAGE_SIZE + 3) (set_entry (T 2) 0 (3 * PAGE_SIZE + 3)
    (set_entry (T 1) 511 (4 * PAGE_SIZE + 3) (set_entry (T 4) 510 (5 * PAGE_SIZE + 3)
      (set_entry (T 3) 0 0x83 (set_entry (T 5) 0 0x83 (set_entry (T 5) 1 0x200083 gmap_empty)))))).

Definition demo_image : image :=
  mk_image 0x100000 0x102000 (VMM_VIRT_BASE + 0x100000) (VMM_VIRT_BASE + 0x102000)
    (VMM_VIRT_BASE + 0x101000) (VMM_VIRT_BASE + 0x101000) 0x9000 0.

Definition demo_sec : sec := mk_sec (mk_vmem demo_words demo_frames) 4096 0 0 0 0 (<[VMM_VIRT_BASE + 0x100000 := 7]> ∅).

Lemma demo_frames_inv : pmm_inv demo_frames.
Proof.
  split; [|vm_compute; reflexivity]. unfold demo_frames.
  apply avail_range_ok; [|unfold PMM_MAX_FRAMES; lia..]. apply avail_range_ok; [|unfold PMM_MAX_FRAMES; lia..].
  constructor; simpl; try lia; [unfold PMM_MAX_FRAMES; lia|reflexivity|].
  intros f Hf. apply all_used_used. lia.
Qed.

Lemma demo_leaves f i : f = 3 \/ f = 5 -> 0 <= i < 512 ->
  has (entry demo_words (T f) i) VMM_PAGE_PRESENT = true -> has (entry demo_words (T f) i) PS = true.
Proof.
  intros Hf Hi. assert (forallb (fun i => implb (has (entry demo_words (T f) i) VMM_PAGE_PRESENT)
    (has (entry demo_words (T f) i) PS)) (seqZ 0 512) = true) as Hall.
  { destruct Hf as [-> | ->]; vm_compute; reflexivity. }
  rewrite forallb_forall in Hall. specialize (Hall i). intros Hp. rewrite Hp in Hall. apply Hall.
  apply list_elem_of_In, elem_of_seqZ. lia.
Qed.

Lemma demo_boot_map : boot_map demo_sec 1 2 3 4 5.
Proof.
  constructor.
  - exact demo_frames_inv.
  - intros f Hf. rewrite !elem_of_cons, elem_of_nil in Hf.
    destruct Hf as [->|[->|[->|[->|[->|[]]]]]]; (split; [lia|vm_compute; reflexivity]).
  - apply (bool_decide_unpack (NoDup [1; 2; 3; 4; 5])). vm_compute. exact I.
  - vm_compute. reflexivity.
  - vm_compute. reflexivity.
  - cbv zeta. split; [vm_compute; reflexivity|]. split; vm_compute; reflexivity.
  - vm_compute. reflexivity.
  - cbv zeta. split; [vm_compute; reflexivity|]. split; vm_compute; reflexivity.
  - exact demo_leaves.
Qed.

Definition demo_alloc1 : pmm := (tpmm_alloc_low demo_frames).2.

Lemma demo_alloc1_eq : tpmm_alloc_low (frames (smem demo_sec)) = (6 * PAGE_SIZE, demo_alloc1).
Proof.
  unfold demo_alloc1. change (frames (smem demo_sec)) with demo_frames.
  destruct (tpmm_alloc_low demo_frames) as [a q] eqn:E. cbn [snd]. f_equal. change a with (a, q).1. rewrite <- E.
  vm_compute. reflexivity.
Qed.

Lemma demo_alloc2_eq : tpmm_alloc_low demo_alloc1 = (7 * PAGE_SIZE, (tpmm_alloc_low demo_alloc1).2).
Proof.
  destruct (tpmm_alloc_low demo_alloc1) as [a q] eqn:E. cbn [snd]. f_equal. change a with (a, q).1. rewrite <- E.
  vm_compute. reflexivity.
Qed.

Lemma demo_guard : guard_addr demo_image = 32768.
Proof. vm_compute. reflexivity. Qed.

Lemma demo_kaslr_base : kaslr_base demo_sec = 0.
Proof. reflexivity. Qed.

Lemma sec_harden_correct_witness : sec_wx_enforced (sec_harden demo_image demo_sec) = 1.
Proof.
  pose proof (sec_harden_correct demo_image demo_sec 1 2 3 4 5 (6 * PAGE_SIZE) demo_alloc1 (7 * PAGE_SIZE)
    (tpmm_alloc_low demo_alloc1).2 demo_boot_map demo_alloc1_eq) as Hw.
  rewrite demo_guard, demo_kaslr_base in Hw.
  destruct (Hw ltac:(discriminate) demo_alloc2_eq ltac:(discriminate) ltac:(reflexivity) ltac:(unfold WINDOW_SIZE; lia)
    ltac:(lia) ltac:(reflexivity)) as [Hx _].
  exact Hx.
Defined.

(** An empty Multiboot2 structure: 8 bytes at address 0. *)
Definition demo_no_tags : Z -> Z := fun a => if a =? 0 then 8 else 0.


Lemma sec_scrub_correct_witness :
  exists n s', sec_scrub_ram demo_sec = (n, s') /\ smem s' = smem demo_sec.
Proof.
  destruct (sec_scrub_ram demo_sec) as [n s'] eqn:E. exists n, s'. split; [reflexivity|].
  destruct (sec_scrub_correct demo_sec n s' (proj1 (bm_pmm _ _ _ _ _ _ demo_boot_map)) E) as (_ & Hm & _). exact Hm.
Defined.

Lemma window_pte_wx_witness :
  has (window_pte (img_bounds demo_image) 0x2000000 0x100000) TSEC_PAGE_NX = false.
Proof.
  destruct (window_pte_wx (img_bounds demo_image) 0x2000000 0x100000 ltac:(unfold WINDOW_SIZE; lia) eq_refl ltac:(lia) eq_refl)
    as (_ & Hx & _). rewrite Hx. vm_compute. reflexivity.
Defined.
