(* ===== verification/Keyboard.v ===== *)
(** The keyboard driver ([src/keyboard.c]).

    The driver is a state machine fed one scan code per interrupt
    ([keyboard_callback]; the byte read from port 0x60 is its argument) that
    stores key codes in a ring of 256 [char]s, and a reader
    ([keyboard_getchar]) that runs with interrupts enabled.  The file proves
    that the driver refines an abstract decoder with a queue of 255 keys under
    every interleaving of interrupts with the reader's three steps, and that
    typing a text on the modelled US layout and reading it back gives the text.

    [keyboard_init], which programs the controller and registers the handler,
    is in Startup. *)
From stdpp Require Import prelude list numbers.
From Stdlib Require Import ZArith Lia ZifyBool.
From S2P Require Import Prelude Fifo.
#[local] Open Scope Z_scope.

(** * The driver *)

Definition KEY_BUFFER_SIZE : Z := 256.

Definition KEY_NONE : Z := -1.
Definition KEY_UP : Z := -2.
Definition KEY_DOWN : Z := -3.
Definition KEY_LEFT : Z := -4.
Definition KEY_RIGHT : Z := -5.
Definition KEY_HOME : Z := -6.
Definition KEY_END : Z := -7.
Definition KEY_DEL : Z := -8.
Definition KEY_INS : Z := -9.

Definition SCAN_LSHIFT : Z := 0x2A.
Definition SCAN_RSHIFT : Z := 0x36.
Definition SCAN_CAPS : Z := 0x3A.
Definition SCAN_E0_PREFIX : Z := 0xE0.
Definition SCAN_ARROW_UP : Z := 0x48.
Definition SCAN_ARROW_DOWN : Z := 0x50.
Definition SCAN_ARROW_LEFT : Z := 0x4B.
Definition SCAN_ARROW_RIGHT : Z := 0x4D.
Definition SCAN_HOME : Z := 0x47.
Definition SCAN_END : Z := 0x4F.
Definition SCAN_INS : Z := 0x52.
Definition SCAN_DEL : Z := 0x53.

(** Scan code set 1, US layout; the comments show the characters. *)
Definition scancode_lower : list Z :=
  [0; 0x1B; 49; 50; 51; 52; 53; 54; 55; 56; 57; 48; 45; 61;          (* 1234567890-= *)
   8; 9;
   113; 119; 101; 114; 116; 121; 117; 105; 111; 112; 91; 93; 10; 0;  (* qwertyuiop[] *)
   97; 115;
   100; 102; 103; 104; 106; 107; 108; 59; 39; 96; 0; 92; 122; 120;   (* asdfghjkl;'` *)
   99; 118;
   98; 110; 109; 44; 46; 47; 0; 42; 0; 32; 0; 0; 0; 0; 0; 0]         (* \zxcvbnm,./ *)
  ++ replicate 64 0.

Definition scancode_shifted : list Z :=
  [0; 0x1B; 33; 64; 35; 36; 37; 94; 38; 42; 40; 41; 95; 43;
   8; 9;
   81; 87; 69; 82; 84; 89; 85; 73; 79; 80; 123; 125; 10; 0;
   65; 83;
   68; 70; 71; 72; 74; 75; 76; 58; 34; 126; 0; 124; 90; 88;
   67; 86;
   66; 78; 77; 60; 62; 63; 0; 42; 0; 32; 0; 0; 0; 0; 0; 0]
  ++ replicate 64 0.

Record keyboard := mk_keyboard {
  key_buffer : list Z;
  key_head : Z;
  key_tail : Z;
  e0_pending : Z;
  shift_pressed : Z;
  caps_on : Z
}.

Definition with_e0 (v : Z) (k : keyboard) : keyboard :=
  mk_keyboard (key_buffer k) (key_head k) (key_tail k) v (shift_pressed k) (caps_on k).
Definition with_shift (v : Z) (k : keyboard) : keyboard :=
  mk_keyboard (key_buffer k) (key_head k) (key_tail k) (e0_pending k) v (caps_on k).
Definition with_caps (v : Z) (k : keyboard) : keyboard :=
  mk_keyboard (key_buffer k) (key_head k) (key_tail k) (e0_pending k) (shift_pressed k) v.

Definition key_buffer_push (c : Z) (k : keyboard) : keyboard :=
  let next := (key_tail k + 1) mod KEY_BUFFER_SIZE in
  if next =? key_head k then k
  else mk_keyboard (<[Z.to_nat (key_tail k) := c]> (key_buffer k)) (key_head k) next
         (e0_pending k) (shift_pressed k) (caps_on k).

(** The [switch] over extended make codes; [None] is its [default]. *)
Definition extended_key (scancode : Z) : option Z :=
  if scancode =? SCAN_ARROW_UP then Some KEY_UP
  else if scancode =? SCAN_ARROW_DOWN then Some KEY_DOWN
  else if scancode =? SCAN_ARROW_LEFT then Some KEY_LEFT
  else if scancode =? SCAN_ARROW_RIGHT then Some KEY_RIGHT
  else if scancode =? SCAN_HOME then Some KEY_HOME
  else if scancode =? SCAN_END then Some KEY_END
  else if scancode =? SCAN_INS then Some KEY_INS
  else if scancode =? SCAN_DEL then Some KEY_DEL
  else None.

Definition keyboard_callback (scancode : Z) (k : keyboard) : keyboard :=
  if scancode =? SCAN_E0_PREFIX then with_e0 1 k
  else if has scancode 0x80 then
    let key := Z.land scancode 0x7F in
    if negb (e0_pending k =? 0) then with_e0 0 k
    else if (key =? SCAN_LSHIFT) || (key =? SCAN_RSHIFT) then with_shift 0 k
    else k
  else if negb (e0_pending k =? 0) then
    match extended_key scancode with
    | Some c => key_buffer_push c (with_e0 0 k)
    | None => with_e0 0 k
    end
  else if (scancode =? SCAN_LSHIFT) || (scancode =? SCAN_RSHIFT) then with_shift 1 k
  else if scancode =? SCAN_CAPS then with_caps (if caps_on k =? 0 then 1 else 0) k
  else if scancode >=? 128 then k
  else
    let c := (if negb (shift_pressed k =? 0) then scancode_shifted else scancode_lower)
               !!! Z.to_nat scancode in
    let c := if (c >=? 97) && (c <=? 122) && negb (caps_on k =? 0) then c - 97 + 65 else c in
    if c =? 0 then k else key_buffer_push c k.

Definition keyboard_getchar (k : keyboard) : Z * keyboard :=
  if key_head k =? key_tail k then (KEY_NONE, k)
  else (ring_at (key_buffer k) (key_head k),
        mk_keyboard (key_buffer k) ((key_head k + 1) mod KEY_BUFFER_SIZE) (key_tail k)
          (e0_pending k) (shift_pressed k) (caps_on k)).

(** The initial values of the static variables. *)
Definition keyboard_start : keyboard := mk_keyboard (replicate 256 0) 0 0 0 0 0.

(** * Interrupts between the steps of the reader

    [keyboard_getchar] tests for an empty ring, loads the character and
    advances the head; the handler may run before each of them.  Only the
    reader writes the head and only the handler writes the tail. *)
Inductive reader := RIdle | RFound | RLoaded (c : Z).

Record kb_run := mk_run { run_kb : keyboard; run_pc : reader; run_out : list Z }.

Inductive kb_event := EIrq (scancode : Z) | EReader.

Definition kb_step (e : kb_event) (r : kb_run) : kb_run :=
  match e with
  | EIrq sc => mk_run (keyboard_callback sc (run_kb r)) (run_pc r) (run_out r)
  | EReader =>
      let k := run_kb r in
      match run_pc r with
      | RIdle => if key_head k =? key_tail k then mk_run k RIdle (run_out r ++ [KEY_NONE])
                 else mk_run k RFound (run_out r)
      | RFound => mk_run k (RLoaded (ring_at (key_buffer k) (key_head k))) (run_out r)
      | RLoaded c =>
          mk_run (mk_keyboard (key_buffer k) ((key_head k + 1) mod KEY_BUFFER_SIZE) (key_tail k)
                    (e0_pending k) (shift_pressed k) (caps_on k)) RIdle (run_out r ++ [c])
      end
  end.

Definition kb_exec (es : list kb_event) (r : kb_run) : kb_run := fold_left (fun r e => kb_step e r) es r.

(** * The abstract keyboard: a decoder and a queue of at most 255 keys *)

Record modes := mk_modes { m_ext : bool; m_shift : bool; m_caps : bool }.

Definition plain_key (m : modes) (sc : Z) : option Z :=
  let c := (if m_shift m then scancode_shifted else scancode_lower) !!! Z.to_nat sc in
  if c =? 0 then None
  else if m_caps m && (97 <=? c) && (c <=? 122) then Some (c - 32) else Some c.

(** One scan code: the new modes and the key it produces, if any. *)
Definition decode (m : modes) (sc : Z) : modes * option Z :=
  if sc =? SCAN_E0_PREFIX then (mk_modes true (m_shift m) (m_caps m), None)
  else if m_ext m then
    (mk_modes false (m_shift m) (m_caps m), if sc <? 128 then extended_key sc else None)
  else if 128 <=? sc then
    (mk_modes false (m_shift m && negb ((sc =? SCAN_LSHIFT + 128) || (sc =? SCAN_RSHIFT + 128))) (m_caps m), None)
  else if (sc =? SCAN_LSHIFT) || (sc =? SCAN_RSHIFT) then (mk_modes false true (m_caps m), None)
  else if sc =? SCAN_CAPS then (mk_modes false (m_shift m) (negb (m_caps m)), None)
  else (m, plain_key m sc).

Definition offer (c : option Z) (q : list Z) : list Z :=
  match c with
  | Some c => if (length q <? 255)%nat then q ++ [c] else q
  | None => q
  end.

(** Abstract transitions: a scan code, a read of the oldest key, a read that
    finds no key.  A state also records the scan codes seen and the results
    of the reads. *)
Record abs := mk_abs { a_modes : modes; a_queue : list Z; a_seen : list Z; a_out : list Z }.

Inductive abs_step : abs -> abs -> Prop :=
| abs_scan m q seen out sc :
    abs_step (mk_abs m q seen out)
      (mk_abs (decode m sc).1 (offer (decode m sc).2 q) (seen ++ [sc]) out)
| abs_read m c q seen out : abs_step (mk_abs m (c :: q) seen out) (mk_abs m q seen (out ++ [c]))
| abs_none m seen out : abs_step (mk_abs m [] seen out) (mk_abs m [] seen (out ++ [KEY_NONE])).

Definition modes0 : modes := mk_modes false false false.

(** The scan codes of a sequence of events. *)
Definition scans (es : list kb_event) : list Z :=
  omap (fun e => match e with EIrq sc => Some sc | EReader => None end) es.

(** How a typist produces a character: the key that carries it, pressed and
    released, with the left shift held when it is on the shifted layer. *)
Definition strokes (c : Z) : option (list Z) :=
  if (c <=? 0) || (c >=? 128) then None
  else match find_range (fun i => scancode_lower !!! Z.to_nat i =? c) 0 128 with
       | Some i => Some [i; i + 128]
       | None =>
           match find_range (fun i => scancode_shifted !!! Z.to_nat i =? c) 0 128 with
           | Some i => Some [SCAN_LSHIFT; i; i + 128; SCAN_LSHIFT + 128]
           | None => None
           end
       end.

(** [n] reads in a row. *)
Fixpoint read_keys (n : nat) (k : keyboard) : list Z * keyboard :=
  match n with
  | O => ([], k)
  | S n' => let '(c, k1) := keyboard_getchar k in
            let '(l, k2) := read_keys n' k1 in (c :: l, k2)
  end.

Definition modes_of (k : keyboard) : modes :=
  mk_modes (negb (e0_pending k =? 0)) (negb (shift_pressed k =? 0)) (negb (caps_on k =? 0)).

Definition kb_count (k : keyboard) : Z := (key_tail k - key_head k) mod KEY_BUFFER_SIZE.
Definition kb_list (k : keyboard) : list Z :=
  ring_list KEY_BUFFER_SIZE (key_buffer k) (key_head k) (kb_count k).

Definition kb_ok (k : keyboard) : Prop :=
  Z.of_nat (length (key_buffer k)) = KEY_BUFFER_SIZE
  /\ 0 <= key_head k < KEY_BUFFER_SIZE /\ 0 <= key_tail k < KEY_BUFFER_SIZE.

(** * Lemmas *)

(** A boolean property of bytes holds when it evaluates to [true] on each. *)
Lemma byte_cases (P : Z -> bool) :
  forallb P (seqZ 0 256) = true -> forall sc, 0 <= sc < 256 -> P sc = true.
Proof.
  intros H sc Hsc. rewrite forallb_forall in H. apply H.
  apply list_elem_of_In, elem_of_seqZ. lia.
Qed.

Lemma has_break sc : 0 <= sc < 256 -> has sc 0x80 = (128 <=? sc).
Proof.
  intros H. apply Bool.eqb_prop.
  exact (byte_cases (fun sc => Bool.eqb (has sc 0x80) (128 <=? sc)) eq_refl sc H).
Qed.

Lemma land_key sc : 128 <= sc < 256 -> Z.land sc 0x7F = sc - 128.
Proof. intros H. change 0x7F with (Z.ones 7). rewrite Z.land_ones by lia. change (2 ^ 7) with 128. zlia. Qed.

Lemma kb_list_length k : kb_ok k -> Z.of_nat (length (kb_list k)) = kb_count k /\ 0 <= kb_count k < 256.
Proof.
  intros _. assert (0 <= kb_count k < 256) by (apply Z.mod_pos_bound; reflexivity).
  split; [apply ring_list_length; lia|lia].
Qed.

Lemma push_spec c k : kb_ok k ->
  let k' := key_buffer_push c k in
  kb_ok k' /\ modes_of k' = modes_of k /\ kb_list k' = offer (Some c) (kb_list k).
Proof.
  intros Hok. pose proof (kb_list_length k Hok) as [Hl Hc]. destruct Hok as (Hb & Hh & Ht).
  unfold key_buffer_push, offer, kb_ok in *. unfold KEY_BUFFER_SIZE in *.
  destruct (Z.eqb_spec ((key_tail k + 1) mod 256) (key_head k)) as [E|E].
  - assert (kb_count k = 255) by (unfold kb_count, KEY_BUFFER_SIZE; zlia).
    destruct (Nat.ltb_spec (length (kb_list k)) 255); [lia|]. repeat split; auto; lia.
  - assert (kb_count k < 255) by (unfold kb_count, KEY_BUFFER_SIZE in *; zlia).
    destruct (Nat.ltb_spec (length (kb_list k)) 255); [|lia]. cbn. rewrite length_insert.
    pose proof (Z.mod_pos_bound (key_tail k + 1) 256).
    repeat split; [lia..|]. unfold kb_list, kb_count, KEY_BUFFER_SIZE in *. cbn.
    rewrite <- ring_list_push by lia. f_equal; [do 2 f_equal; zlia|zlia].
Qed.

(** The handler implements the abstract decoder. *)
Lemma callback_spec sc k : kb_ok k -> 0 <= sc < 256 ->
  let k' := keyboard_callback sc k in
  kb_ok k' /\ modes_of k' = (decode (modes_of k) sc).1
  /\ kb_list k' = offer (decode (modes_of k) sc).2 (kb_list k).
Proof.
  intros Hok Hsc. unfold keyboard_callback, decode. cbn [modes_of m_ext m_shift m_caps].
  rewrite has_break by exact Hsc.
  destruct (sc =? SCAN_E0_PREFIX) eqn:E0; [cbn; auto|].
  destruct (negb (e0_pending k =? 0)) eqn:Ee.
  { rewrite Z.leb_antisym. destruct (sc <? 128); cbn [negb]; [|cbn; auto].
    destruct (extended_key sc); [|cbn; auto]. apply (push_spec z (with_e0 0 k) Hok). }
  destruct (128 <=? sc) eqn:Hb.
  { rewrite land_key by lia. unfold SCAN_LSHIFT, SCAN_RSHIFT.
    replace (sc =? 0x2A + 128) with (sc - 128 =? 0x2A) by lia.
    replace (sc =? 0x36 + 128) with (sc - 128 =? 0x36) by lia.
    destruct ((sc - 128 =? 0x2A) || (sc - 128 =? 0x36)); cbn; unfold modes_of; cbn; rewrite ?Ee;
      rewrite ?andb_false_r, ?andb_true_r; auto. }
  destruct ((sc =? SCAN_LSHIFT) || (sc =? SCAN_RSHIFT)).
  { unfold modes_of. cbn. rewrite Ee. auto. }
  destruct (sc =? SCAN_CAPS).
  { unfold modes_of. cbn. rewrite Ee. destruct (caps_on k =? 0); auto. }
  replace (sc >=? 128) with false by lia. unfold plain_key. cbn [modes_of m_shift m_caps fst snd].
  generalize ((if negb (shift_pressed k =? 0) then scancode_shifted else scancode_lower) !!! Z.to_nat sc) as c.
  intros c.
  replace ((c >=? 97) && (c <=? 122) && negb (caps_on k =? 0))
    with (negb (caps_on k =? 0) && (97 <=? c) && (c <=? 122)) by lia.
  destruct (Z.eqb_spec c 0) as [Ec|Ec].
  { rewrite Ec. rewrite andb_false_r. cbn. auto. }
  destruct (negb (caps_on k =? 0) && (97 <=? c) && (c <=? 122)) eqn:Eu.
  - replace (c - 97 + 65 =? 0) with false by lia. replace (c - 97 + 65) with (c - 32) by lia.
    apply push_spec, Hok.
  - replace (c =? 0) with false by lia. apply push_spec, Hok.
Qed.

Lemma kb_empty k : kb_ok k -> (key_head k =? key_tail k) = true <-> kb_list k = [].
Proof.
  intros Hok. pose proof (kb_list_length k Hok) as [Hl Hc]. destruct Hok as (Hb & Hh & Ht).
  split.
  - intros E. apply Z.eqb_eq in E. assert (kb_count k = 0) by (unfold kb_count; rewrite E, Z.sub_diag; reflexivity).
    apply length_zero_iff_nil. lia.
  - intros E. rewrite E in Hl. cbn in Hl. unfold kb_count, KEY_BUFFER_SIZE in *. zlia.
Qed.

Lemma kb_head k c q : kb_ok k -> kb_list k = c :: q ->
  let k' := mk_keyboard (key_buffer k) ((key_head k + 1) mod KEY_BUFFER_SIZE) (key_tail k)
              (e0_pending k) (shift_pressed k) (caps_on k) in
  ring_at (key_buffer k) (key_head k) = c /\ kb_ok k' /\ kb_list k' = q.
Proof.
  intros Hok E. pose proof (kb_list_length k Hok) as [Hl Hc]. rewrite E in Hl. cbn in Hl.
  destruct Hok as (Hb & Hh & Ht). unfold kb_list in E.
  rewrite ring_list_pop in E by (unfold KEY_BUFFER_SIZE in *; lia). injection E as <- <-.
  split; [reflexivity|]. pose proof (Z.mod_pos_bound (key_head k + 1) KEY_BUFFER_SIZE eq_refl).
  split; [repeat split; cbn; lia|]. unfold kb_list, kb_count, KEY_BUFFER_SIZE in *. cbn.
  f_equal. zlia.
Qed.

(** The reader's run, in one piece, is [keyboard_getchar]. *)
Lemma getchar_spec k : kb_ok k ->
  let '(c, k') := keyboard_getchar k in
  kb_ok k' /\ modes_of k' = modes_of k /\ (kb_list k = [] /\ c = KEY_NONE /\ k' = k \/ kb_list k = c :: kb_list k').
Proof.
  intros Hok. unfold keyboard_getchar. pose proof (kb_empty k Hok) as He.
  destruct (key_head k =? key_tail k) eqn:E.
  { split; [exact Hok|]. split; [reflexivity|]. left. split; [|auto]. apply He. reflexivity. }
  destruct (kb_list k) as [|c q] eqn:El; [destruct He as [_ He]; discriminate He; reflexivity|].
  destruct (kb_head k c q Hok El) as (-> & Hok' & Hq).
  split; [exact Hok'|]. split; [reflexivity|]. right. f_equal. symmetry. exact Hq.
Qed.

(** The key buffer as a bounded queue: it holds one key less than its slots. *)
#[global] Instance kb_fifo : BoundedFifo keyboard Z := {
  bf_ok := kb_ok; bf_list := kb_list; bf_cap := 255%nat;
  bf_push c k := if (length (kb_list k) =? 255)%nat then None else Some (key_buffer_push c k);
  bf_pop k := if key_head k =? key_tail k then None else Some (keyboard_getchar k)
}.

#[global] Instance kb_fifo_laws : BoundedFifoLaws keyboard Z.
Proof.
  split; unfold bf_ok, bf_list, bf_cap, bf_push, bf_pop, kb_fifo.
  - intros k c Hok. pose proof (kb_list_length k Hok). pose proof (push_spec c k Hok) as (Hk & _ & Hl).
    destruct (Nat.eqb_spec (length (kb_list k)) 255); [assumption|]. unfold offer in Hl.
    destruct (Nat.ltb_spec (length (kb_list k)) 255); [auto|lia].
  - intros k Hok. pose proof (getchar_spec k Hok) as Hg. pose proof (kb_empty k Hok) as He.
    destruct (key_head k =? key_tail k) eqn:E; [apply He; reflexivity|].
    destruct (keyboard_getchar k) as [c k']. destruct Hg as (Hk & _ & [[El _]|El]); [|auto].
    apply He in El. discriminate.
Qed.

Lemma kb_start_ok : kb_ok keyboard_start /\ modes_of keyboard_start = modes0 /\ kb_list keyboard_start = [].
Proof. unfold kb_ok. vm_compute. intuition discriminate. Qed.

(** ** Refinement *)

(** What holds between two steps of the reader. *)
Definition reader_ok (r : kb_run) : Prop :=
  kb_ok (run_kb r) /\
  match run_pc r with
  | RIdle => True
  | RFound => kb_list (run_kb r) <> []
  | RLoaded c => exists q, kb_list (run_kb r) = c :: q
  end.

Lemma offer_keeps_head o c q : exists q', offer o (c :: q) = c :: q'.
Proof. destruct o; cbn; [case_match|]; eauto. Qed.

Definition view (seen : list Z) (r : kb_run) : abs :=
  mk_abs (modes_of (run_kb r)) (kb_list (run_kb r)) seen (run_out r).

Lemma step_refines seen e r :
  reader_ok r -> (forall sc, e = EIrq sc -> 0 <= sc < 256) ->
  reader_ok (kb_step e r) /\ star abs_step (view seen r) (view (seen ++ scans [e]) (kb_step e r)).
Proof.
  destruct r as [k pc out], e as [sc|]; intros [Hok Hpc] Hsc; cbn -[keyboard_callback] in *.
  - destruct (callback_spec sc k Hok (Hsc _ eq_refl)) as (Hok' & Hm & Hl). unfold reader_ok, view. cbn -[keyboard_callback].
    rewrite Hm, Hl. split; [|apply star_one, abs_scan]. split; [exact Hok'|].
    destruct pc; [exact I| |].
    + destruct (kb_list k) as [|c q]; [contradiction|].
      destruct (offer_keeps_head (decode (modes_of k) sc).2 c q) as [q' ->]. discriminate.
    + destruct Hpc as [q ->]. apply offer_keeps_head.
  - rewrite app_nil_r. unfold reader_ok, view. pose proof (kb_empty k Hok) as He. destruct pc; cbn.
    + destruct (key_head k =? key_tail k) eqn:E; cbn.
      * split; [auto|]. rewrite (proj1 He eq_refl). apply star_one, abs_none.
      * split; [|apply star_refl]. split; [exact Hok|]. intros El. apply He in El. discriminate.
    + destruct (kb_list k) as [|c q] eqn:El; [contradiction|].
      destruct (kb_head k c q Hok El) as (-> & _). split; [eauto|apply star_refl].
    + destruct Hpc as [q El]. destruct (kb_head k c q Hok El) as (_ & Hok' & Hq).
      split; [auto|]. unfold KEY_BUFFER_SIZE in *. rewrite Hq, El. apply star_one, abs_read.
Qed.

Lemma scans_cons e es : scans (e :: es) = scans [e] ++ scans es.
Proof. destruct e; reflexivity. Qed.

Lemma exec_refines es : forall seen r,
  reader_ok r -> Forall (fun sc => 0 <= sc < 256) (scans es) ->
  star abs_step (view seen r) (view (seen ++ scans es) (kb_exec es r)).
Proof.
  induction es as [|e es IH]; intros seen r Hr Hsc.
  { unfold scans. cbn. rewrite app_nil_r. apply star_refl. }
  rewrite scans_cons in Hsc |- *. apply list.Forall_app in Hsc as [He Hes].
  destruct (step_refines seen e r Hr) as [Hr' Hs].
  { intros sc ->. unfold scans in He. cbn in He. inversion He; assumption. }
  eapply star_trans; [exact Hs|]. rewrite app_assoc. apply IH; assumption.
Qed.

(** C33. The keyboard driver refines its abstract model: for every interleaving
    of keyboard interrupts with the three steps of [keyboard_getchar], the
    reads return what the abstract decoder with a queue of 255 keys returns
    for the same scan codes, in the same order: no key is lost, repeated or
    reordered unless 255 keys are pending, and a read reports [KEY_NONE] only
    when the queue is empty. *)
Theorem keyboard_refines_decoder es :
  Forall (fun sc => 0 <= sc < 256) (scans es) ->
  let r := kb_exec es (mk_run keyboard_start RIdle []) in
  star abs_step (mk_abs modes0 [] [] [])
    (mk_abs (modes_of (run_kb r)) (kb_list (run_kb r)) (scans es) (run_out r)).
Proof.
  intros Hsc. destruct kb_start_ok as (Hok & Hm & Hl).
  pose proof (exec_refines es [] (mk_run keyboard_start RIdle []) (conj Hok I) Hsc) as H.
  unfold view in H. cbn -[keyboard_start kb_exec kb_list modes_of] in H. rewrite Hm, Hl in H. exact H.
Qed.

(** ** Typing a text *)

Fixpoint decode_all (m : modes) (scs : list Z) : modes * list Z :=
  match scs with
  | [] => (m, [])
  | sc :: scs => let '(m', l) := decode_all (decode m sc).1 scs in
                 (m', option_list (decode m sc).2 ++ l)
  end.

Lemma decode_all_app a : forall m b,
  decode_all m (a ++ b) = let '(m1, l1) := decode_all m a in
                          let '(m2, l2) := decode_all m1 b in (m2, l1 ++ l2).
Proof.
  induction a as [|sc a IH]; intros m b; cbn; [destruct (decode_all m b); reflexivity|].
  rewrite IH. destruct (decode_all _ a) as [m1 l1]. destruct (decode_all m1 b) as [m2 l2].
  rewrite app_assoc. reflexivity.
Qed.

Lemma offer_room o q : (length q + length (option_list o) <= 255)%nat -> offer o q = q ++ option_list o.
Proof.
  destruct o as [c|]; unfold offer, option_list; intros H; [|rewrite app_nil_r; reflexivity].
  cbn in H. destruct (Nat.ltb_spec (length q) 255); [reflexivity|lia].
Qed.

Lemma callbacks_spec scs : forall k,
  kb_ok k -> Forall (fun sc => 0 <= sc < 256) scs ->
  (length (kb_list k) + length (decode_all (modes_of k) scs).2 <= 255)%nat ->
  let k' := fold_left (fun k sc => keyboard_callback sc k) scs k in
  kb_ok k' /\ modes_of k' = (decode_all (modes_of k) scs).1
  /\ kb_list k' = kb_list k ++ (decode_all (modes_of k) scs).2.
Proof.
  induction scs as [|sc scs IH]; intros k Hok Hsc Hlen; cbn -[keyboard_callback kb_list decode] in *.
  { rewrite app_nil_r. auto. }
  apply list.Forall_cons in Hsc as [Hsc Hscs].
  destruct (callback_spec sc k Hok Hsc) as (Hok' & Hm & Hl).
  destruct (decode_all (decode (modes_of k) sc).1 scs) as [m' l] eqn:E.
  cbn [snd fst] in *. specialize (IH (keyboard_callback sc k) Hok' Hscs). rewrite Hm, Hl, E in IH.
  cbn [snd fst] in IH. rewrite length_app in Hlen.
  rewrite offer_room, <- app_assoc in IH by lia. apply IH. rewrite length_app. lia.
Qed.

Lemma strokes_checked c : 0 <= c < 256 ->
  match strokes c with
  | Some l => forallb (fun sc => (0 <=? sc) && (sc <? 256)) l
              && bool_decide ((decode_all modes0 l).2 = [c])
              && negb (m_ext (decode_all modes0 l).1) && negb (m_shift (decode_all modes0 l).1)
              && negb (m_caps (decode_all modes0 l).1)
  | None => true
  end = true.
Proof. revert c. apply byte_cases. vm_compute. reflexivity. Qed.

Lemma strokes_decode c l : strokes c = Some l ->
  Forall (fun sc => 0 <= sc < 256) l /\ decode_all modes0 l = (modes0, [c]).
Proof.
  intros E. assert (0 <= c < 256) as Hc.
  { unfold strokes in E. destruct ((c <=? 0) || (c >=? 128)) eqn:Hr; [discriminate|]. lia. }
  pose proof (strokes_checked c Hc) as H. rewrite E in H.
  destruct (decode_all modes0 l) as [[e sh ca] ks]. cbn [fst snd m_ext m_shift m_caps] in H.
  destruct e, sh, ca; rewrite ?andb_false_r in H; try discriminate H.
  rewrite !andb_true_r in H. apply andb_true_iff in H as [Hf Hk].
  apply bool_decide_eq_true in Hk as ->. split; [|reflexivity].
  apply List.Forall_forall. intros x Hx. rewrite forallb_forall in Hf. specialize (Hf x Hx). lia.
Qed.

Lemma text_decode text : forall cs, mapM strokes text = Some cs ->
  Forall (fun sc => 0 <= sc < 256) (concat cs) /\ decode_all modes0 (concat cs) = (modes0, text).
Proof.
  induction text as [|c text IH]; intros cs E; cbn in E.
  { injection E as <-. split; [constructor|reflexivity]. }
  destruct (strokes c) as [l|] eqn:Ec; cbn in E; [|discriminate].
  destruct (mapM strokes text) as [ls|]; cbn in E; [|discriminate]. injection E as <-. cbn.
  destruct (strokes_decode c l Ec) as [Hl Hd]. destruct (IH ls eq_refl) as [Hls Hds].
  split; [apply list.Forall_app; auto|]. rewrite decode_all_app, Hd, Hds. reflexivity.
Qed.

Lemma read_keys_spec l : forall k, kb_ok k -> kb_list k = l ->
  exists k', read_keys (length l) k = (l, k') /\ kb_ok k' /\ kb_list k' = [].
Proof.
  induction l as [|c l IH]; intros k Hok El; cbn [read_keys length]; [eauto|].
  pose proof (getchar_spec k Hok) as Hg. destruct (keyboard_getchar k) as [c' k1].
  destruct Hg as (Hok1 & _ & [[E _]|E]); rewrite El in E; [discriminate|]. injection E as <- E.
  destruct (IH k1 Hok1 (eq_sym E)) as (k2 & -> & ? & ?). eauto.
Qed.

(** Typing and reading are inverse: for every text of at most 255
    characters of the US layout, the interrupts of a typist who presses and
    releases the key of each character, with the shift key around those of
    the shifted layer, leave exactly the text to be read, and the read after
    it finds no key. *)
Theorem keyboard_typing_roundtrip text cs :
  mapM strokes text = Some cs -> (length text <= 255)%nat ->
  let k := fold_left (fun k sc => keyboard_callback sc k) (concat cs) keyboard_start in
  exists k', read_keys (length text) k = (text, k') /\ (keyboard_getchar k').1 = KEY_NONE.
Proof.
  intros E Hlen. destruct (text_decode text cs E) as [Hsc Hd]. destruct kb_start_ok as (Hok & Hm & Hl).
  destruct (callbacks_spec (concat cs) keyboard_start Hok Hsc) as (Hok' & _ & Hl').
  { rewrite Hm, Hl, Hd. cbn [snd]. cbn. lia. }
  rewrite Hm, Hl, Hd in Hl'. cbn [snd app] in Hl'.
  destruct (read_keys_spec text _ Hok' Hl') as (k' & Hr & Hk' & He).
  exists k'. split; [exact Hr|]. pose proof (getchar_spec k' Hk') as Hg.
  destruct (keyboard_getchar k') as [c k'']. destruct Hg as (_ & _ & [(_ & -> & _)|E']); [reflexivity|].
  rewrite He in E'. discriminate.
Qed.

(** * Witnesses *)

(** Shift pressed, [a] pressed, a read interrupted by the arrow key. *)
Lemma keyboard_refines_decoder_witness :
  let es := [EReader; EIrq 0x2A; EIrq 0x1E; EReader; EIrq 0xE0; EReader; EIrq 0x48; EReader;
             EReader; EReader; EReader] in
  run_out (kb_exec es (mk_run keyboard_start RIdle [])) = [KEY_NONE; 65; KEY_UP]
  /\ exists q, star abs_step (mk_abs modes0 [] [] [])
                  (mk_abs (mk_modes false true false) q (scans es) [KEY_NONE; 65; KEY_UP]).
Proof.
  intros es. split; [vm_compute; reflexivity|]. eexists.
  exact (keyboard_refines_decoder es ltac:(repeat constructor; discriminate)).
Defined.

Lemma keyboard_typing_roundtrip_witness :
  exists k', read_keys 4 (fold_left (fun k sc => keyboard_callback sc k)
     [0x2A; 0x1E; 0x1E + 128; 0x2A + 128; 0x30; 0x30 + 128; 0x2A; 0x02; 0x02 + 128; 0x2A + 128; 0x1C; 0x1C + 128]
     keyboard_start) = ([65; 98; 33; 10], k') /\ (keyboard_getchar k').1 = KEY_NONE.
Proof.
  apply (keyboard_typing_roundtrip [65; 98; 33; 10]
    [[0x2A; 0x1E; 0x1E + 128; 0x2A + 128]; [0x30; 0x30 + 128]; [0x2A; 0x02; 0x02 + 128; 0x2A + 128]; [0x1C; 0x1C + 128]]);
    [vm_compute; reflexivity|cbn; lia].
Defined.
