(* ===== verification/Vga.v ===== *)
(** The text console ([src/vga.c]).

    The display memory is an array of 16-bit cells, kept as a finite map from
    cell indices so that a store outside the 80 x 25 screen would be visible
    as a change outside [0, 2000); the two cursor registers of the CRT
    controller are part of the state.  The file proves that the console shows
    a document: printing appends to an unbounded sequence of lines, of which
    the screen is the window of the last 25. *)
From stdpp Require Import prelude gmap list numbers.
From Stdlib Require Import ZArith Lia ZifyBool.
From S2P Require Import Prelude Tstring.
#[local] Open Scope Z_scope.

(** * The console *)

Definition VGA_WIDTH : Z := 80.
Definition VGA_HEIGHT : Z := 25.
Definition VGA_BLACK : Z := 0.
Definition VGA_LIGHT_GREY : Z := 7.

(** [crtc_hi] and [crtc_lo] are the controller's registers 14 and 15. *)
Record vga := mk_vga {
  VGA_MEM : gmap Z Z;
  terminal_row : Z;
  terminal_col : Z;
  terminal_color : Z;
  crtc_hi : Z;
  crtc_lo : Z
}.

Definition with_mem (m : gmap Z Z) (s : vga) : vga :=
  mk_vga m (terminal_row s) (terminal_col s) (terminal_color s) (crtc_hi s) (crtc_lo s).
Definition with_pos (row col : Z) (s : vga) : vga :=
  mk_vga (VGA_MEM s) row col (terminal_color s) (crtc_hi s) (crtc_lo s).

(** [(uint16_t)((terminal_color << 8) | c)] *)
Definition glyph (color c : Z) : Z := u16 (Z.lor (Z.shiftl color 8) (u8 c)).

Definition update_cursor (s : vga) : vga :=
  let pos := u16 (terminal_row s * VGA_WIDTH + terminal_col s) in
  mk_vga (VGA_MEM s) (terminal_row s) (terminal_col s) (terminal_color s)
    (u8 (Z.shiftr pos 8)) (u8 pos).

Definition vga_clear (s : vga) : vga :=
  let m := for_range (fun i m => <[i := glyph (terminal_color s) 32]> m) 0 (VGA_WIDTH * VGA_HEIGHT) (VGA_MEM s) in
  update_cursor (with_pos 0 0 (with_mem m s)).

Definition vga_set_color (fg bg : Z) (s : vga) : vga :=
  mk_vga (VGA_MEM s) (terminal_row s) (terminal_col s) (u8 (Z.lor (u8 fg) (Z.shiftl (u8 bg) 4)))
    (crtc_hi s) (crtc_lo s).

Definition vga_set_cursor (x y : Z) (s : vga) : vga :=
  let x := if x <? 0 then 0 else x in
  let y := if y <? 0 then 0 else y in
  let x := if x >=? VGA_WIDTH then VGA_WIDTH - 1 else x in
  let y := if y >=? VGA_HEIGHT then VGA_HEIGHT - 1 else y in
  update_cursor (with_pos y x s).

Definition vga_init (s : vga) : vga :=
  vga_set_cursor 0 0 (vga_set_color VGA_LIGHT_GREY VGA_BLACK (vga_clear s)).

(** The copy of one row to the row above it. *)
Definition move_row (r : Z) (m : gmap Z Z) : gmap Z Z :=
  for_range (fun c m => <[(r - 1) * VGA_WIDTH + c := rd m (r * VGA_WIDTH + c)]> m) 0 VGA_WIDTH m.

Definition vga_scroll (s : vga) : vga :=
  let m := for_range move_row 1 VGA_HEIGHT (VGA_MEM s) in
  with_mem (for_range (fun c m => <[(VGA_HEIGHT - 1) * VGA_WIDTH + c := glyph (terminal_color s) 32]> m)
              0 VGA_WIDTH m) s.

(** The [if] chain of [vga_putchar]: control characters and glyphs. *)
Definition place (c : Z) (s : vga) : vga :=
  if c =? 10 then with_pos (terminal_row s + 1) 0 s
  else if c =? 13 then with_pos (terminal_row s) 0 s
  else if c =? 9 then with_pos (terminal_row s) (Z.land (terminal_col s + 4) (-4)) s
  else if c =? 8 then
    let col := if terminal_col s >? 0 then terminal_col s - 1 else terminal_col s in
    with_pos (terminal_row s) col
      (with_mem (<[terminal_row s * VGA_WIDTH + col := glyph (terminal_color s) 32]> (VGA_MEM s)) s)
  else
    with_pos (terminal_row s) (terminal_col s + 1)
      (with_mem (<[terminal_row s * VGA_WIDTH + terminal_col s := glyph (terminal_color s) c]> (VGA_MEM s)) s).

(** The end of [vga_putchar]: wrap, scroll, and move the cursor. *)
Definition settle (s1 : vga) : vga :=
  let s2 := if terminal_col s1 >=? VGA_WIDTH then with_pos (terminal_row s1 + 1) 0 s1 else s1 in
  let s3 := if terminal_row s2 >=? VGA_HEIGHT
            then with_pos (VGA_HEIGHT - 1) (terminal_col (vga_scroll s2)) (vga_scroll s2) else s2 in
  update_cursor s3.

Definition vga_putchar (c : Z) (s : vga) : vga := settle (place c s).

Fixpoint vga_puts (m : bytes) (fuel : nat) (str : Z) (s : vga) : option vga :=
  if rd m str =? 0 then Some s
  else match fuel with O => None | S f => vga_puts m f (str + 1) (vga_putchar (rd m str) s) end.

(** [buf] is the address of the 16-byte local buffer. *)
Definition put_number (base buf val : Z) (m : bytes) (s : vga) : option vga :=
  match titoa val buf base m with
  | None => None
  | Some m' => vga_puts m' 16 buf s
  end.
Definition vga_put_hex (buf val : Z) (m : bytes) (s : vga) : option vga := put_number 16 buf val m s.
Definition vga_put_dec (buf val : Z) (m : bytes) (s : vga) : option vga := put_number 10 buf val m s.

Definition vga_get_col (s : vga) : Z := terminal_col s.
Definition vga_get_row (s : vga) : Z := terminal_row s.

(** The operations of the interface, for sequences of calls. *)
Inductive vga_op :=
| OpPutchar (c : Z) | OpClear | OpScroll | OpColor (fg bg : Z) | OpCursor (x y : Z) | OpInit.

Definition vga_do (s : vga) (o : vga_op) : vga :=
  match o with
  | OpPutchar c => vga_putchar c s
  | OpClear => vga_clear s
  | OpScroll => vga_scroll s
  | OpColor fg bg => vga_set_color fg bg s
  | OpCursor x y => vga_set_cursor x y s
  | OpInit => vga_init s
  end.

(** * The document

    Cells of an unbounded sequence of 80-column lines, and a position. *)
Record document := mk_doc { d_cell : Z -> Z -> Z; d_line : Z; d_col : Z }.

Definition d_write (l c v : Z) (d : document) : document :=
  mk_doc (fun l' c' => if (l' =? l) && (c' =? c) then v else d_cell d l' c') (d_line d) (d_col d).
Definition d_move (l c : Z) (d : document) : document :=
  if c <? VGA_WIDTH then mk_doc (d_cell d) l c else mk_doc (d_cell d) (l + 1) 0.

Definition d_put (color : Z) (d : document) (c : Z) : document :=
  if c =? 10 then d_move (d_line d + 1) 0 d
  else if c =? 13 then d_move (d_line d) 0 d
  else if c =? 9 then d_move (d_line d) (4 * (d_col d / 4 + 1)) d
  else if c =? 8 then
    let col := Z.max 0 (d_col d - 1) in
    d_move (d_line d) col (d_write (d_line d) col (glyph color 32) d)
  else d_move (d_line d) (d_col d + 1) (d_write (d_line d) (d_col d) (glyph color c) d).

Definition d_puts (color : Z) (d : document) (s : list Z) : document := fold_left (d_put color) s d.

(** What the screen shows at a row and a column. *)
Definition shown (s : vga) (r c : Z) : Z := rd (VGA_MEM s) (r * VGA_WIDTH + c).

(** The document on the screen now: below the screen it is blank. *)
Definition doc_of (s : vga) : document :=
  mk_doc (fun l c => if l <? VGA_HEIGHT then shown s l c else glyph (terminal_color s) 32)
    (terminal_row s) (terminal_col s).

(** The first line of the window that shows the last 25 lines. *)
Definition d_top (d : document) : Z := Z.max 0 (d_line d - (VGA_HEIGHT - 1)).

Definition vga_ok (s : vga) : Prop :=
  0 <= terminal_row s < VGA_HEIGHT /\ 0 <= terminal_col s < VGA_WIDTH
  /\ 256 * crtc_hi s + crtc_lo s = terminal_row s * VGA_WIDTH + terminal_col s.

(** * Lemmas *)

Lemma fill_spec base v n m x : 0 <= n ->
  rd (for_range (fun c m => <[base + c := v]> m) 0 n m) x
  = if (base <=? x) && (x <? base + n) then v else rd m x.
Proof.
  intros Hn. revert x. apply (for_range_ind (fun n m' => forall x,
    rd m' x = if (base <=? x) && (x <? base + n) then v else rd m x)); [exact Hn| |].
  - intros x. replace ((base <=? x) && (x <? base + 0)) with false by lia. reflexivity.
  - intros i m' Hi IH x. destruct (Z.eq_dec x (base + i)) as [->|Hx].
    + rewrite rd_insert_eq. replace (_ && _) with true by lia. reflexivity.
    + rewrite rd_insert_ne by lia. rewrite IH.
      replace (x <? base + (i + 1)) with (x <? base + i) by lia. reflexivity.
Qed.

Lemma move_row_spec r m x :
  rd (move_row r m) x = if ((r - 1) * 80 <=? x) && (x <? r * 80) then rd m (x + 80) else rd m x.
Proof.
  replace (r * 80) with ((r - 1) * 80 + 80) by lia. unfold move_row, VGA_WIDTH. revert x.
  apply (for_range_ind (fun c m' => forall x,
    rd m' x = if ((r - 1) * 80 <=? x) && (x <? (r - 1) * 80 + c) then rd m (x + 80) else rd m x)); [lia| |].
  - intros x. replace (_ && _) with false by lia. reflexivity.
  - intros i m' Hi IH x. destruct (Z.eq_dec x ((r - 1) * 80 + i)) as [->|Hx].
    + rewrite rd_insert_eq, IH. replace (_ && _) with false by lia. replace (_ && _) with true by lia.
      f_equal. lia.
    + rewrite rd_insert_ne by lia. rewrite IH.
      replace (x <? (r - 1) * 80 + (i + 1)) with (x <? (r - 1) * 80 + i) by lia. reflexivity.
Qed.

(** The in-place scroll: every row but the last shows the row below it. *)
Lemma scroll_spec s x :
  rd (VGA_MEM (vga_scroll s)) x =
  if (0 <=? x) && (x <? 1920) then rd (VGA_MEM s) (x + 80)
  else if (1920 <=? x) && (x <? 2000) then glyph (terminal_color s) 32 else rd (VGA_MEM s) x.
Proof.
  unfold vga_scroll, VGA_HEIGHT. cbn [VGA_MEM with_mem]. rewrite fill_spec by (unfold VGA_WIDTH; lia).
  change ((25 - 1) * VGA_WIDTH) with 1920. change (1920 + VGA_WIDTH) with 2000.
  assert (forall x, rd (for_range move_row 1 25 (VGA_MEM s)) x =
    if (0 <=? x) && (x <? (25 - 1) * 80) then rd (VGA_MEM s) (x + 80) else rd (VGA_MEM s) x) as Hm.
  { apply (for_range_ind (fun r m' => forall x,
      rd m' x = if (0 <=? x) && (x <? (r - 1) * 80) then rd (VGA_MEM s) (x + 80) else rd (VGA_MEM s) x)); [lia| |].
    - intros y. replace (_ && _) with false by lia. reflexivity.
    - intros r m' Hr IH y. rewrite move_row_spec, !IH.
      destruct (((r - 1) * 80 <=? y) && (y <? r * 80)) eqn:E.
      + replace (_ && _) with false by lia. replace (_ && _) with true by lia. reflexivity.
      + destruct ((0 <=? y) && (y <? (r - 1) * 80)) eqn:E2;
          destruct ((0 <=? y) && (y <? (r + 1 - 1) * 80)) eqn:E3; lia || reflexivity. }
  rewrite Hm. destruct ((1920 <=? x) && (x <? 2000)) eqn:E; [|reflexivity].
  replace (_ && _) with false by lia. reflexivity.
Qed.

Lemma tab_stop c : Z.land (c + 4) (-4) = 4 * (c / 4 + 1).
Proof.
  change (-4) with (Z.lnot (Z.ones 2)). rewrite <- Z.ldiff_land, Z.ldiff_ones_r by lia.
  rewrite Z.shiftl_mul_pow2, Z.shiftr_div_pow2 by lia. change (2 ^ 2) with 4. zlia.
Qed.

Lemma cursor_ok s : 0 <= terminal_row s < VGA_HEIGHT -> 0 <= terminal_col s < VGA_WIDTH ->
  vga_ok (update_cursor s).
Proof.
  intros Hr Hc. split; [exact Hr|]. split; [exact Hc|]. cbn. unfold VGA_HEIGHT, VGA_WIDTH in *.
  rewrite Z.shiftr_div_pow2 by lia. change (2 ^ 8) with 256. unfold u16, u8. zlia.
Qed.

(** ** The window on the document *)

Record window (m0 : gmap Z Z) (color top : Z) (s : vga) (d : document) : Prop := {
  win_color : terminal_color s = color;
  win_row : terminal_row s + top = d_line d;
  win_col : terminal_col s = d_col d;
  win_shown : forall r c, 0 <= r < 25 -> 0 <= c < 80 -> shown s r c = d_cell d (r + top) c;
  win_below : forall l c, top + 25 <= l -> 0 <= c < 80 -> d_cell d l c = glyph color 32;
  win_frame : forall x, x < 0 \/ 2000 <= x -> rd (VGA_MEM s) x = rd m0 x
}.

(** The window is at the top of the document until the last row is reached. *)
Definition anchored (top : Z) (s : vga) : Prop := 0 <= top /\ (top = 0 \/ terminal_row s >= 24).

Lemma window_move m0 color top s d row col line :
  window m0 color top s d -> row + top = line ->
  window m0 color top (with_pos row col s) (mk_doc (d_cell d) line col).
Proof. intros [] E. split; auto. Qed.

Lemma window_write m0 color top s d col v :
  window m0 color top s d -> 0 <= terminal_row s < 25 -> 0 <= col < 80 ->
  window m0 color top (with_mem (<[terminal_row s * VGA_WIDTH + col := v]> (VGA_MEM s)) s)
    (d_write (d_line d) col v d).
Proof.
  intros [Hk Hr Hc Hs Hb Hf] Hrow Hcol. split; auto; unfold shown, VGA_WIDTH in *; cbn.
  - intros r c Hr' Hc'. rewrite <- Hr.
    destruct ((r + top =? terminal_row s + top) && (c =? col)) eqn:E.
    + replace (r * 80 + c) with (terminal_row s * 80 + col) by lia. apply rd_insert_eq.
    + rewrite rd_insert_ne by lia. apply Hs; lia.
  - intros l c Hl Hc'. replace (_ && _) with false by lia. apply Hb; lia.
  - intros x Hx. rewrite rd_insert_ne by lia. apply Hf, Hx.
Qed.

Lemma window_scroll m0 color top s d :
  window m0 color top s d -> window m0 color (top + 1) (with_pos 24 (terminal_col s) (vga_scroll s))
                               (mk_doc (d_cell d) (top + 25) (d_col d)).
Proof.
  intros [Hk Hr Hc Hs Hb Hf]. split; auto; cbn [d_cell d_line d_col with_pos terminal_row]; [lia| | |].
  - intros r c Hr' Hc'. unfold shown, VGA_WIDTH in *. cbn [VGA_MEM with_pos]. rewrite scroll_spec, Hk.
    destruct (Z.eq_dec r 24) as [->|Hne].
    + replace (_ && _) with false by lia. replace (_ && _) with true by lia. symmetry. apply Hb; lia.
    + replace (_ && _) with true by lia. replace (r * 80 + c + 80) with ((r + 1) * 80 + c) by lia.
      rewrite Hs by lia. f_equal. lia.
  - intros l c Hl Hc'. apply Hb; lia.
  - intros x Hx. cbn [VGA_MEM with_pos]. rewrite scroll_spec. replace (_ && _) with false by lia.
    replace (_ && _) with false by lia. apply Hf, Hx.
Qed.

Lemma window_cursor m0 color top s d : window m0 color top s d -> window m0 color top (update_cursor s) d.
Proof. intros []. split; auto. Qed.

(** One line further: scroll only past the last row. *)
Lemma settle_row m0 color top s d :
  window m0 color top s d -> anchored top s -> 0 <= terminal_row s <= 25 -> 0 <= terminal_col s < 80 ->
  let s' := update_cursor (if terminal_row s >=? VGA_HEIGHT
              then with_pos (VGA_HEIGHT - 1) (terminal_col (vga_scroll s)) (vga_scroll s) else s) in
  exists top', window m0 color top' s' d /\ anchored top' s' /\ vga_ok s'.
Proof.
  intros W [Ht Ha] Hr Hc. unfold VGA_HEIGHT. destruct (Z.geb_spec (terminal_row s) 25) as [Hge|Hlt].
  - exists (top + 1). pose proof (window_scroll _ _ _ _ _ W) as W'.
    assert (d = mk_doc (d_cell d) (top + 25) (d_col d)) as ->.
    { destruct W as [_ Hw _ _ _ _]. destruct d. cbn in *. f_equal. lia. }
    split; [apply window_cursor, W'|]. split; [split; [lia|right; cbn; lia]|].
    apply cursor_ok; cbn; unfold VGA_HEIGHT, VGA_WIDTH; lia.
  - exists top. split; [apply window_cursor, W|]. split; [split; auto|].
    apply cursor_ok; unfold VGA_HEIGHT, VGA_WIDTH; lia.
Qed.

Lemma settle_window m0 color top s d row col line :
  window m0 color top s d -> anchored top (with_pos row col s) -> row + top = line ->
  0 <= row <= 25 -> 0 <= col <= 80 -> (row = 25 -> col < 80) ->
  exists top', window m0 color top' (settle (with_pos row col s)) (d_move line col d)
    /\ anchored top' (settle (with_pos row col s)) /\ vga_ok (settle (with_pos row col s)).
Proof.
  intros W Ha E Hr Hc Hrc. unfold settle, d_move, VGA_WIDTH. cbn [with_pos terminal_col terminal_row].
  destruct (Z.geb_spec col 80) as [Hge|Hlt].
  - replace (col <? 80) with false by lia.
    apply (settle_row m0 color top (with_pos (row + 1) 0 s)); [apply (window_move _ _ _ _ _ _ _ _ W); lia| |cbn; lia..].
    destruct Ha as [? [?|?]]; split; auto; cbn in *; lia.
  - replace (col <? 80) with true by lia.
    apply (settle_row m0 color top (with_pos row col s)); [apply (window_move _ _ _ _ _ _ _ _ W), E|exact Ha|cbn; lia..].
Qed.

Lemma putchar_window m0 color top s d c :
  window m0 color top s d -> anchored top s -> vga_ok s ->
  exists top', window m0 color top' (vga_putchar c s) (d_put color d c)
    /\ anchored top' (vga_putchar c s) /\ vga_ok (vga_putchar c s).
Proof.
  intros W [Ht Ha] (Hr & Hc & _). unfold VGA_HEIGHT, VGA_WIDTH in *. unfold vga_putchar, place, d_put.
  pose proof (win_color _ _ _ _ _ W) as Hk. pose proof (win_row _ _ _ _ _ W) as Hrow.
  pose proof (win_col _ _ _ _ _ W) as Hcol. rewrite Hk, <- Hcol.
  destruct (c =? 10).
  { apply (settle_window _ _ top); [exact W|split; [exact Ht|cbn; lia]|lia..]. }
  destruct (c =? 13).
  { apply (settle_window _ _ top); [exact W|split; [exact Ht|cbn; lia]|lia..]. }
  destruct (c =? 9).
  { rewrite tab_stop. apply (settle_window _ _ top); [exact W|split; [exact Ht|cbn; lia]|lia|lia| |lia]. zlia. }
  destruct (c =? 8).
  { replace (if terminal_col s >? 0 then terminal_col s - 1 else terminal_col s)
      with (Z.max 0 (terminal_col s - 1)) by (destruct (Z.gtb_spec (terminal_col s) 0); lia).
    apply (settle_window _ _ top); [apply window_write; [exact W|lia..]|split; [exact Ht|cbn; lia]|lia..]. }
  apply (settle_window _ _ top); [|split; [exact Ht|cbn; lia]|lia..].
  apply window_write; [exact W|lia..].
Qed.

(** A C string goes to the console character by character. *)
Definition put_all (t : list Z) (s : vga) : vga := fold_left (fun s c => vga_putchar c s) t s.

Lemma vga_puts_all m t : forall fuel p s, cstr m p t -> (length t <= fuel)%nat -> vga_puts m fuel p s = Some (put_all t s).
Proof.
  induction t as [|c t IH]; intros fuel p s Hp Hf.
  - destruct fuel; cbn [vga_puts]; rewrite Hp; reflexivity.
  - destruct fuel as [|fuel]; [simpl in Hf; lia|]. destruct Hp as (Hc & Hp0 & Hp).
    cbn [vga_puts]. rewrite Hp0. replace (c =? 0) with false by lia. apply IH; [exact Hp|simpl in Hf; lia].
Qed.

Lemma puts_window m0 color text : forall m fuel str top s d,
  window m0 color top s d -> anchored top s -> vga_ok s -> cstr m str text -> (length text <= fuel)%nat ->
  exists s' top', vga_puts m fuel str s = Some s' /\ window m0 color top' s' (d_puts color d text)
    /\ anchored top' s' /\ vga_ok s'.
Proof.
  induction text as [|c text IH]; intros m fuel str top s d W Ha Hok Hs Hf; cbn [cstr length] in *.
  { exists s, top. destruct fuel; cbn [vga_puts]; rewrite Hs; auto. }
  destruct Hs as (Hc & Hp & Hs). destruct fuel as [|fuel]; [lia|]. cbn [vga_puts]. rewrite Hp.
  replace (c =? 0) with false by lia.
  destruct (putchar_window m0 color top s d c W Ha Hok) as (top1 & W1 & Ha1 & Hok1).
  apply (IH m fuel (str + 1) top1 _ _ W1 Ha1 Hok1 Hs). lia.
Qed.

Lemma window_start s : window (VGA_MEM s) (terminal_color s) 0 s (doc_of s).
Proof.
  split; auto; unfold doc_of, VGA_HEIGHT; cbn.
  - lia.
  - intros r c Hr Hc. rewrite Z.add_0_r. replace (r <? 25) with true by lia. reflexivity.
  - intros l c Hl Hc. replace (l <? 25) with false by lia. reflexivity.
Qed.

Lemma anchored_top m0 color top s d : window m0 color top s d -> anchored top s -> vga_ok s -> top = d_top d.
Proof.
  intros W [Ht Ha] ((Hr & Hr') & _). pose proof (win_row _ _ _ _ _ W).
  unfold d_top, VGA_HEIGHT in *. lia.
Qed.

(** ** Operations one at a time *)

Lemma clear_spec s :
  vga_ok (vga_clear s) /\ (forall r c, 0 <= r < 25 -> 0 <= c < 80 -> shown (vga_clear s) r c = glyph (terminal_color s) 32)
  /\ (forall x, x < 0 \/ 2000 <= x -> rd (VGA_MEM (vga_clear s)) x = rd (VGA_MEM s) x).
Proof.
  assert (forall x, rd (VGA_MEM (vga_clear s)) x =
    if (0 <=? x) && (x <? 2000) then glyph (terminal_color s) 32 else rd (VGA_MEM s) x) as Hx.
  { intros x. unfold vga_clear, VGA_WIDTH, VGA_HEIGHT. cbn [VGA_MEM update_cursor with_pos with_mem].
    exact (fill_spec 0 (glyph (terminal_color s) 32) 2000 (VGA_MEM s) x ltac:(lia)). }
  split; [apply cursor_ok; cbn; unfold VGA_HEIGHT, VGA_WIDTH; lia|]. split.
  - intros r c Hr Hc. unfold shown, VGA_WIDTH. rewrite Hx. replace (_ && _) with true by lia. reflexivity.
  - intros x Ho. rewrite Hx. replace (_ && _) with false by lia. reflexivity.
Qed.

Lemma set_cursor_ok x y s : vga_ok (vga_set_cursor x y s).
Proof.
  unfold vga_set_cursor. apply cursor_ok; cbn; unfold VGA_HEIGHT, VGA_WIDTH;
    [destruct (Z.ltb_spec y 0)|destruct (Z.ltb_spec x 0)]; case_if; lia.
Qed.

Lemma init_frame s x : x < 0 \/ 2000 <= x -> rd (VGA_MEM (vga_init s)) x = rd (VGA_MEM s) x.
Proof.
  intros Hx. destruct (clear_spec s) as (_ & _ & H). specialize (H x Hx). unfold vga_init.
  generalize dependent (vga_clear s). intros t Ht. exact Ht.
Qed.

Lemma op_spec s o :
  vga_ok s -> vga_ok (vga_do s o) /\ forall x, x < 0 \/ 2000 <= x -> rd (VGA_MEM (vga_do s o)) x = rd (VGA_MEM s) x.
Proof.
  intros Hok. destruct o as [c| | |fg bg|x y|]; cbn [vga_do].
  - destruct (putchar_window _ _ 0 s _ c (window_start s) ltac:(split; [lia|auto]) Hok) as (top & W & _ & Hok').
    split; [exact Hok'|]. exact (win_frame _ _ _ _ _ W).
  - destruct (clear_spec s) as (H1 & _ & H2). exact (conj H1 H2).
  - split; [exact Hok|]. intros x Hx. rewrite scroll_spec. replace (_ && _) with false by lia.
    replace (_ && _) with false by lia. reflexivity.
  - exact (conj Hok (fun x _ => eq_refl)).
  - exact (conj (set_cursor_ok x y s) (fun x _ => eq_refl)).
  - exact (conj (set_cursor_ok 0 0 _) (init_frame s)).
Qed.

(** [vga_put_dec] and [vga_put_hex] print the number: the digits they append
    to the document denote it in base 10 or 16. *)
Lemma put_number_shows base buf val m s :
  base = 10 \/ base = 16 -> 0 <= val < 4294967296 -> vga_ok s ->
  exists digits s' top, put_number base buf val m s = Some s' /\ value base digits = val
    /\ vga_ok s' /\ window (VGA_MEM s) (terminal_color s) top s' (d_puts (terminal_color s) (doc_of s) digits).
Proof.
  intros Hb Hv Hok. destruct (titoa_spec val buf base m) as (m' & l & E & Hs & Hval & Hl & _).
  { lia. } { assert (10 ^ 16 <= base ^ 16) by (apply Z.pow_le_mono_l; lia). lia. }
  unfold put_number. rewrite E.
  destruct (puts_window _ _ l m' 16 buf 0 s _ (window_start s) ltac:(split; [lia|auto]) Hok Hs ltac:(lia))
    as (s' & top & Ep & W & _ & Hok').
  exists l, s', top. auto.
Qed.

(** ** Properties *)

(** The console stays on its screen: after [vga_init] and any sequence of
    calls of its interface, the cursor is inside the 80 x 25 screen, the
    controller's registers hold it, and no store has left the 2000 cells. *)
Theorem vga_stays_on_screen s ops :
  let s' := fold_left vga_do ops (vga_init s) in
  vga_ok s' /\ forall x, x < 0 \/ VGA_WIDTH * VGA_HEIGHT <= x -> rd (VGA_MEM s') x = rd (VGA_MEM s) x.
Proof.
  assert (vga_ok (vga_init s) /\ forall x, x < 0 \/ 2000 <= x -> rd (VGA_MEM (vga_init s)) x = rd (VGA_MEM s) x) as H.
  { exact (conj (set_cursor_ok 0 0 _) (init_frame s)). }
  cbv zeta. revert H. generalize (vga_init s) as t. induction ops as [|o ops IH]; intros t [Hok Hf]; [auto|].
  apply IH. destruct (op_spec t o Hok) as [Hok' Hf']. split; [exact Hok'|].
  intros x Hx. rewrite Hf', Hf by exact Hx. reflexivity.
Qed.

(** C34. [vga_puts] shows a document: from any screen, printing a C string is
    appending it to the document of unbounded length that starts with what is
    on the screen (newline, carriage return, tab stops of 4, backspace that
    erases, lines of 80 columns), and the screen is the window of its last 25
    lines.  The cursor, in the driver and in the controller's registers, is at
    the document's position, and no memory outside the 2000 cells changes. *)
Theorem vga_puts_document m fuel str text s :
  vga_ok s -> cstr m str text -> (length text <= fuel)%nat ->
  exists s', vga_puts m fuel str s = Some s' /\ vga_ok s'
    /\ let d := d_puts (terminal_color s) (doc_of s) text in
       terminal_row s' = d_line d - d_top d /\ terminal_col s' = d_col d
       /\ (forall r c, 0 <= r < VGA_HEIGHT -> 0 <= c < VGA_WIDTH -> shown s' r c = d_cell d (d_top d + r) c)
       /\ (forall x, x < 0 \/ VGA_WIDTH * VGA_HEIGHT <= x -> rd (VGA_MEM s') x = rd (VGA_MEM s) x).
Proof.
  intros Hok Hs Hf.
  destruct (puts_window _ _ text m fuel str 0 s _ (window_start s) ltac:(split; [lia|auto]) Hok Hs Hf)
    as (s' & top & E & W & Ha & Hok').
  exists s'. split; [exact E|]. split; [exact Hok'|]. cbv zeta.
  rewrite <- (anchored_top _ _ _ _ _ W Ha Hok'). destruct W as [_ Hr Hc Hsh _ Hfr].
  split; [lia|]. split; [exact Hc|]. split; [|exact Hfr].
  intros r c Hr' Hc'. rewrite Hsh by assumption. f_equal. lia.
Qed.

(** * Witnesses *)

Definition demo_screen : vga := vga_init (mk_vga ∅ 0 0 0 0 0).
Definition demo_string : bytes := store_bytes 100 [65; 10; 66; 0] ∅.

Lemma vga_puts_document_witness :
  exists s', vga_puts demo_string 3 100 demo_screen = Some s' /\ vga_ok s' /\
    terminal_row s' = 1 /\ terminal_col s' = 1 /\ shown s' 1 0 = glyph 7 66.
Proof.
  destruct (vga_puts_document demo_string 3 100 [65; 10; 66] demo_screen) as (s' & E & Hok & Hr & Hc & Hs & _).
  - unfold vga_ok. vm_compute. intuition discriminate.
  - vm_compute. intuition discriminate.
  - cbn. lia.
  - exists s'. split; [exact E|]. split; [exact Hok|]. split; [rewrite Hr; vm_compute; reflexivity|].
    split; [rewrite Hc; vm_compute; reflexivity|]. rewrite Hs by (unfold VGA_HEIGHT, VGA_WIDTH; lia).
    vm_compute. reflexivity.
Defined.
