(* ===== verification/Tfs.v ===== *)
(** The RAM file system ([src/tfs.c]).

    Nodes are records in a store indexed by their address, linked as in the
    code: first child, next sibling, parent.  Strings and paths are the lists
    of their bytes before the terminator.  The payload of a file is kept with
    the address of its block, which no other pointer shares.  The allocator is
    the interface [SmallHeap]; a null pointer is [0].  Walks take fuel, and
    [None] means that it ran out; the theorems show that it does not. *)
From stdpp Require Import prelude gmap sets list numbers.
From Stdlib Require Import ZArith Lia ZifyBool.
From S2P Require Import Prelude.
#[local] Open Scope Z_scope.

(** * The file system *)

Definition TFS_FILE : Z := 0.
Definition TFS_DIR : Z := 1.
Definition MAX_NAME : Z := 64.
Definition MAX_MOUNTS : Z := 8.
Definition SLASH : Z := 47.
Definition DOT : Z := 46.

Abbreviation string := (list Z).

Record tfs_node_t := mk_node {
  n_name : string;
  n_type : Z;
  n_size : Z;
  n_data : option (Z * list Z);
  n_gen : Z;
  n_parent : Z;
  n_children : Z;
  n_next : Z
}.

Abbreviation store := (gmap Z tfs_node_t).

Definition no_node : tfs_node_t := mk_node [] 0 0 None 0 0 0 0.
Definition node (N : store) (p : Z) : tfs_node_t := default no_node (N !! p).

Definition set_children (c : Z) (n : tfs_node_t) : tfs_node_t :=
  mk_node (n_name n) (n_type n) (n_size n) (n_data n) (n_gen n) (n_parent n) c (n_next n).
Definition set_next (c : Z) (n : tfs_node_t) : tfs_node_t :=
  mk_node (n_name n) (n_type n) (n_size n) (n_data n) (n_gen n) (n_parent n) (n_children n) c.
Definition set_data (d : option (Z * list Z)) (size : Z) (n : tfs_node_t) : tfs_node_t :=
  mk_node (n_name n) (n_type n) size d (n_gen n) (n_parent n) (n_children n) (n_next n).

Record tfs (H : Type) := mk_tfs {
  nodes : store;
  mounts : list (string * Z);
  fheap : H
}.
Arguments mk_tfs {H}. Arguments nodes {H}. Arguments mounts {H}. Arguments fheap {H}.

(** [static tfs_node_t root] at its address. *)
Definition root_node (root : Z) : tfs_node_t := mk_node [SLASH] TFS_DIR 0 None 0 root 0 0.

(** The loop of [find_child] along the sibling links. *)
Fixpoint find_sib (N : store) (fuel : nat) (c : Z) (name : string) : option Z :=
  if c =? 0 then Some 0
  else match fuel with
       | O => None
       | S f => if bool_decide (n_name (node N c) = name) then Some c
                else find_sib N f (n_next (node N c)) name
       end.

Definition find_child (N : store) (dir : Z) (name : string) : option Z :=
  find_sib N (size N) (n_children (node N dir)) name.

(** [while ( *p == '/') p++;] and [while ( *p && *p != '/') p++;] *)
Fixpoint skip_slashes (p : string) : string :=
  match p with
  | [] => []
  | c :: p' => if c =? SLASH then skip_slashes p' else p
  end.

Fixpoint span_seg (p : string) : string * string :=
  match p with
  | [] => ([], [])
  | c :: p' => if c =? SLASH then ([], p) else let '(seg, rest) := span_seg p' in (c :: seg, rest)
  end.

Section tfs.
Context {H : Type} `{SmallHeap H}.
Context (root : Z).
Implicit Types s : tfs H.

Definition with_nodes (N : store) s : tfs H := mk_tfs N (mounts s) (fheap s).

Definition tfs_init s : tfs H := mk_tfs (nodes s) [] (fheap s).

Definition tfs_mount (name : string) (n : Z) s : tfs H :=
  if (Z.of_nat (length (mounts s)) >=? MAX_MOUNTS) || (n =? 0) then s
  else mk_tfs (nodes s) (mounts s ++ [(take 32 name, n)]) (fheap s).

(** [tfs_mount_list] hands these to its callback, in this order. *)
Definition tfs_mount_list s : list (string * Z) := mounts s.

Definition alloc_node (name : string) (type : Z) s : Z * tfs H :=
  let '(p, h) := sh_malloc 120 (fheap s) in
  if p =? 0 then (0, mk_tfs (nodes s) (mounts s) h)
  else (p, mk_tfs (<[p := mk_node (take 63 name) type 0 None 0 0 0 0]> (nodes s)) (mounts s) h).

(** [n->parent = dir; n->next = dir->children; dir->children = n;] *)
Definition link_child (dir n : Z) s : tfs H :=
  let N := nodes s in
  let m := node N n in
  let N1 := <[n := mk_node (n_name m) (n_type m) (n_size m) (n_data m) (n_gen m) dir (n_children m)
                     (n_children (node N dir))]> N in
  with_nodes (<[dir := set_children n (node N1 dir)]> N1) s.

(** The result is the parent with the leaf name, or a null pointer. *)
Fixpoint resolve_create (fuel : nat) (cur : Z) (p : string) s : option (Z * string * tfs H) :=
  match p, fuel with
  | [], _ => Some (0, [], s)
  | _, O => None
  | _, S f =>
      match skip_slashes p with
      | [] => Some (0, [], s)
      | q =>
          let '(seg, rest) := span_seg q in
          if bool_decide (seg = [DOT]) then resolve_create f cur rest s
          else if bool_decide (seg = [DOT; DOT]) then
            resolve_create f (if n_parent (node (nodes s) cur) =? 0 then cur else n_parent (node (nodes s) cur)) rest s
          else if negb (n_type (node (nodes s) cur) =? TFS_DIR) then Some (0, [], s)
          else
            match find_child (nodes s) cur seg with
            | None => None
            | Some child =>
                if negb (child =? 0) then resolve_create f child rest s
                else if bool_decide (rest = []) then
                  if Z.of_nat (length seg) >=? MAX_NAME then Some (0, [], s) else Some (cur, seg, s)
                else
                  let '(n, s1) := alloc_node seg TFS_DIR s in
                  if n =? 0 then Some (0, [], s1)
                  else resolve_create f n rest (link_child cur n s1)
            end
      end
  end.

Fixpoint lookup_from (N : store) (fuel : nat) (cur : Z) (p : string) : option Z :=
  match p, fuel with
  | [], _ => Some cur
  | _, O => None
  | _, S f =>
      match skip_slashes p with
      | [] => Some cur
      | q =>
          let '(seg, rest) := span_seg q in
          if bool_decide (seg = [DOT]) then lookup_from N f cur rest
          else if bool_decide (seg = [DOT; DOT]) then
            lookup_from N f (if n_parent (node N cur) =? 0 then cur else n_parent (node N cur)) rest
          else if negb (n_type (node N cur) =? TFS_DIR) then Some 0
          else
            match find_child N cur seg with
            | None => None
            | Some child => if child =? 0 then Some 0 else lookup_from N f child rest
            end
      end
  end.

Definition tfs_lookup (path : string) s : option Z := lookup_from (nodes s) (length path) root path.

Definition make_node (path : string) (type : Z) s : option (Z * tfs H) :=
  match resolve_create (length path) root path s with
  | None => None
  | Some (parent, leaf, s1) =>
      if parent =? 0 then Some (0, s1)
      else
        match find_child (nodes s1) parent leaf with
        | None => None
        | Some c =>
            if negb (c =? 0) then Some (0, s1)
            else
              let '(n, s2) := alloc_node leaf type s1 in
              if n =? 0 then Some (0, s2) else Some (n, link_child parent n s2)
        end
  end.

Definition tfs_mkdir (path : string) s : option (Z * tfs H) := make_node path TFS_DIR s.
Definition tfs_touch (path : string) s : option (Z * tfs H) := make_node path TFS_FILE s.

Definition set_gen (g : Z) (n : tfs_node_t) : tfs_node_t :=
  mk_node (n_name n) (n_type n) (n_size n) (n_data n) g (n_parent n) (n_children n) (n_next n).

Definition tfs_add_virtual (dir : Z) (name : string) (gen : Z) s : Z * tfs H :=
  if (dir =? 0) || negb (n_type (node (nodes s) dir) =? TFS_DIR) then (0, s)
  else
    let '(n, s1) := alloc_node name TFS_FILE s in
    if n =? 0 then (0, s1)
    else (n, link_child dir n (with_nodes (<[n := set_gen gen (node (nodes s1) n)]> (nodes s1)) s1)).

Definition free_data (d : option (Z * list Z)) (h : H) : H :=
  match d with Some (p, _) => sh_free p h | None => h end.

Definition tfs_write (n : Z) (data : list Z) s : Z * tfs H :=
  let m := node (nodes s) n in
  let store_buf (d : option (Z * list Z)) (h : H) :=
    (0, mk_tfs (<[n := set_data d (Z.of_nat (length data)) m]> (nodes s)) (mounts s) (free_data (n_data m) h)) in
  if (n =? 0) || negb (n_type m =? TFS_FILE) then (-1, s)
  else if (0 <? length data)%nat then
    let '(buf, h) := sh_malloc (Z.of_nat (length data)) (fheap s) in
    if buf =? 0 then (-1, mk_tfs (nodes s) (mounts s) h) else store_buf (Some (buf, data)) h
  else store_buf None (fheap s).

(** The loop of [free_children] from the child [c] on; it ends with
    [node->children = NULL]. *)
Fixpoint free_list (fuel : nat) (c : Z) s : option (tfs H) :=
  if c =? 0 then Some s
  else match fuel with
       | O => None
       | S f =>
           let next := n_next (node (nodes s) c) in
           match free_list f (n_children (node (nodes s) c)) s with
           | None => None
           | Some s1 =>
               let s2 := with_nodes (<[c := set_children 0 (node (nodes s1) c)]> (nodes s1)) s1 in
               let m := node (nodes s2) c in
               free_list f next
                 (mk_tfs (delete c (nodes s2)) (mounts s2) (sh_free c (free_data (n_data m) (fheap s2))))
           end
       end.

Definition free_children (n : Z) s : option (tfs H) :=
  match free_list (size (nodes s)) (n_children (node (nodes s) n)) s with
  | None => None
  | Some s1 => Some (with_nodes (<[n := set_children 0 (node (nodes s1) n)]> (nodes s1)) s1)
  end.

(** The walk of [tfs_rm] over the links: [None] is [&parent->children],
    [Some c] is [&c->next]. *)
Fixpoint find_link (N : store) (fuel : nat) (pp : option Z) (c n : Z) : option (option Z * Z) :=
  if (c =? 0) || (c =? n) then Some (pp, c)
  else match fuel with
       | O => None
       | S f => find_link N f (Some c) (n_next (node N c)) n
       end.

Definition store_child_link (parent : Z) (pp : option Z) (v : Z) (N : store) : store :=
  match pp with
  | None => <[parent := set_children v (node N parent)]> N
  | Some c => <[c := set_next v (node N c)]> N
  end.

Definition tfs_rm (n : Z) s : option (Z * tfs H) :=
  if (n =? 0) || (n =? root) then Some (-1, s)
  else
    let N := nodes s in
    let parent := n_parent (node N n) in
    match find_link N (size N) None (n_children (node N parent)) n with
    | None => None
    | Some (pp, c) =>
        let N1 := if c =? 0 then N else store_child_link parent pp (n_next (node N n)) N in
        match free_children n (with_nodes N1 s) with
        | None => None
        | Some s2 =>
            let m := node (nodes s2) n in
            Some (0, mk_tfs (delete n (nodes s2)) (mounts s2) (sh_free n (free_data (n_data m) (fheap s2))))
        end
    end.

(** The children handed to the callback of [tfs_list], in order. *)
Fixpoint siblings (N : store) (fuel : nat) (c : Z) : option (list Z) :=
  if c =? 0 then Some []
  else match fuel with
       | O => None
       | S f => option_map (cons c) (siblings N f (n_next (node N c)))
       end.

Definition tfs_list (dir : Z) s : option (list Z) :=
  if (dir =? 0) || negb (n_type (node (nodes s) dir) =? TFS_DIR) then Some []
  else siblings (nodes s) (size (nodes s)) (n_children (node (nodes s) dir)).
End tfs.
