(* ===== verification/TfsSpec.v ===== *)
(** What the RAM file system of [Tfs] promises: its nodes form a tree, the
    operations keep it so and account for every block they own, paths resolve
    as sequences of names, what is created is found, and what is removed is
    freed exactly once. *)
From stdpp Require Import prelude gmap sets list numbers.
From Stdlib Require Import ZArith Lia ZifyBool.
From S2P Require Import Prelude Tfs.
#[local] Open Scope Z_scope.

(** * Shapes

    A chain of siblings: the first node, its children and the rest of the
    chain.  [rep N par head f] says that the links of the store [N] starting
    at [head] have the shape [f] below the node [par]. *)
Inductive forest := Leaf | Sib (p : Z) (kids rest : forest).

Fixpoint ptrs (f : forest) : list Z :=
  match f with Leaf => [] | Sib p kids rest => p :: ptrs kids ++ ptrs rest end.

Fixpoint sibs (f : forest) : list Z :=
  match f with Leaf => [] | Sib p _ rest => p :: sibs rest end.

Fixpoint rep (N : store) (par head : Z) (f : forest) : Prop :=
  match f with
  | Leaf => head = 0
  | Sib p kids rest =>
      head = p /\ p <> 0 /\ exists n, N !! p = Some n /\ n_parent n = par
        /\ (n_type n <> TFS_DIR -> kids = Leaf)
        /\ rep N p (n_children n) kids /\ rep N par (n_next n) rest
  end.

(** The children of [x] in a shape, and the shape with them replaced. *)
Fixpoint kids_of (x : Z) (f : forest) : option forest :=
  match f with
  | Leaf => None
  | Sib p kids rest =>
      if p =? x then Some kids
      else match kids_of x kids with Some k => Some k | None => kids_of x rest end
  end.

Fixpoint set_kids (x : Z) (k : forest) (f : forest) : forest :=
  match f with
  | Leaf => Leaf
  | Sib p kids rest => if p =? x then Sib p k rest else Sib p (set_kids x k kids) (set_kids x k rest)
  end.

(** The first sibling with a name, [0] if there is none. *)
Fixpoint first_named (N : store) (name : string) (f : forest) : Z :=
  match f with
  | Leaf => 0
  | Sib p _ rest => if bool_decide (n_name (node N p) = name) then p else first_named N name rest
  end.

(** The chain without the sibling [x]. *)
Fixpoint drop_sib (x : Z) (f : forest) : forest :=
  match f with
  | Leaf => Leaf
  | Sib p kids rest => if p =? x then rest else Sib p kids (drop_sib x rest)
  end.

(** * Paths

    The names of a path: the nonempty pieces between its slashes. *)
Fixpoint pieces (p : string) : list string :=
  match p with
  | [] => [[]]
  | c :: p' => if c =? SLASH then [] :: pieces p'
               else match pieces p' with seg :: l => (c :: seg) :: l | [] => [[c]] end
  end.

Definition segments (p : string) : list string := filter (fun seg => seg <> []) (pieces p).

(** The child of a directory with a name, and the node a list of names leads to. *)
Definition child (N : store) (dir : Z) (name : string) : Z := default 0 (find_child N dir name).

Definition up (N : store) (cur : Z) : Z :=
  if n_parent (node N cur) =? 0 then cur else n_parent (node N cur).

Fixpoint walk (N : store) (cur : Z) (segs : list string) : Z :=
  match segs with
  | [] => cur
  | seg :: segs' =>
      if bool_decide (seg = [DOT]) then walk N cur segs'
      else if bool_decide (seg = [DOT; DOT]) then walk N (up N cur) segs'
      else if negb (n_type (node N cur) =? TFS_DIR) then 0
      else if child N cur seg =? 0 then 0 else walk N (child N cur seg) segs'
  end.

(** * The invariant *)

(** The nodes of the store are those of the tree [F] below the root. *)
Record tree_ok (root : Z) (N : store) (F : forest) : Prop := {
  to_rep : rep N root root F;
  to_root : sibs F = [root];
  to_nodup : NoDup (ptrs F);
  to_dom : forall p, is_Some (N !! p) <-> p ∈ ptrs F;
  to_dir : n_type (node N root) = TFS_DIR
}.

(** The addresses [L] are exactly the blocks of the nodes and of their data,
    which no two nodes share. *)
Record accounts (N : store) (L : gset Z) : Prop := {
  ac_iff : forall x, x ∈ L <-> is_Some (N !! x) \/ exists p n c, N !! p = Some n /\ n_data n = Some (x, c);
  ac_data : forall p n x c, N !! p = Some n -> n_data n = Some (x, c) ->
    N !! x = None /\ n_size n = Z.of_nat (length c) /\ n_type n <> TFS_DIR
    /\ forall p' n' c', N !! p' = Some n' -> n_data n' = Some (x, c') -> p' = p
}.

Definition fs_ok {H} `{SmallHeapLaws H} (root : Z) (s : tfs H) : Prop :=
  exists F L, tree_ok root (nodes s) F /\ accounts (nodes s) L /\ sh_owns (fheap s) L.

(** What an operation that only adds nodes keeps. *)
Definition keeps (N N' : store) : Prop :=
  forall p n, N !! p = Some n ->
    exists n', N' !! p = Some n' /\ n_name n' = n_name n /\ n_type n' = n_type n /\ n_parent n' = n_parent n
      /\ n_data n' = n_data n /\ n_size n' = n_size n /\ n_gen n' = n_gen n
      /\ forall name, child N p name <> 0 -> child N' p name = child N p name.

(** * Lemmas on shapes *)

Lemma node_at N p n : N !! p = Some n -> node N p = n.
Proof. unfold node. intros ->. reflexivity. Qed.

Lemma node_insert_eq N p n : node (<[p := n]> N) p = n.
Proof. apply node_at, lookup_insert_eq. Qed.
Lemma node_insert_ne N p q n : p <> q -> node (<[p := n]> N) q = node N q.
Proof. intros Hne. unfold node. rewrite lookup_insert_ne by exact Hne. reflexivity. Qed.

Lemma rep_frame N N' f : forall par head,
  (forall p, p ∈ ptrs f -> N' !! p = N !! p) -> rep N par head f -> rep N' par head f.
Proof.
  induction f as [|p kids IHk rest IHr]; intros par head Hf; [auto|].
  intros (-> & Hp & n & Hn & Hpar & Hdir & Hk & Hr). cbn in Hf.
  split; [reflexivity|]. split; [exact Hp|]. exists n.
  split; [rewrite Hf by set_solver; exact Hn|]. split; [exact Hpar|]. split; [exact Hdir|].
  split; [apply IHk|apply IHr]; auto; intros q Hq; apply Hf; set_solver.
Qed.

Lemma rep_live N f : forall par head p, rep N par head f -> p ∈ ptrs f -> p <> 0 /\ is_Some (N !! p).
Proof.
  induction f as [|q kids IHk rest IHr]; intros par head p; cbn; [set_solver|].
  intros (-> & Hq & n & Hn & _ & _ & Hk & Hr) Hp.
  apply elem_of_cons in Hp as [->|Hp]; [eauto|]. apply elem_of_app in Hp as [Hp|Hp]; eauto.
Qed.

Lemma rep_kids N f x k : forall par head, rep N par head f -> kids_of x f = Some k ->
  exists n, N !! x = Some n /\ rep N x (n_children n) k /\ (n_type n <> TFS_DIR -> k = Leaf).
Proof.
  induction f as [|q kids IHk rest IHr]; intros par head; cbn; [discriminate|].
  intros (-> & Hq & n & Hn & _ & Hd & Hk & Hr). destruct (Z.eqb_spec q x) as [->|].
  { intros [= ->]. eauto. }
  destruct (kids_of x kids) as [k'|] eqn:E; [intros [= ->]; eauto|eauto].
Qed.

Lemma kids_of_Some x f : x ∈ ptrs f -> exists k, kids_of x f = Some k.
Proof.
  induction f as [|q kids IHk rest IHr]; cbn; [set_solver|]. intros Hx.
  destruct (Z.eqb_spec q x); [eauto|]. apply elem_of_cons in Hx as [Hx|Hx]; [congruence|].
  apply elem_of_app in Hx as [Hx|Hx]; [destruct (IHk Hx) as [k ->]; eauto|].
  destruct (kids_of x kids); eauto.
Qed.

Lemma kids_of_sub x f k : kids_of x f = Some k -> x ∈ ptrs f /\ ptrs k ⊆ ptrs f.
Proof.
  induction f as [|q kids IHk rest IHr]; cbn; [discriminate|]. destruct (Z.eqb_spec q x) as [->|].
  { intros [= ->]. set_solver. }
  destruct (kids_of x kids); [intros [= ->]; destruct (IHk eq_refl); set_solver|].
  intros E. destruct (IHr E). set_solver.
Qed.

Lemma kids_of_submseteq x f k : kids_of x f = Some k -> x :: ptrs k ⊆+ ptrs f.
Proof.
  induction f as [|q kids IHk rest IHr]; cbn; [discriminate|]. destruct (Z.eqb_spec q x) as [->|].
  { intros [= ->]. apply submseteq_skip, submseteq_inserts_r. reflexivity. }
  destruct (kids_of x kids); intros E; apply submseteq_cons.
  - injection E as ->. apply submseteq_inserts_r. auto.
  - apply submseteq_inserts_l. auto.
Qed.

Lemma kids_of_None x f : x ∉ ptrs f -> kids_of x f = None.
Proof. intros Hx. destruct (kids_of x f) eqn:E; [|reflexivity]. apply kids_of_sub in E as [? _]. contradiction. Qed.

Lemma set_kids_id x k f : x ∉ ptrs f -> set_kids x k f = f.
Proof.
  induction f as [|q kids IHk rest IHr]; cbn; [reflexivity|]. intros Hx.
  replace (q =? x) with false by (destruct (Z.eqb_spec q x); set_solver).
  rewrite IHk, IHr by set_solver. reflexivity.
Qed.

Lemma set_kids_sibs x k f : sibs (set_kids x k f) = sibs f.
Proof. induction f as [|q kids _ rest IHr]; cbn; [reflexivity|]. destruct (q =? x); cbn; congruence. Qed.

Lemma set_kids_ptrs x k k' f : NoDup (ptrs f) -> kids_of x f = Some k ->
  ptrs (set_kids x k' f) ++ ptrs k ≡ₚ ptrs f ++ ptrs k'.
Proof.
  induction f as [|q kids IHk rest IHr]; cbn; [discriminate|]. intros Hnd.
  apply list.NoDup_cons in Hnd as [Hq Hnd]. apply list.NoDup_app in Hnd as (Hnk & Hdis & Hnr).
  destruct (Z.eqb_spec q x) as [->|].
  { intros [= ->]. cbn. apply perm_skip. rewrite (Permutation_app_comm _ (ptrs k)), <- (app_assoc (ptrs k)).
    apply Permutation_app_head, Permutation_app_comm. }
  destruct (kids_of x kids) as [k1|] eqn:E.
  - intros [= ->]. cbn. apply perm_skip.
    rewrite (set_kids_id x k' rest).
    + rewrite <- !app_assoc, (Permutation_app_comm (ptrs rest) (ptrs k)), app_assoc, (IHk Hnk eq_refl), <- app_assoc.
      apply Permutation_app_head, Permutation_app_comm.
    + apply kids_of_sub in E as [? _]. auto.
  - intros E'. cbn. apply perm_skip. rewrite (set_kids_id x k' kids).
    + rewrite <- !app_assoc. apply Permutation_app_head, IHr; assumption.
    + intros Hx. apply kids_of_Some in Hx as [? ?]. congruence.
Qed.

(** Replacing the children of one node in the store and in the shape. *)
Lemma rep_set_kids N N' x n n' k k' f : forall par head,
  rep N par head f -> NoDup (ptrs f) -> kids_of x f = Some k ->
  N !! x = Some n -> N' !! x = Some n' ->
  n_parent n' = n_parent n -> n_next n' = n_next n -> (n_type n' <> TFS_DIR -> k' = Leaf) ->
  rep N' x (n_children n') k' ->
  (forall p, p ∈ ptrs f -> p <> x -> p ∉ ptrs k -> N' !! p = N !! p) ->
  rep N' par head (set_kids x k' f).
Proof.
  intros par head Hrep Hnd Hk Hn Hn' Hpar Hnext Hdir Hk' Hfr. revert par head Hrep Hnd Hk Hfr.
  induction f as [|q kids IHk rest IHr]; intros par head; cbn; [discriminate|].
  intros (-> & Hq & m & Hm & Hp & Hd & Hrk & Hrr) Hnd.
  apply list.NoDup_cons in Hnd as [Hnq Hnd]. apply list.NoDup_app in Hnd as (Hnk & Hdis & Hnr).
  destruct (Z.eqb_spec q x) as [->|Hqx].
  - intros [= ->] Hfr. split; [reflexivity|]. split; [exact Hq|].
    assert (m = n) as -> by congruence. exists n'.
    split; [exact Hn'|]. split; [congruence|]. split; [exact Hdir|]. split; [exact Hk'|].
    rewrite Hnext. apply (rep_frame N); [|exact Hrr]. intros p Hp'. apply Hfr; set_solver.
  - destruct (kids_of x kids) as [k1|] eqn:E.
    + intros [= ->] Hfr. pose proof (kids_of_sub x kids k E) as [Hx Hsub].
      split; [reflexivity|]. split; [exact Hq|]. exists m.
      split; [rewrite Hfr; [exact Hm|set_solver..]|].
      split; [exact Hp|]. split.
      { intros Ht. rewrite (Hd Ht) in E. discriminate. }
      split; [apply IHk; [exact Hrk|exact Hnk|reflexivity|]; intros p Hp'; apply Hfr; set_solver|].
      rewrite set_kids_id by (exact (Hdis x Hx)). apply (rep_frame N); [|exact Hrr].
      intros p Hp'. apply Hfr; [set_solver|intros ->; exact (Hdis x Hx Hp')|].
      intros Hpk. exact (Hdis p (Hsub p Hpk) Hp').
    + intros Ek Hfr. pose proof (kids_of_sub x rest k Ek) as [Hx Hsub].
      split; [reflexivity|]. split; [exact Hq|]. exists m.
      split; [rewrite Hfr; [exact Hm|set_solver..]|]. split; [exact Hp|].
      assert (x ∉ ptrs kids) as Hxk by (intros Hxk; exact (Hdis x Hxk Hx)).
      rewrite set_kids_id by exact Hxk. split; [exact Hd|].
      split; [apply (rep_frame N); [|exact Hrk]; intros p Hp'; apply Hfr; set_solver|].
      apply IHr; [exact Hrr|exact Hnr|exact Ek|]. intros p Hp'. apply Hfr; set_solver.
Qed.

(** ** Sibling walks *)

Lemma find_sib_agree N N' name f : forall par head fuel,
  rep N par head f -> (length (sibs f) <= fuel)%nat ->
  (forall p, p ∈ sibs f -> n_name (node N' p) = n_name (node N p) /\ n_next (node N' p) = n_next (node N p)) ->
  find_sib N' fuel head name = Some (first_named N name f).
Proof.
  induction f as [|p kids _ rest IHr]; intros par head fuel; cbn.
  { intros -> _ _. destruct fuel; reflexivity. }
  intros (-> & Hp & n & Hn & _ & _ & _ & Hr) Hl Ha. destruct fuel as [|fuel]; [lia|]. cbn.
  replace (p =? 0) with false by lia. destruct (Ha p) as [-> ->]; [set_solver|].
  rewrite (node_at _ _ _ Hn). destruct (bool_decide (n_name n = name)); [reflexivity|].
  eapply IHr; [exact Hr|lia|]. intros q Hq. apply Ha. set_solver.
Qed.

Lemma find_sib_spec N name f par head fuel :
  rep N par head f -> (length (sibs f) <= fuel)%nat ->
  find_sib N fuel head name = Some (first_named N name f).
Proof. intros Hr Hl. eapply find_sib_agree; eauto. Qed.

Lemma siblings_agree N N' f : forall par head fuel,
  rep N par head f -> (length (sibs f) <= fuel)%nat ->
  (forall p, p ∈ sibs f -> n_next (node N' p) = n_next (node N p)) -> siblings N' fuel head = Some (sibs f).
Proof.
  induction f as [|p kids _ rest IHr]; intros par head fuel; cbn.
  { intros -> _ _. destruct fuel; reflexivity. }
  intros (-> & Hp & n & Hn & _ & _ & _ & Hr) Hl Ha. destruct fuel as [|fuel]; [lia|]. cbn.
  replace (p =? 0) with false by lia. rewrite Ha, (node_at _ _ _ Hn) by set_solver.
  erewrite IHr; [reflexivity|exact Hr|lia|]. intros q Hq. apply Ha. set_solver.
Qed.

Lemma siblings_det N f1 : forall c f2 l1 l2, siblings N f1 c = Some l1 -> siblings N f2 c = Some l2 -> l1 = l2.
Proof.
  induction f1 as [|f1 IH]; intros c f2 l1 l2; destruct f2 as [|f2]; cbn; destruct (c =? 0); try congruence.
  destruct (siblings N f1 _) eqn:E1; [|discriminate]. destruct (siblings N f2 _) eqn:E2; [|discriminate].
  cbn. intros [= <-] [= <-]. f_equal. eauto.
Qed.

Lemma sibs_ptrs f : sibs f ⊆ ptrs f.
Proof. induction f; cbn; set_solver. Qed.

Lemma rep_sibs_parent N f : forall par head q, rep N par head f -> q ∈ sibs f -> n_parent (node N q) = par.
Proof.
  induction f as [|x kids _ rest IHr]; intros par head q; cbn; [set_solver|].
  intros (-> & _ & n & Hn & Hpar & _ & _ & Hr) Hin. apply elem_of_cons in Hin as [->|Hin]; [|eauto].
  rewrite (node_at _ _ _ Hn). exact Hpar.
Qed.

Lemma length_sibs f : (length (sibs f) <= length (ptrs f))%nat.
Proof. induction f; cbn; rewrite ?length_app; lia. Qed.

Lemma first_named_0 N name f : (forall p, p ∈ ptrs f -> p <> 0) ->
  first_named N name f = 0 <-> forall p, p ∈ sibs f -> n_name (node N p) <> name.
Proof.
  induction f as [|p kids _ rest IHr]; cbn; intros Hnz; [split; [set_solver|reflexivity]|].
  destruct (bool_decide_reflect (n_name (node N p) = name)) as [E|E].
  - split; [intros ->; exfalso; apply (Hnz 0); set_solver|]. intros Hall. exfalso. apply (Hall p); set_solver.
  - rewrite IHr by (intros q Hq; apply Hnz; set_solver). split; [intros Hall q Hq|intros Hall q Hq; apply Hall; set_solver].
    apply elem_of_cons in Hq as [->|Hq]; auto.
Qed.

Lemma first_named_in N name f : first_named N name f <> 0 ->
  first_named N name f ∈ sibs f /\ n_name (node N (first_named N name f)) = name.
Proof.
  induction f as [|p kids _ rest IHr]; cbn; [lia|].
  destruct (bool_decide_reflect (n_name (node N p) = name)) as [E|E]; [set_solver|].
  intros Hne. destruct (IHr Hne). set_solver.
Qed.

Lemma first_named_frame N N' name f :
  (forall p, p ∈ sibs f -> n_name (node N' p) = n_name (node N p)) -> first_named N' name f = first_named N name f.
Proof.
  induction f as [|p kids _ rest IHr]; cbn; intros Hf; [reflexivity|].
  rewrite Hf by set_solver. rewrite IHr; [reflexivity|]. intros q Hq. apply Hf. set_solver.
Qed.

(** ** Paths *)

Lemma skip_spec p : segments (skip_slashes p) = segments p /\ (length (skip_slashes p) <= length p)%nat
  /\ match skip_slashes p with [] => True | c :: _ => c <> SLASH end.
Proof.
  induction p as [|c p IH]; cbn [skip_slashes]; [auto|].
  destruct (Z.eqb_spec c SLASH) as [->|Hc]; [|repeat split; auto].
  destruct IH as (E & Hl & Hh). split; [|split; [cbn; lia|exact Hh]].
  rewrite E. unfold segments. cbn. reflexivity.
Qed.

Lemma span_spec q seg rest : span_seg q = (seg, rest) ->
  pieces q = seg :: match rest with [] => [] | _ :: r => pieces r end
  /\ match rest with [] => True | c :: _ => c = SLASH end
  /\ (length q = length seg + length rest)%nat.
Proof.
  revert seg rest. induction q as [|c q IH]; intros seg rest; cbn; [intros [= <- <-]; auto|].
  destruct (Z.eqb_spec c SLASH) as [->|Hc]; [intros [= <- <-]; auto|].
  destruct (span_seg q) as [seg' rest']. intros [= <- <-].
  destruct (IH _ _ eq_refl) as (-> & Hr & Hl). cbn. auto.
Qed.

(** One turn of the loops over a path: no name is left, or the first one. *)
Lemma path_step p :
  match skip_slashes p with
  | [] => segments p = []
  | q => exists seg rest, span_seg q = (seg, rest) /\ segments p = seg :: segments rest
           /\ (length rest < length p)%nat
  end.
Proof.
  destruct (skip_spec p) as (<- & Hl & Hh). destruct (skip_slashes p) as [|c q] eqn:E; [reflexivity|].
  destruct (span_seg (c :: q)) as [seg rest] eqn:Es. exists seg, rest. split; [reflexivity|].
  assert (seg <> []) as Hne.
  { cbn in Es. destruct (Z.eqb_spec c SLASH); [contradiction|]. destruct (span_seg q). injection Es as <- _. discriminate. }
  destruct (span_spec _ _ _ Es) as (Ep & Hr & Hlen). split.
  - unfold segments. rewrite Ep, filter_cons_True by exact Hne. f_equal.
    destruct rest as [|c' r]; [reflexivity|]. subst c'. cbn. reflexivity.
  - destruct seg; [contradiction|]. cbn in *. lia.
Qed.

(** ** The tree *)

Section tree.
Context (root : Z).

Lemma tree_size N F : tree_ok root N F -> size N = length (ptrs F).
Proof.
  intros T. rewrite <- size_dom, <- (size_list_to_set (C := gset Z) (ptrs F)) by apply T.
  f_equal. apply set_eq. intros p. rewrite elem_of_dom, elem_of_list_to_set. apply T.
Qed.

Lemma tree_node N F p : tree_ok root N F -> p ∈ ptrs F -> N !! p = Some (node N p) /\ p <> 0.
Proof.
  intros T Hp. destruct (rep_live _ _ _ _ _ (to_rep _ _ _ T) Hp) as [Hnz [n Hn]].
  rewrite Hn, (node_at _ _ _ Hn). auto.
Qed.

Lemma tree_root N F : tree_ok root N F -> root ∈ ptrs F.
Proof. intros T. apply sibs_ptrs. rewrite (to_root _ _ _ T). set_solver. Qed.

(** [find_child] ends and finds the first child with the name. *)
Lemma find_child_spec N F p : tree_ok root N F -> p ∈ ptrs F ->
  exists k, kids_of p F = Some k /\ rep N p (n_children (node N p)) k /\ NoDup (p :: ptrs k) /\ ptrs k ⊆ ptrs F
    /\ (length (ptrs k) < size N)%nat
    /\ forall name, find_child N p name = Some (first_named N name k).
Proof.
  intros T Hp. destruct (kids_of_Some p F Hp) as [k Hk].
  destruct (rep_kids _ _ _ _ _ _ (to_rep _ _ _ T) Hk) as (n & Hn & Hr & _).
  pose proof (kids_of_submseteq _ _ _ Hk) as Hsub. pose proof (submseteq_length _ _ Hsub) as Hlen.
  rewrite <- (tree_size _ _ T) in Hlen.
  assert (NoDup (p :: ptrs k)) as Hnd.
  { apply submseteq_Permutation in Hsub as [l Hl]. pose proof (to_nodup _ _ _ T) as Hnd. rewrite Hl in Hnd.
    apply list.NoDup_app in Hnd as [Hnd _]. exact Hnd. }
  cbn in Hlen. exists k. rewrite (node_at _ _ _ Hn). repeat split; auto.
  - apply (kids_of_sub _ _ _ Hk).
  - intros name. unfold find_child. rewrite (node_at _ _ _ Hn). eapply find_sib_spec; [exact Hr|].
    pose proof (length_sibs k). lia.
Qed.

Lemma child_spec N F p name : tree_ok root N F -> p ∈ ptrs F ->
  find_child N p name = Some (child N p name) /\
  (child N p name <> 0 -> child N p name ∈ ptrs F /\ n_parent (node N (child N p name)) = p).
Proof.
  intros T Hp. destruct (find_child_spec N F p T Hp) as (k & Hk & Hr & _ & Hsub & _ & Hf).
  unfold child. rewrite Hf. cbn. split; [reflexivity|]. intros Hne.
  destruct (first_named_in _ _ _ Hne) as [Hin _]. split; [apply Hsub, sibs_ptrs, Hin|].
  apply (rep_sibs_parent _ _ _ _ _ Hr Hin).
Qed.

Lemma rep_parent N f : forall par head p n, rep N par head f -> p ∈ ptrs f -> N !! p = Some n ->
  n_parent n = par \/ n_parent n ∈ ptrs f.
Proof.
  induction f as [|q kids IHk rest IHr]; intros par head p n; cbn; [set_solver|].
  intros (-> & _ & m & Hm & Hpar & _ & Hk & Hr) Hp Hn.
  apply elem_of_cons in Hp as [->|Hp]; [left; congruence|].
  apply elem_of_app in Hp as [Hp|Hp].
  - destruct (IHk _ _ _ _ Hk Hp Hn) as [->|?]; set_solver.
  - destruct (IHr _ _ _ _ Hr Hp Hn) as [->|?]; set_solver.
Qed.

Lemma up_spec N F p : tree_ok root N F -> p ∈ ptrs F -> up N p ∈ ptrs F /\ up N p = n_parent (node N p).
Proof.
  intros T Hp. destruct (tree_node _ _ _ T Hp) as [Hn _].
  assert (n_parent (node N p) ∈ ptrs F) as Hin.
  { destruct (rep_parent _ _ _ _ _ _ (to_rep _ _ _ T) Hp Hn) as [->|?]; [apply (tree_root _ _ T)|assumption]. }
  destruct (tree_node _ _ _ T Hin) as [_ Hnz]. unfold up.
  replace (n_parent (node N p) =? 0) with false by lia. auto.
Qed.
(** Walks stay in the tree, and [tfs_lookup] is the walk along the names. *)
Lemma walk_in N F segs : tree_ok root N F -> forall cur, cur ∈ ptrs F ->
  walk N cur segs = 0 \/ walk N cur segs ∈ ptrs F.
Proof.
  intros T. induction segs as [|seg segs IH]; intros cur Hc; cbn; [auto|].
  destruct (bool_decide (seg = [DOT])); [auto|].
  destruct (bool_decide (seg = [DOT; DOT])); [apply IH, (up_spec _ _ _ T Hc)|].
  destruct (negb _); [auto|]. destruct (child_spec _ _ _ seg T Hc) as [_ Hch].
  destruct (Z.eqb_spec (child N cur seg) 0); [auto|]. apply IH, Hch. assumption.
Qed.

Lemma lookup_walk N F fuel : tree_ok root N F -> forall cur p, cur ∈ ptrs F -> (length p <= fuel)%nat ->
  lookup_from N fuel cur p = Some (walk N cur (segments p)).
Proof.
  intros T. induction fuel as [|fuel IH]; intros cur p Hc Hl; (destruct p as [|c p]; [reflexivity|]); [cbn in Hl; lia|].
  cbn [lookup_from]. pose proof (path_step (c :: p)) as Hp. destruct (skip_slashes (c :: p)) as [|c' q]; [rewrite Hp; reflexivity|].
  destruct Hp as (seg & rest & -> & -> & Hlr). cbn [walk].
  destruct (bool_decide (seg = [DOT])); [apply IH; [exact Hc|lia]|].
  destruct (bool_decide (seg = [DOT; DOT])); [apply IH; [apply (up_spec _ _ _ T Hc)|lia]|].
  destruct (negb _); [reflexivity|]. destruct (child_spec _ _ _ seg T Hc) as [-> Hch].
  destruct (Z.eqb_spec (child N cur seg) 0); [reflexivity|]. apply IH; [apply Hch; assumption|lia].
Qed.

Lemma keeps_refl N : keeps N N.
Proof. intros p n Hn. exists n. auto 10. Qed.

Lemma keeps_trans N1 N2 N3 : keeps N1 N2 -> keeps N2 N3 -> keeps N1 N3.
Proof.
  intros H12 H23 p n Hn. destruct (H12 p n Hn) as (n2 & Hn2 & E1 & E2 & E3 & E4 & E5 & E6 & Hc).
  destruct (H23 p n2 Hn2) as (n3 & Hn3 & F1 & F2 & F3 & F4 & F5 & F6 & Hc'). exists n3.
  repeat split; try congruence. intros name Hne. rewrite Hc'; rewrite Hc by exact Hne; auto.
Qed.

Lemma keeps_walk N N' F segs : tree_ok root N F -> keeps N N' -> forall cur, cur ∈ ptrs F ->
  walk N cur segs <> 0 -> walk N' cur segs = walk N cur segs.
Proof.
  intros T K. induction segs as [|seg segs IH]; intros cur Hc; cbn; [auto|].
  destruct (tree_node _ _ _ T Hc) as [Hn _].
  destruct (K _ _ Hn) as (n' & Hn' & _ & Et & Ep & _ & _ & _ & Hch).
  destruct (bool_decide (seg = [DOT])); [auto|].
  destruct (bool_decide (seg = [DOT; DOT])).
  { replace (up N' cur) with (up N cur) by (unfold up; rewrite (node_at _ _ _ Hn'), Ep; reflexivity).
    apply IH, (up_spec _ _ _ T Hc). }
  rewrite (node_at _ _ _ Hn'), Et. destruct (negb _); [auto|].
  destruct (child_spec _ _ _ seg T Hc) as [_ Hin].
  destruct (Z.eqb_spec (child N cur seg) 0) as [E|E]; [congruence|].
  rewrite Hch by exact E. replace (child N cur seg =? 0) with false by lia. apply IH, Hin, E.
Qed.
End tree.

(** ** Adding a child *)

Definition grow (N : store) (dir p : Z) (new : tfs_node_t) : store :=
  <[dir := set_children p (node N dir)]> (<[p := new]> N).

Section grow.
Context (root : Z) (N : store) (F : forest) (dir p : Z) (new : tfs_node_t).
Hypotheses (T : tree_ok root N F) (Hdir : dir ∈ ptrs F) (Hnew : p ∉ ptrs F) (Hp : p <> 0)
  (Htype : n_type (node N dir) = TFS_DIR) (Hpar : n_parent new = dir)
  (Hkids : n_children new = 0) (Hnext : n_next new = n_children (node N dir)).

Lemma grow_dir : grow N dir p new !! dir = Some (set_children p (node N dir)).
Proof. unfold grow. apply lookup_insert_eq. Qed.

Lemma grow_new : grow N dir p new !! p = Some new.
Proof. unfold grow. rewrite lookup_insert_ne by (intros ->; contradiction). apply lookup_insert_eq. Qed.

Lemma grow_other q : q <> dir -> q <> p -> grow N dir p new !! q = N !! q.
Proof. intros H1 H2. unfold grow. rewrite !lookup_insert_ne by congruence. reflexivity. Qed.

Lemma grow_fields q : q ∈ ptrs F ->
  n_name (node (grow N dir p new) q) = n_name (node N q) /\ n_next (node (grow N dir p new) q) = n_next (node N q).
Proof.
  intros Hq. destruct (decide (q = dir)) as [E|Hqd]; [rewrite E, (node_at _ _ _ grow_dir); auto|].
  unfold node. rewrite grow_other by (congruence || set_solver). auto.
Qed.

Lemma grow_tree : exists F', tree_ok root (grow N dir p new) F' /\ ptrs F' ≡ₚ p :: ptrs F.
Proof.
  destruct (find_child_spec root N F dir T Hdir) as (k & Hk & Hr & Hndk & Hsub & _).
  pose proof (set_kids_ptrs dir k (Sib p Leaf k) F (to_nodup _ _ _ T) Hk) as Hperm. cbn in Hperm.
  assert (ptrs (set_kids dir (Sib p Leaf k) F) ≡ₚ p :: ptrs F) as Hpp.
  { apply (Permutation_app_inv_r (ptrs k)). rewrite Hperm. symmetry. apply Permutation_middle. }
  exists (set_kids dir (Sib p Leaf k) F). split; [|exact Hpp]. pose proof (tree_node root N F dir T Hdir) as [Hd Hd0].
  split.
  - eapply (rep_set_kids N _ dir (node N dir) (set_children p (node N dir)) k); eauto using grow_dir, to_rep, to_nodup.
    + intros Ht. exfalso. apply Ht. exact Htype.
    + cbn. split; [reflexivity|]. split; [exact Hp|]. exists new.
      split; [apply grow_new|]. split; [exact Hpar|]. split; [auto|]. split; [exact Hkids|].
      rewrite Hnext. apply (rep_frame N); [|exact Hr]. intros q Hq. apply grow_other; [|set_solver].
      intros E. apply list.NoDup_cons in Hndk as [Hdk _]. apply Hdk. rewrite <- E. exact Hq.
    + intros q Hq Hqd _. apply grow_other; [exact Hqd|set_solver].
  - rewrite set_kids_sibs. apply T.
  - rewrite Hpp. apply list.NoDup_cons. split; [exact Hnew|apply (to_nodup _ _ _ T)].
  - intros q. rewrite Hpp, elem_of_cons. destruct (decide (q = p)) as [E|Hqp].
    { rewrite E, grow_new. split; eauto. }
    destruct (decide (q = dir)) as [E|Hqd]; [rewrite E, grow_dir; split; eauto|].
    rewrite grow_other by assumption. rewrite (to_dom _ _ _ T). set_solver.
  - pose proof (to_dir _ _ _ T). destruct (decide (root = dir)) as [E|Hne].
    + rewrite E, (node_at _ _ _ grow_dir). exact Htype.
    + unfold node. rewrite grow_other; [assumption|congruence|]. intros E. apply Hnew. rewrite <- E. apply (tree_root root N F T).
Qed.

Lemma grow_size : size (grow N dir p new) = S (size N).
Proof.
  unfold grow. rewrite map_size_insert_Some.
  - apply map_size_insert_None. destruct (N !! p) eqn:E; [|reflexivity].
    exfalso. apply Hnew. apply (to_dom _ _ _ T). eauto.
  - rewrite lookup_insert_ne by (intros ->; contradiction). apply (to_dom _ _ _ T), Hdir.
Qed.

Lemma grow_child q name : q ∈ ptrs F ->
  child (grow N dir p new) q name =
  if bool_decide (q = dir /\ name = n_name new) then p else child N q name.
Proof.
  intros Hq. destruct (find_child_spec root N F q T Hq) as (k & Hk & Hr & Hnd & Hsub & Hl & Hf).
  pose proof (length_sibs k) as Hls. pose proof (sibs_ptrs k) as Hsp.
  assert (forall fuel, (length (sibs k) <= fuel)%nat ->
    find_sib (grow N dir p new) fuel (n_children (node N q)) name = Some (first_named N name k)) as Hwalk.
  { intros fuel Hfu. eapply find_sib_agree; [exact Hr|exact Hfu|]. intros x Hx. apply grow_fields. set_solver. }
  unfold child at 2. rewrite Hf. unfold child, find_child. rewrite grow_size.
  destruct (decide (q = dir)) as [E|Hqd].
  - rewrite E in *. rewrite (node_at _ _ _ grow_dir). cbn [n_children set_children find_sib].
    replace (p =? 0) with false by lia. rewrite (node_at _ _ _ grow_new), Hnext.
    destruct (bool_decide_reflect (n_name new = name)) as [En|En].
    + rewrite bool_decide_true by auto. reflexivity.
    + rewrite bool_decide_false by (intros [_ ?]; congruence). rewrite Hwalk by lia. reflexivity.
  - rewrite bool_decide_false by (intros [? _]; contradiction).
    unfold node at 1. rewrite grow_other by (congruence || set_solver). fold (node N q).
    rewrite Hwalk by lia. reflexivity.
Qed.

Lemma grow_keeps : child N dir (n_name new) = 0 -> keeps N (grow N dir p new).
Proof.
  intros Hnone q n Hn. assert (q ∈ ptrs F) as Hq by (apply (to_dom _ _ _ T); eauto).
  assert (forall name, child N q name <> 0 -> child (grow N dir p new) q name = child N q name) as Hc.
  { intros name Hne. rewrite grow_child by exact Hq. rewrite bool_decide_false; [reflexivity|].
    intros [E1 E2]. rewrite E1, E2 in Hne. contradiction. }
  destruct (decide (q = dir)) as [E|Hqd].
  - rewrite <- E in *. exists (set_children p (node N q)). rewrite (node_at _ _ _ Hn) in *.
    split; [rewrite <- (node_at _ _ _ Hn), E; apply grow_dir|]. repeat split; auto.
  - exists n. rewrite grow_other by (congruence || set_solver). auto 10.
Qed.
End grow.

(** ** Accounting *)

Lemma accounts_new N L p new : accounts N L -> p ∉ L -> n_data new = None -> accounts (<[p := new]> N) ({[p]} ∪ L).
Proof.
  intros A Hp Hd.
  assert (N !! p = None) as Hnone by (apply eq_None_not_Some; intros ?; apply Hp, A; auto).
  assert (forall q n x c, (<[p := new]> N) !! q = Some n -> n_data n = Some (x, c) -> N !! q = Some n) as Hold.
  { intros q n x c Hq Hn. destruct (decide (q = p)) as [->|]; [|rewrite lookup_insert_ne in Hq; auto].
    rewrite lookup_insert_eq in Hq. congruence. }
  split.
  - intros x. rewrite elem_of_union, elem_of_singleton, (ac_iff _ _ A). split.
    + intros [->|[Hx|(q & n & c & Hq & Hn)]]; [rewrite lookup_insert_eq; eauto|left; apply lookup_insert_is_Some'; auto|].
      right. exists q, n, c. rewrite lookup_insert_ne by congruence. auto.
    + intros [Hx|(q & n & c & Hq & Hn)]; [apply lookup_insert_is_Some' in Hx as [<-|?]; auto|].
      right. right. exists q, n, c. split; [eapply Hold; eauto|exact Hn].
  - intros q n x c Hq Hn. pose proof (Hold _ _ _ _ Hq Hn) as Hq'.
    destruct (ac_data _ _ A q n x c Hq' Hn) as (Hx & Hs & Ht & Hu).
    split; [|split; [exact Hs|split; [exact Ht|intros; eapply Hu; [eapply Hold; eauto|eauto]]]].
    rewrite lookup_insert_ne; [exact Hx|]. intros <-. apply Hp, A. eauto 10.
Qed.

Lemma accounts_update N L p n n' : accounts N L -> N !! p = Some n ->
  n_data n' = n_data n -> n_size n' = n_size n -> n_type n' = n_type n -> accounts (<[p := n']> N) L.
Proof.
  intros A Hp Ed Es Et.
  assert (forall q m x c, (<[p := n']> N) !! q = Some m -> n_data m = Some (x, c) ->
    exists m', N !! q = Some m' /\ n_data m' = Some (x, c) /\ n_size m' = n_size m /\ n_type m' = n_type m) as Hold.
  { intros q m x c Hq Hm. destruct (decide (q = p)) as [->|]; [|rewrite lookup_insert_ne in Hq; eauto].
    rewrite lookup_insert_eq in Hq. injection Hq as <-. exists n. repeat split; congruence. }
  split.
  - intros x. rewrite (ac_iff _ _ A), lookup_insert_is_Some'. split.
    + intros [Hx|(q & m & c & Hq & Hm)]; [auto|]. right. destruct (decide (q = p)) as [->|].
      * exists p, n', c. rewrite lookup_insert_eq. split; [reflexivity|congruence].
      * exists q, m, c. rewrite lookup_insert_ne by congruence. auto.
    + intros [[<-|Hx]|(q & m & c & Hq & Hm)]; [eauto|auto|].
      destruct (Hold _ _ _ _ Hq Hm) as (m' & ? & ? & _). eauto 10.
  - intros q m x c Hq Hm. destruct (Hold _ _ _ _ Hq Hm) as (m' & Hq' & Hm' & <- & <-).
    destruct (ac_data _ _ A q m' x c Hq' Hm') as (Hx & Hs & Ht & Hu).
    split; [rewrite lookup_insert_ne; [exact Hx|congruence]|]. split; [exact Hs|]. split; [exact Ht|].
    intros q' n0 c' Hq0 Hn0. destruct (Hold _ _ _ _ Hq0 Hn0) as (m0 & ? & ? & _). eauto.
Qed.

(** * Creating nodes *)

Definition short (seg : string) : Prop := (length seg <= 63)%nat.

Section create.
Context {H : Type} `{SmallHeapLaws H} (root : Z).
Implicit Types s : tfs H.

Definition fs_tree s F L : Prop :=
  tree_ok root (nodes s) F /\ accounts (nodes s) L /\ sh_owns (fheap s) L.

Definition new_node (name : string) (type dir next : Z) : tfs_node_t :=
  mk_node (take 63 name) type 0 None 0 dir 0 next.

Lemma create_child s F L dir name type p s1 :
  fs_tree s F L -> dir ∈ ptrs F -> n_type (node (nodes s) dir) = TFS_DIR ->
  alloc_node name type s = (p, s1) ->
  (p = 0 /\ nodes s1 = nodes s /\ fs_tree s1 F L) \/
  (p <> 0 /\ p ∉ ptrs F /\
   nodes (link_child dir p s1) = grow (nodes s) dir p (new_node name type dir (n_children (node (nodes s) dir)))
   /\ exists F', fs_tree (link_child dir p s1) F' ({[p]} ∪ L) /\ ptrs F' ≡ₚ p :: ptrs F).
Proof.
  intros (T & A & O) Hdir Ht. unfold alloc_node. destruct (sh_malloc 120 (fheap s)) as [q h] eqn:Em.
  destruct (sh_malloc_law _ _ _ _ _ O Em) as [[-> O']|(Hq & HqL & O')]; cbn.
  { intros [= <- <-]. left. exact (conj eq_refl (conj eq_refl (conj T (conj A O')))). }
  replace (q =? 0) with false by lia. intros [= <- <-]. right.
  assert (q ∉ ptrs F) as HqF by (intros Hin; apply HqL, A; left; apply T, Hin).
  assert (q <> dir) as Hqd by (intros ->; contradiction).
  set (new := new_node name type dir (n_children (node (nodes s) dir))).
  assert (nodes (link_child dir q (mk_tfs (<[q := mk_node (take 63 name) type 0 None 0 0 0 0]> (nodes s)) (mounts s) h))
          = grow (nodes s) dir q new) as En.
  { unfold link_child, grow. cbn. rewrite node_insert_eq, !node_insert_ne, insert_insert_eq by congruence. reflexivity. }
  split; [exact Hq|]. split; [exact HqF|]. split; [exact En|].
  destruct (grow_tree root (nodes s) F dir q new T Hdir HqF Hq Ht eq_refl eq_refl eq_refl) as (F' & T' & Hp).
  exists F'. split; [|exact Hp]. unfold fs_tree. rewrite En. split; [exact T'|]. split; [|exact O'].
  pose proof (tree_node root _ _ _ T Hdir) as [Hd _].
  apply (accounts_update _ _ dir (node (nodes s) dir)); [|rewrite lookup_insert_ne by congruence; exact Hd|reflexivity..].
  apply accounts_new; [exact A|exact HqL|reflexivity].
Qed.
(** What [resolve_create] leaves behind: a parent whose child [leaf] is still
    missing, at the end of the walk along the names of the path. *)
Definition resolved (cur : Z) (segs : list string) (N' : store) (par : Z) (leaf : string) : Prop :=
  is_Some (N' !! par) /\ n_type (node N' par) = TFS_DIR /\ child N' par leaf = 0 /\ short leaf
  /\ (Forall short segs -> forall N'', keeps N' N'' -> child N'' par leaf <> 0 ->
        walk N'' cur segs = child N'' par leaf).

Lemma keeps_node N N' p n : keeps N N' -> N !! p = Some n ->
  n_type (node N' p) = n_type n /\ n_parent (node N' p) = n_parent n.
Proof. intros K Hn. destruct (K p n Hn) as (n' & Hn' & _ & Et & Ep & _). rewrite (node_at _ _ _ Hn'). auto. Qed.

(** One name that leads to [c] prefixes a walk. *)
Lemma walk_child N cur seg segs c : seg <> [DOT] -> seg <> [DOT; DOT] -> n_type (node N cur) = TFS_DIR ->
  child N cur seg = c -> c <> 0 -> walk N cur (seg :: segs) = walk N c segs.
Proof.
  intros H2 H3 Ht Hc Hne. cbn. rewrite !bool_decide_false by assumption. rewrite Ht, Hc.
  replace (c =? 0) with false by lia. reflexivity.
Qed.

(** The outcome of resolving the names [segs] from [cur] in the state [s]. *)
Definition resolves (cur : Z) (segs : list string) s (res : option (Z * string * tfs H)) : Prop :=
  exists par leaf s', res = Some (par, leaf, s') /\ fs_ok root s'
    /\ (Forall short segs -> keeps (nodes s) (nodes s'))
    /\ (par <> 0 -> resolved cur segs (nodes s') par leaf).

Lemma resolves_end cur segs s s' F L : fs_tree s' F L -> nodes s' = nodes s -> resolves cur segs s (Some (0, [], s')).
Proof.
  intros HF E. exists 0, [], s'. split; [reflexivity|]. split; [exists F, L; exact HF|].
  split; [intros _; rewrite E; apply keeps_refl|congruence].
Qed.

Lemma resolves_step cur cur' seg segs s s1 res :
  resolves cur' segs s1 res -> (short seg -> keeps (nodes s) (nodes s1)) ->
  (forall N'', short seg -> keeps (nodes s1) N'' -> walk N'' cur (seg :: segs) = walk N'' cur' segs) ->
  resolves cur (seg :: segs) s res.
Proof.
  intros (par & leaf & s' & E & Hok & Hk & Hr) K1 Hw. exists par, leaf, s'. split; [exact E|]. split; [exact Hok|].
  split; [intros Hs; apply list.Forall_cons in Hs as [Hs1 Hs]; eapply keeps_trans; eauto|].
  intros Hpar. destruct (Hr Hpar) as (R1 & R2 & R3 & R4 & R5). repeat (split; [assumption|]).
  intros Hs N'' K Hne. apply list.Forall_cons in Hs as [Hs1 Hs].
  rewrite Hw; [apply R5; assumption|exact Hs1|]. eapply keeps_trans; eauto.
Qed.

Lemma resolve_spec fuel : forall cur p s F L,
  fs_tree s F L -> cur ∈ ptrs F -> (length p <= fuel)%nat ->
  resolves cur (segments p) s (resolve_create fuel cur p s).
Proof.
  induction fuel as [|fuel IH]; intros cur p s F L HF Hc Hl;
    (destruct p as [|c p]; [apply (resolves_end _ _ _ _ F L); auto|]); [cbn in Hl; lia|].
  pose proof HF as (T & A & O). destruct (tree_node root _ _ _ T Hc) as [Hn _].
  cbn [resolve_create]. pose proof (path_step (c :: p)) as Hp.
  destruct (skip_slashes (c :: p)) as [|c' q]; [apply (resolves_end _ _ _ _ F L); auto|].
  destruct Hp as (seg & rest & -> & -> & Hlr).
  destruct (bool_decide_reflect (seg = [DOT])) as [->|Ed].
  { apply (resolves_step cur cur _ _ s s); [apply (IH _ _ _ F L); auto; lia|intros _; apply keeps_refl|reflexivity]. }
  fold (up (nodes s) cur).
  destruct (bool_decide_reflect (seg = [DOT; DOT])) as [->|Ed2].
  { destruct (up_spec root _ _ _ T Hc) as [Hup Eup].
    apply (resolves_step cur (up (nodes s) cur) _ _ s s); [apply (IH _ _ _ F L); auto; lia|intros _; apply keeps_refl|].
    intros N'' _ K. destruct (keeps_node _ _ _ _ K Hn) as [_ Epar]. cbn. unfold up. rewrite Epar. reflexivity. }
  destruct (Z.eqb_spec (n_type (node (nodes s) cur)) TFS_DIR) as [Ht|Ht]; cbn [negb]; [|apply (resolves_end _ _ _ _ F L); auto].
  destruct (child_spec root _ _ _ seg T Hc) as [-> Hch].
  destruct (Z.eqb_spec (child (nodes s) cur seg) 0) as [E0|E0]; cbn [negb].
  - destruct (bool_decide_reflect (rest = [])) as [->|Er].
    + unfold MAX_NAME. destruct (Z.geb_spec (Z.of_nat (length seg)) 64) as [Hge|Hlt]; [apply (resolves_end _ _ _ _ F L); auto|].
      exists cur, seg, s. split; [reflexivity|]. split; [exists F, L; exact HF|]. split; [intros _; apply keeps_refl|].
      intros Hne. split; [eauto|]. split; [exact Ht|]. split; [exact E0|]. split; [unfold short; lia|].
      intros _ N'' K Hne''. destruct (keeps_node _ _ _ _ K Hn) as [Et _].
      apply (walk_child N'' cur seg []); auto. congruence.
    + destruct (alloc_node seg TFS_DIR s) as [n s1] eqn:Ea.
      destruct (create_child s F L cur seg TFS_DIR n s1 HF Hc Ht Ea)
        as [(-> & En & HF1)|(Hne & HnF & En & F' & HF' & Hp')]; [apply (resolves_end _ _ _ _ F L); auto|].
      replace (n =? 0) with false by lia.
      set (new := new_node seg TFS_DIR cur (n_children (node (nodes s) cur))) in *.
      apply (resolves_step cur n _ _ s (link_child cur n s1)).
      * apply (IH _ _ _ F' ({[n]} ∪ L)); [exact HF'|rewrite Hp'; set_solver|lia].
      * intros Hs. rewrite En. apply (grow_keeps root _ F); auto.
        cbn. rewrite take_ge by (unfold short in Hs; lia). exact E0.
      * intros N'' Hs K. rewrite En in K.
        assert (child (grow (nodes s) cur n new) cur seg = n) as Ec.
        { rewrite (grow_child root _ F) by auto. rewrite bool_decide_true; [reflexivity|].
          split; [reflexivity|]. cbn. rewrite take_ge by (unfold short in Hs; lia). reflexivity. }
        pose proof (grow_dir (nodes s) cur n new) as Hg.
        destruct (K _ _ Hg) as (n' & Hn' & _ & Et & _ & _ & _ & _ & Hkc).
        apply walk_child; auto; [rewrite (node_at _ _ _ Hn'), Et; exact Ht|]. rewrite Hkc; congruence.
  - destruct (Hch E0) as [Hin _].
    apply (resolves_step cur (child (nodes s) cur seg) _ _ s s); [apply (IH _ _ _ F L); auto; lia|intros _; apply keeps_refl|].
    intros N'' _ K. destruct (K _ _ Hn) as (n' & Hn' & _ & Et & _ & _ & _ & _ & Hkc).
    apply walk_child; auto. rewrite (node_at _ _ _ Hn'), Et. exact Ht.
Qed.

Lemma make_node_spec path type s F L : fs_tree s F L ->
  exists n s', make_node root path type s = Some (n, s') /\ fs_ok root s'
    /\ (Forall short (segments path) -> keeps (nodes s) (nodes s'))
    /\ (n <> 0 -> (exists m, nodes s' !! n = Some m /\ n_type m = type /\ n_data m = None /\ n_size m = 0
                          /\ n_children m = 0)
         /\ (Forall short (segments path) -> nodes s !! n = None /\ walk (nodes s') root (segments path) = n)).
Proof.
  intros HF. unfold make_node. pose proof HF as (T & _).
  destruct (resolve_spec (length path) root path s F L HF (tree_root root _ _ T) ltac:(lia))
    as (par & leaf & s1 & -> & (F1 & L1 & HF1) & Hk & Hr). pose proof HF1 as (T1 & _).
  assert (forall s', fs_ok root s' -> nodes s' = nodes s1 ->
    exists n s'', Some (0, s') = Some (n, s'') /\ fs_ok root s''
      /\ (Forall short (segments path) -> keeps (nodes s) (nodes s''))
      /\ (n <> 0 -> (exists m, nodes s'' !! n = Some m /\ n_type m = type /\ n_data m = None /\ n_size m = 0
                             /\ n_children m = 0)
           /\ (Forall short (segments path) -> nodes s !! n = None /\ walk (nodes s'') root (segments path) = n))) as Hfail.
  { intros s' Hok E. exists 0, s'. split; [reflexivity|]. split; [exact Hok|]. rewrite E. split; [exact Hk|congruence]. }
  destruct (Z.eqb_spec par 0) as [->|Hpar]; [apply Hfail; [exists F1, L1; exact HF1|reflexivity]|].
  destruct (Hr Hpar) as (Hlive & Ht & Hc & Hsl & Hw). assert (par ∈ ptrs F1) as Hin by (apply T1, Hlive).
  destruct (child_spec root _ _ _ leaf T1 Hin) as [-> _]. rewrite Hc. cbn [Z.eqb negb].
  destruct (alloc_node leaf type s1) as [n s2] eqn:Ea.
  destruct (create_child s1 F1 L1 par leaf type n s2 HF1 Hin Ht Ea)
    as [(-> & En & HF2)|(Hne & HnF & En & F' & HF' & _)]; [apply Hfail; [exists F1, L1; exact HF2|exact En]|].
  replace (n =? 0) with false by lia. set (new := new_node _ _ _ _) in En.
  assert (n_name new = leaf) as Enm by (cbn; apply take_ge; unfold short in Hsl; lia).
  assert (keeps (nodes s1) (nodes (link_child par n s2))) as K.
  { rewrite En. apply (grow_keeps root _ F1); auto. rewrite Enm. exact Hc. }
  exists n, (link_child par n s2). split; [reflexivity|]. split; [exists F', ({[n]} ∪ L1); exact HF'|].
  split; [intros Hs; exact (keeps_trans _ _ _ (Hk Hs) K)|]. intros _. split.
  { exists new. rewrite En. split; [apply (grow_new (nodes s1) F1); auto|]. auto. }
  intros Hs. split.
  - destruct (nodes s !! n) as [m|] eqn:E; [|reflexivity]. destruct (Hk Hs n m E) as (m' & Hm' & _).
    exfalso. apply HnF, T1. eauto.
  - assert (child (nodes (link_child par n s2)) par leaf = n) as Ec.
    { rewrite En, (grow_child root _ F1) by auto. rewrite bool_decide_true by auto. reflexivity. }
    rewrite (Hw Hs _ K); congruence.
Qed.

Lemma lookup_spec path s F L : fs_tree s F L -> tfs_lookup root path s = Some (walk (nodes s) root (segments path)).
Proof. intros (T & _). apply (lookup_walk root _ F); [exact T|apply (tree_root root _ _ T)|lia]. Qed.

End create.

(** * Writing *)

(** The payload a reader of the node sees. *)
Definition content (n : tfs_node_t) : list Z := match n_data n with Some (_, c) => c | None => [] end.

Definition data_block (n : tfs_node_t) : gset Z := match n_data n with Some (x, _) => {[x]} | None => ∅ end.

Lemma data_block_spec n x : x ∈ data_block n <-> exists c, n_data n = Some (x, c).
Proof.
  unfold data_block. destruct (n_data n) as [[y c]|]; [|set_solver].
  rewrite elem_of_singleton. split; [intros ->; eauto|intros [? [= -> _]]; reflexivity].
Qed.

Lemma rep_relink N N' f : forall par head,
  (forall p n, p ∈ ptrs f -> N !! p = Some n -> exists n', N' !! p = Some n' /\ n_parent n' = n_parent n
     /\ n_type n' = n_type n /\ n_children n' = n_children n /\ n_next n' = n_next n) ->
  rep N par head f -> rep N' par head f.
Proof.
  induction f as [|p kids IHk rest IHr]; intros par head Hf; [auto|].
  intros (-> & Hp & n & Hn & Hpar & Hdir & Hk & Hr). cbn in Hf.
  destruct (Hf p n) as (n' & Hn' & Ep & Et & Ec & Ex); [set_solver|exact Hn|].
  split; [reflexivity|]. split; [exact Hp|]. exists n'. rewrite Ep, Et, Ec, Ex.
  repeat (split; [assumption|]). split; [apply IHk|apply IHr]; auto; intros q m Hq; apply Hf; set_solver.
Qed.

Lemma tree_update root N F p n n' : tree_ok root N F -> N !! p = Some n ->
  n_parent n' = n_parent n -> n_type n' = n_type n -> n_children n' = n_children n -> n_next n' = n_next n ->
  tree_ok root (<[p := n']> N) F.
Proof.
  intros T Hp E1 E2 E3 E4. split; try apply T.
  - apply (rep_relink N); [|apply T]. intros q m Hq Hm. destruct (decide (q = p)) as [->|Hne].
    + exists n'. rewrite lookup_insert_eq. assert (m = n) by congruence. subst m. auto.
    + exists m. rewrite lookup_insert_ne by congruence. auto.
  - intros q. rewrite lookup_insert_is_Some', (to_dom _ _ _ T). split; [|auto]. intros [<-|?]; [|assumption].
    apply T. eauto.
  - destruct (decide (root = p)) as [->|Hne]; [|rewrite node_insert_ne by congruence; apply T].
    rewrite node_insert_eq, E2, <- (node_at _ _ _ Hp). apply T.
Qed.

(** Walks depend on the links, names and types only. *)
Lemma find_sib_links N N' name fuel : (forall q, n_name (node N' q) = n_name (node N q) /\ n_next (node N' q) = n_next (node N q)) ->
  forall c, find_sib N' fuel c name = find_sib N fuel c name.
Proof.
  intros Hq. induction fuel as [|fuel IH]; intros c; cbn; [reflexivity|].
  destruct (Hq c) as [-> ->]. rewrite IH. reflexivity.
Qed.

Lemma walk_links N N' segs : size N' = size N ->
  (forall q, n_name (node N' q) = n_name (node N q) /\ n_next (node N' q) = n_next (node N q)
     /\ n_type (node N' q) = n_type (node N q) /\ n_parent (node N' q) = n_parent (node N q)
     /\ n_children (node N' q) = n_children (node N q)) ->
  forall cur, walk N' cur segs = walk N cur segs.
Proof.
  intros Hsz Hq. assert (forall p name, child N' p name = child N p name) as Hc.
  { intros p name. unfold child, find_child. destruct (Hq p) as (_ & _ & _ & _ & ->). rewrite Hsz.
    f_equal. apply find_sib_links. intros q. destruct (Hq q) as (? & ? & _). auto. }
  induction segs as [|seg segs IH]; intros cur; cbn; [reflexivity|].
  unfold up. rewrite Hc. destruct (Hq cur) as (_ & _ & -> & -> & _). rewrite !IH. reflexivity.
Qed.

Lemma accounts_write N L p n d size : accounts N L -> N !! p = Some n -> n_type n <> TFS_DIR ->
  match d with Some (x, c) => x ∉ L /\ size = Z.of_nat (length c) | None => True end ->
  accounts (<[p := set_data d size n]> N)
    ((match d with Some (x, _) => {[x]} ∪ L | None => L end) ∖ data_block n).
Proof.
  intros A Hp Ht Hd. set (n' := set_data d size n).
  assert (forall q m x c, (<[p := n']> N) !! q = Some m -> n_data m = Some (x, c) ->
    q = p /\ m = n' /\ d = Some (x, c) \/ q <> p /\ N !! q = Some m) as Hold.
  { intros q m x c Hq Hm. destruct (decide (q = p)) as [->|Hne]; [left|right; rewrite lookup_insert_ne in Hq; auto].
    rewrite lookup_insert_eq in Hq. injection Hq as <-. auto. }
  split.
  - intros x. rewrite elem_of_difference, data_block_spec, lookup_insert_is_Some'.
    assert ((x ∈ match d with Some (y, _) => {[y]} ∪ L | None => L end) <-> (exists c, d = Some (x, c)) \/ x ∈ L) as ->.
    { destruct d as [[y c]|]; [|set_solver]. rewrite elem_of_union, elem_of_singleton. split.
      - intros [->|?]; eauto.
      - intros [[? [= -> _]]|?]; auto. }
    rewrite (ac_iff _ _ A). split.
    + intros [[[c ->]|[Hx|(q & m & c & Hq & Hm)]] Hno].
      * right. exists p, n', c. rewrite lookup_insert_eq. auto.
      * auto.
      * right. assert (q <> p) by (intros ->; apply Hno; exists c; congruence).
        exists q, m, c. rewrite lookup_insert_ne by congruence. auto.
    + intros [Hx|(q & m & c & Hq & Hm)].
      * assert (is_Some (N !! x)) as Hx' by (destruct Hx as [<-|?]; eauto). split; [auto|].
        intros [c Hc]. destruct (ac_data _ _ A p n x c Hp Hc) as (Hnone & _). rewrite Hnone in Hx'. destruct Hx'; discriminate.
      * destruct (Hold _ _ _ _ Hq Hm) as [(-> & -> & Ed)|[Hne Hq']].
        -- split; [left; eauto|]. intros [c' Hc']. rewrite Ed in Hd. destruct Hd as [HxL _]. apply HxL, A. eauto 10.
        -- split; [right; right; eauto 10|]. intros [c' Hc']. destruct (ac_data _ _ A p n x c' Hp Hc') as (_ & _ & _ & Hu).
           apply Hne. eapply Hu; eauto.
  - intros q m x c Hq Hm. destruct (Hold _ _ _ _ Hq Hm) as [(-> & -> & Ed)|[Hne Hq']].
    + rewrite Ed in Hd. destruct Hd as [HxL Hsz]. split; [|split; [exact Hsz|split; [exact Ht|]]].
      * rewrite lookup_insert_ne; [apply eq_None_not_Some|]; [intros ?; apply HxL, A; auto|].
        intros <-. apply HxL, A. eauto.
      * intros q' m' c' Hq' Hm'. destruct (Hold _ _ _ _ Hq' Hm') as [(-> & _)|[_ Hq2]]; [reflexivity|].
        exfalso. apply HxL, A. eauto 10.
    + destruct (ac_data _ _ A q m x c Hq' Hm) as (Hx & Hs & Ht' & Hu).
      split; [rewrite lookup_insert_ne; [exact Hx|congruence]|]. split; [exact Hs|]. split; [exact Ht'|].
      intros q2 m2 c2 Hq2 Hm2. destruct (Hold _ _ _ _ Hq2 Hm2) as [(-> & -> & Ed)|[_ Hq3]]; [|eauto].
      exfalso. rewrite Ed in Hd. destruct Hd as [HxL _]. apply HxL, A. eauto 10.
Qed.

Section write.
Context {H : Type} `{SmallHeapLaws H} (root : Z).
Implicit Types s : tfs H.

Lemma free_data_owns N L p n h L' : accounts N L -> N !! p = Some n -> L ⊆ L' -> sh_owns h L' ->
  sh_owns (free_data (n_data n) h) (L' ∖ data_block n).
Proof.
  intros A Hp Hsub O. unfold free_data, data_block. destruct (n_data n) as [[x c]|] eqn:E.
  - apply sh_free_law; [exact O|]. apply Hsub, A. eauto 10.
  - replace (L' ∖ ∅) with L' by set_solver. exact O.
Qed.

(** [tfs_write] either fails and changes no node, or replaces the payload. *)
Lemma write_spec s F L n m data : fs_tree root s F L -> nodes s !! n = Some m -> n_type m = TFS_FILE ->
  let '(r, s') := tfs_write n data s in
  (r = -1 /\ nodes s' = nodes s /\ fs_tree root s' F L) \/
  (r = 0 /\ exists d L', nodes s' = <[n := set_data d (Z.of_nat (length data)) m]> (nodes s)
     /\ content (set_data d (Z.of_nat (length data)) m) = data /\ fs_tree root s' F L').
Proof.
  intros (T & A & O) Hn Ht. unfold tfs_write. rewrite (node_at _ _ _ Hn), Ht.
  assert (n <> 0) as Hn0.
  { assert (n ∈ ptrs F) as Hin by (apply T; eauto). apply (tree_node root _ _ _ T Hin). }
  replace (n =? 0) with false by lia. cbn [orb Z.eqb negb TFS_FILE].
  assert (n_type m <> TFS_DIR) as Hnd by (rewrite Ht; discriminate).
  assert (forall d sz, tree_ok root (<[n := set_data d sz m]> (nodes s)) F) as HT.
  { intros d sz. apply (tree_update root _ _ n m); auto. }
  destruct (Nat.ltb_spec 0 (length data)) as [Hl|Hl].
  - destruct (sh_malloc (Z.of_nat (length data)) (fheap s)) as [buf h] eqn:Em.
    destruct (sh_malloc_law _ _ _ _ _ O Em) as [[-> O']|(Hb & HbL & O')]; cbn [Z.eqb].
    { left. split; [reflexivity|]. split; [reflexivity|]. exact (conj T (conj A O')). }
    replace (buf =? 0) with false by lia. right. split; [reflexivity|].
    exists (Some (buf, data)), (({[buf]} ∪ L) ∖ data_block m). split; [reflexivity|]. split; [reflexivity|].
    split; [apply HT|]. split; [apply (accounts_write _ L n m (Some (buf, data))); auto|].
    cbn. apply (free_data_owns (nodes s) L n m); [exact A|exact Hn|set_solver|exact O'].
  - right. split; [reflexivity|]. exists None, (L ∖ data_block m). split; [reflexivity|].
    split; [destruct data; [reflexivity|cbn in Hl; lia]|].
    split; [apply HT|]. split; [apply (accounts_write _ L n m None); auto|].
    cbn. apply (free_data_owns (nodes s) L n m); [exact A|exact Hn|reflexivity|exact O].
Qed.

(** Writing, as an update of one node; paths lead where they led. *)
Lemma write_file s n m data :
  fs_ok root s -> nodes s !! n = Some m -> n_type m = TFS_FILE ->
  let '(r, s') := tfs_write n data s in
  fs_ok root s' /\ (forall path, tfs_lookup root path s' = tfs_lookup root path s)
  /\ (r = -1 /\ nodes s' = nodes s \/
      r = 0 /\ exists d, nodes s' = <[n := set_data d (Z.of_nat (length data)) m]> (nodes s)
        /\ content (set_data d (Z.of_nat (length data)) m) = data).
Proof.
  intros (F & L & HF) Hn Ht. pose proof (write_spec s F L n m data HF Hn Ht) as Hw.
  destruct (tfs_write n data s) as [r s']. destruct Hw as [(-> & E & HF')|(-> & d & L' & E & Ec & HF')].
  - split; [exists F, L; exact HF'|]. split; [|auto]. intros path.
    rewrite (lookup_spec root _ _ _ _ HF), (lookup_spec root _ _ _ _ HF'), E. reflexivity.
  - split; [exists F, L'; exact HF'|]. split; [|right; eauto]. intros path.
    rewrite (lookup_spec root _ _ _ _ HF), (lookup_spec root _ _ _ _ HF'), E. f_equal.
    apply walk_links; [apply map_size_insert_Some; eauto|]. intros q.
    destruct (decide (q = n)) as [->|Hne]; [rewrite node_insert_eq, (node_at _ _ _ Hn); auto|].
    rewrite node_insert_ne by congruence. auto.
Qed.

(** Writing a file replaces its content and nothing else: on a well-formed
    file system [tfs_write] to a file either fails and changes no node (the
    allocator has no block), or the file holds exactly the bytes written and
    their number, every other node is unchanged, every path leads where it
    led, and the file system is well formed, the old payload being freed. *)
Theorem tfs_write_read s n m data :
  fs_ok root s -> nodes s !! n = Some m -> n_type m = TFS_FILE ->
  let '(r, s') := tfs_write n data s in
  fs_ok root s' /\ (forall path, tfs_lookup root path s' = tfs_lookup root path s)
  /\ (r = -1 /\ nodes s' = nodes s \/
      r = 0 /\ content (node (nodes s') n) = data /\ n_size (node (nodes s') n) = Z.of_nat (length data)
      /\ forall p, p <> n -> nodes s' !! p = nodes s !! p).
Proof.
  intros Hs Hn Ht. pose proof (write_file s n m data Hs Hn Ht) as Hw. destruct (tfs_write n data s) as [r s'].
  destruct Hw as (Hok & Hl & [Hw|(-> & d & E & Ec)]); (split; [exact Hok|]; split; [exact Hl|]); [auto|].
  right. rewrite E, node_insert_eq. repeat (split; [auto|]). intros p Hp. apply lookup_insert_ne. congruence.
Qed.
End write.

(** * Removing *)

(** [p] is [n] or below it. *)
Inductive within (root : Z) (N : store) (n : Z) : Z -> Prop :=
| within_self : within root N n n
| within_child p m : N !! p = Some m -> p <> root -> within root N n (n_parent m) -> within root N n p.

Lemma find_link_spec N dir n k : forall head pp fuel,
  rep N dir head k -> NoDup (ptrs k) -> n ∈ sibs k -> (length (sibs k) <= fuel)%nat ->
  exists kn rest, find_link N fuel pp head n = Some (pp, n) /\ k = Sib n kn rest \/
  exists c, find_link N fuel pp head n = Some (Some c, n) /\ c ∈ sibs k /\ c <> n
    /\ rep (<[c := set_next (n_next (node N n)) (node N c)]> N) dir head (drop_sib n k).
Proof.
  induction k as [|p kids _ rest IHr]; intros head pp fuel; cbn; [set_solver|].
  intros (-> & Hp & m & Hm & Hpar & Hd & Hk & Hr) Hnd Hin Hl. destruct fuel as [|fuel]; [lia|].
  apply list.NoDup_cons in Hnd as [Hnp Hnd]. apply list.NoDup_app in Hnd as (_ & Hdis & Hndr).
  cbn [find_link]. replace (p =? 0) with false by lia. cbn [orb].
  destruct (Z.eqb_spec p n) as [->|Hpn]; [eauto 10|].
  apply elem_of_cons in Hin as [?|Hin]; [congruence|]. rewrite (node_at _ _ _ Hm).
  destruct (IHr (n_next m) (Some p) fuel Hr Hndr Hin ltac:(lia)) as (kn & r & [[E ->]|(c & E & Hc & Hcn & Hrep)]);
    exists kn, r; right.
  - exists p. split; [exact E|]. split; [set_solver|]. split; [exact Hpn|].
    destruct Hr as (_ & _ & mn & Hmn & _ & _ & _ & Hr').
    cbn [drop_sib ptrs] in *. rewrite Z.eqb_refl, (node_at _ _ _ Hmn), (node_at _ _ _ Hm).
    split; [reflexivity|]. split; [exact Hp|]. eexists. split; [apply lookup_insert_eq|]. cbn.
    repeat (split; [assumption|]).
    split; (eapply rep_frame; [|eassumption]); intros q Hq; apply lookup_insert_ne; set_solver.
  - exists c. split; [exact E|]. split; [set_solver|]. split; [exact Hcn|].
    pose proof (sibs_ptrs rest c Hc) as Hcr. assert (c <> p) as Hcp by (intros ->; apply Hnp; set_solver).
    split; [reflexivity|]. split; [exact Hp|]. exists m. rewrite lookup_insert_ne by exact Hcp.
    repeat (split; [assumption|]). split; [|exact Hrep].
    eapply rep_frame; [|exact Hk]. intros q Hq. apply lookup_insert_ne. intros ->. exact (Hdis q Hq Hcr).
Qed.

Lemma accounts_delete N L p n : accounts N L -> N !! p = Some n ->
  accounts (delete p N) ((L ∖ data_block n) ∖ {[p]}).
Proof.
  intros A Hp.
  split.
  - intros x. rewrite !elem_of_difference, elem_of_singleton, data_block_spec, (ac_iff _ _ A). split.
    + intros [[[Hx|(q & m & c & Hq & Hm)] Hno] Hne].
      * left. rewrite lookup_delete_ne by congruence. exact Hx.
      * right. assert (q <> p) by (intros ->; apply Hno; exists c; congruence).
        exists q, m, c. rewrite lookup_delete_ne by congruence. auto.
    + intros [Hx|(q & m & c & Hq & Hm)].
      * apply lookup_delete_is_Some in Hx as [Hne Hx]. repeat split; auto.
        intros [c Hc]. destruct (ac_data _ _ A p n x c Hp Hc) as (Hnone & _). rewrite Hnone in Hx. destruct Hx; discriminate.
      * apply lookup_delete_Some in Hq as [Hne Hq]. destruct (ac_data _ _ A q m x c Hq Hm) as (Hx & _ & _ & Hu).
        split; [split; [right; eauto 10|]|intros ->; congruence]. intros [c' Hc']. apply Hne. eapply Hu; eauto.
  - intros q m x c Hq Hm. apply lookup_delete_Some in Hq as [Hne Hq].
    destruct (ac_data _ _ A q m x c Hq Hm) as (Hx & Hs & Ht & Hu).
    split; [apply lookup_delete_None; auto|]. split; [exact Hs|]. split; [exact Ht|].
    intros q' m' c' Hq' Hm'. apply lookup_delete_Some in Hq' as [_ Hq']. eauto.
Qed.

(** The parent of a node lists it among its children. *)
Lemma in_parent_kids N f : forall par head p, rep N par head f -> NoDup (ptrs f) -> p ∈ ptrs f ->
  p ∈ sibs f \/ exists k, kids_of (n_parent (node N p)) f = Some k /\ p ∈ sibs k.
Proof.
  induction f as [|q kids IHk rest IHr]; intros par head p; cbn; [set_solver|].
  intros (-> & _ & m & Hm & Hpar & _ & Hk & Hr) Hnd Hp.
  apply list.NoDup_cons in Hnd as [Hnq Hnd]. apply list.NoDup_app in Hnd as (Hnk & Hdis & Hnr).
  apply elem_of_cons in Hp as [->|Hp]; [set_solver|]. apply elem_of_app in Hp as [Hp|Hp].
  - right. destruct (IHk _ _ _ Hk Hnk Hp) as [Hs|(k & Ek & Hs)].
    + exists kids. rewrite (rep_sibs_parent _ _ _ _ _ Hk Hs), Z.eqb_refl. auto.
    + exists k. pose proof (kids_of_sub _ _ _ Ek) as [Hx _]. rewrite Ek.
      destruct (Z.eqb_spec q (n_parent (node N p))) as [E|]; [|auto]. rewrite <- E in Hx. set_solver.
  - destruct (IHr _ _ _ Hr Hnr Hp) as [Hs|(k & Ek & Hs)]; [set_solver|]. right. exists k.
    pose proof (kids_of_sub _ _ _ Ek) as [Hx _]. rewrite (kids_of_None _ kids) by (intros Hx'; exact (Hdis _ Hx' Hx)).
    destruct (Z.eqb_spec q (n_parent (node N p))) as [E|]; [|auto]. rewrite <- E in Hx. set_solver.
Qed.

Lemma filter_ne_id (n : Z) (l : list Z) : n ∉ l -> filter (fun q => q <> n) l = l.
Proof.
  induction l as [|x l IH]; intros Hn; [reflexivity|].
  rewrite filter_cons_True by set_solver. f_equal. apply IH. set_solver.
Qed.

(** Taking a sibling with its subtree out of a chain. *)
Lemma drop_sib_spec n k : n ∈ sibs k -> NoDup (ptrs k) ->
  exists kn, kids_of n k = Some kn /\ ptrs k ≡ₚ (n :: ptrs kn) ++ ptrs (drop_sib n k)
    /\ sibs (drop_sib n k) = filter (fun q => q <> n) (sibs k).
Proof.
  induction k as [|q kids _ rest IHr]; cbn [sibs ptrs drop_sib kids_of]; [set_solver|]. intros Hin Hnd.
  apply list.NoDup_cons in Hnd as [Hnq Hnd]. apply list.NoDup_app in Hnd as (Hnk & Hdis & Hnr).
  destruct (Z.eqb_spec q n) as [->|Hne].
  - exists kids. split; [reflexivity|]. split; [reflexivity|].
    rewrite filter_cons_False by auto. symmetry. apply filter_ne_id. intros Hx.
    apply Hnq, elem_of_app. right. apply sibs_ptrs, Hx.
  - apply elem_of_cons in Hin as [?|Hin]; [congruence|]. destruct (IHr Hin Hnr) as (kn & Ek & Hp & Hs).
    pose proof (kids_of_sub _ _ _ Ek) as [Hx _].
    exists kn. rewrite (kids_of_None n kids) by (intros Hx'; exact (Hdis _ Hx' Hx)). split; [exact Ek|].
    rewrite filter_cons_True by exact Hne. cbn [sibs ptrs]. rewrite Hs. split; [|reflexivity].
    rewrite Hp. apply (Permutation_app_swap_app (q :: ptrs kids) (n :: ptrs kn)).
Qed.

(** Children of nodes below [n] are below [n]. *)
Lemma kids_of_nested n x kn F : NoDup (ptrs F) -> kids_of n F = Some kn -> x ∈ ptrs kn -> kids_of x F = kids_of x kn.
Proof.
  induction F as [|q kids IHk rest IHr]; cbn; [discriminate|]. intros Hnd Hk Hx.
  apply list.NoDup_cons in Hnd as [Hnq Hnd]. apply list.NoDup_app in Hnd as (Hnk & Hdis & Hnr).
  destruct (Z.eqb_spec q n) as [->|Hqn].
  - injection Hk as ->. destruct (Z.eqb_spec n x) as [->|]; [set_solver|].
    destruct (kids_of_Some _ _ Hx) as [k ->]. reflexivity.
  - destruct (kids_of n kids) as [kn'|] eqn:E.
    + injection Hk as ->. pose proof (kids_of_sub _ _ _ E) as [_ Hsub]. pose proof (Hsub x Hx) as Hxk.
      destruct (Z.eqb_spec q x) as [->|]; [set_solver|]. rewrite (IHk Hnk eq_refl Hx).
      destruct (kids_of_Some _ _ Hx) as [k ->]. reflexivity.
    + pose proof (kids_of_sub _ _ _ Hk) as [_ Hsub]. pose proof (Hsub x Hx) as Hxr.
      destruct (Z.eqb_spec q x) as [->|]; [set_solver|].
      rewrite (kids_of_None x kids) by (intros Hx'; exact (Hdis _ Hx' Hxr)). auto.
Qed.

Lemma rep_within root N n f : forall par head p, rep N par head f -> root ∉ ptrs f -> within root N n par ->
  p ∈ ptrs f -> within root N n p.
Proof.
  induction f as [|q kids IHk rest IHr]; intros par head p; cbn; [set_solver|].
  intros (-> & _ & m & Hm & Hpar & _ & Hk & Hr) Hroot W Hp.
  assert (within root N n q) as Wq by (apply (within_child _ _ _ q m); [exact Hm|set_solver|congruence]).
  apply elem_of_cons in Hp as [->|Hp]; [exact Wq|]. apply elem_of_app in Hp as [Hp|Hp]; [eapply IHk|eapply IHr]; eauto; set_solver.
Qed.

(** The nodes below [n] in the tree are those whose parents lead to [n]. *)
Lemma within_spec root N F n kn p : tree_ok root N F -> n <> root -> kids_of n F = Some kn -> p ∈ ptrs F ->
  within root N n p <-> p ∈ n :: ptrs kn.
Proof.
  intros T Hnr Hk Hp. pose proof (to_root _ _ _ T) as Hroot. pose proof (to_nodup _ _ _ T) as Hnd. split.
  - intros W. induction W as [|p m Hm Hpr W IH]; [set_solver|].
    destruct (in_parent_kids _ _ _ _ _ (to_rep _ _ _ T) Hnd Hp) as [Hs|(k & Ek & Hs)].
    { rewrite Hroot in Hs. set_solver. }
    rewrite (node_at _ _ _ Hm) in Ek. pose proof (kids_of_sub _ _ _ Ek) as [Hpar _].
    specialize (IH Hpar). apply elem_of_cons in IH as [E|Hin].
    + rewrite E, Hk in Ek. injection Ek as ->. pose proof (sibs_ptrs k p Hs). set_solver.
    + rewrite (kids_of_nested n _ kn F Hnd Hk Hin) in Ek. pose proof (kids_of_sub _ _ _ Ek) as [_ Hsub].
      pose proof (Hsub p (sibs_ptrs k p Hs)). set_solver.
  - intros Hin. apply elem_of_cons in Hin as [->|Hin]; [constructor|].
    destruct (rep_kids _ _ _ _ _ _ (to_rep _ _ _ T) Hk) as (m & _ & Hr & _).
    apply (rep_within root N n kn _ _ p Hr); [|constructor|exact Hin].
    destruct F as [|q f rest]; [discriminate|]. cbn in Hroot. injection Hroot as -> Hrest.
    destruct rest; [|discriminate]. cbn in Hk, Hnd. apply list.NoDup_cons in Hnd as [Hnot _].
    destruct (Z.eqb_spec root n); [congruence|]. destruct (kids_of n f) eqn:E; [|discriminate]. injection Hk as ->.
    pose proof (kids_of_sub _ _ _ E) as [_ Hsub]. set_solver.
Qed.

(** The link that [tfs_rm] overwrites, and the tree without the node. *)
Lemma unlink_spec root N F n : tree_ok root N F -> n ∈ ptrs F -> n <> root ->
  let par := n_parent (node N n) in
  exists k kn pp x x', kids_of par F = Some k /\ n ∈ sibs k /\ kids_of n F = Some kn
    /\ find_link N (size N) None (n_children (node N par)) n = Some (pp, n)
    /\ store_child_link par pp (n_next (node N n)) N = <[x := x']> N
    /\ x ∉ n :: ptrs kn
    /\ (x = par /\ (exists v, x' = set_children v (node N x)) \/ x ∈ sibs k /\ exists v, x' = set_next v (node N x))
    /\ rep (<[x := x']> N) par (n_children (node (<[x := x']> N) par)) (drop_sib n k)
    /\ rep (<[x := x']> N) root root (set_kids par (drop_sib n k) F)
    /\ ptrs F ≡ₚ ptrs (set_kids par (drop_sib n k) F) ++ n :: ptrs kn.
Proof.
  intros T Hn Hnr par. pose proof (to_rep _ _ _ T) as Hrep. pose proof (to_nodup _ _ _ T) as Hnd.
  destruct (in_parent_kids _ _ _ _ _ Hrep Hnd Hn) as [Hs|(k & Ek & Hs)].
  { rewrite (to_root _ _ _ T) in Hs. set_solver. }
  fold par in Ek. pose proof (kids_of_sub _ _ _ Ek) as [Hpar Hsub].
  destruct (find_child_spec root N F par T Hpar) as (k' & Ek' & Hr & Hndk & _ & Hlen & _).
  rewrite Ek in Ek'. injection Ek' as <-. apply list.NoDup_cons in Hndk as [Hpk Hndk].
  destruct (drop_sib_spec n k Hs Hndk) as (kn & Ekn & Hperm & Hsib).
  assert (kids_of n F = Some kn) as EknF by (rewrite (kids_of_nested par n k F); auto; apply sibs_ptrs, Hs).
  destruct (tree_node root _ _ _ T Hpar) as [Hmp _]. destruct (tree_node root _ _ _ T Hn) as [Hmn _].
  assert (ptrs F ≡ₚ ptrs (set_kids par (drop_sib n k) F) ++ n :: ptrs kn) as HpF.
  { apply (Permutation_app_inv_r (ptrs (drop_sib n k))). rewrite <- app_assoc, <- Hperm. symmetry. apply set_kids_ptrs; assumption. }
  assert (n_type (node N par) <> TFS_DIR -> drop_sib n k = Leaf) as Hdir.
  { intros Ht. destruct (rep_kids _ _ _ _ _ _ Hrep Ek) as (m & Hm & _ & Hl). rewrite (node_at _ _ _ Hm) in Ht.
    rewrite (Hl Ht) in Hs. set_solver. }
  pose proof (length_sibs k) as Hls. pose proof (sibs_ptrs k) as Hsp.
  destruct (find_link_spec N par n k _ None (size N) Hr Hndk Hs ltac:(lia))
    as (kn' & rest & [[El ->]|(c & El & Hc & Hcn & Hrc)]).
  - exists (Sib n kn' rest), kn, None, par, (set_children (n_next (node N n)) (node N par)).
    cbn in Ekn. rewrite Z.eqb_refl in Ekn. injection Ekn as ->. cbn [drop_sib] in *. rewrite Z.eqb_refl in *.
    assert (rep (<[par := set_children (n_next (node N n)) (node N par)]> N) par (n_next (node N n)) rest) as Hrest.
    { destruct Hr as (_ & _ & m & Hm & _ & _ & _ & Hr). rewrite (node_at _ _ _ Hm).
      eapply rep_frame; [|exact Hr]. intros q Hq. apply lookup_insert_ne. cbn in Hpk. set_solver. }
    split; [exact Ek|]. split; [exact Hs|]. split; [exact EknF|]. split; [exact El|]. split; [reflexivity|].
    split; [cbn in Hpk; set_solver|]. split; [eauto|]. rewrite node_insert_eq. split; [exact Hrest|]. split; [|exact HpF].
    eapply (rep_set_kids N _ par (node N par) (set_children (n_next (node N n)) (node N par)) (Sib n kn rest)); eauto;
      [apply lookup_insert_eq|].
    intros p _ Hp _. apply lookup_insert_ne. congruence.
  - assert (c <> par) as Hcp by (intros ->; apply Hpk, Hsp, Hc).
    exists k, kn, (Some c), c, (set_next (n_next (node N n)) (node N c)).
    split; [exact Ek|]. split; [exact Hs|]. split; [exact EknF|]. split; [exact El|]. split; [reflexivity|]. split.
    { intros Hin. assert (c ∈ sibs (drop_sib n k)) as Hin2 by (rewrite Hsib; apply list_elem_of_filter; auto).
      apply sibs_ptrs in Hin2. rewrite Hperm in Hndk. apply list.NoDup_app in Hndk as (_ & Hdis & _). exact (Hdis c Hin Hin2). }
    split; [eauto|]. rewrite node_insert_ne by exact Hcp. split; [exact Hrc|]. split; [|exact HpF].
    eapply (rep_set_kids N _ par (node N par) (node N par) k); eauto; [rewrite lookup_insert_ne by exact Hcp; exact Hmp|].
    intros p _ _ Hp. apply lookup_insert_ne. intros ->. apply Hp, Hsp, Hc.
Qed.

Lemma set_kids_self x k f : x ∈ ptrs f -> x ∈ ptrs (set_kids x k f) /\ ptrs k ⊆ ptrs (set_kids x k f).
Proof.
  induction f as [|q kids IHk rest IHr]; cbn; [set_solver|]. intros Hx. destruct (Z.eqb_spec q x) as [->|]; cbn; [set_solver|].
  apply elem_of_cons in Hx as [?|Hx]; [congruence|].
  apply elem_of_app in Hx as [Hx|Hx]; [destruct (IHk Hx)|destruct (IHr Hx)]; set_solver.
Qed.

(** Deleting the nodes of a subtree that the shape no longer holds. *)
Lemma shrink_tree root N N1 N3 F par k' gone k :
  tree_ok root N F -> kids_of par F = Some k -> ptrs F ≡ₚ ptrs (set_kids par k' F) ++ gone ->
  rep N1 root root (set_kids par k' F) -> rep N1 par (n_children (node N1 par)) k' ->
  (forall p, is_Some (N1 !! p) <-> is_Some (N !! p)) -> n_type (node N1 root) = TFS_DIR ->
  (forall p, N3 !! p = if decide (p ∈ gone) then None else N1 !! p) ->
  tree_ok root N3 (set_kids par k' F) /\ rep N3 par (n_children (node N3 par)) k'.
Proof.
  intros T Ek HpF HrF Hrk Hdom Hdir E3. pose proof (to_nodup _ _ _ T) as Hnd. rewrite HpF in Hnd.
  apply list.NoDup_app in Hnd as (Hnd1 & Hdis & _). pose proof (kids_of_sub _ _ _ Ek) as [Hpar _].
  assert (forall p, p ∉ gone -> N3 !! p = N1 !! p) as Hkeep by (intros p Hp; rewrite E3, decide_False by exact Hp; reflexivity).
  assert (forall p, p ∈ ptrs (set_kids par k' F) -> N3 !! p = N1 !! p) as Hsame by (intros p Hp; apply Hkeep, Hdis, Hp).
  destruct (set_kids_self par k' F Hpar) as [Hpar' Hk'].
  assert (root ∈ ptrs (set_kids par k' F)) as Hroot.
  { apply sibs_ptrs. rewrite set_kids_sibs, (to_root _ _ _ T). set_solver. }
  split; [split|].
  - apply (rep_frame N1); assumption.
  - rewrite set_kids_sibs. apply T.
  - exact Hnd1.
  - intros p. rewrite E3. destruct (decide (p ∈ gone)) as [Hg|Hg].
    + split; [intros [? ?]; discriminate|]. intros Hp. exfalso. exact (Hdis p Hp Hg).
    + rewrite Hdom, (to_dom _ _ _ T), HpF, elem_of_app. tauto.
  - unfold node. rewrite Hsame by exact Hroot. exact Hdir.
  - unfold node at 1. rewrite Hsame by exact Hpar'. apply (rep_frame N1); [|exact Hrk].
    intros p Hp. apply Hsame, Hk', Hp.
Qed.

Section remove.
Context {H : Type} `{SmallHeapLaws H} (root : Z).
Implicit Types s : tfs H.

(** Freeing one node with its payload. *)
Lemma free_node_spec N L c n (h : H) : accounts N L -> sh_owns h L -> N !! c = Some n ->
  exists L', accounts (delete c N) L' /\ sh_owns (sh_free c (free_data (n_data n) h)) L'.
Proof.
  intros A O Hc. exists ((L ∖ data_block n) ∖ {[c]}). split; [apply accounts_delete; assumption|].
  apply sh_free_law; [apply (free_data_owns N L c n); auto|].
  apply elem_of_difference. split; [apply A; eauto|]. rewrite data_block_spec. intros [d Hd].
  destruct (ac_data _ _ A c n c d Hc Hd) as (Hx & _). congruence.
Qed.

(** [free_children] ends, and frees exactly the nodes of the chain. *)
Lemma free_list_spec f : forall par c fuel s L,
  rep (nodes s) par c f -> NoDup (ptrs f) -> (length (ptrs f) <= fuel)%nat ->
  accounts (nodes s) L -> sh_owns (fheap s) L ->
  exists s' L', free_list fuel c s = Some s' /\ accounts (nodes s') L' /\ sh_owns (fheap s') L'
    /\ forall p, nodes s' !! p = if decide (p ∈ ptrs f) then None else nodes s !! p.
Proof.
  induction f as [|q kids IHk rest IHr]; intros par c fuel s L; cbn.
  { intros -> _ _ A O. exists s, L. destruct fuel; auto. }
  intros (-> & Hq & n & Hn & _ & _ & Hk & Hr) Hnd Hf A O. rewrite length_app in Hf.
  apply list.NoDup_cons in Hnd as [Hnq Hnd]. apply list.NoDup_app in Hnd as (Hnk & Hdis & Hnr).
  destruct fuel as [|fuel]; [lia|]. cbn [free_list]. replace (q =? 0) with false by lia.
  rewrite (node_at _ _ _ Hn).
  destruct (IHk q (n_children n) fuel s L Hk Hnk ltac:(lia) A O) as (s1 & L1 & -> & A1 & O1 & E1).
  assert (nodes s1 !! q = Some n) as Hn1 by (rewrite E1, decide_False by set_solver; exact Hn).
  cbn [nodes fheap mounts with_nodes]. rewrite node_insert_eq, delete_insert_eq. cbn [n_data set_children].
  rewrite (node_at _ _ _ Hn1).
  destruct (free_node_spec _ _ q n _ A1 O1 Hn1) as (L2 & A2 & O2).
  set (s2 := mk_tfs _ _ _). destruct (IHr par (n_next n) fuel s2 L2) as (s3 & L3 & E & A3 & O3 & E3); auto; [|lia|].
  { apply (rep_frame (nodes s)); [|exact Hr]. intros p Hp. cbn. rewrite lookup_delete_ne by set_solver.
    rewrite E1, decide_False; [reflexivity|]. intros Hp'. exact (Hdis p Hp' Hp). }
  exists s3, L3. split; [exact E|]. split; [exact A3|]. split; [exact O3|]. intros p. rewrite E3. cbn.
  destruct (decide (p ∈ ptrs rest)); [rewrite decide_True by set_solver; reflexivity|].
  destruct (decide (p = q)) as [->|Hpq]; [rewrite lookup_delete_eq, decide_True by set_solver; reflexivity|].
  rewrite lookup_delete_ne, E1 by congruence. apply decide_ext. set_solver.
Qed.

(** The store after [tfs_rm]: the tree below [n] is gone, one link is changed. *)
Lemma rm_spec s F L n : fs_tree root s F L -> n ∈ ptrs F -> n <> root ->
  let par := n_parent (node (nodes s) n) in
  exists s' L' k kn x x', tfs_rm root n s = Some (0, s') /\ kids_of par F = Some k /\ n ∈ sibs k
    /\ kids_of n F = Some kn /\ x ∉ n :: ptrs kn
    /\ (x = par /\ (exists v, x' = set_children v (node (nodes s) x))
        \/ x ∈ sibs k /\ exists v, x' = set_next v (node (nodes s) x))
    /\ (forall p, nodes s' !! p = if decide (p ∈ n :: ptrs kn) then None else (<[x := x']> (nodes s)) !! p)
    /\ rep (nodes s') par (n_children (node (nodes s') par)) (drop_sib n k)
    /\ fs_tree root s' (set_kids par (drop_sib n k) F) L'.
Proof.
  intros (T & A & O) Hn Hnr par.
  destruct (unlink_spec root _ F n T Hn Hnr) as (k & kn & pp & x & x' & Ek & Hs & Ekn & El & Es & Hx & Hxx & Hrk & HrF & HpF).
  fold par in Ek, El, Es, Hxx, Hrk, HrF, HpF. set (N := nodes s) in *. set (N1 := <[x := x']> N) in *.
  destruct (tree_node root _ _ _ T Hn) as [Hmn Hn0]. pose proof (kids_of_sub _ _ _ Ek) as [Hpar Hsub].
  assert (x ∈ ptrs F) as HxF by (destruct Hxx as [[-> _]|[Hxs _]]; [exact Hpar|apply Hsub, sibs_ptrs, Hxs]).
  destruct (tree_node root _ _ _ T HxF) as [Hmx _].
  assert (accounts N1 L) as A1.
  { apply (accounts_update N L x (node N x)); auto; destruct Hxx as [[_ [v ->]]|[_ [v ->]]]; reflexivity. }
  destruct (find_child_spec root N F n T Hn) as (kn' & Ekn' & Hrn & Hndn & _ & Hlen & _).
  rewrite Ekn in Ekn'. injection Ekn' as <-. apply list.NoDup_cons in Hndn as [Hnkn Hndn].
  assert (N1 !! n = Some (node N n)) as Hn1 by (unfold N1; rewrite lookup_insert_ne by set_solver; exact Hmn).
  destruct (free_list_spec kn n (n_children (node N n)) (size N1) (with_nodes N1 s) L) as (s1 & L1 & Ef & A2 & O2 & E2); auto.
  { apply (rep_frame N); [|exact Hrn]. intros q Hq. apply lookup_insert_ne. set_solver. }
  { unfold N1. rewrite map_size_insert_Some by eauto. lia. }
  cbn [nodes with_nodes] in E2.
  assert (nodes s1 !! n = Some (node N n)) as Hn2 by (rewrite E2, decide_False by exact Hnkn; exact Hn1).
  destruct (free_node_spec _ _ n (node N n) _ A2 O2 Hn2) as (L2 & A3 & O3).
  exists (mk_tfs (delete n (nodes s1)) (mounts s1) (sh_free n (free_data (n_data (node N n)) (fheap s1)))), L2, k, kn, x, x'.
  assert (forall p, delete n (nodes s1) !! p = if decide (p ∈ n :: ptrs kn) then None else N1 !! p) as E3.
  { intros p. destruct (decide (p = n)) as [->|Hpn]; [rewrite lookup_delete_eq, decide_True by set_solver; reflexivity|].
    rewrite lookup_delete_ne, E2 by congruence. apply decide_ext. set_solver. }
  split.
  { unfold tfs_rm. fold N. fold par. replace (n =? 0) with false by lia. replace (n =? root) with false by lia. cbn [orb].
    rewrite El. replace (n =? 0) with false by lia. rewrite Es. unfold free_children. cbn [nodes with_nodes].
    rewrite (node_at _ _ _ Hn1), Ef. cbn [nodes with_nodes fheap mounts].
    rewrite node_insert_eq, delete_insert_eq, (node_at _ _ _ Hn2). reflexivity. }
  do 5 (split; [assumption|]). cbn [nodes fheap]. split; [exact E3|].
  destruct (shrink_tree root N N1 (delete n (nodes s1)) F par (drop_sib n k) (n :: ptrs kn) k) as [T' Hrk']; auto.
  - intros p. unfold N1. rewrite lookup_insert_is_Some'. split; [intros [<-|?]; eauto|auto].
  - destruct (decide (root = x)) as [E|Hne]; unfold N1; [|rewrite node_insert_ne by congruence; apply T].
    rewrite E, node_insert_eq. pose proof (to_dir _ _ _ T) as Hd. rewrite E in Hd.
    destruct Hxx as [[_ [v ->]]|[_ [v ->]]]; exact Hd.
  - split; [exact Hrk'|]. exact (conj T' (conj A3 O3)).
Qed.

(** The listings after [tfs_rm]. *)
Lemma rm_list s s' F L L' n k kn x x' d :
  let par := n_parent (node (nodes s) n) in
  fs_tree root s F L -> n ∈ ptrs F -> kids_of par F = Some k -> n ∈ sibs k ->
  (x = par /\ (exists v, x' = set_children v (node (nodes s) x))
   \/ x ∈ sibs k /\ exists v, x' = set_next v (node (nodes s) x)) ->
  (forall p, nodes s' !! p = if decide (p ∈ n :: ptrs kn) then None else (<[x := x']> (nodes s)) !! p) ->
  rep (nodes s') par (n_children (node (nodes s') par)) (drop_sib n k) ->
  fs_tree root s' (set_kids par (drop_sib n k) F) L' ->
  kids_of n F = Some kn -> is_Some (nodes s !! d) -> d ∉ n :: ptrs kn ->
  tfs_list d s' = option_map (filter (fun q => q <> n)) (tfs_list d s).
Proof.
  intros par HF HnF Ek Hs Hxx E3 Hrk HF' Ekn Hd Hgone. pose proof HF as (T & _). pose proof HF' as (T' & _).
  assert (d ∈ ptrs F) as HdF by (apply T, Hd). destruct (tree_node root _ _ _ T HdF) as [Hmd Hd0].
  destruct (find_child_spec root _ F par T (proj1 (kids_of_sub _ _ _ Ek))) as (k0 & Ek0 & Hr & Hndk & _ & Hlk & _).
  rewrite Ek in Ek0. injection Ek0 as <-. apply list.NoDup_cons in Hndk as [Hpk Hndk].
  destruct (find_child_spec root _ F d T HdF) as (kd & Ekd & Hrd & Hndd & _ & Hld & _).
  assert (d ∈ ptrs (set_kids par (drop_sib n k) F)) as HdF'.
  { apply T'. rewrite E3, decide_False by exact Hgone. rewrite lookup_insert_is_Some'. auto. }
  assert (n_type (node (nodes s') d) = n_type (node (nodes s) d) /\ (d <> par -> n_children (node (nodes s') d) = n_children (node (nodes s) d)))
    as [Et Ec].
  { unfold node at 1 3. rewrite E3, decide_False by exact Hgone. destruct (decide (d = x)) as [->|Hne].
    - rewrite lookup_insert_eq. cbn. destruct Hxx as [[Exp [v ->]]|[_ [v ->]]]; split; auto.
      intros Hne. destruct (Hne Exp).
    - rewrite lookup_insert_ne by congruence. auto. }
  unfold tfs_list. rewrite Et. replace (d =? 0) with false by lia. destruct (negb _); [reflexivity|]. cbn [orb].
  pose proof (length_sibs kd) as Hlsd.
  rewrite (siblings_agree (nodes s) (nodes s) kd d _ (size (nodes s)) Hrd) by (lia || auto). cbn [option_map].
  destruct (find_child_spec root _ _ d T' HdF') as (kd' & _ & Hrd' & _ & _ & Hld' & _). pose proof (length_sibs kd') as Hlsd'.
  pose proof (siblings_agree (nodes s') (nodes s') kd' d _ (size (nodes s')) Hrd' ltac:(lia) (fun _ _ => eq_refl)) as E1.
  rewrite E1. f_equal. destruct (decide (d = par)) as [->|Hdp]; (eapply siblings_det; [exact E1|]).
  - assert (kd = k) as -> by congruence. destruct (drop_sib_spec n k Hs Hndk) as (_ & _ & _ & <-).
    apply (siblings_agree (nodes s') (nodes s') _ par _ (length (sibs (drop_sib n k)))); auto.
  - rewrite (Ec Hdp), filter_ne_id.
    + apply (siblings_agree (nodes s) (nodes s') kd d _ (length (sibs kd))); auto. intros p Hp.
      assert (p ∉ n :: ptrs kn) as Hpg.
      { intros Hpg. pose proof (rep_sibs_parent _ _ _ _ _ Hrd Hp) as Hpd. apply elem_of_cons in Hpg as [->|Hpg]; [exact (Hdp (eq_sym Hpd))|].
        destruct (rep_kids _ _ _ _ _ _ (to_rep _ _ _ T) Ekn) as (mn & _ & Hrn & _).
        pose proof (rep_live _ _ _ _ _ Hrn Hpg) as [_ [mp Hmp]]. rewrite (node_at _ _ _ Hmp) in Hpd.
        destruct (rep_parent _ _ _ _ _ _ Hrn Hpg Hmp); rewrite Hpd in *; set_solver. }
      unfold node at 1. rewrite E3, decide_False by exact Hpg. destruct (decide (p = x)) as [->|Hpx].
      * rewrite lookup_insert_eq. cbn. destruct Hxx as [[_ [v ->]]|[Hxk _]]; [reflexivity|].
        pose proof (rep_sibs_parent _ _ _ _ _ Hr Hxk). pose proof (rep_sibs_parent _ _ _ _ _ Hrd Hp). congruence.
      * rewrite lookup_insert_ne by congruence. reflexivity.
    + intros Hn. pose proof (rep_sibs_parent _ _ _ _ _ Hrd Hn) as Hp. fold par in Hp. congruence.
Qed.


End remove.

(** * All operations *)

Section all.
Context {H : Type} `{SmallHeapLaws H} (root : Z).
Implicit Types s : tfs H.

(** The state at boot: the static root and an allocator that never hands out
    its address. *)
Definition tfs_boot (h : H) : tfs H := mk_tfs {[root := root_node root]} [] h.

Lemma boot_ok h : root <> 0 -> sh_owns h {[root]} -> fs_ok root (tfs_boot h).
Proof.
  intros Hr O. exists (Sib root Leaf Leaf), {[root]}. unfold tfs_boot. cbn [nodes fheap]. split; [|split; [|exact O]].
  - assert (node {[root := root_node root]} root = root_node root) as E by apply node_at, lookup_singleton_eq.
    split; cbn [nodes tfs_boot ptrs sibs rep app].
    + split; [reflexivity|]. split; [exact Hr|]. exists (root_node root). split; [apply lookup_singleton_eq|]. cbn. auto 10.
    + reflexivity.
    + apply NoDup_singleton.
    + intros p. rewrite list_elem_of_singleton. destruct (decide (p = root)) as [->|Hne].
      * split; [auto|]. intros _. exists (root_node root). apply lookup_singleton_eq.
      * rewrite lookup_singleton_ne by congruence. split; [intros [? ?]; discriminate|congruence].
    + rewrite E. reflexivity.
  - split.
    + intros x. rewrite elem_of_singleton. split.
      * intros ->. left. exists (root_node root). apply lookup_singleton_eq.
      * intros [[n Hn]|(p & n & c & Hp & Hd)]; [apply lookup_singleton_Some in Hn as [-> _]; reflexivity|].
        apply lookup_singleton_Some in Hp as [_ <-]. discriminate.
    + intros p n x c Hp Hd. apply lookup_singleton_Some in Hp as [_ <-]. discriminate.
Qed.

(** A node with generated content takes the place of a file without data. *)
Lemma add_virtual_ok s dir name gen : fs_ok root s -> dir = 0 \/ is_Some (nodes s !! dir) ->
  fs_ok root (tfs_add_virtual dir name gen s).2.
Proof.
  intros (F & L & HF) Hd. unfold tfs_add_virtual. destruct (Z.eqb_spec dir 0) as [->|Hd0]; [exists F, L; exact HF|].
  destruct (Z.eqb_spec (n_type (node (nodes s) dir)) TFS_DIR) as [Ht|Ht]; cbn [orb negb]; [|exists F, L; exact HF].
  destruct Hd as [?|Hd]; [contradiction|]. pose proof HF as (T & A & O).
  assert (dir ∈ ptrs F) as Hin by (apply T, Hd). destruct (alloc_node name TFS_FILE s) as [p s1] eqn:Ea.
  destruct (create_child root s F L dir name TFS_FILE p s1 HF Hin Ht Ea) as [(-> & En & HF1)|(Hp & HpF & En & F' & HF' & _)].
  { exists F, L. exact HF1. }
  replace (p =? 0) with false by lia. cbn [snd].
  set (s2 := link_child dir p s1) in *. set (new := new_node _ _ _ _) in En.
  assert (nodes (link_child dir p (with_nodes (<[p := set_gen gen (node (nodes s1) p)]> (nodes s1)) s1))
          = <[p := set_gen gen new]> (nodes s2)) as E.
  { assert (p <> dir) as Hpd by (intros ->; contradiction). subst s2 new.
    unfold alloc_node in Ea. destruct (sh_malloc 120 (fheap s)) as [q h]. destruct (q =? 0); [congruence|].
    injection Ea as -> <-. unfold link_child. cbn.
    rewrite !node_insert_eq, !insert_insert_eq, !(node_insert_ne _ p dir) by exact Hpd.
    rewrite (insert_insert_ne _ p dir) by exact Hpd. rewrite insert_insert_eq. reflexivity. }
  pose proof HF' as (T' & A' & O').
  assert (nodes s2 !! p = Some new) as Hp2 by (rewrite En; apply (grow_new (nodes s) F); auto).
  exists F', ({[p]} ∪ L). rewrite E. split; [|split; [|exact O']].
  - apply (tree_update root _ _ p new); auto.
  - apply (accounts_update _ _ p new); auto.
Qed.

(** Calls of the interface; pointers are null or lead to nodes. *)
Inductive fs_step : tfs H -> tfs H -> Prop :=
| st_mkdir s path n s' : tfs_mkdir root path s = Some (n, s') -> fs_step s s'
| st_touch s path n s' : tfs_touch root path s = Some (n, s') -> fs_step s s'
| st_virtual s dir name gen : dir = 0 \/ is_Some (nodes s !! dir) -> fs_step s (tfs_add_virtual dir name gen s).2
| st_write s n data : n = 0 \/ is_Some (nodes s !! n) -> fs_step s (tfs_write n data s).2
| st_rm s n r s' : n = 0 \/ is_Some (nodes s !! n) -> tfs_rm root n s = Some (r, s') -> fs_step s s'
| st_mount s name n : fs_step s (tfs_mount name n s)
| st_init s : fs_step s (tfs_init s).

Lemma make_node_ok path type s n s' : fs_ok root s -> make_node root path type s = Some (n, s') -> fs_ok root s'.
Proof.
  intros (F & L & HF) E. destruct (make_node_spec root path type s F L HF) as (n0 & s0 & E0 & Hok & _).
  rewrite E in E0. injection E0 as -> ->. exact Hok.
Qed.

Lemma step_ok s s' : fs_ok root s -> fs_step s s' -> fs_ok root s'.
Proof.
  intros Hok Hst. destruct Hst as [s path n s' E|s path n s' E|s dir name gen Hd|s n data Hn|s n r s' Hn E|s name n|s].
  - exact (make_node_ok _ _ _ _ _ Hok E).
  - exact (make_node_ok _ _ _ _ _ Hok E).
  - apply add_virtual_ok; assumption.
  - unfold tfs_write. destruct (Z.eqb_spec n 0) as [->|Hn0]; [exact Hok|]. destruct Hn as [?|[m Hm]]; [contradiction|].
    fold (tfs_write n data s). destruct Hok as (F & L & HF).
    destruct (Z.eqb_spec (n_type m) TFS_FILE) as [Ht|Ht].
    + pose proof (write_spec root s F L n m data HF Hm Ht) as Hw. unfold tfs_write in Hw.
      replace (n =? 0) with false in Hw by lia. destruct (if _ || _ then _ else _) as [r s'] in Hw |- *.
      destruct Hw as [(_ & _ & HF')|(_ & d & L' & _ & _ & HF')]; [exists F, L|exists F, L']; exact HF'.
    + rewrite (node_at _ _ _ Hm). replace (n_type m =? TFS_FILE) with false by lia. exists F, L. exact HF.
  - destruct (decide (n = root)) as [->|Hnr].
    { unfold tfs_rm in E. rewrite Z.eqb_refl, orb_true_r in E. injection E as <- <-. exact Hok. }
    destruct Hn as [->|[m Hm]]; [unfold tfs_rm in E; cbn in E; injection E as <- <-; exact Hok|].
    destruct Hok as (F & L & HF). pose proof HF as (T & _). assert (n ∈ ptrs F) as Hin by (apply T; eauto).
    destruct (rm_spec root s F L n HF Hin Hnr) as (s0 & L' & k & kn & x & x' & E0 & _ & _ & _ & _ & _ & _ & _ & HF').
    rewrite E in E0. injection E0 as _ ->. eexists _, L'. exact HF'.
  - destruct Hok as (F & L & T & A & O). unfold tfs_mount. destruct (_ || _); exists F, L; exact (conj T (conj A O)).
  - destruct Hok as (F & L & T & A & O). exists F, L. exact (conj T (conj A O)).
Qed.

End all.

(** * Witnesses *)

(** An allocator that hands out increasing addresses. *)
#[local] Instance rising : SmallHeap Z := { sh_malloc n h := (h, h + 1); sh_free _ h := h }.

#[local] Instance rising_laws : SmallHeapLaws Z.
Proof.
  refine {| sh_owns h L := 0 < h /\ forall x, x ∈ L -> x < h |}.
  - intros h L n p h' [Hh HL] [= <- <-]. right. split; [lia|]. split; [intros Hin; specialize (HL _ Hin); lia|].
    split; [lia|]. intros x Hx. apply elem_of_union in Hx as [Hx%elem_of_singleton|Hx]; [lia|]. specialize (HL x Hx). lia.
  - intros h L p [Hh HL] _. split; [exact Hh|]. intros x Hx. apply HL. set_solver.
Defined.

Definition demo_fs : tfs Z := tfs_boot 8 1000.
(** After [touch "/b"]. *)
Definition demo_fs2 : tfs Z := match tfs_touch 8 [47; 98] demo_fs with Some (_, s) => s | None => demo_fs end.

Lemma demo_owns : sh_owns 1000 ({[8]} : gset Z).
Proof. split; [lia|]. intros x ->%elem_of_singleton. lia. Qed.

Lemma demo_ok : fs_ok 8 demo_fs.
Proof. apply boot_ok; [lia|exact demo_owns]. Qed.

Lemma demo_touch : tfs_touch 8 [47; 98] demo_fs = Some (1000, demo_fs2).
Proof. vm_compute. reflexivity. Qed.

Lemma demo_ok2 : fs_ok 8 demo_fs2.
Proof. exact (make_node_ok 8 _ _ _ _ _ demo_ok demo_touch). Qed.


Lemma tfs_write_read_witness : fs_ok 8 (tfs_write 1000 [104; 105] demo_fs2).2.
Proof.
  pose proof (tfs_write_read 8 demo_fs2 1000 (node (nodes demo_fs2) 1000) [104; 105] demo_ok2) as Hw.
  destruct (tfs_write 1000 [104; 105] demo_fs2) as [r s']. apply Hw; vm_compute; reflexivity.
Defined.



(** A path that ends in a slash creates its directory and reports failure. *)
Lemma mkdir_trailing_slash :
  match tfs_mkdir 8 [97; 47] demo_fs with
  | Some (n, s') => n = 0 /\ tfs_lookup 8 [97] s' = Some 1000
  | None => False
  end.
Proof. vm_compute. split; reflexivity. Qed.

(** A component of 64 bytes is cut to 63: the parent that is created is not
    found again under the name of the path. *)
Lemma long_component_is_lost :
  let path := replicate 64 97 ++ [47; 98] in
  match tfs_touch 8 path demo_fs with
  | Some (n, s') => n <> 0 /\ tfs_lookup 8 path s' = Some 0
  | None => False
  end.
Proof. vm_compute. split; [discriminate|reflexivity]. Qed.
