(* ===== verification/Tsh.v ===== *)
(** The shell library ([src/tsh.c]): environment, command history and the
    tokenizer.

    The static arrays are regions of a byte memory at their addresses
    [env_keys], [env_vals], [hist_entries] and [arg_buf], so that a row that
    is not terminated, or an index past a row, reads and writes the bytes that
    follow.  [None] means that a walk ran out of fuel. *)
From stdpp Require Import prelude gmap list numbers.
From Stdlib Require Import ZArith Lia ZifyBool.
From S2P Require Import Prelude Tstring.
#[local] Open Scope Z_scope.

(** * The library *)

Definition ENV_MAX : Z := 16.
Definition ENV_KEY_LEN : Z := 32.
Definition ENV_VAL_LEN : Z := 128.
Definition TSH_ARGV_MAX : Z := 8.
Definition TSH_ARG_MAX : Z := 128.
Definition TSH_HIST_MAX : Z := 32.
Definition TSH_HIST_LEN : Z := 128.

Record tsh := mk_tsh { tmem : bytes; env_count : Z; hist_count : Z }.

Definition with_tmem (m : bytes) (s : tsh) : tsh := mk_tsh m (env_count s) (hist_count s).

Section tsh.
Context (env_keys env_vals hist_entries arg_buf : Z).

Definition key_row (i : Z) : Z := env_keys + ENV_KEY_LEN * i.
Definition val_row (i : Z) : Z := env_vals + ENV_VAL_LEN * i.
Definition hist_row (i : Z) : Z := hist_entries + TSH_HIST_LEN * i.
Definition arg_row (i : Z) : Z := arg_buf + TSH_ARG_MAX * i.

(** The search loop of [tsh_env_set] and [tsh_env_get]. *)
Fixpoint env_find (m : bytes) (fuel : nat) (key i : Z) (n : nat) : option (option Z) :=
  match n with
  | O => Some None
  | S n' =>
      match tstrcmp m fuel (key_row i) key with
      | None => None
      | Some r => if r =? 0 then Some (Some i) else env_find m fuel key (i + 1) n'
      end
  end.

Definition tsh_env_set (fuel : nat) (key val : Z) (s : tsh) : option (Z * tsh) :=
  match env_find (tmem s) fuel key 0 (Z.to_nat (env_count s)) with
  | None => None
  | Some (Some i) => Some (0, with_tmem (tstrncpy (val_row i) val ENV_VAL_LEN (tmem s)) s)
  | Some None =>
      if env_count s >=? ENV_MAX then Some (-1, s)
      else
        let m1 := tstrncpy (key_row (env_count s)) key ENV_KEY_LEN (tmem s) in
        let m2 := tstrncpy (val_row (env_count s)) val ENV_VAL_LEN m1 in
        Some (0, mk_tsh m2 (env_count s + 1) (hist_count s))
  end.

(** The pointer to the value, [0] for a null pointer. *)
Definition tsh_env_get (fuel : nat) (key : Z) (s : tsh) : option Z :=
  match env_find (tmem s) fuel key 0 (Z.to_nat (env_count s)) with
  | None => None
  | Some (Some i) => Some (val_row i)
  | Some None => Some 0
  end.

(** [tsh_env_seed] calls [tsh_env_set] on these pairs of string literals;
    their addresses are parameters. *)
Fixpoint env_set_all (fuel : nat) (l : list (Z * Z)) (s : tsh) : option tsh :=
  match l with
  | [] => Some s
  | (k, v) :: l' =>
      match tsh_env_set fuel k v s with None => None | Some (_, s') => env_set_all fuel l' s' end
  end.
Definition tsh_env_seed (fuel : nat) (os hostname user home trigeros root_lit slash : Z) (s : tsh) : option tsh :=
  env_set_all fuel [(os, trigeros); (hostname, trigeros); (user, root_lit); (home, slash)] s.

(** What [tsh_env_list] hands to its callback. *)
Definition tsh_env_list (s : tsh) : list (Z * Z) :=
  map (fun i => (key_row i, val_row i)) (seqZ 0 (env_count s)).

(** ** History *)

Definition tsh_hist_push (fuel : nat) (line : Z) (s : tsh) : option (Z * tsh) :=
  let push :=
    if hist_count s <? TSH_HIST_MAX then
      (1, mk_tsh (tstrncpy (hist_row (hist_count s)) line TSH_HIST_LEN (tmem s)) (env_count s) (hist_count s + 1))
    else
      let m1 := tmemmove (hist_row 0) (hist_row 1) ((TSH_HIST_MAX - 1) * TSH_HIST_LEN) (tmem s) in
      (1, with_tmem (tstrncpy (hist_row (TSH_HIST_MAX - 1)) line TSH_HIST_LEN m1) s) in
  if hist_count s >? 0 then
    match tstrcmp (tmem s) fuel (hist_row (hist_count s - 1)) line with
    | None => None
    | Some r => if r =? 0 then Some (0, s) else Some push
    end
  else Some push.

Definition tsh_hist_count (s : tsh) : Z := hist_count s.
Definition tsh_hist_get (i : Z) (s : tsh) : Z :=
  if (i <? 0) || (i >=? hist_count s) then 0 else hist_row i.
Definition tsh_hist_clear (s : tsh) : tsh := mk_tsh (tmem s) (env_count s) 0.

Definition is_digit (c : Z) : bool := (c >=? 48) && (c <=? 57).

(** [Some (Some v)] is success; the [int] accumulator wraps. *)
Fixpoint digits_from (m : bytes) (fuel : nat) (s v : Z) : option (option Z) :=
  if is_digit (rd m s) then
    match fuel with O => None | S f => digits_from m f (s + 1) (s32 (v * 10 + (rd m s - 48))) end
  else if rd m s =? 0 then Some (Some v) else Some None.

Definition parse_num (m : bytes) (fuel : nat) (s : Z) : option (option Z) :=
  if rd m s =? 0 then Some None else digits_from m fuel s 0.

Definition tsh_hist_expand (fuel : nat) (line out outsz : Z) (s : tsh) : option (Z * tsh) :=
  let m := tmem s in
  if negb (rd m line =? 33) then Some (0, s)
  else
    let p := line + 1 in
    if (rd m p =? 33) && (rd m (p + 1) =? 0) then
      if hist_count s =? 0 then Some (-1, s)
      else Some (1, with_tmem (tstrncpy out (hist_row (hist_count s - 1)) outsz m) s)
    else
      match parse_num m fuel p with
      | None => None
      | Some None => Some (0, s)
      | Some (Some idx) =>
          if (idx <? 0) || (idx >=? hist_count s) then Some (-1, s)
          else Some (1, with_tmem (tstrncpy out (hist_row idx) outsz m) s)
      end.

(** ** Tokenizer *)

Definition arg_append (dst n c : Z) (m : bytes) : Z * bytes :=
  (n + 1, if n + 1 <? TSH_ARG_MAX then <[dst + n := c]> m else m).

Definition name_start (c : Z) : bool :=
  ((c >=? 97) && (c <=? 122)) || ((c >=? 65) && (c <=? 90)) || (c =? 95).
Definition name_char (c : Z) : bool := name_start c || is_digit c.

Fixpoint name_end (m : bytes) (fuel : nat) (p : Z) : option Z :=
  if name_char (rd m p) then match fuel with O => None | S f => name_end m f (p + 1) end else Some p.

Fixpoint append_value (fuel : nat) (val dst n : Z) (m : bytes) : option (Z * bytes) :=
  if rd m val =? 0 then Some (n, m)
  else match fuel with
       | O => None
       | S f => let '(n', m') := arg_append dst n (rd m val) m in append_value f (val + 1) dst n' m'
       end.

(** [keybuf] is the local array [key]; the result is the length consumed. *)
Definition expand_var (fuel : nat) (keybuf name dst n : Z) (s : tsh) : option (Z * Z * tsh) :=
  let m := tmem s in
  if negb (name_start (rd m name)) then Some (0, n, s)
  else
    match name_end m fuel (name + 1) with
    | None => None
    | Some e =>
        let used := e - name in
        let kl := if used >=? ENV_KEY_LEN then ENV_KEY_LEN - 1 else used in
        let m1 := <[keybuf + kl := 0]> (tmemcpy keybuf name kl m) in
        match tsh_env_get fuel keybuf (with_tmem m1 s) with
        | None => None
        | Some val =>
            if val =? 0 then Some (used, n, with_tmem m1 s)
            else match append_value fuel val dst n m1 with
                 | None => None
                 | Some (n', m2) => Some (used, n', with_tmem m2 s)
                 end
        end
    end.

Definition blank (c : Z) : bool := (c =? 32) || (c =? 9).

Fixpoint skip_blanks (m : bytes) (fuel : nat) (p : Z) : option Z :=
  if blank (rd m p) then match fuel with O => None | S f => skip_blanks m f (p + 1) end else Some p.

(** One argument: the inner [while] of [tsh_tokenize]. *)
Fixpoint scan_word (fuel : nat) (keybuf dst p n : Z) (in_quote : bool) (s : tsh) : option (Z * Z * tsh) :=
  let c := rd (tmem s) p in
  if (c =? 0) || (negb in_quote && blank c) then Some (p, n, s)
  else match fuel with
       | O => None
       | S f =>
           if c =? 34 then scan_word f keybuf dst (p + 1) n (negb in_quote) s
           else if (c =? 92) && negb (rd (tmem s) (p + 1) =? 0) then
             let '(n', m') := arg_append dst n (rd (tmem s) (p + 1)) (tmem s) in
             scan_word f keybuf dst (p + 2) n' in_quote (with_tmem m' s)
           else if c =? 36 then
             match expand_var f keybuf (p + 1) dst n s with
             | None => None
             | Some (used, n', s') =>
                 if used >? 0 then scan_word f keybuf dst (p + 1 + used) n' in_quote s'
                 else let '(n2, m2) := arg_append dst n' 36 (tmem s') in
                      scan_word f keybuf dst (p + 1) n2 in_quote (with_tmem m2 s')
             end
           else
             let '(n', m') := arg_append dst n c (tmem s) in
             scan_word f keybuf dst (p + 1) n' in_quote (with_tmem m' s)
       end.

Fixpoint tokenize_from (fuel : nat) (keybuf p argc : Z) (max : nat) (s : tsh) : option (list Z * tsh) :=
  match max with
  | O => Some ([], s)
  | S max' =>
      if rd (tmem s) p =? 0 then Some ([], s)
      else
        match skip_blanks (tmem s) fuel p with
        | None => None
        | Some p1 =>
            if (rd (tmem s) p1 =? 0) || (rd (tmem s) p1 =? 35) then Some ([], s)
            else
              let dst := arg_row argc in
              match scan_word fuel keybuf dst p1 0 false s with
              | None => None
              | Some (p2, n, s1) =>
                  let s2 := with_tmem (<[dst + n := 0]> (tmem s1)) s1 in
                  match tokenize_from fuel keybuf p2 (argc + 1) max' s2 with
                  | None => None
                  | Some (argv, s3) => Some (dst :: argv, s3)
                  end
              end
        end
  end.

(** The list is [argv[0 .. argc)]. *)
Definition tsh_tokenize (fuel : nat) (keybuf line max : Z) (s : tsh) : option (list Z * tsh) :=
  tokenize_from fuel keybuf line 0 (Z.to_nat max) s.
End tsh.

(** * Abstract views *)

Abbreviation text := (list Z).

(** Environment: the pairs of the table in order; history: oldest first. *)
Definition env_map (e : list (text * text)) : gmap text text := list_to_map e.

(** [n] bytes at [p] and [k] bytes at [q] do not overlap. *)
Definition separate (p n q k : Z) : Prop := p + n <= q \/ q + k <= p.

(** The history after a new line: a repetition of the newest is dropped, and
    the oldest of 32 lines makes room. *)
Definition hist_after (h : list text) (l : text) : list text :=
  if bool_decide (list.last h = Some l) then h
  else (if (length h <? 32)%nat then h else drop 1 h) ++ [l].

Section views.
Context (env_keys env_vals hist_entries arg_buf : Z).

Record statics_apart : Prop := {
  sa_kv : separate env_keys 512 env_vals 2048;
  sa_kh : separate env_keys 512 hist_entries 4096;
  sa_ka : separate env_keys 512 arg_buf 1024;
  sa_vh : separate env_vals 2048 hist_entries 4096;
  sa_va : separate env_vals 2048 arg_buf 1024;
  sa_ha : separate hist_entries 4096 arg_buf 1024;
  sa_pos : 0 < env_vals /\ 0 < hist_entries
}.

(** [n] bytes at [p] belong to a caller. *)
Definition client (p n : Z) : Prop :=
  separate p n env_keys 512 /\ separate p n env_vals 2048 /\ separate p n hist_entries 4096
  /\ separate p n arg_buf 1024.

Definition env_ok (s : tsh) (e : list (text * text)) : Prop :=
  env_count s = len e /\ (length e <= 16)%nat /\ NoDup (e.*1) /\
  forall i k v, e !! i = Some (k, v) ->
    cstr (tmem s) (key_row env_keys (Z.of_nat i)) k /\ len k < 32
    /\ cstr (tmem s) (val_row env_vals (Z.of_nat i)) v /\ len v < 128.

Definition hist_ok (s : tsh) (h : list text) : Prop :=
  hist_count s = len h /\ (length h <= 32)%nat /\
  forall i l, h !! i = Some l -> cstr (tmem s) (hist_row hist_entries (Z.of_nat i)) l /\ len l < 128.

(** * Environment *)

Lemma env_ok_frame s s' e : env_ok s e -> env_count s' = env_count s ->
  (forall x, env_keys <= x < env_keys + 512 \/ env_vals <= x < env_vals + 2048 -> rd (tmem s') x = rd (tmem s) x) ->
  env_ok s' e.
Proof.
  intros (Hc & Hl & Hnd & He) Hc' Hf. split; [congruence|]. split; [exact Hl|]. split; [exact Hnd|].
  intros i k v Hi. destruct (He i k v Hi) as (Hk & Hkl & Hv & Hvl). apply lookup_lt_Some in Hi.
  split; [|split; [exact Hkl|split; [|exact Hvl]]]; (eapply cstr_frame; [|eassumption]); intros x Hx; apply Hf;
    unfold key_row, val_row, ENV_KEY_LEN, ENV_VAL_LEN in Hx; lia.
Qed.

Lemma hist_ok_frame s s' h : hist_ok s h -> hist_count s' = hist_count s ->
  (forall x, hist_entries <= x < hist_entries + 4096 -> rd (tmem s') x = rd (tmem s) x) -> hist_ok s' h.
Proof.
  intros (Hc & Hl & He) Hc' Hf. split; [congruence|]. split; [exact Hl|].
  intros i l Hi. destruct (He i l Hi) as (Hk & Hkl). apply lookup_lt_Some in Hi.
  split; [|exact Hkl]. eapply cstr_frame; [|exact Hk]. intros x Hx. apply Hf.
  unfold hist_row, TSH_HIST_LEN in Hx. lia.
Qed.

(** The position of a key in the table. *)
Definition env_index (e : list (text * text)) (k : text) : option nat :=
  fst <$> list_find (fun kv => kv.1 = k) e.

Lemma env_find_spec s e key k fuel : env_ok s e -> cstr (tmem s) key k -> (32 <= fuel)%nat ->
  forall n i, (i + n = length e)%nat ->
  env_find env_keys (tmem s) fuel key (Z.of_nat i) n
  = Some ((fun j => Z.of_nat (i + j)) <$> env_index (drop i e) k).
Proof.
  intros (_ & _ & _ & He) Hk Hf. induction n as [|n IH]; intros i Hi; cbn [env_find].
  { rewrite drop_ge by lia. reflexivity. }
  destruct (lookup_lt_is_Some_2 e i) as [[k' v'] Hi']; [lia|].
  destruct (He i k' v' Hi') as (Hk' & Hl' & _).
  destruct (strcmp_spec (tmem s) fuel _ key k' k Hk' Hk ltac:(lia)) as (r & -> & _ & Hr).
  rewrite (drop_S e (k', v') i Hi'). unfold env_index. cbn [list_find fst].
  destruct (Z.eqb_spec r 0) as [E|E]; destruct (decide (k' = k)) as [Ek|Ek]; try (exfalso; tauto).
  - cbn. do 2 f_equal. lia.
  - replace (Z.of_nat i + 1) with (Z.of_nat (S i)) by lia. rewrite IH by lia. unfold env_index.
    destruct (list_find _ (drop (S i) e)) as [[j kv]|]; cbn; [do 2 f_equal; lia|reflexivity].
Qed.

Lemma env_index_map e k : NoDup (e.*1) ->
  match env_index e k with
  | Some i => exists v, e !! i = Some (k, v) /\ env_map e !! k = Some v
  | None => env_map e !! k = None /\ k ∉ e.*1
  end.
Proof.
  intros Hnd. unfold env_index, env_map. destruct (list_find (fun kv => kv.1 = k) e) as [[i [k' v]]|] eqn:E; cbn.
  - apply list_find_Some in E as (Hi & Hk & _). cbn in Hk. subst k'. exists v. split; [exact Hi|].
    apply elem_of_list_to_map_1; [exact Hnd|]. eapply list_elem_of_lookup_2, Hi.
  - apply list_find_None in E. assert (k ∉ e.*1) as Hk; [|split; [apply not_elem_of_list_to_map_1, Hk|exact Hk]].
    intros Hin. apply list_elem_of_fmap in Hin as ([k' v] & -> & Hin). rewrite list.Forall_forall in E.
    exact (E (k', v) Hin eq_refl).
Qed.

Definition env_put (e : list (text * text)) (k v : text) : list (text * text) :=
  match env_index e k with Some i => <[i := (k, v)]> e | None => e ++ [(k, v)] end.

Lemma env_put_map e k v : NoDup (e.*1) -> NoDup ((env_put e k v).*1) /\ env_map (env_put e k v) = <[k := v]> (env_map e).
Proof.
  intros Hnd. pose proof (env_index_map e k Hnd) as He. unfold env_put. destruct (env_index e k) as [i|].
  - destruct He as (v0 & Hi & Hm).
    assert ((<[i := (k, v)]> e).*1 = e.*1) as Ek.
    { rewrite list_fmap_insert. apply list_insert_id. rewrite list_lookup_fmap, Hi. reflexivity. }
    rewrite Ek. split; [exact Hnd|]. unfold env_map. rewrite <- (take_drop_middle e i (k, v0) Hi) at 2.
    rewrite insert_take_drop by (eapply lookup_lt_Some; eauto). rewrite !list_to_map_app. cbn.
    rewrite <- (take_drop_middle e i (k, v0) Hi), fmap_app, fmap_cons in Hnd.
    apply list.NoDup_app in Hnd as (_ & Hdis & _).
    assert (list_to_map (M := gmap text text) (take i e) !! k = None) as Hnone.
    { apply not_elem_of_list_to_map_1. intros Hin. apply (Hdis k Hin). cbn. set_solver. }
    rewrite <- !insert_union_r by exact Hnone. rewrite insert_insert_eq. reflexivity.
  - destruct He as [Hm Hk]. rewrite fmap_app. cbn. split.
    + apply list.NoDup_app. split; [exact Hnd|]. split; [|apply NoDup_singleton]. set_solver.
    + unfold env_map in *. rewrite list_to_map_app. cbn. rewrite insert_empty.
      rewrite <- insert_union_singleton_r by exact Hm. reflexivity.
Qed.
Context (Hlay : statics_apart).

(** Copying a caller's string over one row. *)
Lemma row_write dst n src t m : cstr m src t -> len t < n -> separate src (len t + 1) dst n ->
  cstr (tstrncpy dst src n m) dst t /\ forall x, x < dst \/ dst + n <= x -> rd (tstrncpy dst src n m) x = rd m x.
Proof.
  intros Ht Hn Hs. assert (src + len t < dst \/ dst + n <= src) by (unfold separate in Hs; lia).
  split; [apply strncpy_cstr; assumption|]. apply (strncpy_bytes dst src n t m Ht); [lia|assumption].
Qed.

Lemma env_write_value s e i k v0 v val : env_ok s e -> e !! i = Some (k, v0) -> cstr (tmem s) val v -> len v < 128 ->
  client val (len v + 1) ->
  let s' := with_tmem (tstrncpy (val_row env_vals (Z.of_nat i)) val ENV_VAL_LEN (tmem s)) s in
  env_ok s' (<[i := (k, v)]> e).
Proof.
  intros (Hc & Hl & Hnd & He) Hi Hv Hvl (_ & Cv & _) s'. pose proof (lookup_lt_Some _ _ _ Hi) as Hlt.
  destruct (row_write (val_row env_vals (Z.of_nat i)) ENV_VAL_LEN val v (tmem s) Hv Hvl) as [Hw Hf].
  { unfold separate, val_row, ENV_VAL_LEN in *. lia. }
  split; [rewrite length_insert; exact Hc|]. split; [rewrite length_insert; exact Hl|]. split.
  { rewrite list_fmap_insert, list_insert_id; [exact Hnd|]. rewrite list_lookup_fmap, Hi. reflexivity. }
  pose proof (sa_kv Hlay) as Hkv. unfold separate in Hkv.
  unfold val_row, ENV_VAL_LEN in Hf. intros j k' v' Hj.
  assert (forall m p t, cstr m p t -> (forall x, p <= x <= p + len t -> x < env_vals + 128 * Z.of_nat i \/ env_vals + 128 * Z.of_nat i + 128 <= x) ->
    m = tmem s -> cstr (tmem s') p t) as Hframe.
  { intros m p t Hp Hout ->. eapply cstr_frame; [|exact Hp]. intros x Hx. apply Hf, Hout, Hx. }
  destruct (decide (j = i)) as [->|Hne].
  - rewrite list_lookup_insert_eq in Hj by exact Hlt. injection Hj as <- <-. destruct (He i k v0 Hi) as (Hk & Hkl & _).
    split; [|split; [exact Hkl|split; [exact Hw|exact Hvl]]].
    eapply Hframe; [exact Hk| |reflexivity]. unfold key_row, ENV_KEY_LEN. lia.
  - rewrite list_lookup_insert_ne in Hj by congruence. pose proof (lookup_lt_Some _ _ _ Hj) as Hjl.
    destruct (He j k' v' Hj) as (Hk & Hkl & Hv' & Hvl').
    split; [|split; [exact Hkl|split; [|exact Hvl']]].
    + eapply Hframe; [exact Hk| |reflexivity]. unfold key_row, ENV_KEY_LEN. lia.
    + eapply Hframe; [exact Hv'| |reflexivity]. unfold val_row, ENV_VAL_LEN. lia.
Qed.

(** Outside the two tables. *)
Definition outside_env (x : Z) : Prop :=
  (x < env_keys \/ env_keys + 512 <= x) /\ (x < env_vals \/ env_vals + 2048 <= x).

Lemma env_append s e k v key val : env_ok s e -> (length e < 16)%nat -> k ∉ e.*1 ->
  cstr (tmem s) key k -> len k < 32 -> client key (len k + 1) ->
  cstr (tmem s) val v -> len v < 128 -> client val (len v + 1) ->
  let m1 := tstrncpy (key_row env_keys (env_count s)) key ENV_KEY_LEN (tmem s) in
  let m2 := tstrncpy (val_row env_vals (env_count s)) val ENV_VAL_LEN m1 in
  env_ok (mk_tsh m2 (env_count s + 1) (hist_count s)) (e ++ [(k, v)])
  /\ forall x, outside_env x -> rd m2 x = rd (tmem s) x.
Proof.
  intros (Hc & Hl & Hnd & He) Hlt Hnew Hk Hkl (Ckk & Ckv & Ckh & _) Hv Hvl (Cvk & Cvv & Cvh & _) m1 m2.
  pose proof (sa_kv Hlay) as Hkv. unfold separate in Hkv.
  destruct (row_write (key_row env_keys (env_count s)) ENV_KEY_LEN key k (tmem s) Hk Hkl) as [Hw1 Hf1].
  { unfold separate, key_row, ENV_KEY_LEN in *. lia. }
  fold m1 in Hw1, Hf1. unfold key_row, ENV_KEY_LEN in Hf1.
  assert (cstr m1 val v) as Hv1.
  { eapply cstr_frame; [|exact Hv]. intros x Hx. apply Hf1. unfold separate in Cvk. lia. }
  destruct (row_write (val_row env_vals (env_count s)) ENV_VAL_LEN val v m1 Hv1 Hvl) as [Hw2 Hf2].
  { unfold separate, val_row, ENV_VAL_LEN in *. lia. }
  fold m2 in Hw2, Hf2. unfold val_row, ENV_VAL_LEN in Hf2.
  split; [|intros x [Hxk Hxv]; rewrite Hf2, Hf1 by lia; reflexivity].
  split; [rewrite length_app; cbn; lia|]. split; [rewrite length_app; cbn; lia|]. split.
  { rewrite fmap_app. apply list.NoDup_app. split; [exact Hnd|]. split; [cbn; set_solver|apply NoDup_singleton]. }
  intros j k' v' Hj. cbn [tmem].
  destruct (decide (j = length e)) as [->|Hne].
  - rewrite lookup_app_r, Nat.sub_diag in Hj by lia. injection Hj as <- <-. rewrite <- Hc.
    split; [|split; [exact Hkl|split; [exact Hw2|exact Hvl]]].
    eapply cstr_frame; [|exact Hw1]. intros x Hx. apply Hf2. unfold key_row, ENV_KEY_LEN in Hx. lia.
  - assert (j < length e)%nat as Hjl by (apply lookup_lt_Some in Hj; rewrite length_app in Hj; cbn in Hj; lia).
    rewrite lookup_app_l in Hj by exact Hjl. destruct (He j k' v' Hj) as (Hk' & Hkl' & Hv' & Hvl').
    split; [|split; [exact Hkl'|split; [|exact Hvl']]]; (eapply cstr_frame; [|eassumption]); intros x Hx;
      unfold key_row, val_row, ENV_KEY_LEN, ENV_VAL_LEN in Hx; rewrite Hf2, Hf1 by lia; reflexivity.
Qed.

Lemma env_find_0 s e key k fuel : env_ok s e -> cstr (tmem s) key k -> (32 <= fuel)%nat ->
  env_find env_keys (tmem s) fuel key 0 (Z.to_nat (env_count s)) = Some (Z.of_nat <$> env_index e k).
Proof.
  intros He Hk Hf. pose proof (env_find_spec s e key k fuel He Hk Hf (length e) 0 eq_refl) as E.
  destruct He as (-> & _). rewrite Nat2Z.id. exact E.
Qed.

Lemma env_get_spec s e key k fuel : env_ok s e -> cstr (tmem s) key k -> (32 <= fuel)%nat ->
  exists p, tsh_env_get env_keys env_vals fuel key s = Some p /\
    match env_map e !! k with
    | Some v => p <> 0 /\ cstr (tmem s) p v /\ len v < 128 /\ env_vals <= p /\ p + 128 <= env_vals + 2048
    | None => p = 0
    end.
Proof.
  intros He Hk Hf. unfold tsh_env_get. rewrite (env_find_0 s e key k fuel He Hk Hf).
  pose proof He as (_ & Hl & Hnd & Hrows). pose proof (env_index_map e k Hnd) as Hi.
  destruct (env_index e k) as [i|]; cbn [option_fmap option_map fmap].
  - destruct Hi as (v & Hi & ->). destruct (Hrows i k v Hi) as (_ & _ & Hv & Hvl). apply lookup_lt_Some in Hi.
    exists (val_row env_vals (Z.of_nat i)). split; [reflexivity|]. pose proof (sa_pos Hlay).
    split; [unfold val_row, ENV_VAL_LEN; lia|]. split; [exact Hv|]. split; [exact Hvl|]. unfold val_row, ENV_VAL_LEN. lia.
  - destruct Hi as [-> _]. exists 0. auto.
Qed.

(** The environment is a finite map: with the static arrays apart from
    each other and from the caller's strings, and for keys and values that
    fit their rows, [tsh_env_set] either makes the table represent the map
    updated at the key, or fails with [-1] and changes nothing, exactly when
    the key is new and 16 variables exist; [tsh_env_get] returns a pointer to
    the value of the key, or a null pointer when the map has none.  The
    history is unchanged. *)
Theorem tsh_env_refines_map s e h key k val v fuel :
  env_ok s e -> hist_ok s h -> (32 <= fuel)%nat ->
  cstr (tmem s) key k -> len k < 32 -> client key (len k + 1) ->
  cstr (tmem s) val v -> len v < 128 -> client val (len v + 1) ->
  (exists p, tsh_env_get env_keys env_vals fuel key s = Some p /\
     match env_map e !! k with Some v' => p <> 0 /\ cstr (tmem s) p v' | None => p = 0 end) /\
  exists r s', tsh_env_set env_keys env_vals fuel key val s = Some (r, s') /\ hist_ok s' h /\
    (r = 0 /\ (exists e', env_ok s' e' /\ env_map e' = <[k := v]> (env_map e))
     \/ r = -1 /\ s' = s /\ env_map e !! k = None /\ length e = 16%nat).
Proof.
  intros He Hh Hf Hk Hkl Ck Hv Hvl Cv. split.
  { destruct (env_get_spec s e key k fuel He Hk Hf) as (p & E & Hp). exists p. split; [exact E|].
    destruct (env_map e !! k); [|exact Hp]. destruct Hp as (? & ? & _). auto. }
  unfold tsh_env_set. rewrite (env_find_0 s e key k fuel He Hk Hf).
  pose proof He as (Hc & Hl & Hnd & Hrows). pose proof (env_index_map e k Hnd) as Hi.
  pose proof (env_put_map e k v Hnd) as [_ Hput]. unfold env_put in Hput.
  pose proof (sa_vh Hlay) as Hvh. unfold separate in Hvh.
  destruct (env_index e k) as [i|]; cbn [option_fmap option_map fmap].
  - destruct Hi as (v0 & Hi & _). pose proof (lookup_lt_Some _ _ _ Hi) as Hil.
    eexists _, _. split; [reflexivity|]. split.
    + apply (hist_ok_frame s); [exact Hh|reflexivity|]. intros x Hx.
      apply (row_write (val_row env_vals (Z.of_nat i)) ENV_VAL_LEN val v (tmem s) Hv Hvl);
        unfold separate, val_row, ENV_VAL_LEN; [destruct Cv as (_ & Cv & _); unfold separate in Cv|]; lia.
    + left. split; [reflexivity|]. exists (<[i := (k, v)]> e). split; [|exact Hput]. eapply env_write_value; eauto.
  - destruct Hi as [Hnone Hnew]. unfold ENV_MAX. destruct (Z.geb_spec (env_count s) 16) as [Hge|Hlt].
    + exists (-1), s. split; [reflexivity|]. split; [exact Hh|]. right. repeat split; auto. lia.
    + destruct (env_append s e k v key val He ltac:(lia) Hnew Hk Hkl Ck Hv Hvl Cv) as [He' Hfh].
      eexists _, _. split; [reflexivity|]. split.
      { apply (hist_ok_frame s); [exact Hh|reflexivity|]. intros x Hx. apply Hfh.
        pose proof (sa_kh Hlay) as Hkh. unfold separate in Hkh. split; lia. }
      left. split; [reflexivity|]. exists (e ++ [(k, v)]). split; [exact He'|exact Hput].
Qed.

(** A list of assignments of new keys, as [tsh_env_seed] makes them, with
    strings of the caller that stay where they are. *)
Definition literal_at (s : tsh) (p : Z) (t : text) (n : Z) : Prop := cstr (tmem s) p t /\ len t < n /\ client p (len t + 1).
Definition pair_at (s : tsh) (p : Z * Z) (kv : text * text) : Prop := literal_at s p.1 kv.1 32 /\ literal_at s p.2 kv.2 128.

Lemma literal_at_frame s s' p t n : (forall x, outside_env x -> rd (tmem s') x = rd (tmem s) x) ->
  literal_at s p t n -> literal_at s' p t n.
Proof.
  intros Hf (Hp & Hn & Hc). split; [|auto]. eapply cstr_frame; [|exact Hp]. intros x Hx. apply Hf.
  destruct Hc as (Ck & Cv & _). unfold separate in *. split; lia.
Qed.

Lemma env_set_all_spec fuel l : forall e l' s, (32 <= fuel)%nat -> env_ok s e -> Forall2 (pair_at s) l l' ->
  NoDup ((e ++ l').*1) -> (length e + length l' <= 16)%nat ->
  exists s', env_set_all env_keys env_vals fuel l s = Some s' /\ env_ok s' (e ++ l') /\ hist_count s' = hist_count s /\
    forall x, outside_env x -> rd (tmem s') x = rd (tmem s) x.
Proof.
  induction l as [|[key val] l IH]; intros e l' s Hf He Hl Hnd Hn.
  { apply list.Forall2_nil_inv_l in Hl as ->. exists s. rewrite app_nil_r. auto. }
  apply list.Forall2_cons_inv_l in Hl as ([k v] & l2 & ((Hk & Hkl & Ck) & (Hv & Hvl & Cv)) & Hl & ->). cbn [fst snd length] in *.
  assert (k ∉ e.*1) as Hnew by (rewrite fmap_app in Hnd; apply list.NoDup_app in Hnd as (_ & Hd & _); intros Hin; apply (Hd k Hin); cbn; set_solver).
  cbn [env_set_all]. unfold tsh_env_set. rewrite (env_find_0 s e key k fuel He Hk Hf).
  pose proof (env_index_map e k (proj1 (proj2 (proj2 He)))) as Hi. destruct (env_index e k) as [i|].
  { destruct Hi as (v0 & Hi & _). apply (list_elem_of_lookup_2 _ i) in Hi. destruct Hnew. apply list_elem_of_fmap. exists (k, v0). auto. }
  cbn [option_fmap option_map fmap]. pose proof (proj1 He) as Hc. unfold ENV_MAX. replace (env_count s >=? 16) with false by lia.
  destruct (env_append s e k v key val He ltac:(lia) Hnew Hk Hkl Ck Hv Hvl Cv) as [He' Hfr].
  match type of He' with env_ok ?s1 _ => destruct (IH (e ++ [(k, v)]) l2 s1 Hf He') as (s' & E & A1 & A2 & A3) end.
  - eapply list.Forall2_impl; [exact Hl|]. intros p kv [P1 P2]. split; (eapply literal_at_frame; [exact Hfr|assumption]).
  - rewrite <- app_assoc. exact Hnd.
  - rewrite length_app. cbn [length]. lia.
  - exists s'. split; [exact E|]. rewrite <- app_assoc in A1. split; [exact A1|]. split; [exact A2|].
    intros x Hx. rewrite A3 by exact Hx. apply Hfr, Hx.
Qed.

(** * History *)

Lemma hist_ok_put s h h0 m l line : (length h0 < 32)%nat ->
  (forall i t, h0 !! i = Some t -> cstr m (hist_row hist_entries (Z.of_nat i)) t /\ len t < 128) ->
  cstr m line l -> len l < 128 -> client line (len l + 1) -> hist_count s = len h0 + 1 ->
  tmem s = tstrncpy (hist_row hist_entries (len h0)) line TSH_HIST_LEN m -> h = h0 ++ [l] -> hist_ok s h.
Proof.
  intros Hl Hrows Hline Hll (_ & _ & Ch & _) Hc Hm ->.
  destruct (row_write (hist_row hist_entries (len h0)) TSH_HIST_LEN line l m Hline Hll) as [Hw Hf].
  { unfold separate, hist_row, TSH_HIST_LEN in *. lia. }
  rewrite <- Hm in Hw, Hf. unfold hist_row, TSH_HIST_LEN in Hf.
  split; [rewrite length_app; cbn; lia|]. split; [rewrite length_app; cbn; lia|]. intros i t Hi.
  destruct (decide (i = length h0)) as [->|Hne].
  - rewrite lookup_app_r, Nat.sub_diag in Hi by lia. injection Hi as <-. auto.
  - assert (i < length h0)%nat as Hil by (apply lookup_lt_Some in Hi; rewrite length_app in Hi; cbn in Hi; lia).
    rewrite lookup_app_l in Hi by exact Hil. destruct (Hrows i t Hi) as [Ht Htl]. split; [|exact Htl].
    eapply cstr_frame; [|exact Ht]. intros x Hx. apply Hf. unfold hist_row, TSH_HIST_LEN in Hx. lia.
Qed.

(** The shift of the full table by one row. *)
Lemma hist_shift s h i t : hist_ok s h -> drop 1 h !! i = Some t ->
  cstr (tmemmove (hist_row hist_entries 0) (hist_row hist_entries 1) ((TSH_HIST_MAX - 1) * TSH_HIST_LEN) (tmem s))
    (hist_row hist_entries (Z.of_nat i)) t /\ len t < 128.
Proof.
  intros (_ & Hl & Hrows) Hi. rewrite lookup_drop in Hi. pose proof (lookup_lt_Some _ _ _ Hi) as Hlt.
  destruct (Hrows _ _ Hi) as [Ht Htl]. split; [|exact Htl]. apply cstr_bytes in Ht as [Hf Hb].
  apply cstr_bytes. split; [exact Hf|]. intros k Hk.
  unfold hist_row, TSH_HIST_MAX, TSH_HIST_LEN in *. rewrite tmemmove_spec by lia.
  replace (_ && _) with true by lia. rewrite <- Hb by exact Hk. f_equal. lia.
Qed.

(** The history keeps the last 32 lines: [tsh_hist_push] returns 0 and
    changes nothing when the line repeats the newest one; otherwise it returns
    1 and the history ends with the line, after the lines it held before, of
    which the oldest is dropped when there were 32.  The environment is
    unchanged. *)
Theorem tsh_hist_push_correct s e h line l fuel :
  env_ok s e -> hist_ok s h -> (128 <= fuel)%nat ->
  cstr (tmem s) line l -> len l < 128 -> client line (len l + 1) ->
  exists r s', tsh_hist_push hist_entries fuel line s = Some (r, s') /\ env_ok s' e
    /\ hist_ok s' (hist_after h l) /\ (r = 0 <-> list.last h = Some l).
Proof.
  intros He Hh Hf Hline Hll Cl. pose proof Hh as (Hc & Hl & Hrows).
  pose proof (sa_kh Hlay) as Hkh. pose proof (sa_vh Hlay) as Hvh. unfold separate in Hkh, Hvh.
  assert (forall s' m, tmem s' = tstrncpy (hist_row hist_entries (Z.min (len h) 31)) line TSH_HIST_LEN m ->
    cstr m line l -> (forall x, x < hist_entries \/ hist_entries + 4096 <= x -> rd m x = rd (tmem s) x) ->
    env_count s' = env_count s -> env_ok s' e) as Henv.
  { intros s' m Hm Hlm Hout Ec. apply (env_ok_frame s); [exact He|exact Ec|]. intros x Hx. rewrite Hm.
    destruct (row_write (hist_row hist_entries (Z.min (len h) 31)) TSH_HIST_LEN line l m Hlm Hll) as [_ Hfr].
    { destruct Cl as (_ & _ & Ch & _). unfold separate, hist_row, TSH_HIST_LEN in *. lia. }
    unfold hist_row, TSH_HIST_LEN in *. rewrite Hfr, Hout by lia. reflexivity. }
  assert (list.last h <> Some l -> exists r s', Some (if hist_count s <? TSH_HIST_MAX
    then (1, mk_tsh (tstrncpy (hist_row hist_entries (hist_count s)) line TSH_HIST_LEN (tmem s)) (env_count s) (hist_count s + 1))
    else (1, with_tmem (tstrncpy (hist_row hist_entries (TSH_HIST_MAX - 1)) line TSH_HIST_LEN
               (tmemmove (hist_row hist_entries 0) (hist_row hist_entries 1) ((TSH_HIST_MAX - 1) * TSH_HIST_LEN) (tmem s))) s))
    = Some (r, s') /\ env_ok s' e /\ hist_ok s' (hist_after h l) /\ (r = 0 <-> list.last h = Some l)) as Hpush.
  { intros Hne. unfold hist_after. rewrite bool_decide_false by exact Hne. unfold TSH_HIST_MAX.
    destruct (Z.ltb_spec (hist_count s) 32) as [Hlt|Hge]; eexists _, _; (split; [reflexivity|]).
    - split; [apply (Henv _ (tmem s)); auto; rewrite Hc, Z.min_l by lia; reflexivity|].
      split; [|split; [discriminate|contradiction]]. destruct (Nat.ltb_spec (length h) 32); [|lia].
      apply (hist_ok_put _ _ h (tmem s) l line); auto; cbn; lia || congruence.
    - set (m1 := tmemmove _ _ _ _).
      assert (forall x, x < hist_entries \/ hist_entries + 4096 <= x -> rd m1 x = rd (tmem s) x) as Hout.
      { intros x Hx. unfold m1, hist_row, TSH_HIST_LEN in *. rewrite tmemmove_spec by lia.
        replace (_ && _) with false by lia. reflexivity. }
      assert (cstr m1 line l) as Hlm.
      { eapply cstr_frame; [|exact Hline]. intros x Hx. apply Hout. destruct Cl as (_ & _ & Ch & _). unfold separate in Ch. lia. }
      split; [apply (Henv _ m1); auto; rewrite Z.min_r by lia; reflexivity|].
      split; [|split; [discriminate|contradiction]]. destruct (Nat.ltb_spec (length h) 32); [lia|].
      assert (length (drop 1 h) = 31%nat) as Hd by (rewrite length_drop; lia).
      apply (hist_ok_put _ _ (drop 1 h) m1 l line); auto; rewrite ?Hd; [lia| |cbn; lia|reflexivity].
      intros i t Hi. apply (hist_shift s h); assumption. }
  unfold tsh_hist_push. destruct (Z.gtb_spec (hist_count s) 0) as [Hpos|Hzero].
  - destruct h as [|t0 h0 _] using rev_ind; [cbn in Hc; lia|]. rewrite last_snoc in *.
    rewrite length_app in Hc. cbn in Hc. destruct (Hrows (length h0) t0) as [Ht0 Htl].
    { rewrite lookup_app_r, Nat.sub_diag by lia. reflexivity. }
    replace (hist_count s - 1) with (len h0) by lia.
    destruct (strcmp_spec (tmem s) fuel _ line t0 l Ht0 Hline ltac:(lia)) as (r & -> & _ & Hr).
    destruct (Z.eqb_spec r 0) as [E|E]; [|apply Hpush; intros [= ->]; tauto].
    exists 0, s. assert (t0 = l) as -> by tauto. split; [reflexivity|]. split; [exact He|].
    unfold hist_after. rewrite bool_decide_true by apply last_snoc. split; [exact Hh|tauto].
  - apply Hpush. destruct h; [discriminate|cbn in Hc; lia].
Qed.

(** Pushing a line writes the history only. *)
Lemma hist_push_frame s h line l fuel r s' :
  hist_ok s h -> cstr (tmem s) line l -> len l < 128 -> separate line (len l + 1) hist_entries 4096 ->
  tsh_hist_push hist_entries fuel line s = Some (r, s') ->
  forall x, x < hist_entries \/ hist_entries + 4096 <= x -> rd (tmem s') x = rd (tmem s) x.
Proof.
  intros (Hc & Hl & _) Hline Hll Hsep E x Hx.
  assert (forall i m, 0 <= i <= 31 -> (forall y, y < hist_entries \/ hist_entries + 4096 <= y -> rd m y = rd (tmem s) y) ->
    rd (tstrncpy (hist_row hist_entries i) line TSH_HIST_LEN m) x = rd (tmem s) x) as Hrow.
  { intros i m Hi Hm. destruct (row_write (hist_row hist_entries i) TSH_HIST_LEN line l m) as [_ ->].
    - eapply cstr_frame; [|exact Hline]. intros y Hy. apply Hm. unfold separate in Hsep. lia.
    - exact Hll.
    - unfold separate, hist_row, TSH_HIST_LEN in *. lia.
    - apply Hm, Hx.
    - unfold hist_row, TSH_HIST_LEN. lia. }
  revert E. unfold tsh_hist_push, TSH_HIST_MAX.
  assert (forall p, (if hist_count s <? 32
    then (1, mk_tsh (tstrncpy (hist_row hist_entries (hist_count s)) line TSH_HIST_LEN (tmem s)) (env_count s) (hist_count s + 1))
    else (1, with_tmem (tstrncpy (hist_row hist_entries (32 - 1)) line TSH_HIST_LEN
      (tmemmove (hist_row hist_entries 0) (hist_row hist_entries 1) ((32 - 1) * TSH_HIST_LEN) (tmem s))) s)) = p ->
    rd (tmem p.2) x = rd (tmem s) x) as Hpush.
  { intros p <-. destruct (Z.ltb_spec (hist_count s) 32); cbn [snd tmem with_tmem].
    - apply Hrow; [lia|reflexivity].
    - apply Hrow; [lia|]. intros y Hy. unfold hist_row, TSH_HIST_LEN. rewrite tmemmove_spec by lia.
      replace (_ && _) with false by lia. reflexivity. }
  destruct (hist_count s >? 0); [destruct (tstrcmp _ _ _ _) as [c|]; [destruct (c =? 0)|discriminate]|].
  - injection 1 as <- <-. reflexivity.
  - intros [= E]. exact (Hpush _ E).
  - intros [= E]. exact (Hpush _ E).
Qed.
End views.

(** * The tokenizer on texts

    [var_name l] is the variable name at the start of [l]; [word] scans one
    argument, in or out of quotes, and returns it with the rest of the line;
    [words] scans a line.  [value] gives the value of a variable. *)
Fixpoint name_of (l : text) : text :=
  match l with c :: l' => if name_char c then c :: name_of l' else [] | [] => [] end.

Definition var_name (l : text) : text :=
  match l with c :: l' => if name_start c then c :: name_of l' else [] | [] => [] end.

Definition var_value (e : list (text * text)) (nm : text) : text :=
  default [] (env_map e !! take 31 nm).

Fixpoint word (fuel : nat) (e : list (text * text)) (in_quote : bool) (l : text) : text * text :=
  match fuel, l with
  | _, [] => ([], [])
  | O, _ => ([], l)
  | S f, c :: l' =>
      if negb in_quote && blank c then ([], l)
      else if c =? 34 then word f e (negb in_quote) l'
      else match l' with
           | d :: l2 =>
               if c =? 92 then let '(w, r) := word f e in_quote l2 in (d :: w, r)
               else if c =? 36 then
                 match var_name l' with
                 | [] => let '(w, r) := word f e in_quote l' in (36 :: w, r)
                 | nm => let '(w, r) := word f e in_quote (drop (length nm) l') in (var_value e nm ++ w, r)
                 end
               else let '(w, r) := word f e in_quote l' in (c :: w, r)
           | [] => ([c], [])
           end
  end.

Fixpoint drop_blanks (l : text) : text :=
  match l with c :: l' => if blank c then drop_blanks l' else l | [] => [] end.

Fixpoint words (max : nat) (e : list (text * text)) (l : text) : list text :=
  match max with
  | O => []
  | S max' =>
      match drop_blanks l with
      | [] => []
      | c :: l' => if c =? 35 then []
                   else let '(w, r) := word (S (length l')) e false (c :: l') in w :: words max' e r
      end
  end.

(** A line that tokenizes to given arguments: every byte escaped, between
    quotes. *)
Definition escape (a : text) : text := concat (map (fun c => [92; c]) a).
Definition quote (a : text) : text := 34 :: escape a ++ [34].

Fixpoint quote_line (args : list text) : text :=
  match args with
  | [] => []
  | [a] => quote a
  | a :: args' => quote a ++ 32 :: quote_line args'
  end.

(** ** Lemmas *)

(** The cases of the scanner on a first character. *)
Inductive word_step (F : nat) (e : list (text * text)) (q : bool) (c : Z) (l : text) : text -> text -> Prop :=
| ws_end : negb q && blank c = true -> word_step F e q c l [] (c :: l)
| ws_quote w r : negb q && blank c = false -> c = 34 -> word F e (negb q) l = (w, r) -> word_step F e q c l w r
| ws_escape d l2 w r : negb q && blank c = false -> c = 92 -> l = d :: l2 -> word F e q l2 = (w, r) ->
    word_step F e q c l (d :: w) r
| ws_var w r : negb q && blank c = false -> c = 36 -> var_name l <> [] ->
    word F e q (drop (length (var_name l)) l) = (w, r) -> word_step F e q c l (var_value e (var_name l) ++ w) r
| ws_plain w r : negb q && blank c = false -> c <> 34 -> (c = 92 -> l = []) -> (c = 36 -> var_name l = []) ->
    word F e q l = (w, r) -> word_step F e q c l (c :: w) r.

Lemma word_cases F e q c l w r : word (S F) e q (c :: l) = (w, r) -> word_step F e q c l w r.
Proof.
  cbn [word]. destruct (negb q && blank c) eqn:Eb; [intros [= <- <-]; apply ws_end, Eb|].
  destruct (Z.eqb_spec c 34) as [E|E34]; [intros Hw; apply ws_quote; auto|].
  destruct l as [|d l2].
  { intros [= <- <-]. apply ws_plain; auto. destruct F; reflexivity. }
  destruct (Z.eqb_spec c 92) as [E|E92].
  { destruct (word F e q l2) as [w' r'] eqn:Ew. intros [= <- <-]. eapply ws_escape; eauto. }
  destruct (Z.eqb_spec c 36) as [->|E36].
  - destruct (var_name (d :: l2)) as [|x nm] eqn:En; cbv zeta.
    + destruct (word F e q (d :: l2)) as [w' r'] eqn:Ew. intros [= <- <-]. apply ws_plain; auto. discriminate.
    + destruct (word F e q (drop (length (x :: nm)) (d :: l2))) as [w' r'] eqn:Ew. intros [= <- <-].
      rewrite <- En in *. apply ws_var; auto. congruence.
  - destruct (word F e q (d :: l2)) as [w' r'] eqn:Ew. intros [= <- <-]. apply ws_plain; auto; contradiction.
Qed.

Lemma name_of_spec m : forall l p fuel, cstr m p l -> (length l <= fuel)%nat ->
  name_end m fuel p = Some (p + len (name_of l)).
Proof.
  induction l as [|c l IH]; intros p fuel Hl Hf; cbn [cstr length name_of] in *.
  - destruct fuel; cbn [name_end]; rewrite Hl; cbn; f_equal; lia.
  - destruct Hl as (Hc & Hp & Hl). destruct fuel as [|fuel]; [lia|]. cbn [name_end]. rewrite Hp.
    destruct (name_char c); [|cbn; f_equal; lia]. rewrite (IH (p + 1) fuel Hl ltac:(lia)). cbn [length]. f_equal. lia.
Qed.

Lemma name_of_prefix l : exists r, l = name_of l ++ r.
Proof.
  induction l as [|c l [r IH]]; cbn; [exists []; reflexivity|].
  destruct (name_char c); [exists r; cbn; congruence|exists (c :: l); reflexivity].
Qed.

Lemma var_name_length l : (length (var_name l) <= length l)%nat.
Proof.
  destruct l as [|d l]; cbn; [lia|]. destruct (name_start d); cbn; [|lia].
  destruct (name_of_prefix l) as [y Ey]. rewrite Ey at 2. rewrite length_app. lia.
Qed.

Lemma drop_blanks_spec m : forall l p fuel, cstr m p l -> (length l <= fuel)%nat ->
  exists q, skip_blanks m fuel p = Some q /\ cstr m q (drop_blanks l) /\ q + len (drop_blanks l) = p + len l.
Proof.
  induction l as [|c l IH]; intros p fuel Hl Hf; cbn [cstr length drop_blanks] in *.
  - exists p. destruct fuel; cbn [skip_blanks]; rewrite Hl; cbn; auto.
  - pose proof Hl as (Hc & Hp & Hl'). destruct fuel as [|fuel]; [lia|]. cbn [skip_blanks]. rewrite Hp.
    destruct (blank c).
    + destruct (IH (p + 1) fuel Hl' ltac:(lia)) as (q & -> & Hq & Eq). exists q. split; [reflexivity|]. split; [exact Hq|lia].
    + exists p. split; [reflexivity|]. split; [exact Hl|cbn [length]; lia].
Qed.

Lemma drop_blanks_length l : (length (drop_blanks l) <= length l)%nat.
Proof. induction l as [|c l IH]; cbn; [lia|]. destruct (blank c); cbn; lia. Qed.

(** The scanner never goes back. *)
Lemma word_suffix F e : forall q l w r, word F e q l = (w, r) -> (length r <= length l)%nat.
Proof.
  induction F as [|F IH]; intros q l w r; (destruct l as [|c l]; [intros [= <- <-]; lia|]).
  { intros [= <- <-]. lia. }
  intros Hw. apply word_cases in Hw. destruct Hw as [Eb|w r _ _ Ew|d l2 w r _ _ -> Ew|w r _ _ _ Ew|w r _ _ _ _ Ew];
    [cbn; lia|apply IH in Ew; cbn in *; lia..| |]; apply IH in Ew; rewrite ?length_drop in Ew; cbn; lia.
Qed.

Lemma cstr_drop m p l k : cstr m p l -> (k <= length l)%nat -> cstr m (p + Z.of_nat k) (drop k l).
Proof.
  revert p k. induction l as [|c l IH]; intros p k Hl Hk; destruct k as [|k]; cbn [length drop] in *; try lia;
    try (rewrite Z.add_0_r; exact Hl).
  destruct Hl as (_ & _ & Hl). replace (p + Z.of_nat (S k)) with (p + 1 + Z.of_nat k) by lia. apply IH; [exact Hl|lia].
Qed.

Section scan.
Context (env_keys env_vals hist_entries arg_buf keybuf dst : Z) (s0 : tsh) (e : list (text * text)).
Context (Hlay : statics_apart env_keys env_vals hist_entries arg_buf)
  (Hkey : client env_keys env_vals hist_entries arg_buf keybuf 32)
  (Hdst : arg_buf <= dst /\ dst + 128 <= arg_buf + 1024) (He : env_ok env_keys env_vals s0 e).

(** The state while an argument is scanned: the bytes [pre] are in its row,
    and only the row and the key buffer have changed. *)
Record scanning (s : tsh) (pre : text) : Prop := {
  sc_env : env_count s = env_count s0;
  sc_hist : hist_count s = hist_count s0;
  sc_bytes : Forall (fun c => 0 < c < 256) pre;
  sc_pre : forall k c, pre !! k = Some c -> rd (tmem s) (dst + Z.of_nat k) = c;
  sc_frame : forall x, x < dst \/ dst + 128 <= x -> x < keybuf \/ keybuf + 32 <= x -> rd (tmem s) x = rd (tmem s0) x
}.

(** Bytes of a caller, apart from the row and the key buffer. *)
Definition readable (p n : Z) : Prop :=
  client env_keys env_vals hist_entries arg_buf p n /\ separate p n keybuf 32.

Lemma scanning_cstr s pre p l : scanning s pre -> readable p (len l + 1) -> cstr (tmem s0) p l -> cstr (tmem s) p l.
Proof.
  intros Sc ((_ & _ & _ & Ca) & Ck) Hl. eapply cstr_frame; [|exact Hl]. intros x Hx. apply (sc_frame _ _ Sc); unfold separate in *; lia.
Qed.

Lemma scanning_append s pre c : scanning s pre -> 0 < c < 256 -> len pre < 127 ->
  arg_append dst (len pre) c (tmem s) = (len (pre ++ [c]), <[dst + len pre := c]> (tmem s))
  /\ scanning (with_tmem (<[dst + len pre := c]> (tmem s)) s) (pre ++ [c]).
Proof.
  intros [Se Sh Sb Sp Sf] Hc Hl. split.
  { unfold arg_append, TSH_ARG_MAX. rewrite length_app. cbn [length]. replace (len pre + 1 <? 128) with true by lia. f_equal. lia. }
  split; [exact Se|exact Sh| | |].
  - apply list.Forall_app. split; [exact Sb|]. constructor; [exact Hc|constructor].
  - intros k d Hk. cbn [tmem with_tmem]. destruct (decide (k = length pre)) as [->|Hne].
    + rewrite lookup_app_r, Nat.sub_diag in Hk by lia. injection Hk as <-. apply rd_insert_eq.
    + rewrite rd_insert_ne by lia. apply Sp. apply lookup_app_Some in Hk as [Hk|[Hge Hk]]; [exact Hk|].
      destruct (k - length pre)%nat eqn:Ek; [lia|]. destruct n; discriminate.
  - intros x Hx Hk. cbn [tmem with_tmem]. rewrite rd_insert_ne by lia. apply Sf; assumption.
Qed.

Lemma append_value_spec v : forall val pre s fuel, scanning s pre -> cstr (tmem s) val v -> (length v <= fuel)%nat ->
  len pre + len v <= 127 -> separate val (len v + 1) dst 128 ->
  exists m', append_value fuel val dst (len pre) (tmem s) = Some (len (pre ++ v), m') /\ scanning (with_tmem m' s) (pre ++ v).
Proof.
  induction v as [|c v IH]; intros val pre s fuel Sc Hv Hf Hl Hsep; cbn [cstr length] in *.
  - exists (tmem s). rewrite app_nil_r. destruct fuel; cbn [append_value]; rewrite Hv; (split; [reflexivity|]); destruct s; exact Sc.
  - destruct Hv as (Hc & Hp & Hv). destruct fuel as [|fuel]; [lia|]. cbn [append_value]. rewrite Hp.
    replace (c =? 0) with false by lia. destruct (scanning_append s pre c Sc Hc ltac:(lia)) as [-> Sc'].
    replace (pre ++ c :: v) with ((pre ++ [c]) ++ v) by (rewrite <- app_assoc; reflexivity).
    destruct (IH (val + 1) (pre ++ [c]) (with_tmem (<[dst + len pre := c]> (tmem s)) s) fuel Sc') as (m' & E & Sc2).
    + eapply cstr_frame; [|exact Hv]. intros x Hx. apply rd_insert_ne. unfold separate in Hsep. lia.
    + lia.
    + rewrite length_app. cbn. lia.
    + unfold separate in *. lia.
    + exists m'. split; [exact E|exact Sc2].
Qed.

Lemma name_of_bytes l : Forall (fun c => 0 < c < 256) l -> Forall (fun c => 0 < c < 256) (name_of l).
Proof. destruct (name_of_prefix l) as [r E]. intros Hl. rewrite E in Hl. apply list.Forall_app in Hl as [? _]. assumption. Qed.

(** The key that [expand_var] copies to its local array. *)
Lemma key_copy m name nm r : cstr m name (nm ++ r) -> separate name (len (nm ++ r) + 1) keybuf 32 ->
  let kl := if len nm >=? ENV_KEY_LEN then ENV_KEY_LEN - 1 else len nm in
  let m1 := <[keybuf + kl := 0]> (tmemcpy keybuf name kl m) in
  cstr m1 keybuf (take 31 nm) /\ forall x, x < keybuf \/ keybuf + 32 <= x -> rd m1 x = rd m x.
Proof.
  intros Hl Hsep kl m1. rewrite length_app in Hsep. unfold separate in Hsep.
  assert (kl = len (take 31 nm) /\ 0 <= kl <= 31) as [Ekl Hkl].
  { unfold kl, ENV_KEY_LEN. rewrite length_take. destruct (Z.geb_spec (len nm) 32); lia. }
  assert (forall x, rd m1 x = if x =? keybuf + kl then 0 else
    if (keybuf <=? x) && (x <? keybuf + kl) then rd m (name + (x - keybuf)) else rd m x) as Hm1.
  { intros x. unfold m1. destruct (Z.eqb_spec x (keybuf + kl)) as [->|Hne]; [apply rd_insert_eq|].
    rewrite rd_insert_ne by lia. apply tmemcpy_spec; [lia|]. rewrite length_take in Ekl. lia. }
  apply cstr_bytes in Hl as [Hf Hb]. split.
  - apply cstr_bytes. apply list.Forall_app in Hf as [Hf _]. split; [apply Forall_take, Hf|]. intros k Hk.
    rewrite Hm1. destruct (Z.eqb_spec (keybuf + k) (keybuf + kl)) as [E|E].
    + rewrite nth_overflow by lia. reflexivity.
    + replace (_ && _) with true by lia. replace (name + (keybuf + k - keybuf)) with (name + k) by lia.
      rewrite length_take in *. rewrite Hb by (rewrite length_app; lia).
      rewrite app_nth1 by lia. rewrite <- (take_drop 31 nm) at 1. rewrite app_nth1 by (rewrite length_take; lia). reflexivity.
  - intros x Hx. rewrite Hm1. replace (x =? keybuf + kl) with false by lia. replace (_ && _) with false by lia. reflexivity.
Qed.

Lemma scanning_env s pre : scanning s pre -> env_ok env_keys env_vals s e.
Proof.
  intros Sc. apply (env_ok_frame _ _ s0); [exact He|apply Sc|]. intros x Hx.
  pose proof (sa_ka _ _ _ _ Hlay). pose proof (sa_va _ _ _ _ Hlay). destruct Hkey as (Kk & Kv & _).
  apply (sc_frame _ _ Sc); unfold separate in *; lia.
Qed.

Lemma scanning_key s pre m1 : scanning s pre -> (forall x, x < keybuf \/ keybuf + 32 <= x -> rd m1 x = rd (tmem s) x) ->
  len pre <= 127 -> scanning (with_tmem m1 s) pre.
Proof.
  intros [Se Sh Sb Sp Sf] Hm Hl. split; auto; cbn [tmem with_tmem].
  - intros k c Hk. rewrite Hm; [apply Sp, Hk|]. apply lookup_lt_Some in Hk. destruct Hkey as (_ & _ & _ & Ka).
    unfold separate in Ka. lia.
  - intros x Hx Hx'. rewrite Hm by exact Hx'. apply Sf; assumption.
Qed.

(** [expand_var] on the rest [l] of the line. *)
Lemma expand_var_spec l p pre s fuel : scanning s pre -> cstr (tmem s0) p l -> readable p (len l + 1) ->
  (length l + 128 <= fuel)%nat -> (var_name l <> [] -> len (pre ++ var_value e (var_name l)) <= 127) ->
  match var_name l with
  | [] => expand_var env_keys env_vals fuel keybuf p dst (len pre) s = Some (0, len pre, s)
  | nm => exists s', expand_var env_keys env_vals fuel keybuf p dst (len pre) s
            = Some (len nm, len (pre ++ var_value e nm), s') /\ scanning s' (pre ++ var_value e nm)
  end.
Proof.
  intros Sc Hl Hrd Hf Hlen. pose proof (scanning_cstr s pre p l Sc Hrd Hl) as Hls. unfold expand_var.
  destruct l as [|c l]; cbn [var_name] in *.
  { cbn in Hls. rewrite Hls. reflexivity. }
  pose proof Hls as (Hc & Hp & Hl'). rewrite Hp. destruct (name_start c); [|reflexivity]. cbn [negb length] in *.
  rewrite (name_of_spec (tmem s) l (p + 1) fuel Hl' ltac:(lia)). destruct (name_of_prefix l) as [r Er].
  set (nm := c :: name_of l) in *. replace (p + 1 + len (name_of l) - p) with (len nm) by (unfold nm; cbn [length]; lia).
  destruct (key_copy (tmem s) p nm r) as [Hk Hm1].
  { unfold nm. cbn [app]. rewrite <- Er. exact Hls. }
  { destruct Hrd as [_ Hs]. unfold nm. cbn [app]. rewrite <- Er. exact Hs. }
  set (m1 := <[_ := 0]> _) in *. specialize (Hlen ltac:(discriminate)). rewrite length_app in Hlen.
  pose proof (scanning_key s pre m1 Sc Hm1 ltac:(lia)) as Sc1.
  destruct (env_get_spec env_keys env_vals hist_entries arg_buf Hlay (with_tmem m1 s) e keybuf (take 31 nm) fuel
              (scanning_env _ _ Sc1) Hk ltac:(lia)) as (v & -> & Hv).
  unfold var_value in *. destruct (env_map e !! take 31 nm) as [t|]; cbn [default] in *.
  - destruct Hv as (Hv0 & Hv & Hvl & Hr1 & Hr2). replace (v =? 0) with false by lia.
    destruct (append_value_spec t v pre (with_tmem m1 s) fuel Sc1 Hv ltac:(lia) ltac:(cbn in *; lia)) as (m' & E & Sc2).
    { pose proof (sa_va _ _ _ _ Hlay). unfold separate in *. lia. }
    cbn [tmem with_tmem] in E. rewrite E. eauto.
  - subst v. cbn [Z.eqb]. rewrite app_nil_r. eauto.
Qed.

Lemma readable_drop p (l : text) k : readable p (len l + 1) -> (k <= length l)%nat ->
  readable (p + Z.of_nat k) (len (drop k l) + 1).
Proof. rewrite length_drop. intros ((? & ? & ? & ?) & ?) Hk. repeat split; unfold separate in *; lia. Qed.

(** What one turn of the loop reads: [c] and the [k - 1] bytes after it. *)
Lemma scan_step (l : text) p k : cstr (tmem s0) p l -> readable p (len l + 1) -> (k <= length l)%nat ->
  cstr (tmem s0) (p + Z.of_nat k) (drop k l) /\ readable (p + Z.of_nat k) (len (drop k l) + 1)
  /\ p + Z.of_nat k + len (drop k l) = p + len l.
Proof.
  intros Hl Hr Hk. split; [apply cstr_drop; assumption|]. split; [apply readable_drop; assumption|].
  rewrite length_drop. lia.
Qed.

(** The scan of one character as a step of the text scanner. *)
Lemma scan_next fuel l p k pre' w' w q' s' r :
  (forall F l p q pre s w r, scanning s pre -> cstr (tmem s0) p l -> readable p (len l + 1) ->
    (length l + 128 <= fuel)%nat -> (length l <= F)%nat -> word F e q l = (w, r) -> len (pre ++ w) <= 127 ->
    exists p' s', scan_word env_keys env_vals fuel keybuf dst p (len pre) q s = Some (p', len (pre ++ w), s')
      /\ scanning s' (pre ++ w) /\ cstr (tmem s0) p' r /\ p' + len r = p + len l) ->
  cstr (tmem s0) p l -> readable p (len l + 1) -> (length l + 128 <= S fuel)%nat -> len w <= 127 ->
  forall F', scanning s' pre' -> (1 <= k <= length l)%nat -> (length l <= S F')%nat ->
  word F' e q' (drop k l) = (w', r) -> pre' ++ w' = w ->
  exists p' s'', scan_word env_keys env_vals fuel keybuf dst (p + Z.of_nat k) (len pre') q' s' = Some (p', len w, s'')
    /\ scanning s'' w /\ cstr (tmem s0) p' r /\ p' + len r = p + len l.
Proof.
  intros IH Hl Hr Hf Hlen F' Sc Hk HF Hw <-. destruct (scan_step l p k Hl Hr ltac:(lia)) as (Hl' & Hr' & El).
  rewrite <- El. apply (IH F' (drop k l)); auto; rewrite length_drop; lia.
Qed.

Lemma scan_word_spec fuel : forall F l p q pre s w r,
  scanning s pre -> cstr (tmem s0) p l -> readable p (len l + 1) ->
  (length l + 128 <= fuel)%nat -> (length l <= F)%nat -> word F e q l = (w, r) -> len (pre ++ w) <= 127 ->
  exists p' s', scan_word env_keys env_vals fuel keybuf dst p (len pre) q s = Some (p', len (pre ++ w), s')
    /\ scanning s' (pre ++ w) /\ cstr (tmem s0) p' r /\ p' + len r = p + len l.
Proof.
  induction fuel as [|fuel IH]; intros F l p q pre s w r Sc Hl Hr Hf HF Hw Hlen; [lia|].
  pose proof (scanning_cstr s pre p l Sc Hr Hl) as Hls. destruct l as [|c l]; cbn [cstr] in Hls.
  { cbn [scan_word]. rewrite Hls. destruct F; injection Hw as <- <-; rewrite app_nil_r; eauto 6. }
  destruct F as [|F]; [cbn in HF; lia|]. destruct Hls as (Hc & Hp & Hls).
  pose proof (fun k pre' w' q' s' => scan_next fuel (c :: l) p k pre' w' (pre ++ w) q' s' r IH Hl Hr Hf Hlen F) as Hnext.
  cbn [scan_word]. rewrite Hp. replace (c =? 0) with false by lia. cbn [orb].
  assert (forall d w', 0 < d < 256 -> w = d :: w' -> exists m', arg_append dst (len pre) d (tmem s) = (len (pre ++ [d]), m')
    /\ scanning (with_tmem m' s) (pre ++ [d]) /\ (pre ++ [d]) ++ w' = pre ++ w) as Happ.
  { intros d w' Hd ->. rewrite length_app in Hlen. cbn in Hlen. destruct (scanning_append s pre d Sc Hd ltac:(lia)) as [E Sc'].
    eexists. split; [exact E|]. split; [exact Sc'|]. rewrite <- app_assoc. reflexivity. }
  apply word_cases in Hw. destruct Hw as [Eb|w r Eb -> Ew|d l2 w' r Eb -> -> Ew|w' r Eb -> Hv Ew|w' r Eb H34 H92 H36 Ew].
  - rewrite Eb, app_nil_r. eauto 6.
  - rewrite Eb. cbn [Z.eqb Pos.eqb]. apply (Hnext 1%nat pre w (negb q) s); auto; cbn [length drop] in *; lia || assumption.
  - destruct Hls as (Hd & Hpd & _). rewrite Eb, Hpd. replace (d =? 0) with false by lia. cbn [Z.eqb Pos.eqb negb andb].
    destruct (Happ d w' Hd eq_refl) as (m' & -> & Sc' & E).
    apply (Hnext 2%nat (pre ++ [d]) w' q); auto; cbn [length drop] in *; lia || assumption.
  - destruct (scan_step (36 :: l) p 1 Hl Hr ltac:(cbn; lia)) as (Hl1 & Hr1 & _). cbn [drop] in Hl1, Hr1.
    pose proof (expand_var_spec l (p + 1) pre s fuel Sc Hl1 Hr1 ltac:(cbn in Hf; lia)) as Hex.
    pose proof (var_name_length l) as Hle. rewrite Eb. cbn [Z.eqb Pos.eqb andb]. destruct (var_name l) as [|x nm]; [contradiction|].
    destruct Hex as (s' & -> & Sc'); [intros _; rewrite !length_app in Hlen; rewrite length_app; lia|].
    replace (len (x :: nm) >? 0) with true by (cbn [length]; lia).
    replace (p + 1 + len (x :: nm)) with (p + Z.of_nat (S (length (x :: nm)))) by lia.
    apply (Hnext _ (pre ++ var_value e (x :: nm)) w' q); auto; cbn [length drop] in *; try lia.
    rewrite <- app_assoc. reflexivity.
  - rewrite Eb. replace (c =? 34) with false by lia. destruct (Happ c w' Hc eq_refl) as (m' & Ea & Sc' & E).
    assert (exists p' s', (let '(n', m') := arg_append dst (len pre) c (tmem s) in
       scan_word env_keys env_vals fuel keybuf dst (p + 1) n' q (with_tmem m' s)) = Some (p', len (pre ++ c :: w'), s')
      /\ scanning s' (pre ++ c :: w') /\ cstr (tmem s0) p' r /\ p' + len r = p + len (c :: l)) as Hplain.
    { rewrite Ea. apply (Hnext 1%nat (pre ++ [c]) w' q); auto; cbn [length drop] in *; lia || assumption. }
    replace ((c =? 92) && negb (rd (tmem s) (p + 1) =? 0)) with false.
    2: { destruct (Z.eqb_spec c 92) as [E92|]; [|reflexivity]. rewrite (H92 E92) in Hls. cbn in Hls. rewrite Hls. reflexivity. }
    destruct (Z.eqb_spec c 36) as [->|]; [|exact Hplain].
    destruct (scan_step (36 :: l) p 1 Hl Hr ltac:(cbn; lia)) as (Hl1 & Hr1 & _). cbn [drop] in Hl1, Hr1.
    pose proof (expand_var_spec l (p + 1) pre s fuel Sc Hl1 Hr1 ltac:(cbn in Hf; lia)) as Hex.
    rewrite (H36 eq_refl) in Hex. rewrite Hex by congruence. exact Hplain.
Qed.
End scan.

(** ** Lines *)

Section tokens.
Context (env_keys env_vals hist_entries arg_buf keybuf : Z) (e : list (text * text)).
Context (Hlay : statics_apart env_keys env_vals hist_entries arg_buf)
  (Hkey : client env_keys env_vals hist_entries arg_buf keybuf 32).
Abbreviation row := (arg_row arg_buf).
Abbreviation readable := (readable env_keys env_vals hist_entries arg_buf keybuf).

(** What tokenizing from the argument [argc] on may change. *)
Record kept (argc : Z) (s s' : tsh) : Prop := {
  kp_env : env_count s' = env_count s;
  kp_hist : hist_count s' = hist_count s;
  kp_mem : forall x, x < row argc \/ arg_buf + 1024 <= x -> x < keybuf \/ keybuf + 32 <= x -> rd (tmem s') x = rd (tmem s) x
}.

Lemma kept_env argc s s' : 0 <= argc -> kept argc s s' -> env_ok env_keys env_vals s e -> env_ok env_keys env_vals s' e.
Proof.
  intros Ha K He. apply (env_ok_frame _ _ s); [exact He|apply K|]. intros x Hx.
  pose proof (sa_ka _ _ _ _ Hlay). pose proof (sa_va _ _ _ _ Hlay). destruct Hkey as (Kk & Kv & _).
  apply (kp_mem _ _ _ K); unfold separate, arg_row, TSH_ARG_MAX in *; lia.
Qed.

Lemma kept_hist argc s s' h : 0 <= argc -> kept argc s s' -> hist_ok hist_entries s h -> hist_ok hist_entries s' h.
Proof.
  intros Ha K Hh. apply (hist_ok_frame _ s); [exact Hh|apply K|]. intros x Hx.
  pose proof (sa_ha _ _ _ _ Hlay). destruct Hkey as (_ & _ & Kh & _).
  apply (kp_mem _ _ _ K); unfold separate, arg_row, TSH_ARG_MAX in *; lia.
Qed.

(** One argument in its row, terminated. *)
Lemma token_spec argc F l p s fuel w r :
  0 <= argc < 8 -> env_ok env_keys env_vals s e -> cstr (tmem s) p l -> readable p (len l + 1) ->
  (length l + 128 <= fuel)%nat -> (length l <= F)%nat -> word F e false l = (w, r) -> len w <= 127 ->
  exists p' s', scan_word env_keys env_vals fuel keybuf (row argc) p 0 false s = Some (p', len w, s')
    /\ let s2 := with_tmem (<[row argc + len w := 0]> (tmem s')) s' in
       cstr (tmem s2) (row argc) w /\ cstr (tmem s2) p' r /\ readable p' (len r + 1)
       /\ env_count s2 = env_count s /\ hist_count s2 = hist_count s
       /\ forall x, x < row argc \/ row argc + 128 <= x -> x < keybuf \/ keybuf + 32 <= x -> rd (tmem s2) x = rd (tmem s) x.
Proof.
  intros Ha He Hl Hr Hf HF Hw Hlen.
  assert (arg_buf <= row argc /\ row argc + 128 <= arg_buf + 1024) as Hrow by (unfold arg_row, TSH_ARG_MAX; lia).
  assert (scanning keybuf (row argc) s s []) as Sc0 by (split; auto; discriminate).
  destruct (scan_word_spec env_keys env_vals hist_entries arg_buf keybuf (row argc) s e Hlay Hkey Hrow He
              fuel F l p false [] s w r Sc0 Hl Hr Hf HF Hw Hlen) as (p' & s' & E & Sc & Hr' & El).
  exists p', s'. split; [exact E|]. cbv zeta. cbn [app tmem with_tmem] in *.
  assert (p <= p') as Hpp by (destruct (word_suffix F e false l w r Hw); lia).
  assert (readable p' (len r + 1)) as Hrd.
  { destruct Hr as ((? & ? & ? & ?) & ?). repeat split; unfold separate in *; lia. }
  destruct Sc as [Se Sh Sb Sp Sf]. split; [|split; [|split; [exact Hrd|split; [exact Se|split; [exact Sh|]]]]].
  - apply cstr_bytes. split; [exact Sb|]. intros k Hk. destruct (Z.eq_dec k (len w)) as [->|Hne].
    + rewrite rd_insert_eq, Nat2Z.id, nth_overflow by lia. reflexivity.
    + rewrite rd_insert_ne by lia. destruct (lookup_lt_is_Some_2 w (Z.to_nat k)) as [c Hc]; [lia|].
      rewrite (nth_lookup_Some _ _ _ _ Hc). replace k with (Z.of_nat (Z.to_nat k)) at 1 by lia. apply Sp, Hc.
  - eapply cstr_frame; [|exact Hr']. intros x Hx. destruct Hrd as ((_ & _ & _ & Ca) & Ck).
    unfold separate in *. rewrite rd_insert_ne by lia. apply Sf; lia.
  - intros x Hx Hx'. rewrite rd_insert_ne by lia. apply Sf; assumption.
Qed.

Lemma tokenize_spec fuel max : forall argc p l s,
  0 <= argc -> argc + Z.of_nat max <= 8 -> env_ok env_keys env_vals s e -> cstr (tmem s) p l -> readable p (len l + 1) ->
  (length l + 128 <= fuel)%nat -> Forall (fun w => len w <= 127) (words max e l) ->
  exists argv s', tokenize_from env_keys env_vals arg_buf fuel keybuf p argc max s = Some (argv, s')
    /\ argv = map row (seqZ argc (len (words max e l))) /\ kept argc s s'
    /\ forall i w, words max e l !! i = Some w -> cstr (tmem s') (row (argc + Z.of_nat i)) w.
Proof.
  induction max as [|max IH]; intros argc p l s Ha Hmax He Hl Hr Hf Hws; cbn [tokenize_from words] in *.
  { exists [], s. repeat split; auto. discriminate. }
  assert (exists argv s', Some ([], s) = Some (argv, s') /\ argv = map row (seqZ argc (len (@nil text))) /\ kept argc s s'
    /\ forall i w, @nil text !! i = Some w -> cstr (tmem s') (row (argc + Z.of_nat i)) w) as Hend.
  { exists [], s. repeat split; auto. discriminate. }
  destruct (drop_blanks_spec (tmem s) l p fuel Hl ltac:(lia)) as (q & Eq & Hq & Elq).
  destruct (Z.eqb_spec (rd (tmem s) p) 0) as [E0|E0].
  { destruct l as [|c l]; [exact Hend|]. cbn [cstr] in Hl. lia. }
  rewrite Eq. assert (readable q (len (drop_blanks l) + 1)) as Hrq.
  { pose proof (drop_blanks_length l). destruct Hr as ((? & ? & ? & ?) & ?). repeat split; unfold separate in *; lia. }
  pose proof (drop_blanks_length l) as Hdl. destruct (drop_blanks l) as [|c l'] eqn:Edl.
  { cbn [cstr] in Hq. rewrite Hq. exact Hend. }
  pose proof Hq as (Hc & Hpc & _). rewrite Hpc. replace (c =? 0) with false by lia. cbn [orb].
  destruct (c =? 35); [exact Hend|]. destruct (word (S (length l')) e false (c :: l')) as [w r] eqn:Ew.
  apply list.Forall_cons in Hws as [Hwl Hws].
  destruct (token_spec argc (S (length l')) (c :: l') q s fuel w r) as (p' & s' & -> & Hw1 & Hr1 & Hrd1 & Ee & Eh & Hfr); auto; try lia.
  set (s2 := with_tmem _ s') in *. assert (kept argc s s2) as K2.
  { split; auto. intros x Hx Hx'. apply Hfr; [unfold arg_row, TSH_ARG_MAX in *; lia|exact Hx']. }
  pose proof (word_suffix _ _ _ _ _ _ Ew) as Hsuf. cbn [length] in *.
  destruct (IH (argc + 1) p' r s2) as (argv & s3 & -> & Ea & K3 & Hrows); auto; try lia.
  { eapply kept_env; [exact Ha|exact K2|exact He]. }
  exists (row argc :: argv), s3. split; [reflexivity|]. split; [|split].
  - rewrite Ea. cbn [length]. rewrite (seqZ_cons argc) by lia. cbn [map]. repeat f_equal; lia.
  - destruct K2 as [A1 B1 C1], K3 as [A2 B2 C2]. split; [congruence|congruence|].
    intros x Hx Hx'. rewrite C2, C1; auto. unfold arg_row, TSH_ARG_MAX in *. lia.
  - intros [|i] t Ht; cbn in Ht.
    + injection Ht as <-. rewrite Z.add_0_r. eapply cstr_frame; [|exact Hw1]. intros x Hx.
      destruct Hkey as (_ & _ & _ & Ka). apply (kp_mem _ _ _ K3); unfold separate, arg_row, TSH_ARG_MAX in *; lia.
    + replace (argc + Z.of_nat (S i)) with (argc + 1 + Z.of_nat i) by lia. apply Hrows, Ht.
Qed.
End tokens.

(** ** Quoting *)

Lemma word_quoted e a : forall F rest, (length (escape a) < F)%nat ->
  match rest with [] => True | c :: _ => blank c = true end ->
  word F e true (escape a ++ 34 :: rest) = (a, rest).
Proof.
  unfold escape.
  induction a as [|c a IH]; intros F rest HF Hr; cbn [map concat app length] in *.
  - destruct F as [|F]; [lia|]. cbn. destruct rest as [|d rest]; [destruct F; reflexivity|].
    destruct F as [|F]; cbn; [reflexivity|]. rewrite Hr. reflexivity.
  - destruct F as [|F]; [lia|]. cbn [word negb andb Z.eqb Pos.eqb]. rewrite IH by (lia || exact Hr). reflexivity.
Qed.

Lemma word_quote e a F rest : (length (quote a) <= F)%nat ->
  match rest with [] => True | c :: _ => blank c = true end -> word F e false (quote a ++ rest) = (a, rest).
Proof.
  intros HF Hr. unfold quote in *. cbn [length app] in *. rewrite length_app in HF. cbn in HF.
  destruct F as [|F]; [lia|]. cbn [word negb andb blank Z.eqb Pos.eqb orb].
  rewrite <- app_assoc. apply word_quoted; [lia|exact Hr].
Qed.

Lemma words_quote_line e args : forall max, (length args <= max)%nat -> words max e (quote_line args) = args.
Proof.
  induction args as [|a args IH]; intros max Hm.
  { destruct max; reflexivity. }
  destruct max as [|max]; [cbn in Hm; lia|]. cbn [length] in Hm.
  assert (forall rest, match rest with [] => True | c :: _ => blank c = true end ->
    words (S max) e (quote a ++ rest) = a :: words max e rest) as Hstep.
  { intros rest Hr. pose proof (word_quote e a (length (quote a ++ rest)) rest ltac:(rewrite length_app; lia) Hr) as Hw.
    unfold quote in *. cbn [app words drop_blanks blank Z.eqb Pos.eqb orb length] in *. rewrite Hw. reflexivity. }
  destruct args as [|b args]; cbn [quote_line].
  - rewrite <- (app_nil_r (quote a)), Hstep by exact I. f_equal. apply (IH max). cbn. lia.
  - rewrite Hstep by reflexivity. f_equal. destruct max as [|max]; [cbn in Hm; lia|].
    change (words (S max) e (32 :: ?x)) with (words (S max) e x). exact (IH (S max) ltac:(lia)).
Qed.

Section lines.
Context (env_keys env_vals hist_entries arg_buf keybuf : Z).

(** The tokenizer implements its specification on texts: on a line in
    memory, with arguments that fit their rows, [tsh_tokenize] returns, the
    argument vector points to the first rows of the argument buffer, the rows
    hold exactly the words of the line as C strings (blanks separate, quotes
    group, a backslash takes the next byte, a dollar sign expands a variable,
    a hash starts a comment), and the environment and the history are
    unchanged. *)
Theorem tsh_tokenize_correct s e h line l max fuel :
  statics_apart env_keys env_vals hist_entries arg_buf ->
  client env_keys env_vals hist_entries arg_buf keybuf 32 ->
  env_ok env_keys env_vals s e -> hist_ok hist_entries s h ->
  cstr (tmem s) line l -> readable env_keys env_vals hist_entries arg_buf keybuf line (len l + 1) ->
  0 <= max <= TSH_ARGV_MAX -> (length l + 128 <= fuel)%nat ->
  Forall (fun w => len w < TSH_ARG_MAX) (words (Z.to_nat max) e l) ->
  exists argv s', tsh_tokenize env_keys env_vals arg_buf fuel keybuf line max s = Some (argv, s')
    /\ argv = map (arg_row arg_buf) (seqZ 0 (len (words (Z.to_nat max) e l)))
    /\ (forall i w, words (Z.to_nat max) e l !! i = Some w -> cstr (tmem s') (arg_row arg_buf (Z.of_nat i)) w)
    /\ env_ok env_keys env_vals s' e /\ hist_ok hist_entries s' h.
Proof.
  intros Hlay Hkey He Hh Hl Hr Hmax Hf Hws. unfold TSH_ARGV_MAX in Hmax.
  destruct (tokenize_spec env_keys env_vals hist_entries arg_buf keybuf e Hlay Hkey fuel (Z.to_nat max) 0 line l s)
    as (argv & s' & E & Ea & K & Hrows); auto; try lia.
  { eapply list.Forall_impl; [exact Hws|]. unfold TSH_ARG_MAX. intros w Hw. lia. }
  exists argv, s'. split; [exact E|]. split; [exact Ea|]. split; [exact Hrows|].
  split; [eapply kept_env|eapply kept_hist]; eauto; lia.
Qed.

(** Quoting and tokenizing are inverse: for any list of at most eight
    arguments of fewer than 128 bytes, the tokenizer splits the line in which
    every byte is escaped and every argument is in double quotes back into
    exactly those arguments, whatever the environment. *)
Theorem tsh_quote_roundtrip s e line args fuel :
  statics_apart env_keys env_vals hist_entries arg_buf ->
  client env_keys env_vals hist_entries arg_buf keybuf 32 -> env_ok env_keys env_vals s e ->
  cstr (tmem s) line (quote_line args) ->
  readable env_keys env_vals hist_entries arg_buf keybuf line (len (quote_line args) + 1) ->
  (length args <= 8)%nat -> Forall (fun a => len a < 128) args -> (length (quote_line args) + 128 <= fuel)%nat ->
  exists argv s', tsh_tokenize env_keys env_vals arg_buf fuel keybuf line 8 s = Some (argv, s')
    /\ length argv = length args
    /\ forall i a, args !! i = Some a -> exists p, argv !! i = Some p /\ cstr (tmem s') p a.
Proof.
  intros Hlay Hkey He Hl Hr Hn Hargs Hf. pose proof (words_quote_line e args 8 Hn) as Hw.
  destruct (tokenize_spec env_keys env_vals hist_entries arg_buf keybuf e Hlay Hkey fuel 8 0 line (quote_line args) s)
    as (argv & s' & E & Ea & _ & Hrows); auto; try lia.
  { rewrite Hw. eapply list.Forall_impl; [exact Hargs|]. intros w Hl'. cbn in *. lia. }
  rewrite Hw in Ea, Hrows. exists argv, s'. split; [exact E|]. rewrite Ea. split.
  { rewrite length_map, length_seqZ. lia. }
  intros i a Hi. exists (arg_row arg_buf (Z.of_nat i)). split; [|exact (Hrows i a Hi)].
  apply lookup_lt_Some in Hi. change (map ?f ?l) with (f <$> l). rewrite list_lookup_fmap, lookup_seqZ_lt by lia. reflexivity.
Qed.
End lines.

(** * History references *)

Lemma value_acc_mono ds : Forall (fun c => is_digit c = true) ds -> forall v, 0 <= v ->
  v <= fold_left (fun a c => a * 10 + digit_val c) ds v.
Proof.
  induction 1 as [|c ds Hc Hds IH]; intros v Hv; cbn [fold_left]; [lia|].
  assert (0 <= digit_val c) by (unfold is_digit in Hc; unfold digit_val; destruct (Z.ltb_spec c 58); lia).
  specialize (IH (v * 10 + digit_val c) ltac:(lia)). lia.
Qed.

Lemma digits_from_spec m ds : Forall (fun c => is_digit c = true) ds -> forall p v fuel,
  cstr m p ds -> (length ds <= fuel)%nat -> 0 <= v ->
  fold_left (fun a c => a * 10 + digit_val c) ds v < 2147483648 ->
  digits_from m fuel p v = Some (Some (fold_left (fun a c => a * 10 + digit_val c) ds v)).
Proof.
  induction 1 as [|c ds Hc Hds IH]; intros p v fuel Hp Hf Hv Hb; cbn [cstr length fold_left] in *.
  { destruct fuel; cbn [digits_from]; rewrite Hp; reflexivity. }
  destruct Hp as (_ & Hp & Hl). destruct fuel as [|fuel]; [lia|]. cbn [digits_from]. rewrite Hp, Hc.
  assert (digit_val c = c - 48 /\ 0 <= c - 48) as [Ed Hd].
  { unfold is_digit in Hc. unfold digit_val. destruct (Z.ltb_spec c 58); lia. }
  pose proof (value_acc_mono ds Hds (v * 10 + digit_val c) ltac:(lia)) as Hm.
  replace (s32 (v * 10 + (c - 48))) with (v * 10 + digit_val c).
  - apply IH; [exact Hl|lia..].
  - rewrite Ed in *. unfold s32. rewrite u32_small by lia. destruct (Z.ltb_spec (v * 10 + (c - 48)) 2147483648); lia.
Qed.

Section expand.
Context (env_keys env_vals hist_entries arg_buf : Z).
Context (Hlay : statics_apart env_keys env_vals hist_entries arg_buf).

(** [!n] copies the [n]-th line of the history, counted from the oldest, and
    fails when there is none. *)
Theorem tsh_hist_expand_number s h line ds out outsz fuel :
  hist_ok hist_entries s h -> cstr (tmem s) line (33 :: ds) -> ds <> [] -> Forall (fun c => is_digit c = true) ds ->
  value 10 ds < 2147483648 -> (length ds <= fuel)%nat -> 128 <= outsz ->
  separate out outsz hist_entries 4096 ->
  exists r s', tsh_hist_expand hist_entries fuel line out outsz s = Some (r, s') /\
    match h !! Z.to_nat (value 10 ds) with
    | Some l => r = 1 /\ cstr (tmem s') out l
    | None => r = -1 /\ s' = s
    end.
Proof.
  intros (Hc & Hl & Hrows) (_ & Hp & Hds) Hne Hdig Hval Hf Hsz Hsep. unfold tsh_hist_expand. rewrite Hp. cbn [Z.eqb Pos.eqb negb].
  destruct ds as [|d ds]; [contradiction|]. pose proof Hds as (_ & Hpd & _). rewrite Hpd.
  pose proof Hdig as Hdig'. apply list.Forall_cons in Hdig' as [Hd _]. unfold is_digit in Hd.
  replace ((d =? 33) && _) with false by lia. unfold parse_num. rewrite Hpd. replace (d =? 0) with false by lia.
  rewrite (digits_from_spec (tmem s) (d :: ds) Hdig (line + 1) 0 fuel Hds Hf ltac:(lia) Hval).
  fold (value 10 (d :: ds)). pose proof (value_acc_mono (d :: ds) Hdig 0 ltac:(lia)) as Hpos. fold (value 10 (d :: ds)) in Hpos.
  set (n := value 10 (d :: ds)) in *. replace (n <? 0) with false by lia. cbn [orb].
  destruct (Z.geb_spec n (hist_count s)) as [Hge|Hlt].
  - rewrite lookup_ge_None_2 by lia. eauto.
  - destruct (lookup_lt_is_Some_2 h (Z.to_nat n)) as [l Hn]; [lia|]. rewrite Hn. eexists _, _. split; [reflexivity|].
    split; [reflexivity|]. destruct (Hrows _ _ Hn) as [Ht Htl]. rewrite Z2Nat.id in Ht by lia.
    apply strncpy_cstr; [exact Ht|lia|]. unfold separate, hist_row, TSH_HIST_LEN in *. lia.
Qed.
End expand.

(** * Witnesses *)

(** Keys at 1000, values at 2000, history at 8000, arguments at 16000, the key
    buffer at 900; the text "A" at 100, "x" at 110 and the line ["A" "x"] with
    its escapes at 200. *)
Definition demo_mem : bytes :=
  store_bytes 100 [65; 0] (store_bytes 110 [120; 0] (store_bytes 200 (quote_line [[65]; [120]] ++ [0]) ∅)).
Definition demo_sh : tsh := mk_tsh demo_mem 0 0.

Lemma demo_apart : statics_apart 1000 2000 8000 16000.
Proof. split; unfold separate; lia. Qed.

Lemma demo_client p n : 0 <= n -> p + n <= 1000 -> client 1000 2000 8000 16000 p n.
Proof. unfold client, separate. lia. Qed.

Lemma demo_env_ok : env_ok 1000 2000 demo_sh [].
Proof. split; [reflexivity|]. split; [cbn; lia|]. split; [constructor|discriminate]. Qed.

Lemma demo_hist_ok : hist_ok 8000 demo_sh [].
Proof. split; [reflexivity|]. split; [cbn; lia|discriminate]. Qed.

Lemma demo_cstr p t : forallb (fun k => rd demo_mem (p + k) =? nth (Z.to_nat k) t 0) (seqZ 0 (len t + 1)) = true ->
  forallb (fun c => (0 <? c) && (c <? 256)) t = true -> cstr demo_mem p t.
Proof.
  intros Hb Hf. rewrite forallb_forall in Hb, Hf. apply cstr_bytes. split.
  - apply List.Forall_forall. intros c Hc. specialize (Hf c Hc). lia.
  - intros k Hk. apply Z.eqb_eq. apply (Hb k). apply list_elem_of_In, elem_of_seqZ. lia.
Qed.

Lemma tsh_env_refines_map_witness :
  exists r s', tsh_env_set 1000 2000 32 100 110 demo_sh = Some (r, s') /\ hist_ok 8000 s' [].
Proof.
  destruct (tsh_env_refines_map 1000 2000 8000 16000 demo_apart demo_sh [] [] 100 [65] 110 [120] 32)
    as (_ & r & s' & E & Hh & _); try (apply demo_client; cbn; lia); try (apply demo_cstr; vm_compute; reflexivity);
    try (cbn; lia); [exact demo_env_ok|exact demo_hist_ok|]. exists r, s'. split; [exact E|exact Hh].
Defined.

Lemma tsh_hist_push_correct_witness :
  exists r s', tsh_hist_push 8000 128 100 demo_sh = Some (r, s') /\ hist_ok 8000 s' [[65]].
Proof.
  destruct (tsh_hist_push_correct 1000 2000 8000 16000 demo_apart demo_sh [] [] 100 [65] 128)
    as (r & s' & E & _ & Hh & _); try (apply demo_client; cbn; lia); try (apply demo_cstr; vm_compute; reflexivity);
    try (cbn; lia); [exact demo_env_ok|exact demo_hist_ok|]. exists r, s'. split; [exact E|exact Hh].
Defined.

Lemma tsh_tokenize_correct_witness :
  exists argv s', tsh_tokenize 1000 2000 16000 400 900 200 8 demo_sh = Some (argv, s') /\ argv = [16000; 16128].
Proof.
  destruct (tsh_tokenize_correct 1000 2000 8000 16000 900 demo_sh [] [] 200 (quote_line [[65]; [120]]) 8 400)
    as (argv & s' & E & Ea & _).
  - exact demo_apart.
  - apply demo_client; lia.
  - exact demo_env_ok.
  - exact demo_hist_ok.
  - apply demo_cstr; vm_compute; reflexivity.
  - split; [apply demo_client; cbn; lia|unfold separate; cbn; lia].
  - unfold TSH_ARGV_MAX. lia.
  - cbn. lia.
  - vm_compute. repeat constructor.
  - exists argv, s'. split; [exact E|]. rewrite Ea. vm_compute. reflexivity.
Defined.

Lemma tsh_quote_roundtrip_witness :
  exists argv s', tsh_tokenize 1000 2000 16000 400 900 200 8 demo_sh = Some (argv, s') /\ length argv = 2%nat.
Proof.
  destruct (tsh_quote_roundtrip 1000 2000 8000 16000 900 demo_sh [] 200 [[65]; [120]] 400)
    as (argv & s' & E & Hl & _).
  - exact demo_apart.
  - apply demo_client; lia.
  - exact demo_env_ok.
  - apply demo_cstr; vm_compute; reflexivity.
  - split; [apply demo_client; cbn; lia|unfold separate; cbn; lia].
  - cbn. lia.
  - repeat constructor; cbn; lia.
  - cbn. lia.
  - exists argv, s'. split; [exact E|exact Hl].
Defined.

(** An argument longer than its row is terminated outside the row: the byte
    at offset 130 belongs to the next argument. *)
Lemma tokenize_writes_past_row :
  let m := <[16130 := 1]> (store_bytes 200 (replicate 130 97 ++ [0]) ∅) in
  match tsh_tokenize 1000 2000 16000 400 900 200 8 (mk_tsh m 0 0) with
  | Some (argv, s') => argv = [16000] /\ rd m 16130 = 1 /\ rd (tmem s') 16130 = 0
  | None => False
  end.
Proof. vm_compute. auto. Qed.
