(* ===== verification/Printf.v ===== *)
(** Formatted output to a character device.

    [serial_vprintf] ([src/serial.c]) and the shell's [tprintf]
    ([src/ternel.c]) are the same loop over a format, once with the serial
    port and once with the text console behind it.  The loop is modelled over
    a record of device operations; the law of that record says that numbers
    come out as their digits, and with it the loop prints exactly the text
    that the format denotes ([Tstring.render]), one character at a time. *)
From Stdlib Require Import String Ascii.
From stdpp Require Import prelude gmap list numbers.
From Stdlib Require Import ZArith Lia ZifyBool List.
From S2P Require Import Prelude Tstring.
#[local] Open Scope Z_scope.

(** A line of text of the source, as bytes. *)
Definition text (s : String.string) : list Z :=
  map (fun a => Z.of_N (N_of_ascii a)) (list_ascii_of_string s).

(** * Devices *)

(** The operations of a device with state [S]; [None] is an operation that
    does not return. *)
Record console (S : Type) := mk_console {
  con_putchar : Z -> S -> option S;
  con_dec : Z -> S -> option S;          (* an unsigned number in decimal *)
  con_hex : Z -> S -> option S           (* an unsigned number in hexadecimal *)
}.
Arguments mk_console {S}. Arguments con_putchar {S}. Arguments con_dec {S}. Arguments con_hex {S}.

Section device.
Context {S : Type} (con : console S).

(** A text, character by character. *)
Fixpoint con_text (l : list Z) (s : S) : option S :=
  match l with
  | [] => Some s
  | c :: l' => s' ← con_putchar con c s; con_text l' s'
  end.

(** Numbers come out as their digits. *)
Record console_ok : Prop := {
  con_dec_ok u l s : 0 <= u < 4294967296 -> to_digits 16 10 u = Some l -> con_dec con u s = con_text l s;
  con_hex_ok u l s : 0 <= u < 4294967296 -> to_digits 16 16 u = Some l -> con_hex con u s = con_text l s
}.

(** * The loop *)

Context (m : bytes).

(** [while ( *s) putchar( *s++);] *)
Fixpoint con_puts (fuel : nat) (p : Z) (s : S) : option S :=
  let c := rd m p in
  if c =? 0 then Some s
  else match fuel with O => None | Datatypes.S f => s' ← con_putchar con c s; con_puts f (p + 1) s' end.

(** One conversion, [c] the character after the percent sign: how many format
    characters it took and the arguments left.  [None] is a missing argument
    or an operation that does not return. *)
Definition con_convert (fuel : nat) (c : Z) (args : list Z) (s : S) : option (Z * list Z * S) :=
  if c =? 37 then s' ← con_putchar con 37 s; Some (1, args, s')
  else if c =? 115 then
    match args with
    | [] => None
    | a :: rest => s' ← (if a =? 0 then con_text null_text s else con_puts fuel a s); Some (1, rest, s')
    end
  else if c =? 100 then
    match args with
    | [] => None
    | a :: rest =>
        let v := s32 a in
        s' ← (if v <? 0 then s1 ← con_putchar con 45 s; con_dec con (u32 (0 - u32 v)) s1
              else con_dec con (u32 v) s);
        Some (1, rest, s')
    end
  else if c =? 117 then
    match args with
    | [] => None
    | a :: rest => s' ← con_dec con (u32 a) s; Some (1, rest, s')
    end
  else if c =? 120 then
    match args with
    | [] => None
    | a :: rest => s' ← con_hex con (u32 a) s; Some (1, rest, s')
    end
  else if c =? 112 then
    match args with
    | [] => None
    | a :: rest => s1 ← con_text [48; 120] s; s' ← con_hex con (u32 a) s1; Some (1, rest, s')
    end
  else if c =? 99 then
    match args with
    | [] => None
    | a :: rest => s' ← con_putchar con (u8 a) s; Some (1, rest, s')
    end
  else s' ← con_putchar con 37 s; Some (0, args, s').

Fixpoint con_vprintf (fuel : nat) (fmt : Z) (args : list Z) (s : S) : option S :=
  let c := rd m fmt in
  if c =? 0 then Some s
  else match fuel with
  | O => None
  | Datatypes.S f =>
      if negb (c =? 37) then s' ← con_putchar con c s; con_vprintf f (fmt + 1) args s'
      else
        match con_convert fuel (rd m (fmt + 1)) args s with
        | None => None
        | Some (k, args', s') => con_vprintf f (fmt + 1 + k) args' s'
        end
  end.

(** * What it prints *)

Lemma con_text_app a b s : con_text (a ++ b) s = s' ← con_text a s; con_text b s'.
Proof. revert s. induction a as [|c a IH]; intros s; simpl; [reflexivity|]. destruct (con_putchar con c s); simpl; auto. Qed.

Lemma con_puts_spec t : forall fuel p s, cstr m p t -> (length t <= fuel)%nat -> con_puts fuel p s = con_text t s.
Proof.
  induction t as [|c t IH]; intros fuel p s Hp Hf.
  - destruct fuel; cbn [con_puts]; rewrite Hp; reflexivity.
  - destruct fuel as [|fuel]; [simpl in Hf; lia|]. destruct Hp as (Hc & Hp0 & Hp).
    cbn [con_puts con_text]. rewrite Hp0. replace (c =? 0) with false by lia.
    destruct (con_putchar con c s); simpl; [|reflexivity]. apply IH; [exact Hp|simpl in Hf; lia].
Qed.

Hypothesis Hok : console_ok.
Context (str : Z -> option (list Z)).
Hypothesis str_ok : forall a t, str a = Some t -> cstr m a t.

(** The digits do not depend on the room for them. *)
Lemma digits_room base : forall r r' v acc l, (r <= r')%nat ->
  digits_loop r base v acc = Some l -> digits_loop r' base v acc = Some l.
Proof.
  induction r as [|r IH]; intros r' v acc l Hr; cbn [digits_loop].
  - destruct (v =? 0) eqn:E; [|discriminate]. intros H. destruct r'; cbn [digits_loop]; rewrite E; exact H.
  - destruct r' as [|r']; [lia|]. cbn [digits_loop]. destruct (v =? 0); [auto|]. apply IH. lia.
Qed.

Lemma to_digits_room r base v l : (r <= 16)%nat -> to_digits r base v = Some l -> to_digits 16 base v = Some l.
Proof. unfold to_digits. destruct (v =? 0); [auto|]. intros Hr. apply digits_room, Hr. Qed.

Lemma con_dec_digits a l s : to_digits 12 10 (u32 a) = Some l -> con_dec con (u32 a) s = con_text l s.
Proof. intros E. apply (con_dec_ok Hok); [apply u32_range|]. eapply to_digits_room; [|exact E]. lia. Qed.

Lemma con_hex_digits a l s : to_digits 10 16 (u32 a) = Some l -> con_hex con (u32 a) s = con_text l s.
Proof. intros E. apply (con_hex_ok Hok); [apply u32_range|]. eapply to_digits_room; [|exact E]. lia. Qed.

Lemma abs_u32 v : -2147483648 <= v < 2147483648 ->
  Z.abs v = if v <? 0 then u32 (0 - u32 v) else u32 v.
Proof. intros Hv. destruct (Z.ltb_spec v 0); unfold u32; zlia. Qed.

(** A conversion prints the text it denotes. *)
Lemma con_convert_spec fuel c args n args' out s :
  (forall a t, str a = Some t -> (length t <= fuel)%nat) ->
  conv str c args = Some (n, args', out) ->
  con_convert fuel c args s = s' ← con_text out s; Some (n, args', s').
Proof.
  intros Hfuel E. unfold conv in E. unfold con_convert.
  assert (forall x k (a : list Z), ((s' ← con_putchar con x s; Some (k, a, s')) : option (Z * list Z * S)) =
    s' ← con_text [x] s; Some (k, a, s')) as Hone.
  { intros x k a. simpl. destruct (con_putchar con x s); reflexivity. }
  destruct (c =? 37); [injection E as <- <- <-; apply Hone|].
  destruct args as [|a rest];
    [repeat (destruct (c =? _); [discriminate E|]); injection E as <- <- <-; apply Hone|].
  cbn [head tail mbind option_bind] in E. destruct (c =? 115).
  { destruct (a =? 0); [injection E as <- <- <-; reflexivity|].
    destruct (str a) as [t|] eqn:Es; [|discriminate E]. injection E as <- <- <-.
    rewrite (con_puts_spec t) by eauto. reflexivity. }
  destruct (c =? 100).
  { pose proof (s32_range a) as Hr. rewrite (abs_u32 _ Hr) in E. cbv zeta.
    destruct (s32 a <? 0); (destruct (to_digits 12 10 _) as [l|] eqn:El; [|discriminate E]); injection E as <- <- <-.
    - cbn [con_text]. destruct (con_putchar con 45 s); [|reflexivity]. cbn [mbind option_bind].
      rewrite (con_dec_digits _ l) by exact El. reflexivity.
    - rewrite (con_dec_digits _ l) by exact El. reflexivity. }
  destruct (c =? 117).
  { destruct (to_digits 12 10 (u32 a)) as [l|] eqn:El; [|discriminate E]. injection E as <- <- <-.
    rewrite (con_dec_digits _ l) by exact El. reflexivity. }
  destruct (c =? 120).
  { destruct (to_digits 10 16 (u32 a)) as [l|] eqn:El; [|discriminate E]. injection E as <- <- <-.
    rewrite (con_hex_digits _ l) by exact El. reflexivity. }
  destruct (c =? 112).
  { destruct (to_digits 10 16 (u32 a)) as [l|] eqn:El; [|discriminate E]. injection E as <- <- <-.
    change (48 :: 120 :: l) with ([48; 120] ++ l). rewrite con_text_app.
    destruct (con_text [48; 120] s); [|reflexivity]. cbn [mbind option_bind].
    rewrite (con_hex_digits _ l) by exact El. reflexivity. }
  destruct (c =? 99); injection E as <- <- <-; apply Hone.
Qed.

(** The loop prints the text that the format denotes. *)
Lemma con_vprintf_spec fuel : forall p f args out s,
  (forall a t, str a = Some t -> (length f + length t <= fuel)%nat) ->
  cstr m p f -> (length f <= fuel)%nat -> render str f args = Some out ->
  con_vprintf fuel p args s = con_text out s.
Proof.
  induction fuel as [|fuel IH]; intros p f args out s Hstr Hp Hl E;
    (destruct f as [|c f]; [injection E as <-; cbn [con_vprintf]; rewrite Hp; reflexivity|]);
    cbn [length] in *; [lia|].
  destruct Hp as (Hc & Hp0 & Hp). cbn [con_vprintf]. rewrite Hp0. replace (c =? 0) with false by lia.
  assert (forall a t, str a = Some t -> (length f + length t <= fuel)%nat) as Hstr'
    by (intros a t Es; specialize (Hstr a t Es); lia).
  cbn [render] in E. destruct (Z.eqb_spec c 37) as [->|Hne]; cbn [negb] in E |- *.
  - assert (rd m (p + 1) = hd 0 f) as -> by (destruct f; cbn [cstr hd] in *; [exact Hp|apply Hp]).
    destruct (conv str (hd 0 f) args) as [[[n args'] o]|] eqn:Ec; [|discriminate E].
    rewrite (con_convert_spec (Datatypes.S fuel) _ _ _ _ _ s) with (2 := Ec)
      by (intros a t Es; specialize (Hstr a t Es); lia).
    destruct (match f with [] => Some [] | _ :: f' => if n =? 0 then render str f args' else render str f' args' end)
      as [tl|] eqn:Et; [|discriminate E]. injection E as <-. rewrite con_text_app.
    destruct (con_text o s) as [s1|]; [|reflexivity]. cbn [mbind option_bind]. destruct f as [|k f].
    + injection Et as <-. assert (n = 0) as -> by (unfold conv in Ec; simpl in Ec; congruence).
      replace (p + 1 + 0) with (p + 1) by lia. cbn [cstr] in Hp.
      destruct fuel; cbn [con_vprintf]; rewrite Hp; reflexivity.
    + destruct (Z.eqb_spec n 0) as [->|Hn].
      * replace (p + 1 + 0) with (p + 1) by lia. apply (IH (p + 1) (k :: f)); [exact Hstr'|exact Hp|cbn [length] in *; lia|exact Et].
      * assert (n = 1) as -> by (eapply conv_consumes; eauto). destruct Hp as (_ & _ & Hp).
        apply (IH (p + 1 + 1) f); [|exact Hp|cbn [length] in *; lia|exact Et].
        intros a t Es. specialize (Hstr' a t Es). cbn [length] in Hstr'. lia.
  - destruct (render str f args) as [tl|] eqn:Et; [|discriminate E]. injection E as <-. cbn [con_text].
    destruct (con_putchar con c s); [|reflexivity]. apply (IH (p + 1) f); [exact Hstr'|exact Hp|lia|exact Et].
Qed.
End device.

(** * The text of a format, piece by piece *)

Section pieces.
Context (str : Z -> option (list Z)).

Lemma render_lit l f args : Forall (fun c => c <> 37) l -> render str (l ++ f) args = app l <$> render str f args.
Proof.
  induction 1 as [|c l Hc _ IH]; cbn [app render]; [destruct (render str f args); reflexivity|].
  replace (c =? 37) with false by lia. cbn [negb]. rewrite IH. destruct (render str f args); reflexivity.
Qed.

Lemma render_u f a args l : to_digits 12 10 (u32 a) = Some l ->
  render str (37 :: 117 :: f) (a :: args) = app l <$> render str f args.
Proof. intros E. cbn -[to_digits u32]. rewrite E. reflexivity. Qed.

Lemma render_s f a args t : a <> 0 -> str a = Some t ->
  render str (37 :: 115 :: f) (a :: args) = app t <$> render str f args.
Proof. intros Ha E. cbn. apply Z.eqb_neq in Ha. rewrite Ha, E. reflexivity. Qed.
End pieces.

(** Formats made of plain text, unsigned numbers and pointers. *)
Inductive piece := PLit (l : list Z) | PU | PP.

Fixpoint flatten (ps : list piece) : list Z :=
  match ps with
  | [] => []
  | PLit l :: ps' => l ++ flatten ps'
  | PU :: ps' => 37 :: 117 :: flatten ps'
  | PP :: ps' => 37 :: 112 :: flatten ps'
  end.

(** The arguments they take and a bound on the text they make. *)
Fixpoint piece_args (ps : list piece) : nat :=
  match ps with [] => 0 | PLit _ :: ps' => piece_args ps' | _ :: ps' => S (piece_args ps') end.
Fixpoint piece_room (ps : list piece) : nat :=
  match ps with [] => 0 | PLit l :: ps' => length l + piece_room ps' | _ :: ps' => 12 + piece_room ps' end.
Definition plain (p : piece) : bool := match p with PLit l => forallb (fun c => negb (c =? 37)) l | _ => true end.

Lemma render_p str f a args l : to_digits 10 16 (u32 a) = Some l ->
  render str (37 :: 112 :: f) (a :: args) = app (48 :: 120 :: l) <$> render str f args.
Proof. intros E. cbn -[to_digits u32]. rewrite E. reflexivity. Qed.

(** Such a format with enough arguments denotes a text within the bound. *)
Lemma render_pieces str ps : forall args, forallb plain ps = true -> (piece_args ps <= length args)%nat ->
  exists out, render str (flatten ps) args = Some out /\ (length out <= piece_room ps)%nat.
Proof.
  induction ps as [|p ps IH]; intros args Hp Ha; cbn [flatten forallb] in *; [exists []; split; [reflexivity|simpl; lia]|].
  apply andb_true_iff in Hp as [Hp Hps]. destruct p as [l| |]; cbn [piece_args piece_room plain] in *.
  - destruct (IH args Hps Ha) as (out & E & Hl). exists (l ++ out). rewrite render_lit, E.
    + split; [reflexivity|]. rewrite length_app. lia.
    + apply List.Forall_forall. intros c Hc. rewrite forallb_forall in Hp. specialize (Hp c Hc). lia.
  - destruct args as [|a args]; cbn [length] in Ha; [lia|]. destruct (IH args Hps ltac:(lia)) as (out & E & Hl).
    destruct (to_digits_spec 10 12 (u32 a)) as (l & El & _ & Hd & _); [lia|lia|pose proof (u32_range a); simpl; lia|].
    exists (l ++ out). rewrite (render_u _ _ _ _ l El), E. split; [reflexivity|]. rewrite length_app. lia.
  - destruct args as [|a args]; cbn [length] in Ha; [lia|]. destruct (IH args Hps ltac:(lia)) as (out & E & Hl).
    destruct (to_digits_spec 16 10 (u32 a)) as (l & El & _ & Hd & _); [lia|lia|pose proof (u32_range a); simpl; lia|].
    exists ((48 :: 120 :: l) ++ out). rewrite (render_p _ _ _ _ l El), E. split; [reflexivity|]. rewrite length_app. simpl. lia.
Qed.
