(* ===== verification/Serial.v ===== *)
(** The serial port ([src/serial.c]).

    The UART is its line-status register, read by polling, and the log of
    bytes written to its ports.  What a read of the status register returns is
    up to the hardware: the value of the [n]-th read is a parameter of the
    device.  The file proves that [serial_printf] and [tlog] send exactly the
    text that their format denotes, provided the transmitter becomes ready
    again and again. *)
From stdpp Require Import prelude gmap list numbers.
From Stdlib Require Import ZArith Lia ZifyBool.
From S2P Require Import Prelude Tstring Printf.
#[local] Open Scope Z_scope.

(** * The driver *)

Definition COM1 : Z := 0x3F8.

Definition UART_DATA : Z := 0.
Definition UART_IER : Z := 1.
Definition UART_FCR : Z := 2.
Definition UART_LCR : Z := 3.
Definition UART_MCR : Z := 4.
Definition UART_LSR : Z := 5.

Definition LCR_8BIT : Z := 0x03.
Definition LCR_DLAB : Z := 0x80.
Definition LSR_THRE : Z := 0x20.
Definition FCR_ENABLE : Z := 0x01.
Definition FCR_CLEAR : Z := 0x06.
Definition FCR_TRIG_14 : Z := 0xC0.

(** [lsr n] is the value of the [n]-th read of a status register; [writes] is
    every [outb], oldest first. *)
Record serial := mk_serial {
  lsr : nat -> Z;
  lsr_reads : nat;
  writes : list (Z * Z);
  com1_ready : Z
}.

Definition outb (port value : Z) (s : serial) : serial :=
  mk_serial (lsr s) (lsr_reads s) (writes s ++ [(port, value)]) (com1_ready s).

Definition inb_lsr (s : serial) : Z * serial :=
  (lsr s (lsr_reads s), mk_serial (lsr s) (S (lsr_reads s)) (writes s) (com1_ready s)).

Definition serial_init (port : Z) (s : serial) : Z * serial :=
  let s := outb (port + UART_IER) 0x00 s in
  let s := outb (port + UART_LCR) LCR_DLAB s in
  let s := outb (port + UART_DATA) 0x03 s in
  let s := outb (port + UART_IER) 0x00 s in
  let s := outb (port + UART_LCR) LCR_8BIT s in
  let s := outb (port + UART_FCR) (Z.lor (Z.lor FCR_ENABLE FCR_CLEAR) FCR_TRIG_14) s in
  let s := outb (port + UART_MCR) 0x0B s in
  (0, if port =? COM1 then mk_serial (lsr s) (lsr_reads s) (writes s) 1 else s).

(** [polls] bounds the reads of the status register. *)
Fixpoint serial_putchar (polls : nat) (port c : Z) (s : serial) : option serial :=
  let '(v, s1) := inb_lsr s in
  if Z.land v LSR_THRE =? 0 then
    match polls with O => None | S n => serial_putchar n port c s1 end
  else Some (outb (port + UART_DATA) (u8 c) s1).

Section output.
Context (polls : nat) (m : bytes).

Fixpoint serial_puts (fuel : nat) (port p : Z) (s : serial) : option serial :=
  let c := rd m p in
  if c =? 0 then Some s
  else match fuel with
       | O => None
       | S f => s' ← serial_putchar polls port c s; serial_puts f port (p + 1) s'
       end.

(** A string literal of the source. *)
Fixpoint serial_lit (port : Z) (l : list Z) (s : serial) : option serial :=
  match l with
  | [] => Some s
  | c :: l' => s' ← serial_putchar polls port c s; serial_lit port l' s'
  end.
End output.

(** The digits go into [tmp] backwards and then into [out]. *)
Definition u2s (v base out : Z) (m : bytes) : option bytes :=
  match to_digits 16 base v with
  | None => None
  | Some l => Some (store_bytes out (l ++ [0]) m)
  end.

(** [u2s(v, base, buf); serial_puts(port, buf);], [buf] the 16-byte local. *)
Definition put_u2s (polls : nat) (m : bytes) (port buf base v : Z) (s : serial) : option serial :=
  match u2s v base buf m with
  | None => None
  | Some m' => serial_puts polls m' 16 port buf s
  end.

(** The port as a device of the formatter. *)
Definition serial_console (polls : nat) (m : bytes) (port buf : Z) : console serial :=
  mk_console (serial_putchar polls port) (put_u2s polls m port buf 10) (put_u2s polls m port buf 16).

Definition serial_vprintf (polls fuel : nat) (m : bytes) (buf port fmt : Z) (args : list Z) (s : serial)
  : option serial :=
  con_vprintf (serial_console polls m port buf) m fuel fmt args s.

Definition serial_printf (polls fuel : nat) (m : bytes) (buf fmt : Z) (args : list Z) (s : serial) : option serial :=
  serial_vprintf polls fuel m buf COM1 fmt args s.

(** The text ["[trigeros] "]. *)
Definition tlog_tag : list Z := [91; 116; 114; 105; 103; 101; 114; 111; 115; 93; 32].

Definition tlog (polls fuel : nat) (m : bytes) (buf fmt : Z) (args : list Z) (s : serial) : option serial :=
  s' ← serial_lit polls COM1 tlog_tag s; serial_vprintf polls fuel m buf COM1 fmt args s'.

Definition serial_ready (s : serial) : Z := com1_ready s.

(** * What goes over the line *)

(** The transmitter is ready at least once in any [polls + 1] reads. *)
Definition transmits (polls : nat) (s : serial) : Prop :=
  forall n, exists k, (k <= polls)%nat /\ Z.land (lsr s (n + k)) LSR_THRE <> 0.

(** The state after sending a text: only the log and the read count moved. *)
Definition after_sending (port : Z) (t : list Z) (s s' : serial) : Prop :=
  lsr s' = lsr s /\ com1_ready s' = com1_ready s /\
  writes s' = writes s ++ map (fun c => (port + UART_DATA, u8 c)) t.

Lemma after_sending_nil port s : after_sending port [] s s.
Proof. repeat split. simpl. rewrite app_nil_r. reflexivity. Qed.

Lemma after_sending_trans port a b s1 s2 s3 :
  after_sending port a s1 s2 -> after_sending port b s2 s3 -> after_sending port (a ++ b) s1 s3.
Proof.
  intros (L1 & C1 & W1) (L2 & C2 & W2). split; [congruence|]. split; [congruence|].
  rewrite W2, W1, map_app, app_assoc. reflexivity.
Qed.

(** With [k] reads until the transmitter is ready, [k] polls are enough. *)
Lemma putchar_polls port c : forall k polls s, (k <= polls)%nat ->
  Z.land (lsr s (lsr_reads s + k)) LSR_THRE <> 0 ->
  exists s', serial_putchar polls port c s = Some s' /\ after_sending port [c] s s'.
Proof.
  induction k as [|k IH]; intros polls s Hk Hr.
  - rewrite Nat.add_0_r in Hr. apply Z.eqb_neq in Hr.
    destruct polls; cbn [serial_putchar inb_lsr]; rewrite Hr; eexists; split; [reflexivity|repeat split|reflexivity|repeat split].
  - destruct polls as [|polls]; [lia|]. cbn [serial_putchar inb_lsr].
    destruct (Z.land (lsr s (lsr_reads s)) LSR_THRE =? 0); [|eexists; split; [reflexivity|repeat split]].
    destruct (IH polls (mk_serial (lsr s) (S (lsr_reads s)) (writes s) (com1_ready s))) as (s' & -> & Ha); [lia| |].
    { cbn [lsr lsr_reads]. rewrite <- Nat.add_succ_comm in Hr. exact Hr. }
    exists s'. split; [reflexivity|exact Ha].
Qed.

Lemma putchar_sends polls port c s : transmits polls s ->
  exists s', serial_putchar polls port c s = Some s' /\ after_sending port [c] s s'.
Proof. intros Ht. destruct (Ht (lsr_reads s)) as (k & Hk & Hr). exact (putchar_polls port c k polls s Hk Hr). Qed.

Lemma transmits_after polls port t s s' : after_sending port t s s' -> transmits polls s -> transmits polls s'.
Proof. intros (E & _) Ht. unfold transmits. rewrite E. exact Ht. Qed.

Lemma text_sends polls m port buf t : forall s, transmits polls s ->
  exists s', con_text (serial_console polls m port buf) t s = Some s' /\ after_sending port t s s'.
Proof.
  induction t as [|c t IH]; intros s Ht; [exists s; split; [reflexivity|apply after_sending_nil]|].
  destruct (putchar_sends polls port c s Ht) as (s1 & E1 & A1).
  destruct (IH s1 (transmits_after _ _ _ _ _ A1 Ht)) as (s2 & E2 & A2).
  exists s2. cbn [con_text con_putchar serial_console]. rewrite E1. split; [exact E2|].
  exact (after_sending_trans port [c] t s s1 s2 A1 A2).
Qed.

Lemma puts_text polls m m' port buf fuel p s :
  serial_puts polls m' fuel port p s = con_puts (serial_console polls m port buf) m' fuel p s.
Proof.
  revert p s. induction fuel as [|fuel IH]; intros p s; cbn [serial_puts con_puts]; (destruct (rd m' p =? 0); [reflexivity|]).
  - reflexivity.
  - cbn [con_putchar serial_console]. destruct (serial_putchar polls port (rd m' p) s); simpl; [apply IH|reflexivity].
Qed.

Lemma lit_text polls m port buf l s : serial_lit polls port l s = con_text (serial_console polls m port buf) l s.
Proof. revert s. induction l as [|c l IH]; intros s; simpl; [reflexivity|]. destruct (serial_putchar polls port c s); simpl; auto. Qed.

(** Storing digits and a zero makes a C string. *)
Lemma stored_cstr l buf m : Forall (fun c => 0 < c < 256) l -> cstr (store_bytes buf (l ++ [0]) m) buf l.
Proof.
  intros Hf. destruct (store_bytes_spec (l ++ [0]) buf m) as [H1 _].
  replace l with (l ++ []) at 2 by apply app_nil_r. apply cstr_app. split; [exact Hf|]. split.
  - intros k c Hk. apply H1. apply lookup_app_l_Some, Hk.
  - simpl. apply H1. rewrite lookup_app_r by lia. rewrite Nat.sub_diag. reflexivity.
Qed.

Lemma put_u2s_text polls m port buf base u l s :
  2 <= base <= 16 -> 0 <= u < base ^ 16 -> to_digits 16 base u = Some l ->
  put_u2s polls m port buf base u s = con_text (serial_console polls m port buf) l s.
Proof.
  intros Hb Hu E. destruct (to_digits_spec base 16 u Hb ltac:(lia) Hu) as (l' & E' & _ & Hl & Hf).
  assert (l' = l) as -> by congruence. unfold put_u2s, u2s. rewrite E, (puts_text polls m _ port buf).
  apply con_puts_spec; [apply stored_cstr, Hf|lia].
Qed.

(** The port obeys the law of the formatter's devices. *)
Lemma serial_console_ok polls m port buf : console_ok (serial_console polls m port buf).
Proof. split; intros u l s Hu E; apply put_u2s_text; lia || exact E. Qed.

Lemma vprintf_sends polls fuel m buf port fmt args str f out s :
  (forall a t, str a = Some t -> cstr m a t /\ (length f + length t <= fuel)%nat) ->
  cstr m fmt f -> (length f <= fuel)%nat -> render str f args = Some out -> transmits polls s ->
  exists s', serial_vprintf polls fuel m buf port fmt args s = Some s' /\ after_sending port out s s'.
Proof.
  intros Hstr Hf Hl E Ht. unfold serial_vprintf.
  rewrite (con_vprintf_spec _ m (serial_console_ok polls m port buf) str ltac:(intros a t Ha; apply Hstr, Ha) fuel fmt f args out s)
    by (auto; intros a t Ha; exact (proj2 (Hstr a t Ha))).
  apply text_sends, Ht.
Qed.

Lemma tlog_sends polls fuel m buf fmt args str f out s :
  (forall a t, str a = Some t -> cstr m a t /\ (length f + length t <= fuel)%nat) ->
  cstr m fmt f -> (length f <= fuel)%nat -> render str f args = Some out -> transmits polls s ->
  exists s', tlog polls fuel m buf fmt args s = Some s' /\ after_sending COM1 (tlog_tag ++ out) s s'.
Proof.
  intros Hstr Hf Hl E Ht. unfold tlog. rewrite (lit_text polls m COM1 buf).
  destruct (text_sends polls m COM1 buf tlog_tag s Ht) as (s1 & E1 & A1). rewrite E1.
  destruct (vprintf_sends polls fuel m buf COM1 fmt args str f out s1 Hstr Hf Hl E (transmits_after _ _ _ _ _ A1 Ht))
    as (s2 & E2 & A2).
  exists s2. split; [exact E2|]. exact (after_sending_trans _ _ _ _ _ _ A1 A2).
Qed.

(** [tlog] sends exactly the tag followed by the text that its format
    denotes to the data register of COM1, in order, one byte at a time, writes
    no other port, and returns, whenever the transmitter becomes ready at least
    once in any [polls + 1] reads of the status register. *)
Theorem tlog_sends_text polls fuel m buf fmt args str f out s :
  (forall a t, str a = Some t -> cstr m a t /\ (length f + length t <= fuel)%nat) ->
  cstr m fmt f -> (length f <= fuel)%nat -> render str f args = Some out -> transmits polls s ->
  exists s', tlog polls fuel m buf fmt args s = Some s' /\ after_sending COM1 (tlog_tag ++ out) s s'.
Proof. apply tlog_sends. Qed.

(** * Witnesses *)

(** A transmitter that is ready at every second read. *)
Definition demo_uart : serial := mk_serial (fun n => if Nat.even n then 0 else 0x60) 0 [] 0.

Lemma demo_transmits : transmits 1 demo_uart.
Proof.
  intros n. destruct (Nat.even n) eqn:E; [exists 1%nat|exists 0%nat]; (split; [lia|]); cbn [lsr demo_uart].
  - rewrite Nat.add_1_r, Nat.even_succ, <- Nat.negb_even, E. discriminate.
  - rewrite Nat.add_0_r, E. discriminate.
Qed.

Definition demo_log_mem : bytes := store_bytes 100 [117; 61; 37; 117; 0] ∅.       (* "u=%u" *)

Lemma tlog_sends_text_witness :
  exists s', tlog 1 8 demo_log_mem 900 100 [42] demo_uart = Some s' /\
             map snd (writes s') = tlog_tag ++ [117; 61; 52; 50].
Proof.
  destruct (tlog_sends_text 1 8 demo_log_mem 900 100 [42] (fun _ => None) [117; 61; 37; 117] [117; 61; 52; 50] demo_uart)
    as (s' & E & _ & _ & W).
  - discriminate.
  - repeat split; try lia; reflexivity.
  - simpl. lia.
  - reflexivity.
  - exact demo_transmits.
  - exists s'. split; [exact E|]. rewrite W. reflexivity.
Defined.

(** A length modifier is not a conversion: [%lx] prints itself and leaves its
    argument to the next conversion. *)
Lemma tlog_long_modifier :
  render (fun _ => None) [37; 108; 120; 32; 37; 117] [7; 8] = Some [37; 108; 120; 32; 55].
Proof. reflexivity. Qed.
