(* ===== verification/Gdt.v ===== *)
(** Segment descriptors and the task state segment: [src/gdt.c], [src/tss.c]
    and [gdt_reload] of [boot/gdt.asm].

    The table is the array of packed [gdt_entry_t] that the code fills in, and
    the bytes of that array as the processor reads them.  Loading a segment
    register is the processor's check of the 8-byte descriptor at the
    selector's offset; a refused load is a general-protection fault. *)
From stdpp Require Import prelude list numbers.
From Stdlib Require Import ZArith Lia ZifyBool.
From S2P Require Import Prelude.
#[local] Open Scope Z_scope.

(** * The task state segment *)

Record tss_t := mk_tss {
  tss_reserved1 : Z;
  tss_rsp0 : Z; tss_rsp1 : Z; tss_rsp2 : Z;
  tss_reserved2 : Z;
  tss_ist : list Z;
  tss_reserved3 : Z;
  tss_reserved4 : Z;
  tss_iomap_base : Z
}.

(** [sizeof tss] of the packed structure. *)
Definition sizeof_tss : Z := 4 + 3 * 8 + 8 + 7 * 8 + 8 + 2 + 2.

Definition tss_init (t : tss_t) : tss_t := mk_tss 0 0 0 0 0 (replicate 7 0) 0 0 sizeof_tss.

Definition tss_set_rsp0 (rsp0 : Z) (t : tss_t) : tss_t :=
  mk_tss (tss_reserved1 t) rsp0 (tss_rsp1 t) (tss_rsp2 t) (tss_reserved2 t) (tss_ist t)
    (tss_reserved3 t) (tss_reserved4 t) (tss_iomap_base t).

(** [(uint32_t)(sizeof tss) - 1] *)
Definition tss_limit : Z := u32 (sizeof_tss - 1).

(** * The descriptor table *)

Definition GDT_KCODE : Z := 0x08.
Definition GDT_KDATA : Z := 0x10.
Definition GDT_UCODE : Z := 0x18.
Definition GDT_UDATA : Z := 0x20.
Definition GDT_TSS : Z := 0x28.

Definition ACCESS_CODE : Z := 0x9A.
Definition ACCESS_DATA : Z := 0x92.
Definition ACCESS_TSS : Z := 0x89.
Definition DPL3 : Z := 0x60.
Definition GRAN_LONG : Z := 0x20.

Record gdt_entry_t := mk_gdt_entry {
  limit_low : Z; base_low : Z; base_mid : Z; access : Z;
  granularity : Z; base_high : Z; base_upper : Z; reserved : Z
}.

Definition zero_entry : gdt_entry_t := mk_gdt_entry 0 0 0 0 0 0 0 0.

(** The packed layout. *)
Definition entry_bytes (e : gdt_entry_t) : list Z :=
  le_bytes 2 (limit_low e) ++ le_bytes 2 (base_low e) ++
  [u8 (base_mid e); u8 (access e); u8 (granularity e); u8 (base_high e)] ++
  le_bytes 4 (base_upper e) ++ le_bytes 4 (reserved e).

Definition gdt_bytes (g : list gdt_entry_t) : list Z := concat (map entry_bytes g).

(** [gdt[selector >> 3] = e] *)
Definition store_descriptor (selector : Z) (e : gdt_entry_t) (g : list gdt_entry_t) : list gdt_entry_t :=
  <[Z.to_nat (Z.shiftr selector 3) := e]> g.

Definition set_segment (selector acc gran : Z) (g : list gdt_entry_t) : list gdt_entry_t :=
  store_descriptor selector (mk_gdt_entry 0 0 0 acc gran 0 0 0) g.

Definition tss_descriptor (base limit : Z) : gdt_entry_t :=
  mk_gdt_entry (Z.land limit 0xFFFF) (u16 (Z.land base 0xFFFF)) (u8 (Z.land (Z.shiftr base 16) 0xFF))
    ACCESS_TSS (u8 (Z.land (Z.shiftr limit 16) 0x0F)) (u8 (Z.land (Z.shiftr base 24) 0xFF))
    (u32 (Z.shiftr base 32)) 0.

Definition set_tss_descriptor (selector base limit : Z) (g : list gdt_entry_t) : list gdt_entry_t :=
  store_descriptor selector (tss_descriptor base limit) g.

(** The table after the stores of [gdt_init], the TSS at address [tss_base]. *)
Definition gdt_setup (tss_base : Z) : list gdt_entry_t :=
  let g := replicate 6 zero_entry in
  let g := set_segment GDT_KCODE ACCESS_CODE GRAN_LONG g in
  let g := set_segment GDT_KDATA ACCESS_DATA 0x00 g in
  let g := set_segment GDT_UCODE (Z.lor ACCESS_CODE DPL3) GRAN_LONG g in
  let g := set_segment GDT_UDATA (Z.lor ACCESS_DATA DPL3) 0x00 g in
  set_tss_descriptor GDT_TSS tss_base tss_limit g.

(** * The processor *)

(** The 8 bytes at the selector's offset, if they are within the limit. *)
Definition descriptor_at (table : list Z) (limit selector : Z) : option (list Z) :=
  let off := 8 * Z.shiftr selector 3 in
  if off + 7 <=? limit then Some (take 8 (drop (Z.to_nat off) table)) else None.

Definition d_access (d : list Z) : Z := nth 5 d 0.

(** Descriptor kinds by their access byte: present, code or data segment, and
    readable code or writable data. *)
Definition acc_present (a : Z) : bool := has a 0x80.
Definition acc_segment (a : Z) : bool := has a 0x10.
Definition acc_code (a : Z) : bool := has a 0x08.
Definition acc_rw (a : Z) : bool := has a 0x02.

(** What ring 0 may load into a data-segment register and into [ss]. *)
Definition loads_ds (a : Z) : bool := acc_present a && acc_segment a && (negb (acc_code a) || acc_rw a).
Definition loads_ss (a : Z) : bool :=
  acc_present a && acc_segment a && negb (acc_code a) && acc_rw a && negb (has a DPL3).

(** What an interrupt gate may name: a present code segment. *)
Definition enters_cs (a : Z) : bool := acc_present a && acc_segment a && acc_code a.

(** What [ltr] accepts: a present, available TSS. *)
Definition loads_tr (a : Z) : bool := a =? 0x89.

Definition accepts (p : Z -> bool) (table : list Z) (limit selector : Z) : bool :=
  match descriptor_at table limit selector with
  | None => false
  | Some d => p (d_access d)
  end.

(** [mov ax, 0x10] and the five loads; [None] is a fault. *)
Definition gdt_reload (table : list Z) (limit : Z) : option unit :=
  if accepts loads_ds table limit 0x10 && accepts loads_ss table limit 0x10 then Some tt else None.

Definition ltr (table : list Z) (limit selector : Z) : option unit :=
  if accepts loads_tr table limit selector then Some tt else None.

(** [gdt_init]: the tables, [lgdt], the reload and [ltr]. *)
Definition gdt_init (tss_base : Z) (t : tss_t) : list gdt_entry_t * tss_t * option unit :=
  let g := gdt_setup tss_base in
  let table := gdt_bytes g in
  let limit := 6 * 16 - 1 in
  (g, tss_init t, match gdt_reload table limit with None => None | Some _ => ltr table limit GDT_TSS end).

(** * Lemmas *)

Lemma entry_bytes_length e : length (entry_bytes e) = 16%nat.
Proof. unfold entry_bytes. rewrite !length_app, !le_bytes_length. reflexivity. Qed.

(** Entry [i] of the array is at byte [16 * i]. *)
Lemma gdt_bytes_entry g i e : g !! i = Some e -> take 16 (drop (16 * i) (gdt_bytes g)) = entry_bytes e.
Proof.
  revert i. induction g as [|e0 g IH]; intros i Hi; [discriminate|].
  unfold gdt_bytes. cbn [map concat]. destruct i as [|i].
  - injection Hi as ->. rewrite Nat.mul_0_r, drop_0, take_app_length'; [reflexivity|rewrite entry_bytes_length; reflexivity].
  - rewrite drop_app_ge by (rewrite entry_bytes_length; lia). rewrite entry_bytes_length.
    replace (16 * S i - 16)%nat with (16 * i)%nat by lia. apply IH, Hi.
Qed.

Lemma split_bytes b : in_u64 b ->
  Z.land b 0xFFFF + 65536 * (Z.land (Z.shiftr b 16) 0xFF) + 16777216 * (Z.land (Z.shiftr b 24) 0xFF) +
  4294967296 * Z.shiftr b 32 = b.
Proof.
  intros Hb. change 0xFFFF with (Z.ones 16). change 0xFF with (Z.ones 8). rewrite !Z.land_ones, !Z.shiftr_div_pow2 by lia.
  change (2 ^ 16) with 65536. change (2 ^ 8) with 256. change (2 ^ 24) with 16777216. change (2 ^ 32) with 4294967296.
  zlia.
Qed.

(** * Properties *)

(** The base and the limit that a 16-byte system descriptor denotes. *)
Definition descriptor_base (e : gdt_entry_t) : Z :=
  base_low e + 65536 * base_mid e + 16777216 * base_high e + 4294967296 * base_upper e.
Definition descriptor_limit (e : gdt_entry_t) : Z := limit_low e + 65536 * Z.land (granularity e) 0x0F.

(** The TSS descriptor denotes the base and the limit it was made from. *)
Lemma tss_descriptor_roundtrip base limit :
  in_u64 base -> 0 <= limit < 2 ^ 20 ->
  descriptor_base (tss_descriptor base limit) = base /\ descriptor_limit (tss_descriptor base limit) = limit.
Proof.
  intros Hb Hl. unfold descriptor_base, descriptor_limit, tss_descriptor. cbn -[Z.land Z.shiftr Z.mul Z.add].
  assert (forall x n k, 0 <= n -> 2 ^ n <= k -> 0 <= Z.land x (Z.ones n) < k) as Hland.
  { intros x n k Hn Hk. rewrite Z.land_ones by exact Hn. pose proof (Z.mod_pos_bound x (2 ^ n)). lia. }
  pose proof (Hland base 16 65536 ltac:(lia) ltac:(lia)). pose proof (Hland (Z.shiftr base 16) 8 256 ltac:(lia) ltac:(lia)).
  pose proof (Hland (Z.shiftr base 24) 8 256 ltac:(lia) ltac:(lia)).
  pose proof (Hland (Z.shiftr limit 16) 4 256 ltac:(lia) ltac:(lia)).
  pose proof (Z.shiftr_div_pow2 base 32 ltac:(lia)) as Hs. change (2 ^ 32) with 4294967296 in Hs.
  change (Z.ones 16) with 0xFFFF in *. change (Z.ones 8) with 0xFF in *. change (Z.ones 4) with 0x0F in *. split.
  - rewrite (u8_small (Z.land (Z.shiftr base 16) 0xFF)), (u8_small (Z.land (Z.shiftr base 24) 0xFF)) by lia.
    rewrite <- (split_bytes base Hb) at 5. rewrite Hs. zlia.
  - rewrite u8_small by lia. rewrite <- Z.land_assoc. change (Z.land 0x0F 0x0F) with (Z.ones 4).
    change 0xFFFF with (Z.ones 16). rewrite !Z.land_ones, Z.shiftr_div_pow2 by lia.
    change (2 ^ 16) with 65536. change (2 ^ 4) with 16. change (2 ^ 20) with 1048576 in Hl. zlia.
Qed.

(** The descriptor table and the processor disagree about its layout: the
    code stores the 16-byte entry of a selector at twice the selector's value,
    and the processor reads 8 bytes at the selector's value.  So for every
    address of the TSS, selector 0x10 is the kernel's code segment, which the
    load of [ss] in [gdt_reload] refuses with a fault, and selectors 0x08, used
    by every interrupt gate, and 0x28, the TSS, are not present. *)
Theorem gdt_init_faults tss_base t :
  (forall sel e, 0 <= sel < 48 -> sel mod 8 = 0 -> gdt_setup tss_base !! Z.to_nat (sel / 8) = Some e ->
     take 16 (drop (Z.to_nat (2 * sel)) (gdt_bytes (gdt_setup tss_base))) = entry_bytes e) /\
  (gdt_init tss_base t).2 = None /\
  (let acc sel := option_map d_access (descriptor_at (gdt_bytes (gdt_setup tss_base)) 95 sel) in
   acc 0x10 = Some ACCESS_CODE /\ acc 0x08 = Some 0 /\ acc 0x28 = Some 0).
Proof.
  split; [|split; [reflexivity|repeat split]].
  intros sel e Hs Hm He. pose proof (Z.div_mod sel 8 ltac:(lia)).
  replace (Z.to_nat (2 * sel)) with (16 * Z.to_nat (sel / 8))%nat by lia. apply gdt_bytes_entry, He.
Qed.

(** A table of 8-byte descriptors with the same access bytes would pass. *)
Definition wanted_table (tss_base : Z) : list Z :=
  concat (map (fun e => take 8 (entry_bytes e)) (take 5 (gdt_setup tss_base))) ++
  entry_bytes (tss_descriptor tss_base tss_limit).

Lemma wanted_table_loads tss_base :
  gdt_reload (wanted_table tss_base) 55 = Some tt /\ ltr (wanted_table tss_base) 55 GDT_TSS = Some tt /\
  accepts enters_cs (wanted_table tss_base) 55 0x08 = true.
Proof. repeat split. Qed.
