(* ===== verification/Idt.v ===== *)
(** Interrupts: [src/idt.c] and [src/timer.c].

    Gate descriptors with the table that [idt_init] builds, the dispatch of
    hardware interrupts to registered handlers, the reaction to processor
    exceptions, and the tick counter.  The counter is modelled with the
    scheduler because [timer_callback] increments it only after [ttask_tick],
    which may switch to another task: the increment then waits until the
    preempted task runs again. *)
From Stdlib Require Import String Ascii.
From stdpp Require Import prelude gmap list numbers.
From Stdlib Require Import ZArith Lia ZifyBool List.
From S2P Require Import Prelude TtaskCore Ttask Tipc Tstring Printf Serial Keyboard Vga.
#[local] Open Scope Z_scope.

(** * Gates *)

Record idt_entry_t := mk_gate {
  g_base_low : Z; g_selector : Z; g_ist : Z; g_flags : Z; g_base_mid : Z; g_base_high : Z; g_zero : Z
}.

Definition KERNEL_CODE_SELECTOR : Z := 0x08.
Definition IDT_FLAG_GATE64 : Z := 0x8E.
Definition IDT_FLAG_GATE64_USER : Z := 0xEE.

Definition zero_gate : idt_entry_t := mk_gate 0 0 0 0 0 0 0.
#[global] Instance gate_inhabited : Inhabited idt_entry_t := populate zero_gate.

Definition idt_set_gate (index base selector flags : Z) (idt : list idt_entry_t) : list idt_entry_t :=
  <[Z.to_nat index :=
      mk_gate (u16 (Z.land base 0xFFFF)) selector 0 flags (u16 (Z.land (Z.shiftr base 16) 0xFFFF))
        (u32 (Z.land (Z.shiftr base 32) 0xFFFFFFFF)) 0]> idt.

(** The stubs of [boot/isr_stubs.asm]: [isr n] for an exception or vector
    128, [irq n] for a hardware interrupt. *)
Section table.
Context (isr irq : Z -> Z).

(** The stores of [idt_init]: clear, exceptions, the system-call gate, IRQs. *)
Definition idt_table (idt : list idt_entry_t) : list idt_entry_t :=
  let idt := for_range (fun i t => idt_set_gate i 0 0 0 t) 0 256 idt in
  let idt := for_range (fun i t => idt_set_gate i (isr i) KERNEL_CODE_SELECTOR IDT_FLAG_GATE64 t) 0 32 idt in
  let idt := idt_set_gate 128 (isr 128) KERNEL_CODE_SELECTOR IDT_FLAG_GATE64_USER idt in
  for_range (fun i t => idt_set_gate (32 + i) (irq i) KERNEL_CODE_SELECTOR IDT_FLAG_GATE64 t) 0 16 idt.
End table.

(** * The machine *)

Definition PIC1_COMMAND : Z := 0x20.
Definition PIC1_DATA : Z := 0x21.
Definition PIC2_COMMAND : Z := 0xA0.
Definition PIC2_DATA : Z := 0xA1.
Definition PIC_EOI : Z := 0x20.
Definition PIT_COMMAND : Z := 0x43.
Definition PIT_CHANNEL0 : Z := 0x40.
Definition PIT_BASE_FREQ : Z := 1193182.
Definition VGA_RED : Z := 4.

(** The functions that the kernel registers ([irq_handler_t] values). *)
Inductive irq_fn := timer_callback_fn | keyboard_callback_fn.

(** [in_callback i]: task [i] is suspended in [timer_callback], between
    [ttask_tick] and the increment.  [ports] is the log of writes to the
    interrupt and timer controllers, oldest first. *)
Record machine (M : Type) := mk_machine {
  m_sched : sched M;
  m_kb : keyboard;
  m_vga : vga;
  m_ser : serial;
  irq_handlers : list (option irq_fn);
  tick_count : Z;
  hz : Z;
  in_callback : Z -> bool;
  ports : list (Z * Z);
  panicked : bool
}.
Arguments mk_machine {M}. Arguments m_sched {M}. Arguments m_kb {M}. Arguments m_vga {M}. Arguments m_ser {M}.
Arguments irq_handlers {M}. Arguments tick_count {M}. Arguments hz {M}. Arguments in_callback {M}.
Arguments ports {M}. Arguments panicked {M}.

Definition exception_names : list String.string :=
  ["Divide Error"; "Debug"; "NMI"; "Breakpoint"; "Overflow"; "BOUND Range Exceeded"; "Invalid Opcode";
   "Device Not Available"; "Double Fault"; "Coprocessor Segment Overrun"; "Invalid TSS"; "Segment Not Present";
   "Stack-Segment Fault"; "General Protection"; "Page Fault"; "Reserved"; "x87 FPU Error"; "Alignment Check";
   "Machine Check"; "SIMD FP Exception"; "Virtualization Exception"; "Control Protection"; "Reserved"; "Reserved";
   "Reserved"; "Reserved"; "Reserved"; "Reserved"; "Reserved"; "Reserved"; "Reserved"; "Reserved"]%string.

(** The saved context, as far as the handlers read it. *)
Record registers_t := mk_regs {
  r_rdi : Z; r_rsi : Z; r_rdx : Z; r_rax : Z; r_int_no : Z; r_rip : Z; r_cs : Z
}.

Section machine.
Context {M : Type} `{TaskMem M}.
Context (boot_stack_top : Z).
Implicit Types k : machine M.

Definition with_sched (s : sched M) k : machine M :=
  mk_machine s (m_kb k) (m_vga k) (m_ser k) (irq_handlers k) (tick_count k) (hz k) (in_callback k) (ports k) (panicked k).
Definition with_kb (b : keyboard) k : machine M :=
  mk_machine (m_sched k) b (m_vga k) (m_ser k) (irq_handlers k) (tick_count k) (hz k) (in_callback k) (ports k) (panicked k).
Definition with_vga (v : vga) k : machine M :=
  mk_machine (m_sched k) (m_kb k) v (m_ser k) (irq_handlers k) (tick_count k) (hz k) (in_callback k) (ports k) (panicked k).
Definition with_ser (s : serial) k : machine M :=
  mk_machine (m_sched k) (m_kb k) (m_vga k) s (irq_handlers k) (tick_count k) (hz k) (in_callback k) (ports k) (panicked k).
Definition with_handlers (h : list (option irq_fn)) k : machine M :=
  mk_machine (m_sched k) (m_kb k) (m_vga k) (m_ser k) h (tick_count k) (hz k) (in_callback k) (ports k) (panicked k).
Definition with_ticks (n : Z) (cb : Z -> bool) k : machine M :=
  mk_machine (m_sched k) (m_kb k) (m_vga k) (m_ser k) (irq_handlers k) n (hz k) cb (ports k) (panicked k).
Definition with_hz (n : Z) k : machine M :=
  mk_machine (m_sched k) (m_kb k) (m_vga k) (m_ser k) (irq_handlers k) (tick_count k) n (in_callback k) (ports k) (panicked k).
Definition with_panic k : machine M :=
  mk_machine (m_sched k) (m_kb k) (m_vga k) (m_ser k) (irq_handlers k) (tick_count k) (hz k) (in_callback k) (ports k) true.
Definition port_out (port value : Z) k : machine M :=
  mk_machine (m_sched k) (m_kb k) (m_vga k) (m_ser k) (irq_handlers k) (tick_count k) (hz k) (in_callback k)
    (ports k ++ [(port, value)]) (panicked k).

Definition port_outs (l : list (Z * Z)) k : machine M := fold_left (fun k w => port_out w.1 w.2 k) l k.

Definition pic_remap k : machine M :=
  port_outs [(PIC1_COMMAND, 0x11); (PIC2_COMMAND, 0x11); (PIC1_DATA, 0x20); (PIC2_DATA, 0x28);
             (PIC1_DATA, 0x04); (PIC2_DATA, 0x02); (PIC1_DATA, 0x01); (PIC2_DATA, 0x01);
             (PIC1_DATA, 0x00); (PIC2_DATA, 0x00)] k.

(** The table goes to [lidt]; the machine keeps the controllers. *)
Definition idt_init (isr irq : Z -> Z) (idt : list idt_entry_t) k : list idt_entry_t * machine M :=
  (idt_table isr irq idt, pic_remap k).

Definition irq_register (irq : Z) (handler : irq_fn) k : machine M :=
  if (irq >=? 0) && (irq <? 16) then with_handlers (<[Z.to_nat irq := Some handler]> (irq_handlers k)) k else k.

(** [None] is the division by zero. *)
Definition timer_init (frequency_hz : Z) k : option (machine M) :=
  if frequency_hz =? 0 then None
  else
    let divisor := PIT_BASE_FREQ / frequency_hz in
    let k := port_outs [(PIT_COMMAND, 0x36); (PIT_CHANNEL0, u8 (Z.land divisor 0xFF));
                        (PIT_CHANNEL0, u8 (Z.land (Z.shiftr divisor 8) 0xFF))] k in
    Some (irq_register 0 timer_callback_fn (with_hz frequency_hz k)).

Definition timer_ticks k : Z := tick_count k.
Definition timer_hz k : Z := hz k.

(** [tick_count++] *)
Definition count_tick k : machine M := with_ticks (u32 (tick_count k + 1)) (in_callback k) k.

(** After the scheduler ran: when it switched to a task that was suspended in
    [timer_callback], that task finishes the callback first (interrupts are
    still disabled there). *)
Definition switched (old : Z) k : machine M :=
  let c := cur (m_sched k) in
  if (c =? old) || negb (in_callback k c) then k
  else with_ticks (u32 (tick_count k + 1)) (fun i => if i =? c then false else in_callback k i) k.

(** A scheduler operation on behalf of the running task. *)
Definition run_sched (f : sched M -> sched M) k : machine M :=
  switched (cur (m_sched k)) (with_sched (f (m_sched k)) k).

(** [ttask_tick(); tick_count++;], the increment left to the resumption of
    the interrupted task when the tick switched away from it. *)
Definition timer_callback k : machine M :=
  let old := cur (m_sched k) in
  let s' := ttask_tick boot_stack_top (m_sched k) in
  if cur s' =? old then count_tick (with_sched s' k)
  else switched old (with_ticks (tick_count k) (fun i => if i =? old then true else in_callback k i) (with_sched s' k)).

(** The handlers, [scancode] the byte that the keyboard controller holds. *)
Definition call_handler (f : irq_fn) (scancode : Z) k : machine M :=
  match f with
  | timer_callback_fn => timer_callback k
  | keyboard_callback_fn => with_kb (keyboard_callback scancode (m_kb k)) k
  end.

Definition irq_handler (r : registers_t) (scancode : Z) k : machine M :=
  let irq := s32 (r_int_no r - 32) in
  let k := if r_int_no r >=? 40 then port_out PIC2_COMMAND PIC_EOI k else k in
  let k := port_out PIC1_COMMAND PIC_EOI k in
  if (irq >=? 0) && (irq <? 16) then
    match irq_handlers k !!! Z.to_nat irq with
    | Some f => call_handler f scancode k
    | None => k
    end
  else k.

(** ** Exceptions

    [rodata] is the memory of the string literals and [lit] the address of
    each; [polls] and [fuel] bound the loops of the output functions, [buf] is
    the formatter's local buffer. *)
Context (rodata : bytes) (lit : list Z -> Z) (polls fuel : nat) (buf : Z).

Definition puts_lit (l : list Z) (k : machine M) : option (machine M) :=
  v ← vga_puts rodata fuel (lit l) (m_vga k); Some (with_vga v k).
Definition log (fmt : list Z) (args : list Z) (k : machine M) : option (machine M) :=
  s ← tlog polls fuel rodata buf (lit fmt) args (m_ser k); Some (with_ser s k).
Definition color (fg bg : Z) (k : machine M) : machine M := with_vga (vga_set_color fg bg (m_vga k)) k.

Definition exception_name (n : Z) : list Z := text (nth (Z.to_nat n) exception_names ""%string).

Definition isr_handler (r : registers_t) (k : machine M) : option (machine M) :=
  if r_int_no r <? 32 then
    let name := exception_name (r_int_no r) in
    if Z.land (r_cs r) 3 =? 3 then
      k ← log (text "user task %u killed: %s at rip=0x%lx" ++ [10])
            [ttask_self (m_sched k); lit name; r_rip r] k;
      k ← puts_lit (10 :: text "USER FAULT: ") (color VGA_RED VGA_BLACK k);
      k ← puts_lit name k;
      k ← puts_lit (text " killed the task" ++ [10]) k;
      Some (run_sched (ttask_exit boot_stack_top) (color VGA_LIGHT_GREY VGA_BLACK k))
    else
      k ← puts_lit (10 :: text "KERNEL PANIC: ") (color VGA_RED VGA_BLACK k);
      k ← puts_lit name k;
      k ← puts_lit [10] k;
      k ← log (text "PANIC: exception %u (%s) at rip=0x%lx" ++ [10])
            [r_int_no r; lit name; r_rip r] (color VGA_LIGHT_GREY VGA_BLACK k);
      Some (with_panic k)
  else Some k.
End machine.

(** * Gates: lemmas and the table *)

(** What the processor reads from a gate. *)
Definition gate_base (g : idt_entry_t) : Z := g_base_low g + 65536 * g_base_mid g + 4294967296 * g_base_high g.
Definition gate_present (g : idt_entry_t) : bool := has (g_flags g) 0x80.
Definition gate_dpl (g : idt_entry_t) : Z := Z.land (Z.shiftr (g_flags g) 5) 3.

Definition gate_for (base flags : Z) : idt_entry_t :=
  mk_gate (u16 (Z.land base 0xFFFF)) KERNEL_CODE_SELECTOR 0 flags (u16 (Z.land (Z.shiftr base 16) 0xFFFF))
    (u32 (Z.land (Z.shiftr base 32) 0xFFFFFFFF)) 0.

Lemma gate_base_for base flags : in_u64 base -> gate_base (gate_for base flags) = base.
Proof.
  intros Hb. unfold gate_base, gate_for. cbn [g_base_low g_base_mid g_base_high].
  change 0xFFFFFFFF with (Z.ones 32). change 0xFFFF with (Z.ones 16).
  rewrite !Z.land_ones, !Z.shiftr_div_pow2 by lia.
  change (2 ^ 16) with 65536. change (2 ^ 32) with 4294967296. zlia.
Qed.

(** A loop that stores a gate in each slot of a range. *)
Lemma gates_loop (f : Z -> idt_entry_t) (at_ lo hi : Z) (body : Z -> list idt_entry_t -> list idt_entry_t) idt v :
  (forall i t, body i t = <[Z.to_nat (at_ + i) := f i]> t) -> 0 <= at_ -> 0 <= lo <= hi -> at_ + hi <= 256 ->
  length idt = 256%nat -> 0 <= v < 256 ->
  length (for_range body lo hi idt) = 256%nat /\
  for_range body lo hi idt !!! Z.to_nat v =
    if (at_ + lo <=? v) && (v <? at_ + hi) then f (v - at_) else idt !!! Z.to_nat v.
Proof.
  intros Hbody Ha Hr Hhi Hl Hv.
  apply (for_range_ind (fun i t => length t = 256%nat /\ t !!! Z.to_nat v =
    if (at_ + lo <=? v) && (v <? at_ + i) then f (v - at_) else idt !!! Z.to_nat v)); [lia| |].
  - split; [exact Hl|]. replace (_ && _) with false by lia. reflexivity.
  - intros i t Hi [Ht E]. rewrite Hbody, length_insert. split; [exact Ht|].
    destruct (Z.eq_dec (at_ + i) v) as [<-|Hne].
    + rewrite list_lookup_total_insert_eq by lia. replace (_ && _) with true by lia. f_equal. lia.
    + rewrite list_lookup_total_insert_ne by lia. rewrite E.
      replace (v <? at_ + (i + 1)) with (v <? at_ + i) by lia. reflexivity.
Qed.

Lemma idt_table_at isr irq idt v : length idt = 256%nat -> 0 <= v < 256 ->
  idt_table isr irq idt !!! Z.to_nat v =
    if v <? 32 then gate_for (isr v) IDT_FLAG_GATE64
    else if v <? 48 then gate_for (irq (v - 32)) IDT_FLAG_GATE64
    else if v =? 128 then gate_for (isr 128) IDT_FLAG_GATE64_USER
    else zero_gate.
Proof.
  intros Hl Hv. unfold idt_table.
  destruct (gates_loop (fun _ => zero_gate) 0 0 256 (fun i t => idt_set_gate i 0 0 0 t) idt v) as [L1 E1];
    try lia; [reflexivity|].
  set (t1 := for_range _ 0 256 idt) in *.
  destruct (gates_loop (fun i => gate_for (isr i) IDT_FLAG_GATE64) 0 0 32
    (fun i t => idt_set_gate i (isr i) KERNEL_CODE_SELECTOR IDT_FLAG_GATE64 t) t1 v) as [L2 E2];
    try lia; [reflexivity|].
  set (t2 := for_range _ 0 32 t1) in *.
  set (t3 := idt_set_gate 128 _ _ _ t2).
  assert (length t3 = 256%nat) as L3 by (unfold t3, idt_set_gate; rewrite length_insert; exact L2).
  destruct (gates_loop (fun i => gate_for (irq i) IDT_FLAG_GATE64) 32 0 16
    (fun i t => idt_set_gate (32 + i) (irq i) KERNEL_CODE_SELECTOR IDT_FLAG_GATE64 t) t3 v) as [_ E3];
    try lia; [reflexivity|].
  rewrite Z.sub_0_r in E2. rewrite E3. unfold t3, idt_set_gate. replace (0 + 32) with 32 in E2 by lia. replace (0 + 256) with 256 in E1 by lia.
  destruct (Z.eq_dec v 128) as [->|Hne].
  - rewrite list_lookup_total_insert_eq by lia. reflexivity.
  - rewrite list_lookup_total_insert_ne by lia. rewrite E2, E1.
    replace (v =? 128) with false by lia. replace (v <? 256) with true by lia.
    destruct (Z.ltb_spec v 32), (Z.ltb_spec v 48); replace (32 + 0 <=? v) with (32 <=? v) by (f_equal; lia);
      replace (v <? 32 + 16) with (v <? 48) by (f_equal; lia); repeat case_if; try lia; reflexivity.
Qed.

(** The interrupt table: exactly the vectors 0 to 47 and 128 have a
    present gate, each with the address of its stub split into the gate's
    three fields and the kernel's code selector, and vector 128, the system
    call, is the only one that user code may raise. *)
Theorem idt_gates_correct isr irq idt v :
  length idt = 256%nat -> 0 <= v < 256 -> (forall n, in_u64 (isr n)) -> (forall n, in_u64 (irq n)) ->
  let g := idt_table isr irq idt !!! Z.to_nat v in
  (gate_present g = true <-> v < 48 \/ v = 128) /\
  (gate_present g = true -> gate_dpl g = 3 <-> v = 128) /\
  (gate_present g = true -> g_selector g = KERNEL_CODE_SELECTOR /\
     gate_base g = if (32 <=? v) && (v <? 48) then irq (v - 32) else isr v).
Proof.
  intros Hl Hv Hisr Hirq g. unfold g. rewrite (idt_table_at isr irq idt v Hl Hv).
  destruct (Z.ltb_spec v 32); [|destruct (Z.ltb_spec v 48); [|destruct (Z.eqb_spec v 128) as [->|]]].
  all: split; [split; intros Hp; try (reflexivity || discriminate Hp || lia)|].
  all: split; intros Hp; try discriminate Hp.
  all: try (split; intros; (discriminate || lia || reflexivity)).
  all: split; [reflexivity|]; rewrite gate_base_for by auto; repeat case_if; try lia; reflexivity.
Qed.

(** * Counting ticks *)

Section counting.
Context {M : Type} `{TaskMem M}.
Context (boot_stack_top ttask_entry_addr ttask_entry_iret_addr : Z).
Implicit Types k : machine M.

(** What can happen: a hardware interrupt, or a scheduler operation of the
    running task.  The label counts timer interrupts. *)
Inductive machine_step : Z -> machine M -> machine M -> Prop :=
| ms_irq k r scancode :
    halted (m_sched k) = false -> 32 <= r_int_no r < 48 ->
    machine_step (if r_int_no r =? 32 then 1 else 0) k (irq_handler boot_stack_top r scancode k)
| ms_sched k s' :
    sched_step boot_stack_top ttask_entry_addr ttask_entry_iret_addr (m_sched k) s' ->
    machine_step 0 k (switched (cur (m_sched k)) (with_sched s' k)).

Inductive machine_runs : Z -> machine M -> machine M -> Prop :=
| mr_nil k : machine_runs 0 k k
| mr_snoc n d k1 k2 k3 : machine_runs n k1 k2 -> machine_step d k2 k3 -> machine_runs (n + d) k1 k3.

(** Preempted tasks that still owe their increment. *)
Definition late k : Z := count_range (in_callback k) 0 TTASK_MAX_TASKS.

(** The timer's handler is registered for line 0 and for no other. *)
Definition timer_wired (h : list (option irq_fn)) : Prop :=
  h !!! 0%nat = Some timer_callback_fn /\ forall i, 0 < i < 16 -> h !!! Z.to_nat i <> Some timer_callback_fn.

Record counted (n : Z) k : Prop := {
  ct_sched : sched_ok (m_sched k);
  ct_wired : timer_wired (irq_handlers k);
  ct_cur : in_callback k (cur (m_sched k)) = false;
  ct_count : tick_count k = u32 (n - late k)
}.

Lemma u32_succ x : u32 (u32 x + 1) = u32 (x + 1).
Proof. unfold u32. rewrite Zplus_mod_idemp_l. reflexivity. Qed.

Lemma cur_slot k : sched_ok (m_sched k) -> 0 <= cur (m_sched k) < TTASK_MAX_TASKS.
Proof. intros Hok. apply ok_cur_range, Hok. Qed.

(** A switch settles the debt of the task it resumes. *)
Lemma switched_counted old n k :
  sched_ok (m_sched k) -> timer_wired (irq_handlers k) -> tick_count k = u32 (n - late k) ->
  (cur (m_sched k) = old -> in_callback k old = false) -> counted n (switched old k).
Proof.
  intros Hok Hw Ht Hold. unfold switched. destruct (Z.eqb_spec (cur (m_sched k)) old) as [E|Hne]; cbn [orb].
  { split; [exact Hok|exact Hw|rewrite E; apply Hold, E|exact Ht]. }
  destruct (in_callback k (cur (m_sched k))) eqn:Ec; cbn [negb]; [|split; assumption].
  split; [exact Hok|exact Hw|cbn; rewrite Z.eqb_refl; reflexivity|].
  cbn [tick_count with_ticks]. rewrite Ht, u32_succ. f_equal. unfold late. cbn [in_callback with_ticks].
  rewrite (count_range_flip (in_callback k) (fun i => if i =? cur (m_sched k) then false else in_callback k i)
    0 TTASK_MAX_TASKS (cur (m_sched k))); [lia|apply cur_slot, Hok|exact Ec|rewrite Z.eqb_refl; reflexivity|].
  intros i _ Hi. apply Z.eqb_neq in Hi. rewrite Hi. reflexivity.
Qed.

Lemma timer_counted n k : counted n k -> halted (m_sched k) = false -> counted (n + 1) (timer_callback boot_stack_top k).
Proof.
  intros [Hok Hw Hc Ht] Hh. pose proof (tick_ok boot_stack_top (m_sched k) Hok Hh) as Hok'. unfold timer_callback.
  destruct (Z.eqb_spec (cur (ttask_tick boot_stack_top (m_sched k))) (cur (m_sched k))) as [E|Hne].
  - split; [exact Hok'|exact Hw|cbn; rewrite E; exact Hc|].
    cbn [tick_count count_tick with_ticks with_sched]. rewrite Ht, u32_succ. f_equal. unfold late. cbn. lia.
  - apply switched_counted; [exact Hok'|exact Hw| |intros E; contradiction].
    cbn [tick_count with_ticks with_sched]. rewrite Ht. f_equal. unfold late. cbn [in_callback with_ticks with_sched].
    rewrite (count_range_flip (fun i => if i =? cur (m_sched k) then true else in_callback k i) (in_callback k)
      0 TTASK_MAX_TASKS (cur (m_sched k))); [lia|apply cur_slot, Hok|rewrite Z.eqb_refl; reflexivity|exact Hc|].
    intros i _ Hi. apply Z.eqb_neq in Hi. rewrite Hi. reflexivity.
Qed.

Lemma eoi_counted n k w : counted n k -> counted n (port_out w.1 w.2 k).
Proof. intros [Hok Hw Hc Ht]. split; assumption. Qed.

Lemma irq_counted n k r scancode : counted n k -> halted (m_sched k) = false -> 32 <= r_int_no r < 48 ->
  counted (n + if r_int_no r =? 32 then 1 else 0) (irq_handler boot_stack_top r scancode k).
Proof.
  intros Hk Hh Hr. unfold irq_handler.
  assert (s32 (r_int_no r - 32) = r_int_no r - 32) as -> by (unfold s32; rewrite u32_small by lia; case_if; lia).
  set (k1 := port_out PIC1_COMMAND PIC_EOI _).
  assert (counted n k1) as Hk1.
  { apply (eoi_counted n _ (PIC1_COMMAND, PIC_EOI)). destruct (_ >=? 40); [|exact Hk].
    apply (eoi_counted n k (PIC2_COMMAND, PIC_EOI)), Hk. }
  assert (halted (m_sched k1) = false) as Hh1 by (unfold k1; destruct (_ >=? 40); exact Hh).
  replace (_ && _) with true by lia. destruct (ct_wired n k1 Hk1) as [H0 Hne].
  destruct (Z.eqb_spec (r_int_no r) 32) as [->|Hv].
  - change (Z.to_nat (32 - 32)) with 0%nat. rewrite H0. apply timer_counted; assumption.
  - rewrite Z.add_0_r. specialize (Hne (r_int_no r - 32) ltac:(lia)).
    revert Hne. destruct (irq_handlers k1 !!! Z.to_nat (r_int_no r - 32)) as [[]|]; intros Hne; [exfalso; apply Hne; reflexivity| |exact Hk1].
    destruct Hk1 as [Hok Hw Hc Ht]. split; assumption.
Qed.

Lemma step_counted n d k k' : counted n k -> machine_step d k k' -> counted (n + d) k'.
Proof.
  intros Hk Hs. destruct Hs as [k r scancode Hh Hr|k s' Hs].
  - apply irq_counted; assumption.
  - rewrite Z.add_0_r. destruct Hk as [Hok Hw Hc Ht].
    apply switched_counted; [exact (sched_step_ok _ _ _ _ _ Hok Hs)|exact Hw|exact Ht|intros _; exact Hc].
Qed.

(** C23. Under every interleaving of interrupts with the scheduler operations
    of the running tasks, [timer_ticks] is the number of timer interrupts so
    far less the number of tasks that were preempted by one and have not run
    since, which is at most 31: no increment is lost or counted twice, but a
    preempting tick is counted only when the preempted task runs again. *)
Theorem timer_counts_interrupts n k0 k :
  sched_ok (m_sched k0) -> timer_wired (irq_handlers k0) -> tick_count k0 = 0 ->
  (forall i, in_callback k0 i = false) -> machine_runs n k0 k ->
  timer_ticks k = u32 (n - late k) /\ 0 <= late k <= 31 /\ in_callback k (cur (m_sched k)) = false.
Proof.
  intros Hok Hw H0 Hcb Hrun.
  assert (counted n k) as [Hok' _ Hc Ht].
  { induction Hrun as [k|n d k1 k2 k3 _ IH Hs]; [|exact (step_counted _ _ _ _ (IH Hok Hw H0 Hcb) Hs)].
    split; [exact Hok|exact Hw|apply Hcb|]. unfold late.
    rewrite (count_range_ext _ (fun _ => false)) by (intros i _; apply Hcb). rewrite H0. reflexivity. }
  split; [exact Ht|]. split; [|exact Hc]. unfold late.
  pose proof (count_range_bounds (in_callback k) 0 TTASK_MAX_TASKS ltac:(unfold TTASK_MAX_TASKS; lia)).
  pose proof (count_range_bounds (fun i => if i =? cur (m_sched k) then true else in_callback k i) 0 TTASK_MAX_TASKS
    ltac:(unfold TTASK_MAX_TASKS; lia)) as Hb.
  rewrite (count_range_flip (fun i => if i =? cur (m_sched k) then true else in_callback k i) (in_callback k)
      0 TTASK_MAX_TASKS (cur (m_sched k))) in Hb; [unfold TTASK_MAX_TASKS in *; lia|apply cur_slot, Hok'|
      rewrite Z.eqb_refl; reflexivity|exact Hc|].
  intros i _ Hi. apply Z.eqb_neq in Hi. rewrite Hi. reflexivity.
Qed.
End counting.

(** * Faults *)

Section faults.
Context {M : Type} `{TaskMem M}.
Context (boot_stack_top : Z).
Context (rodata : bytes) (lit : list Z -> Z) (polls fuel : nat) (buf : Z).
Implicit Types k : machine M.

Definition user_fault_fmt : list Z := text "user task %u killed: %s at rip=0x%lx" ++ [10].

(** The literals that the user branch of [isr_handler] passes on. *)
Definition fault_literals (n : Z) : list (list Z) :=
  [user_fault_fmt; 10 :: text "USER FAULT: "; exception_name n; text " killed the task" ++ [10]].

Definition lit_ok (l : list Z) : Prop := lit l <> 0 /\ cstr rodata (lit l) l.

(** What the console shows for a killed task. *)
Definition fault_screen (n : Z) (v : vga) : vga :=
  vga_set_color VGA_LIGHT_GREY VGA_BLACK
    (put_all (10 :: text "USER FAULT: " ++ exception_name n ++ text " killed the task" ++ [10])
       (vga_set_color VGA_RED VGA_BLACK v)).

Lemma puts_lit_spec l k : lit_ok l -> (length l <= fuel)%nat ->
  puts_lit rodata lit fuel l k = Some (with_vga (put_all l (m_vga k)) k).
Proof. intros [_ Hl] Hf. unfold puts_lit. rewrite (vga_puts_all rodata l) by assumption. reflexivity. Qed.

Lemma exception_name_short n : (length (exception_name n) <= 27)%nat.
Proof.
  unfold exception_name, text. rewrite length_map.
  assert (Forall (fun s => length (list_ascii_of_string s) <= 27)%nat exception_names) as Hf
    by (apply (bool_decide_eq_true_1 _); vm_compute; reflexivity).
  destruct (nth_in_or_default (Z.to_nat n) exception_names ""%string) as [Hin| ->]; [|simpl; lia].
  rewrite List.Forall_forall in Hf. apply Hf, Hin.
Qed.

(** The line that goes to the log: the task, the exception, and the
    conversion that the formatter does not know, as it stands. *)
Lemma fault_line str n self rip :
  lit (exception_name n) <> 0 -> str (lit (exception_name n)) = Some (exception_name n) -> 0 <= self < 4294967296 ->
  exists l, value 10 l = self /\
    render str user_fault_fmt [self; lit (exception_name n); rip] =
      Some (text "user task " ++ l ++ text " killed: " ++ exception_name n ++ text " at rip=0x%lx" ++ [10]).
Proof.
  intros Hn Hs Hself. destruct (to_digits_spec 10 12 self ltac:(lia) ltac:(lia) ltac:(simpl; lia)) as (l & E & Hv & _).
  exists l. split; [exact Hv|]. rewrite <- (u32_small self) in E by exact Hself.
  change user_fault_fmt with (text "user task " ++ 37 :: 117 :: (text " killed: " ++ 37 :: 115 ::
    (text " at rip=0x" ++ (37 :: text "lx" ++ [10])))).
  rewrite render_lit by (vm_compute; repeat constructor; discriminate). rewrite (render_u _ _ _ _ l E).
  rewrite render_lit by (vm_compute; repeat constructor; discriminate). rewrite (render_s _ _ _ _ _ Hn Hs).
  rewrite render_lit by (vm_compute; repeat constructor; discriminate). reflexivity.
Qed.

Lemma switched_fields old k :
  m_sched (switched old k) = m_sched k /\ m_kb (switched old k) = m_kb k /\ m_vga (switched old k) = m_vga k /\
  m_ser (switched old k) = m_ser k /\ irq_handlers (switched old k) = irq_handlers k /\
  panicked (switched old k) = panicked k.
Proof. unfold switched. destruct (_ || _); repeat split. Qed.

(** A task that exits hands the processor over. *)
Lemma exit_hands_over (s : sched M) : live s -> cur s <> 0 -> cur (ttask_exit boot_stack_top s) <> cur s.
Proof.
  intros Hl H0 E. destruct (exit_states boot_stack_top s Hl H0) as [Hh Hst]. destruct Hl as (Hok & Hh0 & _).
  pose proof (ok_running _ (exit_ok boot_stack_top s Hok Hh0) Hh) as Hr. rewrite E in Hr.
  destruct (ok_cur_range s Hok) as [_ Hc]. rewrite Hst, Z.eqb_refl in Hr by exact Hc. discriminate.
Qed.

Lemma self_range (s : sched M) : 0 <= ttask_self s < 4294967296.
Proof.
  unfold ttask_self. destruct (scheduler_ready s); [|unfold TTASK_SELF_NONE; lia].
  destruct (current_task s); [apply u32_range|unfold TTASK_SELF_NONE; lia].
Qed.

(** The log line is sent. *)
Lemma fault_logged n rip k : lit_ok user_fault_fmt -> lit_ok (exception_name n) -> (100 <= fuel)%nat ->
  transmits polls (m_ser k) ->
  exists s1 l, log rodata lit polls fuel buf user_fault_fmt [ttask_self (m_sched k); lit (exception_name n); rip] k =
      Some (with_ser s1 k) /\ value 10 l = ttask_self (m_sched k) /\
    after_sending COM1 (tlog_tag ++ text "user task " ++ l ++ text " killed: " ++
      exception_name n ++ text " at rip=0x%lx" ++ [10]) (m_ser k) s1.
Proof.
  intros [_ Hf] [Hn0 Hn] Hfuel Htr. pose proof (exception_name_short n) as Hshort.
  set (str := fun a => if a =? lit (exception_name n) then Some (exception_name n) else None).
  destruct (fault_line str n (ttask_self (m_sched k)) rip Hn0) as (l & Hv & Er);
    [unfold str; rewrite Z.eqb_refl; reflexivity|apply self_range|].
  edestruct (tlog_sends polls fuel rodata buf (lit user_fault_fmt)) with (4 := Er)
    as (s1 & E1 & A1); [|exact Hf|change (length user_fault_fmt) with 37%nat; lia|exact Htr|].
  - intros a t. unfold str. destruct (Z.eqb_spec a (lit (exception_name n))) as [->|]; [|discriminate].
    injection 1 as <-. split; [exact Hn|]. change (length user_fault_fmt) with 37%nat. lia.
  - exists s1, l. split; [|split; [exact Hv|exact A1]]. unfold log. rewrite E1. reflexivity.
Qed.

(** C24. A processor exception in a ring-3 program kills that program and
    nothing else: the handler logs and shows the fault, the faulting task
    becomes EXITED, every other task keeps its state, another task gets the
    processor, the kernel neither halts nor panics, and the keyboard and the
    interrupt handlers are untouched. *)
Theorem user_fault_kills_only_the_task r k :
  live (m_sched k) -> cur (m_sched k) <> 0 -> 0 <= r_int_no r < 32 -> Z.land (r_cs r) 3 = 3 ->
  Forall lit_ok (fault_literals (r_int_no r)) -> (100 <= fuel)%nat -> transmits polls (m_ser k) ->
  exists k', isr_handler boot_stack_top rodata lit polls fuel buf r k = Some k' /\
    m_sched k' = ttask_exit boot_stack_top (m_sched k) /\ halted (m_sched k') = false /\
    cur (m_sched k') <> cur (m_sched k) /\ panicked k' = panicked k /\
    (forall i, 0 <= i < TTASK_MAX_TASKS ->
       state_of (m_sched k') i = if cur (m_sched k) =? i then TTASK_EXITED else state_of (m_sched k) i) /\
    m_kb k' = m_kb k /\ irq_handlers k' = irq_handlers k /\
    m_vga k' = fault_screen (r_int_no r) (m_vga k) /\
    (exists l, value 10 l = ttask_self (m_sched k) /\
       after_sending COM1 (tlog_tag ++ text "user task " ++ l ++ text " killed: " ++
         exception_name (r_int_no r) ++ text " at rip=0x%lx" ++ [10]) (m_ser k) (m_ser k')).
Proof.
  intros Hlive H0 Hn Hcs Hlits Hfuel Htr.
  set (n := r_int_no r) in *. pose proof (exception_name_short n) as Hshort.
  apply list.Forall_cons in Hlits as [Lf Hlits]. apply list.Forall_cons in Hlits as [Lu Hlits].
  apply list.Forall_cons in Hlits as [Ln Hlits]. apply list.Forall_cons in Hlits as [Lk _].
  destruct (fault_logged n (r_rip r) k Lf Ln Hfuel Htr) as (s1 & l & E1 & Hv & A1).
  destruct (exit_states boot_stack_top _ Hlive H0) as [Hh Hst].
  unfold isr_handler. fold n. replace (n <? 32) with true by lia. rewrite Hcs. cbn [Z.eqb Pos.eqb].
  change (text "user task %u killed: %s at rip=0x%lx" ++ [10]) with user_fault_fmt.
  cbv zeta. rewrite E1. cbn [mbind option_bind]. rewrite (puts_lit_spec _ _ Lu) by (simpl; lia). cbn [mbind option_bind].
  rewrite (puts_lit_spec _ _ Ln) by lia. cbn [mbind option_bind].
  rewrite (puts_lit_spec _ _ Lk) by (simpl; lia). cbn [mbind option_bind].
  eexists. split; [reflexivity|]. unfold run_sched.
  match goal with |- context [switched ?o ?x] => destruct (switched_fields o x) as (-> & -> & -> & -> & -> & ->) end.
  split; [reflexivity|]. split; [exact Hh|]. split; [exact (exit_hands_over _ Hlive H0)|]. split; [reflexivity|].
  split; [exact Hst|]. split; [reflexivity|]. split; [reflexivity|]. split; [|exists l; split; [exact Hv|exact A1]].
  unfold fault_screen, put_all. cbn [m_vga color with_vga with_sched with_ser].
  change (10 :: text "USER FAULT: " ++ exception_name n ++ text " killed the task" ++ [10]) with
    ((10 :: text "USER FAULT: ") ++ exception_name n ++ text " killed the task" ++ [10]).
  rewrite !fold_left_app. reflexivity.
Qed.
End faults.

(** * Witnesses *)

Definition demo_handlers : list (option irq_fn) :=
  [Some timer_callback_fn; Some keyboard_callback_fn] ++ replicate 14 None.

(** The shell and two programs, the handlers registered. *)
Definition demo_machine : machine flat_mem :=
  mk_machine demo_users keyboard_start demo_screen demo_uart demo_handlers 0 100 (fun _ => false) [] false.
Definition tick_regs : registers_t := mk_regs 0 0 0 0 32 0 8.
Definition demo_ticked : machine flat_mem := irq_handler 0 tick_regs 0 demo_machine.

Lemma demo_wired : timer_wired demo_handlers.
Proof.
  split; [reflexivity|]. intros i Hi. unfold demo_handlers.
  destruct (Z.eq_dec i 1) as [->|]; [discriminate|].
  rewrite lookup_total_app_r by (simpl; lia). rewrite list_lookup_total_alt.
  destruct (replicate _ _ !! _) as [x|] eqn:E; [|discriminate]. apply lookup_replicate in E as [-> _]. discriminate.
Qed.

Lemma demo_users_ok : sched_ok demo_users.
Proof.
  refine (star_invariant (sched_step 0 7 8) sched_ok _ demo_boot demo_users demo_users_reachable _).
  - intros s s' Hok Hs. exact (sched_step_ok 0 7 8 s s' Hok Hs).
  - apply boot_init_ok.
Qed.

Lemma timer_counts_interrupts_witness : timer_ticks demo_ticked = u32 (1 - late demo_ticked).
Proof.
  apply (timer_counts_interrupts 0 7 8 1 demo_machine demo_ticked).
  - exact demo_users_ok.
  - exact demo_wired.
  - reflexivity.
  - reflexivity.
  - apply (mr_snoc 0 7 8 0 1 demo_machine demo_machine demo_ticked); [constructor|].
    apply (ms_irq 0 7 8 demo_machine tick_regs 0); [reflexivity|simpl; lia].
Defined.

(** The first tick preempts the shell and is not counted yet. *)
Lemma tick_not_counted_yet : timer_ticks demo_ticked = 0 /\ late demo_ticked = 1.
Proof. split; vm_compute; reflexivity. Qed.

Lemma idt_gates_correct_witness :
  let g := idt_table (fun n => 0xFFFFFFFF80100000 + n mod 256) (fun n => 0xFFFFFFFF80200000 + n mod 256)
             (replicate 256 zero_gate) !!! Z.to_nat 128 in
  gate_present g = true /\ gate_dpl g = 3.
Proof.
  pose proof (idt_gates_correct (fun n => 0xFFFFFFFF80100000 + n mod 256) (fun n => 0xFFFFFFFF80200000 + n mod 256)
    (replicate 256 zero_gate) 128) as Hg.
  destruct Hg as (Hp & Hd & _); [reflexivity|lia|intros n; zlia|intros n; zlia|].
  cbv zeta. assert (Hpres := proj2 Hp (or_intror eq_refl)). split; [exact Hpres|]. apply (Hd Hpres). reflexivity.
Defined.

(** The literals of a page fault, laid out one after the other. *)
Definition demo_lit (l : list Z) : Z :=
  if decide (l = user_fault_fmt) then 1000
  else if decide (l = 10 :: text "USER FAULT: ") then 1100
  else if decide (l = exception_name 14) then 1200 else 1300.

Definition demo_rodata : bytes :=
  fold_left (fun m l => store_bytes (demo_lit l) (l ++ [0]) m) (fault_literals 14) ∅.

Lemma demo_live : live (m_sched demo_ticked).
Proof.
  split; [|split; vm_compute; reflexivity].
  refine (ct_sched _ _ (irq_counted 0 0 demo_machine tick_regs 0 _ _ _)); [|reflexivity|simpl; lia].
  split; [exact demo_users_ok|exact demo_wired|reflexivity|vm_compute; reflexivity].
Qed.

Lemma user_fault_kills_only_the_task_witness :
  exists k', isr_handler 0 demo_rodata demo_lit 1 100 5000 (mk_regs 0 0 0 0 14 0x8000000000 0x1B) demo_ticked = Some k' /\
    panicked k' = false /\ state_of (m_sched k') 1 = TTASK_EXITED /\ state_of (m_sched k') 0 = TTASK_READY.
Proof.
  destruct (user_fault_kills_only_the_task 0 demo_rodata demo_lit 1 100 5000
    (mk_regs 0 0 0 0 14 0x8000000000 0x1B) demo_ticked)
    as (k' & E & _ & _ & _ & Hp & Hst & _).
  - exact demo_live.
  - intros E. vm_compute in E. discriminate.
  - simpl. lia.
  - reflexivity.
  - repeat (apply Forall_cons_2; [split; [discriminate|repeat split; try lia; vm_compute; reflexivity]|]). constructor.
  - lia.
  - exact demo_transmits.
  - exists k'. split; [exact E|]. split; [rewrite Hp; vm_compute; reflexivity|].
    split; rewrite Hst by (unfold TTASK_MAX_TASKS; lia); vm_compute; reflexivity.
Defined.
