(* ===== verification/Tsys.v ===== *)
(** System calls ([src/tsys.c]): the handler of [int 0x80] on top of the
    scheduler, the IPC objects, the page tables, the keyboard and the output
    devices.

    A call that loops ([sleep], [read], the blocking IPC operations) hands the
    processor over in the middle; such a call is a value of [call], and one
    turn of its loop is [call_pass].  User memory is the physical memory behind
    the translation of the address space that is loaded when the kernel
    accesses it, and an access to an address without a translation is a fault
    in the kernel; so is, with [CR4.SMAP] set, an access to a page of ring 3.
    The interrupt flag is kept per task, because the gate
    clears it and only the IPC operations set it again. *)
From stdpp Require Import prelude gmap list numbers.
From Stdlib Require Import ZArith Lia ZifyBool.
From S2P Require Import Prelude Fifo TipcCore TtaskCore Ttask Tipc Tpmm Tvmm Tsec Tstring Printf Serial Keyboard Vga Idt.
#[local] Open Scope Z_scope.

(** * Data *)

Definition TSYS_WRITE : Z := 1.
Definition TSYS_EXIT : Z := 2.
Definition TSYS_GETPID : Z := 3.
Definition TSYS_YIELD : Z := 4.
Definition TSYS_SLEEP : Z := 5.
Definition TSYS_MB_INIT : Z := 6.
Definition TSYS_MB_SEND : Z := 7.
Definition TSYS_MB_RECV : Z := 8.
Definition TSYS_MUTEX_INIT : Z := 9.
Definition TSYS_MUTEX_LOCK : Z := 10.
Definition TSYS_MUTEX_UNLOCK : Z := 11.
Definition TSYS_GETTICKS : Z := 12.
Definition TSYS_READ : Z := 13.

Definition TIPC_MAX_OBJ : Z := 32.

(** An entry of [tipc_table]: the tag with the object of the union. *)
Inductive tipc_obj := TIPC_OBJ_FREE | TIPC_OBJ_MB (mb : tipc_mailbox_t) | TIPC_OBJ_MUTEX (mtx : tipc_mutex_t).
#[global] Instance tipc_obj_inhabited : Inhabited tipc_obj := populate TIPC_OBJ_FREE.

(** Zeroed static storage. *)
Definition zero_waitq : tipc_waitq_t := mk_waitq (replicate 16 0) 0 0.
Definition zero_msg : tipc_msg_t := mk_msg 0 0 (replicate 56 0).
Definition zero_mb : tipc_mailbox_t := mk_mb (replicate 8 zero_msg) 0 0 zero_waitq zero_waitq.
Definition zero_mutex : tipc_mutex_t := mk_mutex 0 0 zero_waitq.

(** [sizeof(tipc_msg_t)] and the packed bytes of a message. *)
Definition MSG_SIZE : Z := 64.
Definition msg_bytes (m : tipc_msg_t) : list Z := le_bytes 4 (msg_sender m) ++ le_bytes 4 (msg_len m) ++ msg_data m.
Definition bytes_msg (b : list Z) : tipc_msg_t :=
  mk_msg (le_val (take 4 b)) (le_val (take 4 (drop 4 b))) (drop 8 b).

(** Where a call stands in its loop. *)
Inductive call :=
| CYield                                  (* returns 0 when it runs again *)
| CSleep (until : Z)
| CSend (id : Z) (msg : tipc_msg_t)
| CRecv (id : Z) (buf : Z)
| CLock (id : Z)
| CRead (buf : Z).

(** How a turn ends: with [rax], at the top of the loop, never (the task is
    gone), or with a page fault of the kernel. *)
Inductive outcome := Ret (rax : Z) | Loop (c : call) | Gone | Fault.

Definition ret (v : Z) : outcome := Ret (u64 v).

Record sys (M H : Type) := mk_sys {
  y_mach : machine M;
  y_vmm : vmm H;
  y_mem : bytes;                 (* physical memory, at its direct-map addresses *)
  tipc_table : list tipc_obj;
  y_if : Z -> bool;              (* the interrupt flag of each task *)
  y_cr4 : Z
}.
Arguments mk_sys {M H}. Arguments y_mach {M H}. Arguments y_vmm {M H}. Arguments y_mem {M H}.
Arguments tipc_table {M H}. Arguments y_if {M H}. Arguments y_cr4 {M H}.

Section handler.
Context {M H : Type} {TM : TaskMem M} {SH : SmallHeap H}.
Context (boot_stack_top : Z) (polls : nat).
Implicit Types y : sys M H.

Definition y_sched y : sched M := m_sched (y_mach y).

Definition set_mach (k : machine M) y : sys M H := mk_sys k (y_vmm y) (y_mem y) (tipc_table y) (y_if y) (y_cr4 y).
Definition set_sched (s : sched M) y : sys M H := set_mach (with_sched s (y_mach y)) y.
Definition set_mem (m : bytes) y : sys M H := mk_sys (y_mach y) (y_vmm y) m (tipc_table y) (y_if y) (y_cr4 y).
Definition set_obj (id : Z) (o : tipc_obj) y : sys M H :=
  mk_sys (y_mach y) (y_vmm y) (y_mem y) (<[Z.to_nat id := o]> (tipc_table y)) (y_if y) (y_cr4 y).
Definition set_if (i : Z) (b : bool) y : sys M H :=
  mk_sys (y_mach y) (y_vmm y) (y_mem y) (tipc_table y) (fun j => if j =? i then b else y_if y j) (y_cr4 y).

(** ** User memory *)

(** The memory management unit with the address space of the scheduler. *)
Definition mmu y : vmm H := vmm_aspace_switch (cur_aspace (y_sched y)) (y_vmm y).

(** A page that ring 3 may use: the bit is set at every level. *)
Definition user_page (m : gmap Z Z) (top v : Z) : bool :=
  let e4 := entry m top (PML4_INDEX v) in
  let e3 := entry m (TABLE_OF e4) (PDPT_INDEX v) in
  let e2 := entry m (TABLE_OF e3) (PD_INDEX v) in
  has e4 VMM_PAGE_USER && has e3 VMM_PAGE_USER && has e2 VMM_PAGE_USER &&
  (has e2 VMM_PAGE_HUGE || has (entry m (TABLE_OF e2) (PT_INDEX v)) VMM_PAGE_USER).

(** With [CR4.SMAP] the processor refuses the kernel's access to such a page
    (the alignment-check flag, which would lift that, is never set). *)
Definition smap_blocks y (v : Z) : bool :=
  has (y_cr4 y) CR4_SMAP && user_page (words (vm (mmu y))) (cur_top (mmu y)) v.

Definition user_addr y (v : Z) : option Z :=
  if smap_blocks y v then None else translate (words (vm (mmu y))) (cur_top (mmu y)) v.
Definition user_byte y (v : Z) : option Z := a ← user_addr y v; Some (rd (y_mem y) a).

(** [__builtin_memcpy] from and to user memory. *)
Fixpoint copy_from (n : nat) (v : Z) y : option (list Z) :=
  match n with O => Some [] | S n' => b ← user_byte y v; l ← copy_from n' (v + 1) y; Some (b :: l) end.

Fixpoint copy_to (v : Z) (l : list Z) y : option (sys M H) :=
  match l with
  | [] => Some y
  | b :: l' => a ← user_addr y v; copy_to (v + 1) l' (set_mem (<[a := b]> (y_mem y)) y)
  end.

(** ** The loops *)

(** The output loop of [TSYS_WRITE]: the flag is [false] on a fault; [None] is
    a transmitter that is never ready. *)
Fixpoint write_loop (n : nat) (s : Z) y : option (bool * sys M H) :=
  match n with
  | O => Some (true, y)
  | S n' =>
      match user_byte y s with
      | None => Some (false, y)
      | Some c =>
          let k := y_mach y in
          ser ← serial_putchar polls COM1 c (m_ser k);
          write_loop n' (s + 1) (set_mach (with_ser ser (with_vga (vga_putchar c (m_vga k)) k)) y)
      end
  end.

(** A scheduler operation of the running task. *)
Definition on_sched (f : sched M -> sched M) y : sys M H := set_mach (run_sched f (y_mach y)) y.

(** The scheduler state that an IPC operation left behind. *)
Definition put_sched (s' : sched M) y : sys M H :=
  set_mach (switched (cur (y_sched y)) (with_sched s' (y_mach y))) y.

Definition mb_at y (id : Z) : option tipc_mailbox_t :=
  match tipc_table y !!! Z.to_nat id with TIPC_OBJ_MB mb => Some mb | _ => None end.
Definition mutex_at y (id : Z) : option tipc_mutex_t :=
  match tipc_table y !!! Z.to_nat id with TIPC_OBJ_MUTEX m => Some m | _ => None end.

(** One turn of a loop, by the running task.  A ring-3 task only runs once the
    scheduler does, so the IPC operations have a caller. *)
Definition call_pass (c : call) y : outcome * sys M H :=
  let self := cur (y_sched y) in
  match c with
  | CYield => (ret 0, y)
  | CSleep until =>
      if s64 (u64 (timer_ticks (y_mach y) - until)) <? 0
      then (Loop (CSleep until), on_sched (ttask_yield boot_stack_top) y)
      else (ret 0, y)
  | CSend id msg =>
      match mb_at y id with
      | None => (Fault, y)
      | Some mb =>
          let '(rc, s', mb') := tipc_send_pass (ttask_self (y_sched y)) msg (y_sched y) mb in
          let y' := set_if self true (set_obj id (TIPC_OBJ_MB mb') (put_sched s' y)) in
          match rc with Some v => (ret v, y') | None => (Loop (CSend id msg), y') end
      end
  | CRecv id buf =>
      match mb_at y id with
      | None => (Fault, y)
      | Some mb =>
          let '(rc, out, s', mb') := tipc_recv_pass (ttask_self (y_sched y)) zero_msg (y_sched y) mb in
          let y' := set_if self true (set_obj id (TIPC_OBJ_MB mb') (put_sched s' y)) in
          match rc with
          | None => (Loop (CRecv id buf), y')
          | Some v =>
              if u64 v =? 0 then
                match copy_to buf (msg_bytes out) y' with
                | None => (Fault, y')
                | Some y'' => (ret v, y'')
                end
              else (ret v, y')
          end
      end
  | CLock id =>
      match mutex_at y id with
      | None => (Fault, y)
      | Some m =>
          let '(rc, s', m') := tipc_mutex_lock_pass (ttask_self (y_sched y)) (y_sched y) m in
          let y' := set_if self true (set_obj id (TIPC_OBJ_MUTEX m') (put_sched s' y)) in
          match rc with Some v => (ret v, y') | None => (Loop (CLock id), y') end
      end
  | CRead buf =>
      let '(ch, kb) := keyboard_getchar (m_kb (y_mach y)) in
      let y1 := set_mach (with_kb kb (y_mach y)) y in
      if ch =? KEY_NONE then (Loop (CRead buf), on_sched (ttask_yield boot_stack_top) y1)
      else if ch <? 0 then (ret 0, y1)
      else match copy_to buf [u8 ch] y1 with
           | None => (Fault, y1)
           | Some y2 => (ret 1, y2)
           end
  end.

(** ** The handler *)

(** Both allocation loops: the first free slot. *)
Definition free_slot y : option Z :=
  find_range (fun i => match tipc_table y !!! Z.to_nat i with TIPC_OBJ_FREE => true | _ => false end) 0 TIPC_MAX_OBJ.

Definition sys_mb_init y : outcome * sys M H :=
  match free_slot y with
  | None => (ret (-1), y)
  | Some i =>
      match tipc_mailbox_init (Some zero_mb) with
      | (0, Some mb) => (ret i, set_obj i (TIPC_OBJ_MB mb) y)
      | _ => (ret (-1), y)
      end
  end.

Definition sys_mutex_init y : outcome * sys M H :=
  match free_slot y with
  | None => (ret (-1), y)
  | Some i =>
      match tipc_mutex_init (Some zero_mutex) with
      | (0, Some m) => (ret i, set_obj i (TIPC_OBJ_MUTEX m) y)
      | _ => (ret (-1), y)
      end
  end.

Definition id_ok (id : Z) : bool := (0 <=? id) && (id <? TIPC_MAX_OBJ).
Definition is_mb y (id : Z) : bool := id_ok id && match mb_at y id with Some _ => true | None => false end.
Definition is_mutex y (id : Z) : bool := id_ok id && match mutex_at y id with Some _ => true | None => false end.

(** [None]: a loop of the output or of the range check did not end. *)
Definition syscall_handler (r : registers_t) y : option (outcome * sys M H) :=
  if Z.land (r_cs r) 3 =? 0 then Some (ret (-1), y)
  else
    let self := cur (y_sched y) in
    let y := set_if self false y in                        (* by the interrupt gate *)
    let nr := s64 (r_rax r) in
    let a1 := s64 (r_rdi r) in
    let a2 := s64 (r_rsi r) in
    let a3 := s64 (r_rdx r) in
    if nr =? TSYS_WRITE then
      if negb (a1 =? 1) || (a3 <=? 0) then Some (ret (-1), y)
      else
        b ← vmm_range_user (u64 a2) (u64 a3) 0 (mmu y);
        if negb b then Some (ret (-1), y)
        else
          '(ok, y') ← write_loop (Z.to_nat (u64 a3)) (u64 a2) y;
          Some (if ok : bool then ret a3 else Fault, y')
    else if nr =? TSYS_EXIT then Some (Gone, on_sched (ttask_exit boot_stack_top) y)
    else if nr =? TSYS_GETPID then Some (ret (ttask_self (y_sched y)), y)
    else if nr =? TSYS_YIELD then Some (Loop CYield, on_sched (ttask_yield boot_stack_top) y)
    else if nr =? TSYS_SLEEP then
      if a1 <? 0 then Some (ret (-1), y)
      else Some (call_pass (CSleep (u64 (timer_ticks (y_mach y) + u64 a1))) y)
    else if nr =? TSYS_GETTICKS then Some (ret (timer_ticks (y_mach y)), y)
    else if nr =? TSYS_MB_INIT then Some (sys_mb_init y)
    else if nr =? TSYS_MB_SEND then
      if negb (is_mb y a1) then Some (ret (-1), y)
      else
        b ← vmm_range_user (u64 a2) MSG_SIZE 0 (mmu y);
        if negb b then Some (ret (-1), y)
        else match copy_from (Z.to_nat MSG_SIZE) (u64 a2) y with
             | None => Some (Fault, y)
             | Some l => Some (call_pass (CSend a1 (stamp (ttask_self (y_sched y)) (bytes_msg l))) y)
             end
    else if nr =? TSYS_MB_RECV then
      if negb (is_mb y a1) then Some (ret (-1), y)
      else
        b ← vmm_range_user (u64 a2) MSG_SIZE 0 (mmu y);
        if negb b then Some (ret (-1), y) else Some (call_pass (CRecv a1 (u64 a2)) y)
    else if nr =? TSYS_MUTEX_INIT then Some (sys_mutex_init y)
    else if nr =? TSYS_MUTEX_LOCK then
      if negb (is_mutex y a1) then Some (ret (-1), y) else Some (call_pass (CLock a1) y)
    else if nr =? TSYS_MUTEX_UNLOCK then
      if negb (is_mutex y a1) then Some (ret (-1), y)
      else
        match mutex_at y a1 with
        | None => Some (Fault, y)
        | Some m =>
            let '(rc, s', m') := tipc_mutex_unlock (ttask_self (y_sched y)) (y_sched y) m in
            Some (ret rc, set_if self true (set_obj a1 (TIPC_OBJ_MUTEX m') (put_sched s' y)))
        end
    else if nr =? TSYS_READ then
      if negb (a1 =? 0) || (a3 <=? 0) then Some (ret (-1), y)
      else
        b ← vmm_range_user (u64 a2) (u64 a3) 1 (mmu y);
        if negb b then Some (ret (-1), y) else Some (call_pass (CRead (u64 a2)) y)
    else Some (ret (-1), y).
End handler.

(** * User memory: lemmas *)

Section lemmas.
Context {M H : Type} {TM : TaskMem M} {SH : SmallHeap H}.
Context (boot_stack_top : Z) (polls : nat).
Implicit Types y : sys M H.

(** The bytes of a range have translations. *)
Definition mapped y (v n : Z) : Prop := forall x, v <= x < v + n -> is_Some (user_addr y x).

(** The two systems see the same user memory layout. *)
Definition same_view y y' : Prop := forall v, user_addr y' v = user_addr y v.

Lemma same_view_intro y y' :
  y_vmm y' = y_vmm y -> cur_aspace (y_sched y') = cur_aspace (y_sched y) -> y_cr4 y' = y_cr4 y -> same_view y y'.
Proof. intros Ev Es Ec v. unfold user_addr, smap_blocks, mmu. rewrite Ev, Es, Ec. reflexivity. Qed.

Lemma same_view_mapped y y' v n : same_view y y' -> mapped y v n -> mapped y' v n.
Proof. intros Hv Hm x Hx. rewrite Hv. apply Hm, Hx. Qed.

(** What the pointer check promises: it ends, and an accepted range lies in
    the user region and is mapped. *)
Definition smap_off y : Prop := has (y_cr4 y) CR4_SMAP = false.

Lemma range_check y addr len write : smap_off y -> in_u64 addr -> in_u64 len -> len <> 0 ->
  exists b, vmm_range_user addr len write (mmu y) = Some b /\
    (b = true -> VMM_USER_BASE <= addr /\ addr + len <= VMM_USER_END /\ mapped y addr len).
Proof.
  intros Hsm Ha Hl H0. destruct (range_user_spec (words (vm (mmu y))) (cur_top (mmu y)) addr len write Ha Hl) as (b & E & Hb).
  exists b. split; [exact E|]. intros Eb. apply Hb in Eb as [?|(H1 & H2 & H3)]; [contradiction|].
  split; [exact H1|]. split; [exact H2|]. intros x Hx.
  unfold user_addr, smap_blocks. rewrite Hsm. cbn [andb].
  eapply page_has_translate; [|apply H3, Hx]. destruct (negb (write =? 0)); reflexivity.
Qed.

Lemma copy_from_spec n : forall v y, mapped y v (Z.of_nat n) ->
  exists l, copy_from n v y = Some l /\ length l = n /\
    forall k b, l !! k = Some b -> user_byte y (v + Z.of_nat k) = Some b.
Proof.
  induction n as [|n IH]; intros v y Hm; [exists []; repeat split; discriminate|].
  destruct (Hm v ltac:(lia)) as [a Ha].
  destruct (IH (v + 1) y) as (l & E & Hl & Hb); [intros x Hx; apply Hm; lia|].
  exists (rd (y_mem y) a :: l). cbn [copy_from]. unfold user_byte at 1. rewrite Ha. cbn [mbind option_bind].
  rewrite E. split; [reflexivity|]. split; [simpl; congruence|]. intros [|k] b Hk.
  - injection Hk as <-. unfold user_byte. rewrite Z.add_0_r, Ha. reflexivity.
  - replace (v + Z.of_nat (S k)) with (v + 1 + Z.of_nat k) by lia. apply Hb, Hk.
Qed.

Lemma copy_from_ext n : forall v y l, length l = n ->
  (forall k b, l !! k = Some b -> user_byte y (v + Z.of_nat k) = Some b) -> copy_from n v y = Some l.
Proof.
  induction n as [|n IH]; intros v y l Hl Hb; (destruct l as [|b l]; [try discriminate; reflexivity|]); [discriminate|].
  cbn [copy_from]. pose proof (Hb 0%nat b eq_refl) as H0. rewrite Z.add_0_r in H0. rewrite H0. cbn [mbind option_bind].
  rewrite (IH (v + 1) y l); [reflexivity|simpl in Hl; lia|]. intros k c Hk.
  replace (v + 1 + Z.of_nat k) with (v + Z.of_nat (S k)) by lia. apply Hb, Hk.
Qed.

Lemma set_mem_view m y : same_view y (set_mem m y).
Proof. intros v. reflexivity. Qed.

(** Copying out changes only the memory behind the range. *)
Lemma copy_to_spec l : forall v y, mapped y v (len l) ->
  exists m', copy_to v l y = Some (set_mem m' y) /\
    (forall a, (forall x, v <= x < v + len l -> user_addr y x <> Some a) -> rd m' a = rd (y_mem y) a) /\
    ((forall i j a, 0 <= i < len l -> 0 <= j < len l -> user_addr y (v + i) = Some a ->
        user_addr y (v + j) = Some a -> i = j) ->
     forall k b a, l !! k = Some b -> user_addr y (v + Z.of_nat k) = Some a -> rd m' a = b).
Proof.
  induction l as [|b l IH]; intros v y Hm; cbn [length] in *.
  { exists (y_mem y). split; [destruct y; reflexivity|]. split; [auto|discriminate]. }
  destruct (Hm v ltac:(lia)) as [a Ha]. cbn [copy_to]. rewrite Ha. cbn [mbind option_bind].
  set (y1 := set_mem (<[a := b]> (y_mem y)) y).
  destruct (IH (v + 1) y1) as (m' & E & Hf & Hc); [intros x Hx; apply Hm; lia|].
  exists m'. rewrite E. split; [reflexivity|]. split.
  - intros a' Hno. rewrite Hf by (intros x Hx; apply Hno; lia). apply rd_insert_ne. intros ->. exact (Hno v ltac:(lia) Ha).
  - intros Hinj [|k] c a' Hk Ha'.
    + injection Hk as <-. rewrite Z.add_0_r in Ha'. assert (a' = a) as -> by congruence.
      rewrite Hf; [apply rd_insert_eq|]. intros x Hx Hxa.
      change (user_addr y1 x) with (user_addr y x) in Hxa.
      assert (x - v = 0); [|lia]. apply (Hinj (x - v) 0 a); [lia|lia| |rewrite Z.add_0_r; exact Ha].
      replace (v + (x - v)) with x by lia. exact Hxa.
    + apply (Hc) with (k := k); [|exact Hk|].
      * intros i j a2 Hi Hj Hia Hja. assert (1 + i = 1 + j); [|lia]. apply (Hinj (1 + i) (1 + j) a2); [lia|lia| |].
        -- replace (v + (1 + i)) with (v + 1 + i) by lia. exact Hia.
        -- replace (v + (1 + j)) with (v + 1 + j) by lia. exact Hja.
      * replace (v + 1 + Z.of_nat k) with (v + Z.of_nat (S k)) by lia. exact Ha'.
Qed.

(** The output loop sends each byte of the range to both devices. *)
Lemma write_loop_spec n : forall s y, mapped y s (Z.of_nat n) -> transmits polls (m_ser (y_mach y)) ->
  exists l ser, copy_from n s y = Some l /\ after_sending COM1 l (m_ser (y_mach y)) ser /\
    write_loop polls n s y = Some (true, set_mach (with_ser ser (with_vga (put_all l (m_vga (y_mach y))) (y_mach y))) y).
Proof.
  induction n as [|n IH]; intros s y Hm Ht.
  { exists [], (m_ser (y_mach y)). split; [reflexivity|]. split; [apply after_sending_nil|].
    destruct y as [[]]. reflexivity. }
  destruct (Hm s ltac:(lia)) as [a Ha]. set (c := rd (y_mem y) a).
  assert (user_byte y s = Some c) as Hc by (unfold user_byte; rewrite Ha; reflexivity).
  cbn [write_loop copy_from]. rewrite Hc. cbn [mbind option_bind]. destruct (putchar_sends polls COM1 c _ Ht) as (ser1 & E1 & A1). rewrite E1. cbn [mbind option_bind].
  set (y1 := set_mach _ y).
  destruct (IH (s + 1) y1) as (l & ser & El & A2 & E2); [intros x Hx; apply (Hm x); lia|exact (transmits_after _ _ _ _ _ A1 Ht)|].
  assert (forall k v, copy_from k v y1 = copy_from k v y) as Hcf.
  { induction k as [|k IHk]; intros v; cbn [copy_from]; [reflexivity|]. rewrite IHk. reflexivity. }
  rewrite Hcf in El. exists (c :: l), ser. rewrite El. split; [reflexivity|].
  split; [exact (after_sending_trans COM1 [c] l _ _ _ A1 A2)|]. rewrite E2. reflexivity.
Qed.
End lemmas.

(** * IPC objects: lemmas *)

(** A message has its 56 bytes of payload; a mailbox is well formed and holds
    such messages. *)
Definition msg_ok (m : tipc_msg_t) : Prop := length (msg_data m) = Z.to_nat TIPC_MSG_DATA.
Definition mailbox_ok (mb : tipc_mailbox_t) : Prop := mb_ok mb /\ Forall msg_ok (mb_list mb).
Definition obj_ok (o : tipc_obj) : Prop :=
  match o with TIPC_OBJ_MB mb => mailbox_ok mb | _ => True end.

Lemma msg_bytes_length m : msg_ok m -> len (msg_bytes m) = MSG_SIZE.
Proof. intros Hm. unfold msg_bytes. rewrite !length_app, !le_bytes_length, Hm. reflexivity. Qed.

Lemma bytes_msg_ok l : length l = Z.to_nat MSG_SIZE -> msg_ok (bytes_msg l).
Proof. intros Hl. unfold msg_ok, bytes_msg. cbn [msg_data]. rewrite length_drop, Hl. reflexivity. Qed.

(** Sending what was read and reading it back changes only the sender. *)
Lemma msg_bytes_stamp self l : length l = Z.to_nat MSG_SIZE -> Forall in_u8 l ->
  msg_bytes (stamp self (bytes_msg l)) = le_bytes 4 self ++ drop 4 l.
Proof.
  intros Hl Hb. unfold msg_bytes, stamp, bytes_msg. cbn [msg_sender msg_len msg_data]. f_equal.
  replace (drop 4 l) with (take 4 (drop 4 l) ++ drop 4 (drop 4 l)) at 2 by apply take_drop.
  rewrite drop_drop. f_equal.
  assert (length (take 4 (drop 4 l)) = 4%nat) as L by (rewrite length_take, length_drop, Hl; reflexivity).
  pose proof (le_bytes_val (take 4 (drop 4 l)) ltac:(apply list.Forall_take, list.Forall_drop, Hb)) as E.
  rewrite L in E. exact E.
Qed.

Section passes.
Context {M : Type} {TM : TaskMem M}.
Implicit Types s : sched M.

Lemma wake_popped_fields w s :
  current_task (wake_popped w s) = current_task s /\ cur_aspace (wake_popped w s) = cur_aspace s.
Proof.
  unfold wake_popped, ttask_wake. destruct (w =? TIPC_NONE); [auto|]. destruct (w >=? TTASK_MAX_TASKS); [auto|].
  destruct (state_is _ _); auto.
Qed.

Lemma send_pass_spec self msg s mb rc s' mb' :
  mailbox_ok mb -> msg_ok msg -> tipc_send_pass self msg s mb = (rc, s', mb') ->
  mailbox_ok mb' /\ (mb_count mb < TIPC_QUEUE_SLOTS ->
    rc = Some 0 /\ mb_list mb' = mb_list mb ++ [msg] /\ exists w, s' = wake_popped w s).
Proof.
  intros [(Hr & Hs & Hv) Hf] Hm. unfold tipc_send_pass.
  destruct (mb_push_spec mb msg Hr) as [(_ & Hfull & ->)|(_ & Hlt & mb1 & -> & Hr1 & Hl1 & Es & Ev & _)]; cbn [Z.eqb].
  - destruct (waitq_push_spec (mb_wait_send mb) self Hs) as [[_ ->]|(_ & q & -> & Hq & _)]; cbn;
      injection 1 as <- <- <-; (split; [|lia]); split; [split; [exact Hr|split; assumption]|exact Hf|
        split; [exact Hr|split; assumption]|exact Hf].
  - destruct (tipc_core_waitq_pop (mb_wait_recv mb1)) as [w q] eqn:Ep. injection 1 as <- <- <-.
    assert (waitq_ok q) as Hq.
    { rewrite Ev in Ep. destruct (waitq_pop_spec _ Hv) as [(_ & _ & E)|(id & q' & E & Hq' & _)]; rewrite E in Ep;
        injection Ep as <- <-; assumption. }
    split; [|intros _; split; [reflexivity|split; [exact Hl1|eauto]]].
    split; [split; [exact Hr1|split; [cbn; rewrite Es; exact Hs|exact Hq]]|].
    change (Forall msg_ok (mb_list mb1)). rewrite Hl1. apply list.Forall_app. auto.
Qed.

Lemma recv_pass_spec self out s mb rc out' s' mb' :
  mailbox_ok mb -> tipc_recv_pass self out s mb = (rc, out', s', mb') ->
  mailbox_ok mb' /\
  (mb_list mb = [] /\ (rc = None \/ rc = Some (-1) /\ s' = s) \/
   rc = Some 0 /\ mb_list mb = out' :: mb_list mb' /\ exists w, s' = wake_popped w s).
Proof.
  intros [(Hr & Hs & Hv) Hf]. unfold tipc_recv_pass.
  destruct (mb_pop_spec mb out Hr) as [(_ & Hnil & ->)|(_ & m & mb1 & -> & Hr1 & Hl1 & Es & Ev & _)]; cbn [Z.eqb].
  - destruct (waitq_push_spec (mb_wait_recv mb) self Hv) as [[_ ->]|(_ & q & -> & Hq & _)]; cbn;
      injection 1 as <- <- <- <-; (split; [split; [split; [exact Hr|split; assumption]|exact Hf]|left; auto]).
  - destruct (tipc_core_waitq_pop (mb_wait_send mb1)) as [w q] eqn:Ep. injection 1 as <- <- <- <-.
    assert (waitq_ok q) as Hq.
    { rewrite Es in Ep. destruct (waitq_pop_spec _ Hs) as [(_ & _ & E)|(id & q' & E & Hq' & _)]; rewrite E in Ep;
        injection Ep as <- <-; assumption. }
    rewrite Hl1 in Hf. apply list.Forall_cons in Hf as [_ Hf].
    split; [split; [split; [exact Hr1|split; [exact Hq|cbn; rewrite Ev; exact Hv]]|exact Hf]|].
    right. split; [reflexivity|]. split; [exact Hl1|eauto].
Qed.
End passes.

(** * One turn of a call *)

Definition obj_kind (o : tipc_obj) : Z := match o with TIPC_OBJ_FREE => 0 | TIPC_OBJ_MB _ => 1 | TIPC_OBJ_MUTEX _ => 2 end.

Section turns.
Context {M H : Type} {TM : TaskMem M} {SH : SmallHeap H}.
Context (boot_stack_top : Z) (polls : nat).
Implicit Types y : sys M H.

Definition sys_ok y : Prop := length (tipc_table y) = Z.to_nat TIPC_MAX_OBJ /\ Forall obj_ok (tipc_table y).

(** An object that exists keeps its kind. *)
Definition kinds_kept y y' : Prop := forall n,
  obj_kind (tipc_table y !!! n) <> 0 -> obj_kind (tipc_table y' !!! n) = obj_kind (tipc_table y !!! n).

(** Memory changed only behind the range [v], [v + n) of the loaded space. *)
Definition confined y y' (v n : Z) : Prop := forall a,
  rd (y_mem y') a <> rd (y_mem y) a -> exists x, v <= x < v + n /\ user_addr y x = Some a.

(** What a call needs when its turn comes, and the memory it may write. *)
Definition call_ok (c : call) y : Prop :=
  match c with
  | CYield | CSleep _ => True
  | CSend id msg => is_Some (mb_at y id) /\ msg_ok msg
  | CRecv id buf => is_Some (mb_at y id) /\ mapped y buf MSG_SIZE
  | CLock id => is_Some (mutex_at y id)
  | CRead buf => mapped y buf 1
  end.
Definition call_range (c : call) : Z * Z :=
  match c with CRecv _ buf => (buf, MSG_SIZE) | CRead buf => (buf, 1) | _ => (0, 0) end.

Definition safe_step y y' (v n : Z) : Prop :=
  sys_ok y' /\ y_vmm y' = y_vmm y /\ kinds_kept y y' /\ confined y y' v n.

Lemma mb_at_ok y id mb : sys_ok y -> mb_at y id = Some mb -> mailbox_ok mb.
Proof.
  intros [Hl Hf]. unfold mb_at. rewrite list_lookup_total_alt.
  destruct (tipc_table y !! Z.to_nat id) as [o|] eqn:E; [|discriminate].
  pose proof (list.Forall_lookup_1 _ _ _ _ Hf E) as Ho. cbn [from_option]. destruct o; try discriminate.
  injection 1 as <-. exact Ho.
Qed.

(** Steps that touch neither the table nor memory nor the page tables. *)
Lemma safe_same y y' v n :
  tipc_table y' = tipc_table y -> y_mem y' = y_mem y -> y_vmm y' = y_vmm y -> sys_ok y -> safe_step y y' v n.
Proof.
  intros Et Em Ev Hok. split; [unfold sys_ok; rewrite Et; exact Hok|]. split; [exact Ev|].
  split; [intros i Hi; rewrite Et; reflexivity|]. intros a Ha. rewrite Em in Ha. contradiction.
Qed.

(** Replacing an object by one of the same kind. *)
Lemma safe_obj y y' id o v n :
  tipc_table y' = <[Z.to_nat id := o]> (tipc_table y) -> y_mem y' = y_mem y -> y_vmm y' = y_vmm y -> sys_ok y ->
  obj_ok o -> (obj_kind (tipc_table y !!! Z.to_nat id) <> 0 -> obj_kind o = obj_kind (tipc_table y !!! Z.to_nat id)) ->
  safe_step y y' v n.
Proof.
  intros Et Em Ev [Hl Hf] Ho Hk. split.
  { unfold sys_ok. rewrite Et, length_insert. split; [exact Hl|]. apply list.Forall_insert; assumption. }
  split; [exact Ev|]. split; [|intros a Ha; rewrite Em in Ha; contradiction].
  intros i Hi. rewrite Et. destruct (Nat.eq_dec (Z.to_nat id) i) as [<-|Hne].
  - destruct (Nat.lt_ge_cases (Z.to_nat id) (length (tipc_table y))).
    + rewrite list_lookup_total_insert_eq by lia. apply Hk, Hi.
    + rewrite list_insert_ge by lia. reflexivity.
  - rewrite list_lookup_total_insert_ne by exact Hne. reflexivity.
Qed.

Lemma put_sched_fields s' y :
  y_sched (put_sched s' y) = s' /\ y_vmm (put_sched s' y) = y_vmm y /\ y_mem (put_sched s' y) = y_mem y /\
  tipc_table (put_sched s' y) = tipc_table y.
Proof.
  unfold put_sched, y_sched. cbn [y_mach set_mach].
  destruct (switched_fields (cur (m_sched (y_mach y))) (with_sched s' (y_mach y))) as (-> & _). repeat split.
Qed.

(** The state after an IPC operation on object [id]. *)
Definition after_ipc (id : Z) (o : tipc_obj) (s' : sched M) y : sys M H :=
  set_if (cur (y_sched y)) true (set_obj id o (put_sched s' y)).

Lemma after_ipc_safe id o s' y v n : sys_ok y -> obj_ok o ->
  obj_kind o = obj_kind (tipc_table y !!! Z.to_nat id) -> safe_step y (after_ipc id o s' y) v n.
Proof. intros Hok Ho Hk. eapply safe_obj; [reflexivity|reflexivity|reflexivity|exact Hok|exact Ho|auto]. Qed.

Lemma after_ipc_view id o s' y : cur_aspace s' = cur_aspace (y_sched y) -> same_view y (after_ipc id o s' y).
Proof.
  intros E. apply same_view_intro; [reflexivity| |reflexivity]. destruct (put_sched_fields s' y) as [E2 _].
  change (cur_aspace (y_sched (put_sched s' y)) = cur_aspace (y_sched y)). rewrite E2. exact E.
Qed.

(** Copying out is a safe step behind its range. *)
Lemma copy_to_safe l v y : sys_ok y -> mapped y v (len l) ->
  exists y', copy_to v l y = Some y' /\ safe_step y y' v (len l).
Proof.
  intros Hok Hm. destruct (copy_to_spec l v y Hm) as (m' & -> & Hf & _). eexists. split; [reflexivity|].
  split; [exact Hok|]. split; [reflexivity|]. split; [intros i _; reflexivity|].
  intros a Ha. destruct (decide (Exists (fun x => user_addr y x = Some a) (seqZ v (len l)))) as [Hex|Hno].
  - apply list.Exists_exists in Hex as (x & Hx & E). apply elem_of_seqZ in Hx. exists x. split; [lia|exact E].
  - exfalso. apply Ha. apply Hf. intros x Hx E. apply Hno. apply list.Exists_exists. exists x.
    split; [apply elem_of_seqZ; lia|exact E].
Qed.

Lemma safe_trans y1 y2 y3 v n : same_view y1 y2 -> safe_step y1 y2 v n -> safe_step y2 y3 v n -> safe_step y1 y3 v n.
Proof.
  intros Hv (_ & V1 & K1 & C1) (O2 & V2 & K2 & C2). split; [exact O2|]. split; [congruence|]. split.
  - intros i Hi. rewrite K2; [apply K1, Hi|]. rewrite K1; exact Hi.
  - intros a Ha. destruct (Z.eq_dec (rd (y_mem y3) a) (rd (y_mem y2) a)) as [E|Hne]; [apply C1; congruence|].
    destruct (C2 a Hne) as (x & Hx & E). exists x. split; [exact Hx|]. rewrite <- Hv. exact E.
Qed.

Lemma kind_mb y id mb : mb_at y id = Some mb -> obj_kind (tipc_table y !!! Z.to_nat id) = 1.
Proof. unfold mb_at. destruct (tipc_table y !!! Z.to_nat id); (discriminate || reflexivity). Qed.
Lemma kind_mutex y id m : mutex_at y id = Some m -> obj_kind (tipc_table y !!! Z.to_nat id) = 2.
Proof. unfold mutex_at. destruct (tipc_table y !!! Z.to_nat id); (discriminate || reflexivity). Qed.

(** The receiving turn. *)
Lemma recv_turn_safe id buf y o y' : sys_ok y -> is_Some (mb_at y id) -> mapped y buf MSG_SIZE ->
  call_pass boot_stack_top (CRecv id buf) y = (o, y') -> o <> Fault /\ safe_step y y' buf MSG_SIZE.
Proof.
  intros Hok [mb Emb] Hm E. cbn [call_pass] in E. rewrite Emb in E. pose proof (mb_at_ok y id mb Hok Emb) as Hmb.
  destruct (tipc_recv_pass _ _ _ _) as [[[rc out] s'] mb'] eqn:Ep.
  destruct (recv_pass_spec _ _ _ _ _ _ _ _ Hmb Ep) as [Hmb' Hcases].
  assert (safe_step y (after_ipc id (TIPC_OBJ_MB mb') s' y) buf MSG_SIZE) as Hsafe.
  { apply after_ipc_safe; [exact Hok|exact Hmb'|]. rewrite (kind_mb y id mb Emb). reflexivity. }
  change (set_if _ _ _) with (after_ipc id (TIPC_OBJ_MB mb') s' y) in E.
  destruct Hcases as [[_ [->|[-> _]]]|(-> & Hl & w & ->)].
  - injection E as <- <-. split; [discriminate|exact Hsafe].
  - cbn in E. injection E as <- <-. split; [discriminate|exact Hsafe].
  - cbn [u64 Z.modulo Z.eqb] in E. destruct Hmb as [_ Hf]. rewrite Hl in Hf. apply list.Forall_cons in Hf as [Hout _].
    assert (same_view y (after_ipc id (TIPC_OBJ_MB mb') (wake_popped w (y_sched y)) y)) as Hv
      by (apply after_ipc_view, wake_popped_fields).
    destruct (copy_to_safe (msg_bytes out) buf (after_ipc id (TIPC_OBJ_MB mb') (wake_popped w (y_sched y)) y))
      as (y2 & E2 & S2).
    { exact (proj1 Hsafe). }
    { rewrite msg_bytes_length by exact Hout. exact (same_view_mapped _ _ _ _ Hv Hm). }
    change (u64 0 =? 0) with true in E. cbv iota in E. rewrite E2 in E. injection E as <- <-. split; [discriminate|].
    rewrite msg_bytes_length in S2 by exact Hout. exact (safe_trans _ _ _ _ _ Hv Hsafe S2).
Qed.

(** A turn with its needs met does not fault and writes only its buffer. *)
Lemma turn_safe c y o y' : sys_ok y -> call_ok c y -> call_pass boot_stack_top c y = (o, y') ->
  o <> Fault /\ safe_step y y' (call_range c).1 (call_range c).2.
Proof.
  intros Hok Hc E. destruct c as [|until|id msg|id buf|id|buf].
  - injection E as <- <-. split; [discriminate|]. apply safe_same; auto.
  - cbn [call_pass] in E. destruct (_ <? 0); injection E as <- <-; (split; [discriminate|]); apply safe_same; auto.
  - destruct Hc as [[mb Emb] Hmsg]. cbn [call_pass] in E. rewrite Emb in E.
    destruct (tipc_send_pass _ _ _ _) as [[rc s'] mb'] eqn:Ep.
    destruct (send_pass_spec _ _ _ _ _ _ _ (mb_at_ok y id mb Hok Emb) Hmsg Ep) as [Hmb' _].
    change (set_if _ _ _) with (after_ipc id (TIPC_OBJ_MB mb') s' y) in E.
    assert (safe_step y (after_ipc id (TIPC_OBJ_MB mb') s' y) 0 0)
      by (apply after_ipc_safe; [exact Hok|exact Hmb'|rewrite (kind_mb y id mb Emb); reflexivity]).
    destruct rc; injection E as <- <-; (split; [discriminate|assumption]).
  - destruct Hc as [Hmb Hm]. exact (recv_turn_safe id buf y o y' Hok Hmb Hm E).
  - destruct Hc as [m Em]. cbn [call_pass] in E. rewrite Em in E.
    destruct (tipc_mutex_lock_pass _ _ _) as [[rc s'] m'].
    change (set_if _ _ _) with (after_ipc id (TIPC_OBJ_MUTEX m') s' y) in E.
    assert (safe_step y (after_ipc id (TIPC_OBJ_MUTEX m') s' y) 0 0)
      by (apply after_ipc_safe; [exact Hok|exact I|rewrite (kind_mutex y id m Em); reflexivity]).
    destruct rc; injection E as <- <-; (split; [discriminate|assumption]).
  - cbn [call_pass] in E. destruct (keyboard_getchar _) as [ch kb].
    set (y1 := set_mach (with_kb kb (y_mach y)) y) in *.
    destruct (ch =? KEY_NONE); [injection E as <- <-; split; [discriminate|apply safe_same; auto]|].
    destruct (ch <? 0); [injection E as <- <-; split; [discriminate|apply safe_same; auto]|].
    destruct (copy_to_safe [u8 ch] buf y1 Hok Hc) as (y2 & E2 & S2). rewrite E2 in E. injection E as <- <-.
    split; [discriminate|]. apply (safe_trans y y1 y2); [intros v; reflexivity|apply safe_same; auto|exact S2].
Qed.
End turns.

(** * The handler *)

Lemma u64_s64 x : u64 (s64 x) = u64 x.
Proof. unfold s64. case_if; zlia. Qed.

Section handling.
Context {M H : Type} {TM : TaskMem M} {SH : SmallHeap H}.
Context (boot_stack_top : Z) (polls : nat).
Implicit Types y : sys M H.

Local Abbreviation handler := (syscall_handler boot_stack_top polls).

(** What a call may do: end or wait, without a fault, and write only user
    memory behind the [n] bytes at its second argument. *)
Definition handled (r : registers_t) y (n : Z) (res : option (outcome * sys M H)) : Prop :=
  exists o y', res = Some (o, y') /\ o <> Fault /\ safe_step y y' (u64 (r_rsi r)) n /\
    (n <> 0 -> VMM_USER_BASE <= u64 (r_rsi r) /\ u64 (r_rsi r) + n <= VMM_USER_END).

Lemma handled_same r y o y' : o <> Fault ->
  tipc_table y' = tipc_table y -> y_mem y' = y_mem y -> y_vmm y' = y_vmm y -> sys_ok y ->
  handled r y 0 (Some (o, y')).
Proof. intros Ho Et Em Ev Hok. exists o, y'. split; [reflexivity|]. split; [exact Ho|]. split; [apply safe_same; auto|lia]. Qed.

Lemma handled_turn r y c v : sys_ok y -> call_ok c y -> call_range c = (v, 0) ->
  handled r y 0 (Some (call_pass boot_stack_top c y)).
Proof.
  intros Hok Hc Hr. destruct (call_pass boot_stack_top c y) as [o y'] eqn:E.
  destruct (turn_safe boot_stack_top c y o y' Hok Hc E) as [Ho (S1 & S2 & S3 & S4)]. rewrite Hr in S4. cbn [fst snd] in S4.
  exists o, y'. split; [reflexivity|]. split; [exact Ho|]. split; [|lia].
  split; [exact S1|]. split; [exact S2|]. split; [exact S3|]. intros a Ha. destruct (S4 a Ha) as (x & Hx & _). lia.
Qed.

Lemma handled_init r y i o : sys_ok y -> free_slot y = Some i -> obj_ok o ->
  handled r y 0 (Some (ret i, set_obj i o y)).
Proof.
  intros Hok Ef Ho. exists (ret i), (set_obj i o y). split; [reflexivity|]. split; [discriminate|]. split; [|lia].
  apply find_range_Some in Ef as (_ & Ef & _).
  eapply safe_obj; [reflexivity|reflexivity|reflexivity|exact Hok|exact Ho|].
  destruct (tipc_table y !!! Z.to_nat i); [|discriminate..]. cbn. lia.
Qed.

Lemma zero_mb_ok : mailbox_ok (tipc_core_mb_init zero_mb).
Proof.
  split; [|constructor]. split; [|split]; (split; [reflexivity|]); unfold TIPC_QUEUE_SLOTS, TIPC_WAIT_MAX; simpl; lia.
Qed.

Lemma is_mb_Some y id : is_mb y id = true -> is_Some (mb_at y id).
Proof. unfold is_mb. intros E. apply andb_true_iff in E as [_ E]. destruct (mb_at y id); [eauto|discriminate]. Qed.
Lemma is_mutex_Some y id : is_mutex y id = true -> is_Some (mutex_at y id).
Proof. unfold is_mutex. intros E. apply andb_true_iff in E as [_ E]. destruct (mutex_at y id); [eauto|discriminate]. Qed.

(** [TSYS_WRITE] *)
Lemma handled_write r y a3 : smap_off y -> sys_ok y -> transmits polls (m_ser (y_mach y)) -> 0 < a3 < 9223372036854775808 ->
  handled r y 0 (b ← vmm_range_user (u64 (r_rsi r)) (u64 a3) 0 (mmu y);
    if negb b then Some (ret (-1), y)
    else '(ok, y') ← write_loop polls (Z.to_nat (u64 a3)) (u64 (r_rsi r)) y;
         Some (if ok : bool then ret a3 else Fault, y')).
Proof.
  intros Hsm Hok Ht Ha. rewrite (u64_small a3) by lia.
  destruct (range_check y (u64 (r_rsi r)) a3 0 Hsm (u64_range _) ltac:(unfold in_u64; lia) ltac:(lia)) as (b & E & Hb).
  rewrite E. cbn [mbind option_bind]. destruct b; cbn [negb]; [|apply handled_same; try reflexivity; [discriminate|exact Hok]].
  destruct Hb as (_ & _ & Hm); [reflexivity|].
  destruct (write_loop_spec polls (Z.to_nat a3) (u64 (r_rsi r)) y) as (l & ser & _ & _ & ->);
    [rewrite Z2Nat.id by lia; exact Hm|exact Ht|].
  cbn [mbind option_bind]. apply handled_same; try reflexivity; [discriminate|exact Hok].
Qed.

(** [TSYS_MB_SEND] *)
Lemma handled_send r y a1 : smap_off y -> sys_ok y -> is_mb y a1 = true ->
  handled r y 0 (b ← vmm_range_user (u64 (r_rsi r)) MSG_SIZE 0 (mmu y);
    if negb b then Some (ret (-1), y)
    else match copy_from (Z.to_nat MSG_SIZE) (u64 (r_rsi r)) y with
         | None => Some (Fault, y)
         | Some l => Some (call_pass boot_stack_top (CSend a1 (stamp (ttask_self (y_sched y)) (bytes_msg l))) y)
         end).
Proof.
  intros Hsm Hok Hmb. destruct (range_check y (u64 (r_rsi r)) MSG_SIZE 0 Hsm (u64_range _)) as (b & E & Hb);
    [unfold in_u64, MSG_SIZE; lia|discriminate|].
  rewrite E. cbn [mbind option_bind]. destruct b; cbn [negb]; [|apply handled_same; try reflexivity; [discriminate|exact Hok]].
  destruct Hb as (_ & _ & Hm); [reflexivity|].
  destruct (copy_from_spec (Z.to_nat MSG_SIZE) (u64 (r_rsi r)) y Hm) as (l & -> & Hl & _).
  apply (handled_turn _ _ _ 0); [exact Hok| |reflexivity]. split; [apply is_mb_Some, Hmb|exact (bytes_msg_ok l Hl)].
Qed.

(** [TSYS_MB_RECV] and [TSYS_READ] *)
Lemma handled_into r y c n len write : smap_off y -> sys_ok y -> in_u64 len -> 0 < n <= len ->
  call_range c = (u64 (r_rsi r), n) -> (mapped y (u64 (r_rsi r)) n -> call_ok c y) ->
  exists n', (n' = 0 \/ n' = n) /\
  handled r y n' (b ← vmm_range_user (u64 (r_rsi r)) len write (mmu y);
    if negb b then Some (ret (-1), y) else Some (call_pass boot_stack_top c y)).
Proof.
  intros Hsm Hok Hl Hn Hr Hc. destruct (range_check y (u64 (r_rsi r)) len write Hsm (u64_range _) Hl ltac:(lia)) as (b & E & Hb).
  rewrite E. cbn [mbind option_bind]. destruct b; cbn [negb];
    [|exists 0; split; [auto|]; apply handled_same; try reflexivity; [discriminate|exact Hok]].
  destruct Hb as (H1 & H2 & Hm); [reflexivity|]. exists n. split; [auto|].
  destruct (call_pass boot_stack_top c y) as [o y'] eqn:Ep.
  destruct (turn_safe boot_stack_top c y o y' Hok) as [Ho Hs]; [apply Hc; intros x Hx; apply Hm; lia|exact Ep|].
  rewrite Hr in Hs. exists o, y'. split; [reflexivity|]. split; [exact Ho|]. split; [exact Hs|lia].
Qed.

(** Every call, whatever its number and arguments. *)
Lemma handler_handled r y : smap_off y -> sys_ok y -> transmits polls (m_ser (y_mach y)) ->
  exists n, (n = 0 \/ n = 1 \/ n = MSG_SIZE) /\ handled r y n (handler r y).
Proof.
  intros Hsm Hok Ht. unfold syscall_handler. rewrite !u64_s64.
  destruct (Z.land (r_cs r) 3 =? 0); [exists 0; split; [auto|]; apply handled_same; try reflexivity; [discriminate|exact Hok]|].
  set (y0 := set_if (cur (y_sched y)) false y). assert (sys_ok y0) as Hok0 by exact Hok.
  assert (forall o, o <> Fault -> exists n, (n = 0 \/ n = 1 \/ n = MSG_SIZE) /\ handled r y n (Some (o, y0))) as Hdone
    by (intros o Ho; exists 0; split; [auto|]; apply handled_same; try reflexivity; assumption).
  assert (ret (-1) <> Fault) as Hm1 by discriminate.
  assert (forall res, handled r y0 0 res -> exists n, (n = 0 \/ n = 1 \/ n = MSG_SIZE) /\ handled r y n res) as H0
    by (intros res Hr; exists 0; split; [auto|exact Hr]).
  destruct (s64 (r_rax r) =? TSYS_WRITE).
  { destruct (negb (s64 (r_rdi r) =? 1) || (s64 (r_rdx r) <=? 0)) eqn:E; [apply Hdone, Hm1|].
    apply H0. pose proof (handled_write r y0 (s64 (r_rdx r)) Hsm Hok0 Ht) as Hw. rewrite u64_s64 in Hw. apply Hw.
    assert (s64 (r_rdx r) < 9223372036854775808) by (unfold s64; case_if; zlia). lia. }
  destruct (_ =? TSYS_EXIT).
  { apply H0, handled_same; try reflexivity; [discriminate|exact Hok0]. }
  destruct (_ =? TSYS_GETPID); [apply Hdone; discriminate|].
  destruct (_ =? TSYS_YIELD).
  { apply H0, handled_same; try reflexivity; [discriminate|exact Hok0]. }
  destruct (_ =? TSYS_SLEEP).
  { destruct (_ <? 0); [apply Hdone, Hm1|]. apply H0, (handled_turn _ _ _ 0); [exact Hok0|exact I|reflexivity]. }
  destruct (_ =? TSYS_GETTICKS); [apply Hdone; discriminate|].
  destruct (_ =? TSYS_MB_INIT).
  { unfold sys_mb_init. destruct (free_slot y0) as [i|] eqn:Ef; [|apply Hdone, Hm1].
    apply H0. apply (handled_init r y0 i (TIPC_OBJ_MB (tipc_core_mb_init zero_mb)) Hok0 Ef). exact zero_mb_ok. }
  destruct (_ =? TSYS_MB_SEND).
  { destruct (is_mb y0 (s64 (r_rdi r))) eqn:Emb; cbn [negb]; [|apply Hdone, Hm1].
    apply H0. exact (handled_send r y0 _ Hsm Hok0 Emb). }
  destruct (_ =? TSYS_MB_RECV).
  { destruct (is_mb y0 (s64 (r_rdi r))) eqn:Emb; cbn [negb]; [|apply Hdone, Hm1].
    destruct (handled_into r y0 (CRecv (s64 (r_rdi r)) (u64 (r_rsi r))) MSG_SIZE MSG_SIZE 0 Hsm Hok0) as (n & Hn & Hr);
      [unfold in_u64, MSG_SIZE; lia|unfold MSG_SIZE; lia|reflexivity|
       intros Hm; split; [apply is_mb_Some, Emb|exact Hm]|].
    exists n. split; [tauto|exact Hr]. }
  destruct (_ =? TSYS_MUTEX_INIT).
  { unfold sys_mutex_init. destruct (free_slot y0) as [i|] eqn:Ef; [|apply Hdone, Hm1].
    apply H0. apply (handled_init r y0 i (TIPC_OBJ_MUTEX (tipc_core_mutex_init zero_mutex)) Hok0 Ef). exact I. }
  destruct (_ =? TSYS_MUTEX_LOCK).
  { destruct (is_mutex y0 (s64 (r_rdi r))) eqn:Emx; cbn [negb]; [|apply Hdone, Hm1].
    apply H0, (handled_turn _ _ _ 0); [exact Hok0|exact (is_mutex_Some _ _ Emx)|reflexivity]. }
  destruct (_ =? TSYS_MUTEX_UNLOCK).
  { destruct (is_mutex y0 (s64 (r_rdi r))) eqn:Emx; cbn [negb]; [|apply Hdone, Hm1].
    destruct (is_mutex_Some _ _ Emx) as [m Em]. rewrite Em.
    destruct (tipc_mutex_unlock _ _ _) as [[rc s'] m']. apply H0. eexists _, _. split; [reflexivity|].
    split; [discriminate|]. split; [|lia].
    apply (after_ipc_safe (s64 (r_rdi r)) (TIPC_OBJ_MUTEX m') s' y0); [exact Hok0|exact I|].
    rewrite (kind_mutex y0 _ m Em). reflexivity. }
  destruct (_ =? TSYS_READ); [|apply Hdone, Hm1].
  destruct (negb (s64 (r_rdi r) =? 0) || (s64 (r_rdx r) <=? 0)) eqn:E; [apply Hdone, Hm1|].
  destruct (handled_into r y0 (CRead (u64 (r_rsi r))) 1 (u64 (r_rdx r)) 1 Hsm Hok0) as (n & Hn & Hr);
    [apply u64_range| |reflexivity|auto|exists n; split; [tauto|exact Hr]].
  rewrite <- u64_s64, u64_small; [lia|]. assert (s64 (r_rdx r) < 9223372036854775808) by (unfold s64; case_if; zlia). lia.
Qed.


(** [TSYS_WRITE] prints what the program sees: with [CR4.SMAP] clear, for a
    range that the pointer check accepts it returns the length, the console shows exactly the
    bytes of the buffer as the program's address space maps them, in order,
    the same bytes go out on the serial line, and nothing else changes. *)
Theorem sys_write_prints r y n :
  Z.land (r_cs r) 3 <> 0 -> r_rax r = TSYS_WRITE -> r_rdi r = 1 -> r_rdx r = n -> 0 < n < 9223372036854775808 ->
  smap_off y -> vmm_range_user (u64 (r_rsi r)) n 0 (mmu y) = Some true -> transmits polls (m_ser (y_mach y)) ->
  exists l y', handler r y = Some (Ret n, y') /\ copy_from (Z.to_nat n) (u64 (r_rsi r)) y = Some l /\
    m_vga (y_mach y') = put_all l (m_vga (y_mach y)) /\
    after_sending COM1 l (m_ser (y_mach y)) (m_ser (y_mach y')) /\
    y_sched y' = y_sched y /\ y_mem y' = y_mem y /\ tipc_table y' = tipc_table y.
Proof.
  intros Hcs Enr E1 E3 Hn Hsm Hrange Ht. unfold syscall_handler. apply Z.eqb_neq in Hcs. rewrite Hcs, Enr, E1, E3.
  assert (s64 n = n) as -> by (unfold s64; rewrite u64_small by lia; case_if; lia).
  rewrite !u64_s64, (u64_small n) by lia. cbn [s64 u64]. change (s64 TSYS_WRITE =? TSYS_WRITE) with true.
  change (s64 1 =? 1) with true. replace (n <=? 0) with false by lia. cbn [negb orb].
  set (y0 := set_if (cur (y_sched y)) false y). change (mmu y0) with (mmu y). rewrite Hrange. cbn [mbind option_bind negb].
  destruct (range_check y (u64 (r_rsi r)) n 0 Hsm (u64_range _) ltac:(unfold in_u64; lia) ltac:(lia)) as (b & Eb & Hb).
  assert (b = true) as -> by congruence. destruct Hb as (_ & _ & Hm); [reflexivity|].
  destruct (write_loop_spec polls (Z.to_nat n) (u64 (r_rsi r)) y0) as (l & ser & El & Ha & ->);
    [rewrite Z2Nat.id by lia; exact Hm|exact Ht|].
  cbn [mbind option_bind]. eexists l, _. split; [unfold ret; rewrite u64_small by lia; reflexivity|].
  split; [|split; [reflexivity|split; [exact Ha|repeat split]]].
  assert (forall k v, copy_from k v y0 = copy_from k v y) as Hcf.
  { induction k as [|k IHk]; intros v; cbn [copy_from]; [reflexivity|]. rewrite IHk. reflexivity. }
  rewrite <- Hcf. exact El.
Qed.

(** With [CR4.SMAP] set, as [sec_harden] leaves it, the kernel cannot read what
    programs hand it: [TSYS_WRITE] with a buffer that passes the pointer check
    runs into a page fault of the kernel at the first byte, whatever the
    buffer, because nothing lifts the protection for the copy. *)
Theorem smap_refuses_buffers r y n :
  Z.land (r_cs r) 3 <> 0 -> r_rax r = TSYS_WRITE -> r_rdi r = 1 -> r_rdx r = n -> 0 < n < 9223372036854775808 ->
  has (y_cr4 y) CR4_SMAP = true -> vmm_range_user (u64 (r_rsi r)) n 0 (mmu y) = Some true ->
  user_page (words (vm (mmu y))) (cur_top (mmu y)) (u64 (r_rsi r)) = true ->
  exists y', handler r y = Some (Fault, y').
Proof.
  intros Hcs Enr E1 E3 Hn Hsm Hrange Hu. unfold syscall_handler. apply Z.eqb_neq in Hcs. rewrite Hcs, Enr, E1, E3.
  assert (s64 n = n) as -> by (unfold s64; rewrite u64_small by lia; case_if; lia).
  rewrite !u64_s64, (u64_small n) by lia. change (s64 TSYS_WRITE =? TSYS_WRITE) with true.
  change (s64 1 =? 1) with true. replace (n <=? 0) with false by lia. cbn [negb orb].
  set (y0 := set_if (cur (y_sched y)) false y). change (mmu y0) with (mmu y). rewrite Hrange. cbn [mbind option_bind negb].
  destruct (Z.to_nat n) as [|k] eqn:Ek; [lia|]. cbn [write_loop].
  assert (user_byte y0 (u64 (r_rsi r)) = None) as ->; [|exists y0; reflexivity].
  unfold user_byte, user_addr, smap_blocks. change (mmu y0) with (mmu y). change (y_cr4 y0) with (y_cr4 y).
  rewrite Hsm, Hu. reflexivity.
Qed.

(** The bytes of a message arrive where the receiver asked for them. *)
Lemma recv_copies id buf y mb m : sys_ok y -> mb_at y id = Some mb -> mb_list mb = [m] -> mapped y buf MSG_SIZE ->
  (forall i j a, 0 <= i < MSG_SIZE -> 0 <= j < MSG_SIZE -> user_addr y (buf + i) = Some a ->
     user_addr y (buf + j) = Some a -> i = j) ->
  exists y3, call_pass boot_stack_top (CRecv id buf) y = (Ret 0, y3) /\
    copy_from (Z.to_nat MSG_SIZE) buf y3 = Some (msg_bytes m).
Proof.
  intros Hok Emb Hl Hm Hinj. pose proof (mb_at_ok y id mb Hok Emb) as Hmb. cbn [call_pass]. rewrite Emb.
  destruct (tipc_recv_pass _ _ _ _) as [[[rc out] s'] mb'] eqn:Ep.
  destruct (recv_pass_spec _ _ _ _ _ _ _ _ Hmb Ep) as [Hmb' [[Hnil _]|(-> & Hl' & w & ->)]]; [congruence|].
  rewrite Hl in Hl'. injection Hl' as <- _. destruct Hmb as [_ Hf]. rewrite Hl in Hf. apply list.Forall_cons in Hf as [Hout _].
  change (set_if _ _ _) with (after_ipc id (TIPC_OBJ_MB mb') (wake_popped w (y_sched y)) y).
  set (y1 := after_ipc _ _ _ y).
  assert (same_view y y1) as Hv by (apply after_ipc_view, wake_popped_fields).
  change (u64 0 =? 0) with true. cbv iota.
  destruct (copy_to_spec (msg_bytes m) buf y1) as (m' & -> & _ & Hc);
    [rewrite msg_bytes_length by exact Hout; exact (same_view_mapped _ _ _ _ Hv Hm)|].
  eexists. split; [reflexivity|]. pose proof (msg_bytes_length m Hout) as Hlen.
  apply copy_from_ext; [lia|]. intros k b Hk. pose proof (lookup_lt_Some _ _ _ Hk).
  destruct (Hm (buf + Z.of_nat k)) as [a Ha]; [lia|].
  assert (user_addr y1 (buf + Z.of_nat k) = Some a) as Ha1 by (rewrite Hv; exact Ha).
  unfold user_byte. change (user_addr (set_mem m' y1) (buf + Z.of_nat k)) with (user_addr y1 (buf + Z.of_nat k)).
  rewrite Ha1. cbn [mbind option_bind y_mem set_mem]. f_equal.
  apply (Hc) with (k := k); [|exact Hk|exact Ha1]. rewrite Hlen. intros i j a2 Hi Hj. rewrite !Hv. apply Hinj; assumption.
Qed.

Lemma copied_bytes n : forall v y l, copy_from n v y = Some l -> (forall a, in_u8 (rd (y_mem y) a)) -> Forall in_u8 l.
Proof.
  induction n as [|n IH]; intros v y l; cbn [copy_from]; [injection 1 as <-; constructor|].
  unfold user_byte at 1. destruct (user_addr y v) as [a|]; [|discriminate]. cbn [mbind option_bind].
  destruct (copy_from n (v + 1) y) as [l'|] eqn:E; [|discriminate]. injection 1 as <-. intros Hb.
  constructor; [apply Hb|exact (IH _ _ _ E Hb)].
Qed.

Lemma copy_from_if n : forall v i b y, copy_from n v (set_if i b y) = copy_from n v y.
Proof. induction n as [|n IH]; intros v i b y; cbn [copy_from]; [reflexivity|]. rewrite IH. reflexivity. Qed.

Lemma accepted_mapped y addr write : smap_off y -> vmm_range_user (u64 addr) MSG_SIZE write (mmu y) = Some true -> mapped y (u64 addr) MSG_SIZE.
Proof.
  intros Hsm E. destruct (range_check y (u64 addr) MSG_SIZE write Hsm (u64_range _)) as (b & Eb & Hb);
    [unfold in_u64, MSG_SIZE; lia|discriminate|]. assert (b = true) as -> by congruence. apply Hb. reflexivity.
Qed.

Lemma s64_id id : 0 <= id < TIPC_MAX_OBJ -> s64 id = id.
Proof. unfold s64, TIPC_MAX_OBJ. intros Hid. rewrite u64_small by lia. case_if; lia. Qed.

Lemma is_mb_true y id mb : 0 <= id < TIPC_MAX_OBJ -> mb_at y id = Some mb -> is_mb y id = true.
Proof. intros Hid E. unfold is_mb, id_ok. rewrite E. unfold TIPC_MAX_OBJ in *. lia. Qed.

(** A send into a mailbox with room. *)
Lemma sys_send_spec r y id mb : smap_off y -> sys_ok y -> 0 <= id < TIPC_MAX_OBJ ->
  Z.land (r_cs r) 3 <> 0 -> r_rax r = TSYS_MB_SEND -> r_rdi r = id ->
  mb_at y id = Some mb -> mb_count mb < TIPC_QUEUE_SLOTS ->
  vmm_range_user (u64 (r_rsi r)) MSG_SIZE 0 (mmu y) = Some true ->
  exists y1 l mb', handler r y = Some (Ret 0, y1) /\ copy_from (Z.to_nat MSG_SIZE) (u64 (r_rsi r)) y = Some l /\
    length l = Z.to_nat MSG_SIZE /\ tipc_table y1 = <[Z.to_nat id := TIPC_OBJ_MB mb']> (tipc_table y) /\ mailbox_ok mb' /\
    mb_list mb' = mb_list mb ++ [stamp (ttask_self (y_sched y)) (bytes_msg l)].
Proof.
  intros Hsm Hok Hid Hcs Enr Ei Emb Hroom Hr. set (y0 := set_if (cur (y_sched y)) false y).
  destruct (copy_from_spec (Z.to_nat MSG_SIZE) (u64 (r_rsi r)) y0 (accepted_mapped y _ 0 Hsm Hr)) as (l & El & Hl & _).
  set (msg := stamp (ttask_self (y_sched y)) (bytes_msg l)).
  destruct (tipc_send_pass (ttask_self (y_sched y)) msg (y_sched y) mb) as [[rc s'] mb'] eqn:Ep.
  destruct (send_pass_spec _ msg _ _ _ _ _ (mb_at_ok y id mb Hok Emb) (bytes_msg_ok l Hl) Ep) as [Hmb' Hsent].
  destruct (Hsent Hroom) as (-> & Hlist & _).
  exists (after_ipc id (TIPC_OBJ_MB mb') s' y0), l, mb'.
  split; [|split; [rewrite <- (copy_from_if _ _ (cur (y_sched y)) false); exact El|split; [exact Hl|auto]]].
  unfold syscall_handler. apply Z.eqb_neq in Hcs. rewrite Hcs, Enr, Ei, (s64_id id Hid). fold y0.
  change (s64 TSYS_MB_SEND) with 7. cbn [Z.eqb Pos.eqb TSYS_WRITE TSYS_EXIT TSYS_GETPID TSYS_YIELD TSYS_SLEEP
    TSYS_GETTICKS TSYS_MB_INIT TSYS_MB_SEND]. rewrite (is_mb_true y0 id mb Hid Emb). cbn [negb]. rewrite u64_s64.
  change (mmu y0) with (mmu y). rewrite Hr. cbn [mbind option_bind negb]. rewrite El.
  cbn [call_pass]. change (mb_at y0 id) with (mb_at y id). rewrite Emb. change (y_sched y0) with (y_sched y).
  fold msg. rewrite Ep. reflexivity.
Qed.

(** A receive from a mailbox with one message. *)
Lemma sys_recv_spec r y id mb m : smap_off y -> sys_ok y -> 0 <= id < TIPC_MAX_OBJ ->
  Z.land (r_cs r) 3 <> 0 -> r_rax r = TSYS_MB_RECV -> r_rdi r = id -> mb_at y id = Some mb -> mb_list mb = [m] ->
  vmm_range_user (u64 (r_rsi r)) MSG_SIZE 0 (mmu y) = Some true ->
  (forall i j a, 0 <= i < MSG_SIZE -> 0 <= j < MSG_SIZE -> user_addr y (u64 (r_rsi r) + i) = Some a ->
     user_addr y (u64 (r_rsi r) + j) = Some a -> i = j) ->
  exists y3, handler r y = Some (Ret 0, y3) /\ copy_from (Z.to_nat MSG_SIZE) (u64 (r_rsi r)) y3 = Some (msg_bytes m).
Proof.
  intros Hsm Hok Hid Hcs Enr Ei Emb Hl Hr Hinj. set (y0 := set_if (cur (y_sched y)) false y).
  destruct (recv_copies id (u64 (r_rsi r)) y0 mb m Hok Emb Hl (accepted_mapped y _ 0 Hsm Hr) Hinj) as (y3 & Ey3 & Hcopy).
  exists y3. split; [|exact Hcopy].
  unfold syscall_handler. apply Z.eqb_neq in Hcs. rewrite Hcs, Enr, Ei, (s64_id id Hid). fold y0.
  change (s64 TSYS_MB_RECV) with 8. cbn [Z.eqb Pos.eqb TSYS_WRITE TSYS_EXIT TSYS_GETPID TSYS_YIELD TSYS_SLEEP
    TSYS_GETTICKS TSYS_MB_INIT TSYS_MB_SEND TSYS_MB_RECV]. rewrite (is_mb_true y0 id mb Hid Emb). cbn [negb]. rewrite u64_s64.
  change (mmu y0) with (mmu y). rewrite Hr. cbn [mbind option_bind negb]. rewrite Ey3. reflexivity.
Qed.


(** A turn of a sleep that has not expired, by the task the scheduler prefers,
    changes nothing. *)
Lemma sleep_turn_idle until y : scheduler_ready (y_sched y) = true -> ttask_pick_next (y_sched y) = cur (y_sched y) ->
  s64 (u64 (timer_ticks (y_mach y) - until)) < 0 ->
  call_pass boot_stack_top (CSleep until) y = (Loop (CSleep until), y).
Proof.
  intros Hready Hpick Hlt. cbn [call_pass]. replace (_ <? 0) with true by lia. f_equal.
  unfold on_sched, run_sched, ttask_yield, ttask_pick_switch. change (m_sched (y_mach y)) with (y_sched y).
  rewrite Hready, Hpick, Z.eqb_refl. cbn [negb].
  assert (with_sched (y_sched y) (y_mach y) = y_mach y) as -> by (destruct y as [[]]; reflexivity).
  unfold switched. change (m_sched (y_mach y)) with (y_sched y). rewrite Z.eqb_refl. cbn [orb]. destruct y; reflexivity.
Qed.

(** [TSYS_SLEEP] hangs the machine when its caller is the task that the
    scheduler prefers (as a user task is over the shell): the gate has
    disabled interrupts and [ttask_yield] does not enable them, so no tick can
    arrive, and each turn of the loop finds the same tick count, picks the same
    task and leaves the whole state as it was, for any number of turns. *)
Theorem sleep_never_returns r y :
  Z.land (r_cs r) 3 <> 0 -> r_rax r = TSYS_SLEEP -> 0 < r_rdi r < 9223372036854775808 ->
  0 <= timer_ticks (y_mach y) < 4294967296 ->
  scheduler_ready (y_sched y) = true -> ttask_pick_next (y_sched y) = cur (y_sched y) ->
  exists c y', handler r y = Some (Loop c, y') /\ cur (y_sched y') = cur (y_sched y) /\
    y_if y' (cur (y_sched y)) = false /\
    forall n, Nat.iter n (fun p => call_pass boot_stack_top c (snd p)) (Loop c, y') = (Loop c, y').
Proof.
  intros Hcs Enr Ha Ht Hready Hpick. set (y0 := set_if (cur (y_sched y)) false y).
  set (until := u64 (timer_ticks (y_mach y) + r_rdi r)).
  assert (s64 (r_rdi r) = r_rdi r) as Ea by (unfold s64; rewrite u64_small by lia; case_if; lia).
  assert (call_pass boot_stack_top (CSleep until) y0 = (Loop (CSleep until), y0)) as Eturn.
  { apply sleep_turn_idle; [exact Hready|exact Hpick|]. change (timer_ticks (y_mach y0)) with (timer_ticks (y_mach y)).
    unfold until. rewrite (u64_small (timer_ticks (y_mach y) + r_rdi r)) by lia. unfold s64. case_if; zlia. }
  exists (CSleep until), y0. split; [|split; [reflexivity|split; [cbn; rewrite Z.eqb_refl; reflexivity|]]].
  - unfold syscall_handler. apply Z.eqb_neq in Hcs. rewrite Hcs, Enr, Ea. fold y0.
    change (s64 TSYS_SLEEP) with 5. cbn [Z.eqb Pos.eqb TSYS_WRITE TSYS_EXIT TSYS_GETPID TSYS_YIELD TSYS_SLEEP].
    replace (r_rdi r <? 0) with false by lia. rewrite (u64_small (r_rdi r)) by lia.
    change (timer_ticks (y_mach y0)) with (timer_ticks (y_mach y)). fold until. rewrite Eturn. reflexivity.
  - induction n as [|n IH]; [reflexivity|]. cbn [Nat.iter nat_rect]. unfold Nat.iter in IH. rewrite IH. exact Eturn.
Qed.
End handling.

(** * Witnesses *)

(** A program in space 65536 with one page at the start of the user region,
    running as task 1 beside the shell; mailbox 0 exists. *)
#[local] Instance demo_tables_heap : SmallHeap Z := { sh_malloc _ h := (h, h + 32); sh_free _ h := h }.
Definition demo_page_tables : vmm Z := (vmm_aspace_map 65536 VMM_USER_BASE 0x100000 6 demo_vmm1).2.
Definition demo_running : sched flat_mem :=
  with_aspace 65536 (ttask_tick 0 (ttask_create_user 7 8 [97] 549755813888 65536 549757927424 demo_boot).2).
Definition demo_user_bytes : bytes := store_bytes (VMM_PHYS_TO_VIRT 0x100000) [9; 9; 9; 9; 2; 0; 0; 0; 104; 105] ∅.
Definition demo_sys : sys flat_mem Z :=
  mk_sys (mk_machine demo_running keyboard_start demo_screen demo_uart demo_handlers 7 100 (fun _ => false) [] false)
    demo_page_tables demo_user_bytes
    (TIPC_OBJ_MB (tipc_core_mb_init zero_mb) :: replicate 31 TIPC_OBJ_FREE) (fun _ => true) 0x20.
Definition user_regs (nr a1 a2 a3 : Z) : registers_t := mk_regs a1 a2 a3 nr 128 VMM_USER_BASE 0x1B.

Lemma demo_sys_ok : sys_ok demo_sys.
Proof.
  split; [reflexivity|]. apply Forall_cons_2; [exact zero_mb_ok|]. apply list.Forall_replicate. exact I.
Qed.

Lemma demo_bytes a : in_u8 (rd (y_mem demo_sys) a).
Proof.
  cbn [y_mem demo_sys]. unfold demo_user_bytes. generalize (VMM_PHYS_TO_VIRT 0x100000). intros p. cbn [store_bytes].
  unfold rd, in_u8. repeat (rewrite lookup_insert; case_decide; [simpl; lia|]). rewrite lookup_empty. simpl. lia.
Qed.

Lemma demo_range off : off = 0 \/ off = 128 ->
  vmm_range_user (u64 (VMM_USER_BASE + off)) MSG_SIZE 0 (mmu demo_sys) = Some true.
Proof. intros [->| ->]; vm_compute; reflexivity. Qed.


Lemma sys_write_prints_witness :
  exists l y', syscall_handler 0 1 (user_regs TSYS_WRITE 1 VMM_USER_BASE 10) demo_sys = Some (Ret 10, y') /\
    copy_from 10 VMM_USER_BASE demo_sys = Some l.
Proof.
  destruct (sys_write_prints 0 1 (user_regs TSYS_WRITE 1 VMM_USER_BASE 10) demo_sys 10) as (l & y' & E & El & _).
  - discriminate.
  - reflexivity.
  - reflexivity.
  - reflexivity.
  - lia.
  - reflexivity.
  - vm_compute. reflexivity.
  - exact demo_transmits.
  - exists l, y'. split; [exact E|exact El].
Defined.

(** The same system with [CR4] as [sec_harden] leaves it. *)
Definition demo_hardened : sys flat_mem Z :=
  mk_sys (y_mach demo_sys) (y_vmm demo_sys) (y_mem demo_sys) (tipc_table demo_sys) (y_if demo_sys)
    (Z.lor (Z.lor 0x20 CR4_SMEP) CR4_SMAP).

Lemma smap_refuses_buffers_witness :
  exists y', syscall_handler 0 1 (user_regs TSYS_WRITE 1 VMM_USER_BASE 10) demo_hardened = Some (Fault, y').
Proof.
  apply (smap_refuses_buffers 0 1 (user_regs TSYS_WRITE 1 VMM_USER_BASE 10) demo_hardened 10);
    [discriminate|reflexivity|reflexivity|reflexivity|lia|reflexivity|vm_compute; reflexivity|vm_compute; reflexivity].
Defined.

(** The system after the program sent the start of its page to mailbox 0. *)
Definition demo_sent : sys flat_mem Z :=
  from_option snd demo_sys (syscall_handler 0 1 (user_regs TSYS_MB_SEND 0 VMM_USER_BASE 0) demo_sys).

(** Within one page, different bytes have different addresses. *)
Lemma demo_distinct i j a : 0 <= i < MSG_SIZE -> 0 <= j < MSG_SIZE ->
  user_addr demo_sent (u64 (VMM_USER_BASE + 128) + i) = Some a ->
  user_addr demo_sent (u64 (VMM_USER_BASE + 128) + j) = Some a -> i = j.
Proof.
  assert (forallb (fun i => bool_decide (user_addr demo_sent (u64 (VMM_USER_BASE + 128) + i) =
    Some (VMM_PHYS_TO_VIRT 0x100000 + 128 + i))) (seqZ 0 64) = true) as Hall by (vm_compute; reflexivity).
  assert (forall i, 0 <= i < MSG_SIZE -> user_addr demo_sent (u64 (VMM_USER_BASE + 128) + i) =
    Some (VMM_PHYS_TO_VIRT 0x100000 + 128 + i)) as Haddr.
  { intros x Hx. rewrite forallb_forall in Hall. specialize (Hall x).
    apply (bool_decide_eq_true_1 _). apply Hall. apply list_elem_of_In, elem_of_seqZ. unfold MSG_SIZE in Hx. lia. }
  intros Hi Hj. rewrite !Haddr by assumption. intros E1 E2.
  apply (inj Some) in E1. apply (inj Some) in E2. lia.
Qed.


Lemma sleep_never_returns_witness :
  exists c y', syscall_handler 0 1 (user_regs TSYS_SLEEP 25 0 0) demo_sys = Some (Loop c, y') /\
    call_pass 0 c (call_pass 0 c y').2 = (Loop c, y').
Proof.
  destruct (sleep_never_returns 0 1 (user_regs TSYS_SLEEP 25 0 0) demo_sys) as (c & y' & E & _ & _ & Hn).
  - discriminate.
  - reflexivity.
  - cbn [r_rdi user_regs]. lia.
  - cbn. lia.
  - vm_compute. reflexivity.
  - vm_compute. reflexivity.
  - exists c, y'. split; [exact E|]. exact (Hn 2%nat).
Defined.

(** [TSYS_MB_RECV] checks its output buffer for reading only: a message can be
    received into a page that the program may not write. *)
Definition demo_readonly : sys flat_mem Z :=
  mk_sys (y_mach demo_sent) (vmm_aspace_map 65536 VMM_USER_BASE 0x100000 4 demo_vmm1).2 (y_mem demo_sent)
    (tipc_table demo_sent) (y_if demo_sent) (y_cr4 demo_sent).

Lemma recv_writes_readonly_page :
  vmm_range_user (VMM_USER_BASE + 128) MSG_SIZE 1 (mmu demo_readonly) = Some false /\
  from_option (fun p => user_byte (snd p) (VMM_USER_BASE + 128 + 8)) None
    (syscall_handler 0 1 (user_regs TSYS_MB_RECV 0 (VMM_USER_BASE + 128) 0) demo_readonly) = Some 104 /\
  user_byte demo_readonly (VMM_USER_BASE + 128 + 8) = Some 0.
Proof. repeat split; vm_compute; reflexivity. Qed.
