(* ===== verification/Ttarfs.v ===== *)
(** The initial archive: [tfs_unpack_tar] of [src/ttarfs.c].

    The archive is the list of its bytes; a read past its end is an outcome
    ([UOob]), as is a loop that does not end ([UFuel]).  The file proves that
    unpacking an archive in ustar format installs its directories and files in
    the file system, that unpacking ends for every archive with octal sizes,
    and evaluates the archives for which it reads out of bounds or loops. *)
From stdpp Require Import prelude gmap sets list numbers.
From Stdlib Require Import ZArith Lia ZifyBool.
From S2P Require Import Prelude Tpmm Tvmm Tfs TfsSpec.
#[local] Open Scope Z_scope.

(** * Unpacking *)

(** The octal digits of a field, up to the first other character. *)
Fixpoint octal (l : list Z) (v : Z) : Z :=
  match l with
  | [] => v
  | c :: l' => if (s8 c <? 48) || (s8 c >? 55) then v else octal l' (u64 (u64 (Z.shiftl v 3) + (c - 48)))
  end.

Definition tar_field (field : list Z) : Z :=
  match field with
  | [] => 0
  | c :: l => if has c 0x80 then fold_left (fun v b => u64 (Z.lor (Z.shiftl v 8) b)) l (Z.land c 0x7F)
              else octal field 0
  end.

(** The C string at the start of a list; [None] runs off its end. *)
Fixpoint c_string (l : list Z) : option (list Z) :=
  match l with
  | [] => None
  | c :: l' => if c =? 0 then Some [] else cons c <$> c_string l'
  end.

(** [while (l > 1 && name[l - 1] == '/') name[--l] = '\0';] on the reversed
    name. *)
Fixpoint strip_rev (r : list Z) : list Z :=
  match r with
  | [] => []
  | c :: r' => match r' with [] => r | _ => if c =? SLASH then strip_rev r' else r end
  end.
Definition strip_trailing_slash (name : list Z) : list Z := reverse (strip_rev (reverse name)).

(** The name in [full[128]]: formatted and cut by [tsprintf] when there is a
    prefix, copied by [tstrncpy] when there is none, which leaves a name of 128
    bytes or more without a terminator. *)
Definition full_name (h : list Z) : option (list Z) :=
  if negb (nth 345 h 0 =? 0) then
    prefix ← c_string (drop 345 h);
    name ← c_string h;
    Some (take 127 (prefix ++ SLASH :: name))
  else
    name ← c_string h;
    if (length name <? 128)%nat then Some name else None.

Inductive untar (A : Type) := UOob | UFuel | UOk (a : A).
Arguments UOob {A}. Arguments UFuel {A}. Arguments UOk {A}.

Section unpack.
Context {H : Type} `{SmallHeap H} (root : Z).
Implicit Types s : tfs H.

(** The [switch] on the type flag; [data] is everything from the payload to
    the end of the archive. *)
Definition unpack_entry (typeflag size : Z) (full data : list Z) s : untar (tfs H) :=
  if typeflag =? 53 then
    if bool_decide (full = []) then UOk s
    else match tfs_mkdir root full s with None => UFuel | Some (_, s1) => UOk s1 end
  else if (typeflag =? 48) || (typeflag =? 0) then
    if bool_decide (full = []) then UOk s
    else match tfs_touch root full s with
         | None => UFuel
         | Some (f, s1) =>
             if negb (f =? 0) && (size >? 0) then
               if size <=? Z.of_nat (length data) then UOk (tfs_write f (take (Z.to_nat size) data) s1).2 else UOob
             else UOk s1
         end
  else UOk s.

Fixpoint unpack_loop (fuel : nat) (tar : list Z) (off : Z) s : untar (tfs H) :=
  if negb (u64 (off + 512) <=? Z.of_nat (length tar)) then UOk s
  else match fuel with
  | O => UFuel
  | S f =>
      let h := drop (Z.to_nat off) tar in
      if nth 0 h 0 =? 0 then UOk s
      else
        let typeflag := nth 156 h 0 in
        let size := tar_field (take 12 (drop 124 h)) in
        match full_name h with
        | None => UOob
        | Some full =>
            let recs := u64 (size + 511) / 512 in
            match unpack_entry typeflag size (strip_trailing_slash full) (drop 512 h) s with
            | UOk s' => unpack_loop f tar (u64 (off + u64 (u64 (recs + 1) * 512))) s'
            | r => r
            end
        end
  end.

Definition tfs_unpack_tar (fuel : nat) (tar : list Z) s : untar (tfs H) := unpack_loop fuel tar 0 s.
End unpack.

(** * The module that the boot loader left *)

Definition MB2_TAG_MODULE : Z := 3.
Definition INITRD_SCRATCH : Z := 0xFFFFFFFE80000000.

Section initrd.
Context {H V : Type} {SH : SmallHeap H} {SV : SmallHeap V} (root : Z).

Definition map_flags : Z := Z.lor VMM_PAGE_WRITE VMM_PAGE_NX.

(** The unmapping loop over the first [n] pages of the window. *)
Definition unmap_window (n : Z) (v : vmm V) : vmm V :=
  for_range (fun i v => vmm_unmap_page (u64 (INITRD_SCRATCH + i * 4096)) v) 0 n v.

(** The mapping loop from page [i] on; a failure unmaps what was mapped. *)
Fixpoint map_window (n : nat) (i start : Z) (v : vmm V) : bool * vmm V :=
  match n with
  | O => (true, v)
  | S n' =>
      let '(r, v1) := vmm_map_page (u64 (INITRD_SCRATCH + i * 4096)) (u64 (start + i * 4096)) map_flags v in
      if negb (r =? 0) then (false, unmap_window i v1) else map_window n' (i + 1) start v1
  end.

(** The bytes of the window as the processor maps them; [None] is a fault. *)
Fixpoint window_bytes (mem : gmap Z Z) (v : vmm V) (n : nat) (a : Z) : option (list Z) :=
  match n with
  | O => Some []
  | S n' => p ← translate (words (vm v)) (cur_top v) a; l ← window_bytes mem v n' (a + 1); Some (rd mem p :: l)
  end.

(** Mapping, unpacking and unmapping of the module at [start, stop). *)
Definition load_module (fuel : nat) (mem : gmap Z Z) (start stop : Z) (v : vmm V) (s : tfs H) : untar (Z * vmm V * tfs H) :=
  let len := u32 (stop - start) in
  let pages := (len + 4095) / 4096 in
  let '(ok, v1) := map_window (Z.to_nat pages) 0 start v in
  if negb ok then UOk (-1, v1, s)
  else if len >? 0 then
    match window_bytes mem v1 (Z.to_nat len) INITRD_SCRATCH with
    | None => UOob
    | Some tar =>
        match tfs_unpack_tar root fuel tar s with
        | UOk s' => UOk (0, unmap_window pages v1, s')
        | UOob => UOob
        | UFuel => UFuel
        end
    end
  else UOk (0, unmap_window pages v1, s).

(** The walk over the tags of the boot information, in the memory [info]. *)
Fixpoint find_module (tags fuel : nat) (info : Z -> Z) (mem : gmap Z Z) (p stop : Z) (v : vmm V) (s : tfs H)
  : untar (Z * vmm V * tfs H) :=
  if negb (u64 (p + 8) <=? stop) then UOk (0, v, s)
  else match tags with
  | O => UFuel
  | S n =>
      let type := rd32 info p in
      let size := rd32 info (p + 4) in
      if type =? 0 then UOk (0, v, s)
      else if type =? MB2_TAG_MODULE then load_module fuel mem (rd32 info (p + 8)) (rd32 info (p + 12)) v s
      else find_module n fuel info mem (u64 (p + Z.land (u32 (size + 7)) (not64 7))) stop v s
  end.

Definition tfs_load_initrd (tags fuel : nat) (info : Z -> Z) (mem : gmap Z Z) (mbi : Z) (v : vmm V) (s : tfs H)
  : untar (Z * vmm V * tfs H) :=
  find_module tags fuel info mem (u64 (mbi + 8)) (u64 (mbi + rd32 info mbi)) v s.
End initrd.

(** * Archives *)

(** An entry and its encoding: name and prefix fields, size in octal, type. *)
Record tar_entry := mk_entry { e_dir : bool; e_prefix : list Z; e_name : list Z; e_data : list Z }.

Fixpoint oct_digits (k : nat) (n : Z) : list Z :=
  match k with O => [] | S k' => oct_digits k' (n / 8) ++ [48 + n mod 8] end.

Definition pad (n : nat) (l : list Z) : list Z := l ++ replicate (n - length l) 0.

Definition tar_header (e : tar_entry) : list Z :=
  pad 100 (e_name e) ++ replicate 24 0 ++ oct_digits 11 (Z.of_nat (length (e_data e))) ++ [0] ++
  replicate 20 0 ++ [if e_dir e then 53 else 48] ++ replicate 188 0 ++ pad 155 (e_prefix e) ++ replicate 12 0.

Definition padding (n : nat) : nat := Z.to_nat (-(Z.of_nat n) mod 512).

Definition pack_entry (e : tar_entry) : list Z :=
  tar_header e ++ e_data e ++ replicate (padding (length (e_data e))) 0.

Definition pack (es : list tar_entry) : list Z := concat (map pack_entry es) ++ replicate 1024 0.

(** The path of an entry, and what the format can hold. *)
Definition e_path (e : tar_entry) : list Z :=
  if bool_decide (e_prefix e = []) then e_name e else e_prefix e ++ SLASH :: e_name e.

Definition char_ok (c : Z) : Prop := 0 < c < 256.

Record entry_ok (e : tar_entry) : Prop := {
  eo_name : e_name e <> [] /\ (length (e_name e) < 100)%nat /\ Forall char_ok (e_name e);
  eo_prefix : (length (e_prefix e) < 155)%nat /\ Forall char_ok (e_prefix e);
  eo_path : (length (e_path e) < 128)%nat /\ list.last (e_name e) <> Some SLASH;
  eo_data : Z.of_nat (length (e_data e)) < 8 ^ 11;
  eo_dir : e_dir e = true -> e_data e = []
}.

(** * Lemmas *)

Lemma octal_digits k : forall n v l, 0 <= n -> 0 <= v -> v * 8 ^ Z.of_nat k + n mod 8 ^ Z.of_nat k < 18446744073709551616 ->
  octal (oct_digits k n ++ l) v = octal l (v * 8 ^ Z.of_nat k + n mod 8 ^ Z.of_nat k).
Proof.
  induction k as [|k IH]; intros n v l Hn Hv Hb; cbn [oct_digits app].
  { f_equal. change (8 ^ Z.of_nat 0) with 1. rewrite Z.mod_1_r. lia. }
  replace (Z.of_nat (S k)) with (Z.succ (Z.of_nat k)) in * by lia. rewrite Z.pow_succ_r in * by lia.
  assert (0 < 8 ^ Z.of_nat k) as Hp by lia.
  rewrite (Z.rem_mul_r n 8) in * by lia.
  pose proof (Z.mod_pos_bound n 8 ltac:(lia)) as Hd. pose proof (Z.mod_pos_bound (n / 8) _ Hp) as Hm.
  set (P := 8 ^ Z.of_nat k) in *. set (q := (n / 8) mod P) in *.
  assert (0 <= v * P) as HvP by (apply Z.mul_nonneg_nonneg; lia). replace (v * (8 * P)) with (8 * (v * P)) in * by ring.
  rewrite <- app_assoc, IH; [|apply Z.div_pos; lia|exact Hv|fold P; fold q; lia]. cbn [app octal]. fold P. fold q.
  assert (s8 (48 + n mod 8) = 48 + n mod 8) as -> by (unfold s8; rewrite u8_small by lia; case_if; lia).
  replace (_ || _) with false by lia.
  f_equal. rewrite Z.shiftl_mul_pow2 by lia. change (2 ^ 3) with 8. rewrite (u64_small ((v * P + q) * 8)) by lia.
  rewrite u64_small by lia. lia.
Qed.

Lemma oct_digits_length k n : length (oct_digits k n) = k.
Proof. revert n. induction k as [|k IH]; intros n; simpl; [reflexivity|]. rewrite length_app, IH. simpl. lia. Qed.

Lemma oct_digits_head k n l : 0 <= n -> has (hd 0 (oct_digits (S k) n ++ l)) 0x80 = false.
Proof.
  revert n l. induction k as [|k IH]; intros n l Hn.
  - cbn [oct_digits app hd]. pose proof (Z.mod_pos_bound n 8 ltac:(lia)).
    assert (forall d, 0 <= d < 8 -> has (48 + d) 0x80 = false) as Hall.
    { intros d Hd. assert (d = 0 \/ d = 1 \/ d = 2 \/ d = 3 \/ d = 4 \/ d = 5 \/ d = 6 \/ d = 7) as Hc by lia.
      repeat destruct Hc as [->|Hc]; try reflexivity. subst. reflexivity. }
    apply Hall. lia.
  - cbn [oct_digits]. rewrite <- app_assoc. apply IH. apply Z.div_pos; lia.
Qed.

(** The size field of a header. *)
Lemma tar_field_size n : 0 <= n < 8 ^ 11 -> tar_field (oct_digits 11 n ++ [0]) = n.
Proof.
  intros Hn. unfold tar_field. destruct (oct_digits 11 n ++ [0]) as [|c l] eqn:E.
  { apply (f_equal length) in E. rewrite length_app, oct_digits_length in E. discriminate. }
  pose proof (oct_digits_head 10 n [0] ltac:(lia)) as Hh. rewrite E in Hh. cbn [hd] in Hh. rewrite Hh, <- E.
  rewrite octal_digits by (try lia; rewrite Z.mod_small by lia; lia). rewrite Z.mod_small by exact Hn. reflexivity.
Qed.

Lemma c_string_app l r : Forall char_ok l -> c_string (l ++ 0 :: r) = Some l.
Proof.
  induction 1 as [|c l Hc _ IH]; [reflexivity|]. cbn [app c_string]. unfold char_ok in Hc.
  replace (c =? 0) with false by lia. rewrite IH. reflexivity.
Qed.

(** A padded field that is not full is a C string, whatever follows. *)
Lemma c_string_pad n l r : Forall char_ok l -> (length l < n)%nat -> c_string (pad n l ++ r) = Some l.
Proof.
  intros Hl Hn. unfold pad. replace (n - length l)%nat with (S (n - length l - 1)) by lia.
  cbn [replicate]. rewrite <- app_assoc. cbn [app]. apply c_string_app, Hl.
Qed.

Lemma pad_length n l : (length l <= n)%nat -> length (pad n l) = n.
Proof. intros Hl. unfold pad. rewrite length_app, length_replicate. lia. Qed.

Lemma strip_id l : list.last l <> Some SLASH -> strip_trailing_slash l = l.
Proof.
  intros Hl. unfold strip_trailing_slash. rewrite <- head_reverse in Hl.
  assert (strip_rev (reverse l) = reverse l) as ->; [|apply reverse_involutive].
  destruct (reverse l) as [|c [|d r]]; try reflexivity. cbn [strip_rev].
  destruct (Z.eqb_spec c SLASH) as [->|]; [contradiction Hl; reflexivity|reflexivity].
Qed.

Lemma padding_spec n : (Z.of_nat n + Z.of_nat (padding n)) mod 512 = 0 /\ 0 <= Z.of_nat (padding n) < 512.
Proof. unfold padding. pose proof (Z.mod_pos_bound (-(Z.of_nat n)) 512). rewrite Z2Nat.id by lia. zlia. Qed.

(** ** The fields of a header, with anything after it *)

Section header.
Context (e : tar_entry) (Hok : entry_ok e) (tl : list Z).

Let size := Z.of_nat (length (e_data e)).
Let h := tar_header e ++ tl.

Lemma header_length : length (tar_header e) = 512%nat.
Proof.
  destruct Hok as [(_ & Hn & _) (Hp & _) _ _ _]. unfold tar_header.
  rewrite !length_app, !pad_length, oct_digits_length, !length_replicate by lia. reflexivity.
Qed.

(** A field behind the first [n] bytes. *)
Lemma header_at n a b : tar_header e = a ++ b -> length a = n -> drop n h = b ++ tl.
Proof. intros E <-. unfold h. rewrite E, <- app_assoc. apply drop_app_length. Qed.

Lemma header_data : drop 512 h = tl.
Proof. unfold h. rewrite <- header_length. apply drop_app_length. Qed.

Lemma header_size : take 12 (drop 124 h) = oct_digits 11 size ++ [0].
Proof.
  destruct Hok as [(_ & Hn & _) _ _ _ _].
  rewrite (header_at 124 (pad 100 (e_name e) ++ replicate 24 0)
    (oct_digits 11 size ++ [0] ++ replicate 20 0 ++ [if e_dir e then 53 else 48] ++ replicate 188 0 ++
     pad 155 (e_prefix e) ++ replicate 12 0)).
  - rewrite <- !app_assoc, (app_assoc (oct_digits 11 size) [0]). apply take_app_length'. rewrite length_app, oct_digits_length. reflexivity.
  - unfold tar_header. rewrite <- !app_assoc. reflexivity.
  - rewrite length_app, pad_length, length_replicate by lia. reflexivity.
Qed.

Lemma header_flag : nth 156 h 0 = if e_dir e then 53 else 48.
Proof.
  destruct Hok as [(_ & Hn & _) _ _ _ _]. rewrite <- (Nat.add_0_r 156), <- nth_skipn. 
  change (skipn 156 h) with (drop 156 h).
  rewrite (header_at 156 (pad 100 (e_name e) ++ replicate 24 0 ++ oct_digits 11 size ++ [0] ++ replicate 20 0)
    ([if e_dir e then 53 else 48] ++ replicate 188 0 ++ pad 155 (e_prefix e) ++ replicate 12 0)).
  - reflexivity.
  - unfold tar_header. rewrite <- !app_assoc. reflexivity.
  - rewrite !length_app, pad_length, oct_digits_length, !length_replicate by lia. reflexivity.
Qed.

Lemma header_name : exists r, h = pad 100 (e_name e) ++ r.
Proof. unfold h, tar_header. rewrite <- app_assoc. eexists. reflexivity. Qed.

Lemma header_prefix : drop 345 h = pad 155 (e_prefix e) ++ replicate 12 0 ++ tl.
Proof.
  destruct Hok as [(_ & Hn & _) _ _ _ _].
  rewrite (header_at 345 (pad 100 (e_name e) ++ replicate 24 0 ++ oct_digits 11 size ++ [0] ++ replicate 20 0 ++
      [if e_dir e then 53 else 48] ++ replicate 188 0) (pad 155 (e_prefix e) ++ replicate 12 0)).
  - rewrite <- app_assoc. reflexivity.
  - unfold tar_header. rewrite <- !app_assoc. reflexivity.
  - rewrite !length_app, pad_length, oct_digits_length, !length_replicate by lia. reflexivity.
Qed.

Lemma header_used : nth 0 h 0 =? 0 = false.
Proof.
  destruct Hok as [(Hne & _ & Hc) _ _ _ _]. destruct header_name as [r ->].
  destruct (e_name e) as [|c n]; [contradiction|]. apply list.Forall_cons in Hc as [Hc _].
  unfold char_ok in Hc. cbn. lia.
Qed.

Lemma header_full : full_name h = Some (e_path e).
Proof.
  destruct Hok as [(_ & Hn & Hnc) (Hp & Hpc) (Hlen & _) _ _]. unfold full_name.
  rewrite <- (Nat.add_0_r 345) at 1. rewrite <- nth_skipn. change (skipn 345 h) with (drop 345 h). rewrite header_prefix.
  rewrite c_string_pad by assumption. cbn [mbind option_bind].
  destruct header_name as [r ->]. rewrite c_string_pad by assumption. cbn [mbind option_bind].
  unfold e_path in *. destruct (e_prefix e) as [|c p] eqn:Ep.
  - rewrite bool_decide_true in Hlen |- * by reflexivity. change (nth 0 (pad 155 [] ++ replicate 12 0 ++ tl) 0) with 0.
    cbn [Z.eqb negb]. destruct (Nat.ltb_spec (length (e_name e)) 128); [reflexivity|lia].
  - rewrite bool_decide_false in Hlen |- * by discriminate. apply list.Forall_cons in Hpc as [Hc _]. unfold char_ok in Hc.
    change (nth 0 (pad 155 (c :: p) ++ replicate 12 0 ++ tl) 0) with c. replace (c =? 0) with false by lia. cbn [negb].
    rewrite take_ge by (change string with (list Z) in *; lia). reflexivity.
Qed.

Lemma path_last : list.last (e_path e) <> Some SLASH.
Proof.
  destruct Hok as [(Hne & _) _ (_ & Hl) _ _]. unfold e_path. case_bool_decide; [exact Hl|].
  rewrite last_app. destruct (e_name e) as [|c n]; [contradiction|].
  change (list.last (SLASH :: c :: n)) with (list.last (c :: n)).
  destruct (list.last (c :: n)) eqn:E; [exact Hl|]. apply last_None in E. discriminate.
Qed.
End header.

(** * What unpacking does *)

Section installing.
Context {H : Type} `{SmallHeapLaws H} (root : Z).
Implicit Types s : tfs H.

(** The entries, one after the other, by the operations of the file system. *)
Definition install1 (e : tar_entry) s : option (tfs H) :=
  if e_dir e then '(_, s1) ← tfs_mkdir root (e_path e) s; Some s1
  else
    '(f, s1) ← tfs_touch root (e_path e) s;
    Some (if negb (f =? 0) && negb (bool_decide (e_data e = [])) then (tfs_write f (e_data e) s1).2 else s1).

Fixpoint install (es : list tar_entry) s : option (tfs H) :=
  match es with [] => Some s | e :: es' => s' ← install1 e s; install es' s' end.

Lemma path_not_nil e : entry_ok e -> e_path e <> [].
Proof.
  intros [(Hne & _) _ _ _ _]. unfold e_path. case_bool_decide; [exact Hne|]. destruct (e_prefix e); discriminate.
Qed.

Lemma unpack_entry_install e tl s : entry_ok e ->
  unpack_entry root (if e_dir e then 53 else 48) (Z.of_nat (length (e_data e))) (strip_trailing_slash (e_path e))
    (e_data e ++ tl) s = match install1 e s with Some s' => UOk s' | None => UFuel end.
Proof.
  intros He. unfold unpack_entry, install1. rewrite (strip_id _ (path_last e He)).
  rewrite (bool_decide_false _ (path_not_nil e He)). destruct (e_dir e); cbn [Z.eqb Pos.eqb orb].
  - destruct (tfs_mkdir root (e_path e) s) as [[n s1]|]; reflexivity.
  - destruct (tfs_touch root (e_path e) s) as [[f s1]|]; [|reflexivity]. cbn [mbind option_bind].
    destruct (f =? 0); cbn [negb andb]; [reflexivity|]. case_bool_decide as Hd.
    + rewrite Hd. reflexivity.
    + destruct (e_data e) as [|c d] eqn:Ed; [contradiction|]. replace (_ >? 0) with true by (cbn [length]; lia).
      rewrite length_app. replace (_ <=? _) with true by lia. rewrite Nat2Z.id, take_app_length. reflexivity.
Qed.

Lemma pack_entry_length e : entry_ok e ->
  Z.of_nat (length (pack_entry e)) = 512 * ((Z.of_nat (length (e_data e)) + 511) / 512 + 1).
Proof.
  intros He. unfold pack_entry. rewrite !length_app, length_replicate, (header_length e He).
  destruct (padding_spec (length (e_data e))). zlia.
Qed.

(** One turn of the loop consumes one entry. *)
Lemma unpack_step e pre tl s f : entry_ok e ->
  Z.of_nat (length (pre ++ pack_entry e ++ tl)) < 9223372036854775808 ->
  unpack_loop root (S f) (pre ++ pack_entry e ++ tl) (Z.of_nat (length pre)) s =
    match install1 e s with
    | Some s' => unpack_loop root f (pre ++ pack_entry e ++ tl) (Z.of_nat (length (pre ++ pack_entry e))) s'
    | None => UFuel
    end.
Proof.
  intros He Hlen. pose proof (pack_entry_length e He) as Hpl. destruct He as [Hn Hp Hpa Hd Hdir] eqn:EHe.
  rewrite !length_app in Hlen. cbn [unpack_loop]. rewrite !length_app.
  assert (0 <= (Z.of_nat (length (e_data e)) + 511) / 512) as Hrec by (apply Z.div_pos; lia).
  rewrite (u64_small (Z.of_nat (length pre) + 512)) by lia. replace (negb _) with false by lia.
  rewrite Nat2Z.id, drop_app_length. set (more := replicate (padding (length (e_data e))) 0 ++ tl).
  assert (pack_entry e ++ tl = tar_header e ++ e_data e ++ more) as ->
    by (unfold pack_entry, more; rewrite <- !app_assoc; reflexivity).
  clear EHe. rewrite (header_used e He), (header_full e He), (header_flag e He), (header_size e He), (header_data e He).
  rewrite tar_field_size by lia. rewrite (unpack_entry_install e more s He).
  destruct (install1 e s) as [s'|]; [|reflexivity]. f_equal. change (8 ^ 11) with 8589934592 in Hd.
  rewrite (u64_small (Z.of_nat (length (e_data e)) + 511)) by lia.
  rewrite (u64_small (_ / 512 + 1)) by lia. rewrite (u64_small (_ * 512)) by lia. rewrite u64_small by lia. lia.
Qed.

Lemma unpack_install es : forall pre s f, Forall entry_ok es -> (length es < f)%nat ->
  Z.of_nat (length (pre ++ pack es)) < 9223372036854775808 ->
  unpack_loop root f (pre ++ pack es) (Z.of_nat (length pre)) s =
    match install es s with Some s' => UOk s' | None => UFuel end.
Proof.
  induction es as [|e es IH]; intros pre s f Hes Hf Hlen; (destruct f as [|f]; [lia|]).
  - cbn [unpack_loop install]. unfold pack in *. cbn [map concat app] in *. rewrite length_app, length_replicate in *.
    rewrite u64_small by lia. replace (negb _) with false by lia. rewrite Nat2Z.id, drop_app_length. reflexivity.
  - apply list.Forall_cons in Hes as [He Hes]. unfold pack in *. cbn [map concat] in *. rewrite <- app_assoc in *.
    rewrite (unpack_step e pre _ s f He Hlen). cbn [install]. destruct (install1 e s) as [s'|]; [|reflexivity].
    cbn [mbind option_bind]. rewrite app_assoc. apply IH; [exact Hes|cbn [length] in Hf; lia|].
    rewrite <- app_assoc. exact Hlen.
Qed.

(** Installing on a well-formed file system succeeds and keeps it so. *)
Lemma install1_ok e s : fs_ok root s -> exists s', install1 e s = Some s' /\ fs_ok root s'.
Proof.
  intros Hs. unfold install1. destruct Hs as (F & L & HF). destruct (e_dir e).
  - destruct (make_node_spec root (e_path e) TFS_DIR s F L HF) as (n & s1 & E & Hok & _).
    unfold tfs_mkdir. rewrite E. exists s1. split; [reflexivity|exact Hok].
  - destruct (make_node_spec root (e_path e) TFS_FILE s F L HF) as (n & s1 & E & Hok & _ & Hn).
    unfold tfs_touch. rewrite E. cbn [mbind option_bind]. eexists. split; [reflexivity|].
    destruct (Z.eqb_spec n 0) as [->|Hne]; cbn [negb andb]; [exact Hok|]. case_bool_decide; cbn [negb]; [exact Hok|].
    destruct (Hn Hne) as ((m & Hm & Ht & _) & _). destruct Hok as (F1 & L1 & HF1).
    pose proof (write_spec root s1 F1 L1 n m (e_data e) HF1 Hm Ht) as Hw.
    destruct (tfs_write n (e_data e) s1) as [r s2]. destruct Hw as [(_ & _ & HF2)|(_ & d & L2 & _ & _ & HF2)]; eexists _, _; exact HF2.
Qed.

Lemma install_ok es : forall s, fs_ok root s -> exists s', install es s = Some s' /\ fs_ok root s'.
Proof.
  induction es as [|e es IH]; intros s Hs; [exists s; split; [reflexivity|exact Hs]|].
  destruct (install1_ok e s Hs) as (s1 & E1 & Hs1). destruct (IH s1 Hs1) as (s2 & E2 & Hs2).
  exists s2. cbn [install]. rewrite E1. split; [exact E2|exact Hs2].
Qed.

End installing.

(** * Termination *)

(** The value of at most 12 octal digits. *)
Lemma octal_bound l : forall k v, Forall in_u8 l -> 0 <= k -> 0 <= v < 8 ^ k -> k + Z.of_nat (length l) <= 12 ->
  0 <= octal l v < 8 ^ 12.
Proof.
  induction l as [|c l IH]; intros k v Hl Hk Hv Hlen; cbn [octal].
  { pose proof (Z.pow_le_mono_r 8 k 12 ltac:(lia) ltac:(simpl in Hlen; lia)). lia. }
  pose proof (Z.pow_le_mono_r 8 k 12 ltac:(lia) ltac:(cbn [length] in Hlen; lia)) as Hpk.
  apply list.Forall_cons in Hl as [Hc Hl]. destruct ((s8 c <? 48) || (s8 c >? 55)) eqn:Ec; [lia|].
  assert (48 <= c <= 55) as Hd by (unfold in_u8 in Hc; revert Ec; unfold s8; rewrite u8_small by exact Hc; case_if; lia).
  assert (8 ^ (k + 1) = 8 * 8 ^ k) as Hp by (rewrite Z.pow_add_r by lia; lia). change (8 ^ 12) with 68719476736 in *.
  rewrite Z.shiftl_mul_pow2 by lia. change (2 ^ 3) with 8. rewrite (u64_small (v * 8)) by lia. rewrite u64_small by lia.
  apply (IH (k + 1)); [exact Hl|lia|lia|]. cbn [length] in Hlen. lia.
Qed.

Lemma tar_field_bound l : Forall in_u8 l -> (length l <= 12)%nat -> has (nth 0 l 0) 0x80 = false ->
  0 <= tar_field l < 8 ^ 12.
Proof.
  intros Hl Hlen Hh. destruct l as [|c l]; [cbn; lia|]. cbn [nth] in Hh. unfold tar_field. rewrite Hh.
  apply (octal_bound (c :: l) 0 0); [exact Hl|lia|cbn; lia|lia].
Qed.

Section ending.
Context {H : Type} `{SmallHeapLaws H} (root : Z).
Implicit Types s : tfs H.

Lemma unpack_entry_ok typeflag size full data s : fs_ok root s ->
  unpack_entry root typeflag size full data s = UOob \/
  exists s', unpack_entry root typeflag size full data s = UOk s' /\ fs_ok root s'.
Proof.
  intros Hs. unfold unpack_entry. destruct (typeflag =? 53).
  - case_bool_decide; [eauto|]. destruct Hs as (F & L & HF).
    destruct (make_node_spec root full TFS_DIR s F L HF) as (n & s1 & E & Hok & _). unfold tfs_mkdir. rewrite E. eauto.
  - destruct (_ || _); [|eauto]. case_bool_decide; [eauto|]. destruct Hs as (F & L & HF).
    destruct (make_node_spec root full TFS_FILE s F L HF) as (n & s1 & E & Hok & _ & Hn). unfold tfs_touch. rewrite E.
    destruct (Z.eqb_spec n 0) as [->|Hne]; cbn [negb andb]; [eauto|]. destruct (size >? 0); [|eauto].
    destruct (size <=? _); [|auto]. right. eexists. split; [reflexivity|].
    destruct (Hn Hne) as ((m & Hm & Ht & _) & _). destruct Hok as (F1 & L1 & HF1).
    pose proof (write_spec root s1 F1 L1 n m (take (Z.to_nat size) data) HF1 Hm Ht) as Hw.
    destruct (tfs_write n _ s1) as [r s2]. destruct Hw as [(_ & _ & HF2)|(_ & d & L2 & _ & _ & HF2)]; eexists _, _; exact HF2.
Qed.

(** Every size field at a block boundary is octal. *)
Definition octal_sizes (tar : list Z) : Prop := forall off, 0 <= off -> off mod 512 = 0 ->
  off + 512 <= Z.of_nat (length tar) -> has (nth (Z.to_nat off + 124) tar 0) 0x80 = false.

Lemma unpack_ends tar fuel : Forall in_u8 tar -> Z.of_nat (length tar) < 4611686018427387904 -> octal_sizes tar ->
  forall off s, fs_ok root s -> 0 <= off < 4611686018427387904 + 68719478272 -> off mod 512 = 0 ->
  Z.of_nat (length tar) - off < 512 * (Z.of_nat fuel + 1) ->
  unpack_loop root fuel tar off s = UOob \/
  exists s', unpack_loop root fuel tar off s = UOk s' /\ fs_ok root s'.
Proof.
  intros Hb Hlen Hoct. induction fuel as [|fuel IH]; intros off s Hs Ho Hal Hf; cbn [unpack_loop];
    rewrite (u64_small (off + 512)) by lia;
    (destruct (Z.leb_spec (off + 512) (Z.of_nat (length tar))) as [Hle|Hgt]; cbn [negb]; [|eauto]); [lia|].
  set (h := drop (Z.to_nat off) tar). destruct (nth 0 h 0 =? 0); [eauto|].
  destruct (full_name h) as [full|]; [|auto].
  assert (0 <= tar_field (take 12 (drop 124 h)) < 8 ^ 12) as Hsz.
  { apply tar_field_bound.
    - apply list.Forall_take, list.Forall_drop. unfold h. apply list.Forall_drop, Hb.
    - rewrite length_take. lia.
    - assert (nth 0 (take 12 (drop 124 h)) 0 = nth (Z.to_nat off + 124) tar 0) as ->; [|apply Hoct; lia].
      rewrite !nth_lookup, lookup_take_lt, lookup_drop by lia. unfold h. rewrite lookup_drop.
      replace (Z.to_nat off + (124 + 0))%nat with (Z.to_nat off + 124)%nat by lia. reflexivity. }
  set (size := tar_field (take 12 (drop 124 h))) in *. change (8 ^ 12) with 68719476736 in Hsz.
  destruct (unpack_entry_ok (nth 156 h 0) size (strip_trailing_slash full) (drop 512 h) s Hs) as [->|(s' & -> & Hs')]; [auto|].
  assert (0 <= (size + 511) / 512 <= 134217729) as Hrec by zlia.
  rewrite (u64_small (size + 511)) by lia. rewrite (u64_small (_ / 512 + 1)) by lia.
  rewrite (u64_small (_ * 512)) by lia. rewrite u64_small by lia. apply IH; [exact Hs'|lia|zlia|lia].
Qed.

(** C38. Unpacking ends: for every sequence of bytes whose size fields (at block
    boundaries) are octal, a number of turns of the loop equal to the number of
    512-byte blocks is enough to finish or to run past the end of the archive,
    and if it finishes the file system is well formed. *)
Theorem untar_ends tar s fuel :
  fs_ok root s -> Forall in_u8 tar -> Z.of_nat (length tar) < 4611686018427387904 -> octal_sizes tar ->
  Z.of_nat (length tar) / 512 <= Z.of_nat fuel ->
  tfs_unpack_tar root fuel tar s = UOob \/ exists s', tfs_unpack_tar root fuel tar s = UOk s' /\ fs_ok root s'.
Proof.
  intros Hs Hb Hlen Hoct Hf. apply unpack_ends; [exact Hb|exact Hlen|exact Hoct|exact Hs|lia|reflexivity|].
  pose proof (Z.div_mod (Z.of_nat (length tar)) 512). pose proof (Z.mod_pos_bound (Z.of_nat (length tar)) 512). lia.
Qed.
End ending.

(** * Witnesses and defects *)

#[local] Existing Instances rising rising_laws.

(** A directory and a file in it. *)
Definition demo_entries : list tar_entry :=
  [mk_entry true [] [101; 116; 99] []; mk_entry false [101; 116; 99] [97] [104; 105]].

Lemma demo_entries_ok : Forall entry_ok demo_entries.
Proof.
  repeat (apply Forall_cons_2; [|]); [| |constructor]; (split; [split; [discriminate|]| | | |]); cbn;
    repeat split; unfold char_ok; try lia; try discriminate; repeat constructor; lia.
Qed.


(** The file is there, with its content. *)
Lemma untar_demo_content :
  match tfs_unpack_tar 8 3 (pack demo_entries) demo_fs with
  | UOk s => option_map (fun n => content (node (nodes s) n)) (tfs_lookup 8 [47; 101; 116; 99; 47; 97] s)
  | _ => None
  end = Some [104; 105].
Proof. vm_compute. reflexivity. Qed.

Lemma untar_ends_witness :
  tfs_unpack_tar 8 2 (replicate 1024 65) demo_fs = UOob \/
  exists s', tfs_unpack_tar 8 2 (replicate 1024 65) demo_fs = UOk s' /\ fs_ok 8 s'.
Proof.
  apply (untar_ends 8 (replicate 1024 65) demo_fs 2 demo_ok).
  - apply list.Forall_replicate. unfold in_u8. lia.
  - rewrite length_replicate. lia.
  - intros off Ho _ Hle. rewrite length_replicate in Hle. rewrite nth_lookup, lookup_replicate_2 by lia. reflexivity.
  - rewrite length_replicate. vm_compute. discriminate.
Defined.

(** A header whose size field is [f]. *)
Definition raw_header (f : list Z) (flag : Z) : list Z :=
  pad 100 [97] ++ replicate 24 0 ++ f ++ replicate 20 0 ++ [flag] ++ replicate 355 0.

(** The size 2^64 - 512 in base 256 makes the step of the loop 0: unpacking
    never ends. *)
Lemma untar_loops fuel (s : tfs Z) :
  tfs_unpack_tar 8 fuel (raw_header ([128; 0; 0; 0] ++ replicate 6 255 ++ [254; 0]) 120) s = UFuel.
Proof.
  unfold tfs_unpack_tar. induction fuel as [|fuel IH]; [reflexivity|].
  transitivity (unpack_loop 8 fuel (raw_header ([128; 0; 0; 0] ++ replicate 6 255 ++ [254; 0]) 120) 0 s); [|exact IH].
  cbn [unpack_loop]. reflexivity.
Qed.

(** A file of size 512 without its data is read past the end of the archive. *)
Lemma untar_reads_past_end :
  tfs_unpack_tar 8 3 (raw_header (oct_digits 11 512 ++ [0]) 48) demo_fs = UOob.
Proof. vm_compute. reflexivity. Qed.

(** The boot information with one module tag, and the archive at 1 MiB. *)
Definition demo_info (a : Z) : Z :=
  nth (Z.to_nat (a - 64)) (le_bytes 4 32 ++ le_bytes 4 0 ++ le_bytes 4 3 ++ le_bytes 4 16 ++
    le_bytes 4 0x100000 ++ le_bytes 4 (0x100000 + 2560)) 0.
Definition demo_ram : gmap Z Z :=
  list_to_map (zip (seqZ (VMM_PHYS_TO_VIRT 0x100000) 2560) (pack demo_entries)).

(** Loading it maps the window, installs the files and unmaps the window. *)
Lemma load_initrd_demo :
  match tfs_load_initrd 8 4 3 demo_info demo_ram 64 demo_vmm demo_fs with
  | UOk (r, v, s) =>
      r = 0 /\ translate (words (vm v)) (cur_top v) INITRD_SCRATCH = None /\
      option_map (fun n => content (node (nodes s) n)) (tfs_lookup 8 [47; 101; 116; 99; 47; 97] s) = Some [104; 105]
  | _ => False
  end.
Proof. vm_compute. repeat split. Qed.
