(* ===== verification/Tprocfs.v ===== *)
(** Generated files: [src/tprocfs.c] and [src/tsysfs.c].

    A virtual node has no data; reading it calls its generator, which formats
    statistics of the kernel into the reader's buffer and leaves the length of
    the text in the node.  The reader ([cat]) has 256 bytes and trusts that
    length, so the file proves that every generated text fits. *)
From Stdlib Require Import String Ascii.
From stdpp Require Import prelude gmap sets list numbers.
From Stdlib Require Import ZArith Lia ZifyBool List.
From S2P Require Import Prelude Tpmm Tmalloc Tstring Printf Tfs TfsSpec.
#[local] Open Scope Z_scope.

(** * The generators *)

(** The functions behind [node->gen]. *)
Inductive gen_fn :=
| gen_uptime_fn | gen_version_fn | gen_meminfo_fn | gen_heapinfo_fn
| gen_memory_fn | gen_frames_fn | gen_kernel_fn.

(** What they read: the tick counter, the allocators, and the addresses of
    the linker script. *)
Record kstats (B : Type) := mk_kstats {
  k_ticks : Z;
  k_pmm : pmm;
  k_heap : heap B;
  k_virtual_start : Z;
  k_phys_start : Z;
  k_phys_end : Z
}.
Arguments mk_kstats {B}. Arguments k_ticks {B}. Arguments k_pmm {B}. Arguments k_heap {B}.
Arguments k_virtual_start {B}. Arguments k_phys_start {B}. Arguments k_phys_end {B}.

Section gen.
Context {B : Type} (k : kstats B).

Definition shr (x n : Z) : Z := u32 (Z.shiftr x n).

(** Format and arguments of each generator. *)
Definition gen_uptime : list Z * list Z :=
  (text "uptime: %u seconds (%u ticks)" ++ [10], [u32 (k_ticks k / 100); u32 (k_ticks k)]).
Definition gen_version : list Z * list Z := (text "TrigerOS v0.12.0 (x86_64, Multiboot2)" ++ [10], []).
Definition gen_meminfo : list Z * list Z :=
  (text "MemTotal:     %u KiB" ++ [10] ++ text "MemAvailable: %u KiB" ++ [10] ++
   text "Frames free:  %u" ++ [10] ++ text "Frames used:  %u" ++ [10],
   [shr (tpmm_total_mem (k_pmm k)) 10; shr (tpmm_available_mem (k_pmm k)) 10;
    tpmm_free_frames (k_pmm k); tpmm_used_frames (k_pmm k)]).
Definition gen_heapinfo : list Z * list Z :=
  (text "Heap mapped: %u KiB" ++ [10] ++ text "Heap used:   %u KiB" ++ [10] ++ text "Blocks:      %u" ++ [10],
   [shr (tmalloc_total (k_heap k)) 10; shr (tmalloc_used (k_heap k)) 10; tmalloc_blocks (k_heap k)]).
Definition gen_memory : list Z * list Z :=
  (text "Total:     %u MiB" ++ [10] ++ text "Available: %u MiB" ++ [10] ++ text "Free:      %u frames" ++ [10],
   [shr (tpmm_total_mem (k_pmm k)) 20; shr (tpmm_available_mem (k_pmm k)) 20; tpmm_free_frames (k_pmm k)]).
Definition gen_frames : list Z * list Z :=
  (text "free: %u" ++ [10] ++ text "used: %u" ++ [10], [tpmm_free_frames (k_pmm k); tpmm_used_frames (k_pmm k)]).
Definition gen_kernel : list Z * list Z :=
  (text "virtual: %p" ++ [10] ++ text "phys:    %p - %p" ++ [10] ++ text "heap:    %p" ++ [10],
   [k_virtual_start k; k_phys_start k; k_phys_end k; 0xFFFFFFFFC0000000]).

Definition gen_of (g : gen_fn) : list Z * list Z :=
  match g with
  | gen_uptime_fn => gen_uptime | gen_version_fn => gen_version | gen_meminfo_fn => gen_meminfo
  | gen_heapinfo_fn => gen_heapinfo | gen_memory_fn => gen_memory | gen_frames_fn => gen_frames
  | gen_kernel_fn => gen_kernel
  end.

(** [node->size = (size_t)tsprintf(buf, bufsz, fmt, ...)]: the node and the
    memory with the buffer; [lit] is the address of a string literal. *)
Definition run_gen (lit : list Z -> Z) (fuel : nat) (g : gen_fn) (n : tfs_node_t) (buf bufsz : Z) (m : bytes)
  : option (tfs_node_t * bytes) :=
  let '(fmt, args) := gen_of g in
  '(len, m') ← tsprintf fuel buf bufsz (lit fmt) args m;
  Some (set_data (n_data n) (u64 len) n, m').
End gen.

(** * The directories *)

Section init.
Context {H : Type} `{SmallHeap H} (root : Z) (addr : gen_fn -> Z).
Implicit Types s : tfs H.

(** [tfs_add_virtual] for each name of a list. *)
Definition add_virtuals (dir : Z) (l : list (String.string * gen_fn)) s : tfs H :=
  fold_left (fun s e => (tfs_add_virtual dir (text e.1) (addr e.2) s).2) l s.

Definition tfs_procfs_init s : option (tfs H) :=
  '(proc, s) ← tfs_mkdir root (text "/proc") s;
  Some (if proc =? 0 then s
        else tfs_mount (text "procfs") proc
               (add_virtuals proc [("uptime"%string, gen_uptime_fn); ("version"%string, gen_version_fn);
                                   ("meminfo"%string, gen_meminfo_fn); ("heapinfo"%string, gen_heapinfo_fn)] s)).

Definition tfs_sysfs_init s : option (tfs H) :=
  '(sys, s) ← tfs_mkdir root (text "/sys") s;
  Some (if sys =? 0 then s
        else tfs_mount (text "sysfs") sys
               (add_virtuals sys [("memory"%string, gen_memory_fn); ("frames"%string, gen_frames_fn);
                                  ("kernel"%string, gen_kernel_fn)] s)).
End init.

(** * Generated texts fit *)

(** The formats, in pieces. *)
Definition gen_pieces (g : gen_fn) : list piece :=
  match g with
  | gen_uptime_fn => [PLit (text "uptime: "); PU; PLit (text " seconds ("); PU; PLit (text " ticks)" ++ [10])]
  | gen_version_fn => [PLit (text "TrigerOS v0.12.0 (x86_64, Multiboot2)" ++ [10])]
  | gen_meminfo_fn =>
      [PLit (text "MemTotal:     "); PU; PLit (text " KiB" ++ [10] ++ text "MemAvailable: "); PU;
       PLit (text " KiB" ++ [10] ++ text "Frames free:  "); PU; PLit ([10] ++ text "Frames used:  "); PU; PLit [10]]
  | gen_heapinfo_fn =>
      [PLit (text "Heap mapped: "); PU; PLit (text " KiB" ++ [10] ++ text "Heap used:   "); PU;
       PLit (text " KiB" ++ [10] ++ text "Blocks:      "); PU; PLit [10]]
  | gen_memory_fn =>
      [PLit (text "Total:     "); PU; PLit (text " MiB" ++ [10] ++ text "Available: "); PU;
       PLit (text " MiB" ++ [10] ++ text "Free:      "); PU; PLit (text " frames" ++ [10])]
  | gen_frames_fn => [PLit (text "free: "); PU; PLit ([10] ++ text "used: "); PU; PLit [10]]
  | gen_kernel_fn =>
      [PLit (text "virtual: "); PP; PLit ([10] ++ text "phys:    "); PP; PLit (text " - "); PP;
       PLit ([10] ++ text "heap:    "); PP; PLit [10]]
  end.

Lemma gen_pieces_ok {B} (k : kstats B) g :
  (gen_of k g).1 = flatten (gen_pieces g) /\ forallb plain (gen_pieces g) = true /\
  (piece_args (gen_pieces g) <= length (gen_of k g).2)%nat /\ (piece_room (gen_pieces g) < 256)%nat /\
  (length (gen_of k g).1 < 128)%nat.
Proof. destruct g; (split; [reflexivity|split; [reflexivity|split; [cbn; lia|split; vm_compute; lia]]]). Qed.

Section fits.
Context {B : Type} (k : kstats B) (lit : list Z -> Z).

(** C39. Every generated file fits the reader's buffer: for any state of the
    kernel and a buffer of 256 bytes apart from the format, the generator
    returns, the size it leaves in the node is the length of the text, less
    than 256, the first bytes of the buffer are exactly that text, and nothing
    outside the buffer is written. *)
Theorem generated_text_fits g n buf m fuel :
  cstr m (lit (gen_of k g).1) (gen_of k g).1 ->
  apart_from_buf buf 256 (lit (gen_of k g).1) (len (gen_of k g).1) -> (128 <= fuel)%nat ->
  exists out n' m', run_gen k lit fuel g n buf 256 m = Some (n', m') /\
    render (fun _ => None) (gen_of k g).1 (gen_of k g).2 = Some out /\
    n_size n' = len out /\ len out < 256 /\
    (forall i c, out !! i = Some c -> rd m' (buf + Z.of_nat i) = c) /\
    (forall x, x < buf \/ buf + 256 <= x -> rd m' x = rd m x).
Proof.
  intros Hc Ha Hf. destruct (gen_pieces_ok k g) as (Ef & Hp & Hargs & Hroom & Hlen).
  destruct (render_pieces (fun _ => None) (gen_pieces g) (gen_of k g).2 Hp Hargs) as (out & Er & Hout).
  rewrite <- Ef in Er.
  destruct (tsprintf_spec (fun _ => None) fuel buf 256 (lit (gen_of k g).1) (gen_of k g).1 (gen_of k g).2 out m)
    as (m' & Es & Hframe & Htext & _); [discriminate|exact Hc|exact Ha|lia|lia|exact Er|lia|].
  unfold run_gen. destruct (gen_of k g) as [fmt args]. cbn [fst snd] in *. rewrite Es. cbn [mbind option_bind].
  exists out. eexists _, m'. split; [reflexivity|]. split; [exact Er|]. cbn [n_size set_data].
  split; [apply u64_small; lia|]. split; [lia|]. split; [|exact Hframe].
  intros i c Hi. apply Htext; [exact Hi|]. apply lookup_lt_Some in Hi. lia.
Qed.
End fits.

(** * Witnesses *)

#[local] Existing Instances rising rising_laws.

(** Two seconds after boot. *)
Definition demo_stats : kstats unit := mk_kstats 250 demo_pmm demo_heap 0xFFFFFFFF80000000 0x100000 0x180000.

(** The formats lie at 4096, the reader's buffer at 8192. *)
Definition demo_lit (fmt : list Z) : Z := 4096.
Definition demo_formats (g : gen_fn) : bytes := list_to_map (zip (seqZ 4096 128) (gen_of demo_stats g).1).

Lemma demo_formats_ok g : cstr (demo_formats g) 4096 (gen_of demo_stats g).1.
Proof. destruct g; vm_compute; repeat match goal with |- _ /\ _ => split end; reflexivity || discriminate. Qed.

Lemma generated_text_fits_witness :
  exists n' m', run_gen demo_stats demo_lit 128 gen_uptime_fn (root_node 8) 8192 256 (demo_formats gen_uptime_fn) = Some (n', m') /\
    n_size n' = 30 /\ rd m' 8200 = 50.
Proof.
  destruct (generated_text_fits demo_stats demo_lit gen_uptime_fn (root_node 8) 8192 (demo_formats gen_uptime_fn) 128
    (demo_formats_ok gen_uptime_fn)) as (out & n' & m' & E & Hr & Hsz & _ & Htext & _).
  - left. vm_compute. reflexivity.
  - lia.
  - vm_compute in Hr. injection Hr as <-. exists n', m'. split; [exact E|].
    split; [exact Hsz|]. exact (Htext 8%nat 50 eq_refl).
Defined.

(** The directories after both calls: the generated files are found, and the
    two mounts are recorded. *)
Lemma procfs_demo (addr : gen_fn -> Z) :
  match (s ← tfs_procfs_init 8 addr demo_fs; tfs_sysfs_init 8 addr s) with
  | Some s =>
      option_map (fun n => n_gen (node (nodes s) n)) (tfs_lookup 8 (text "/proc/uptime") s) = Some (addr gen_uptime_fn) /\
      option_map (fun n => n_gen (node (nodes s) n)) (tfs_lookup 8 (text "/sys/kernel") s) = Some (addr gen_kernel_fn)
  | None => False
  end.
Proof. vm_compute. split; reflexivity. Qed.
