(* ===== verification/Tline.v ===== *)
(** The line editor of the shell: the key loop of [ternel_main] in
    [src/ternel.c] with [print_prompt], [redraw_line] and [place_cursor].

    The line is the 128-byte local array of [ternel_main], in the same memory
    as the history table of [Tsh]; lengths and positions are the local
    variables.  The file proves that the editor is the obvious one on texts (a
    text with a cursor, and a place in the history), stays inside its array,
    and draws the line where it should while the prompt is not at the bottom
    of the screen. *)
From Stdlib Require Import String Ascii.
From stdpp Require Import prelude gmap list numbers.
From Stdlib Require Import ZArith Lia ZifyBool List.
From S2P Require Import Prelude Tstring Keyboard Vga Tsh Printf.
#[local] Open Scope Z_scope.

(** * State and drawing *)

Record editor := mk_editor {
  ed_sh : tsh;
  ed_vga : vga;
  line_len : Z;
  cursor : Z;
  hist_pos : Z;
  prompt_row : Z
}.

Definition with_vga (v : vga) (e : editor) : editor :=
  mk_editor (ed_sh e) v (line_len e) (cursor e) (hist_pos e) (prompt_row e).
Definition with_cursor (c : Z) (e : editor) : editor :=
  mk_editor (ed_sh e) (ed_vga e) (line_len e) c (hist_pos e) (prompt_row e).
(** A changed line: its memory, length, cursor and place in the history. *)
Definition with_line (m : bytes) (n c p : Z) (e : editor) : editor :=
  mk_editor (with_tmem m (ed_sh e)) (ed_vga e) n c p (prompt_row e).

Definition PROMPT : list Z := text "   > ".

Definition print_prompt (e : editor) : editor :=
  let v := put_all PROMPT (ed_vga e) in
  mk_editor (ed_sh e) v (line_len e) (cursor e) (hist_pos e) (vga_get_row v).

(** [vga_set_cursor(0, row)] and a row of spaces. *)
Definition blank_row (row : Z) (v : vga) : vga := put_all (replicate 80 32) (vga_set_cursor 0 row v).

Definition place_cursor (c : Z) (e : editor) : editor :=
  with_vga (vga_set_cursor ((6 + c) mod VGA_WIDTH) (prompt_row e + (6 + c) / VGA_WIDTH) (ed_vga e)) e.

Definition line_rows (n : Z) : Z :=
  let rows := (n + 6 + VGA_WIDTH - 1) / VGA_WIDTH in if rows <? 1 then 1 else rows.

Definition redraw_line (line n c : Z) (e : editor) : option editor :=
  let v := for_range (fun r v => blank_row (prompt_row e + r) v) 0 (line_rows n) (ed_vga e) in
  let v := put_all PROMPT (vga_set_cursor 0 (prompt_row e) v) in
  v ← vga_puts (tmem (ed_sh e)) 128 line v;
  Some (place_cursor c (with_vga v e)).

(** * Keys *)

Section keys.
Context (hist_entries line : Z).

(** Recalling line [p] of the history: [tstrncpy], [tstrlen], redraw. *)
Definition recall (p : Z) (e : editor) : option editor :=
  let src := tsh_hist_get hist_entries p (ed_sh e) in
  if src =? 0 then None
  else
    let m := tstrncpy line src 128 (tmem (ed_sh e)) in
    n ← tstrlen m 128 line;
    redraw_line line n n (with_line m n n p e).

(** A character typed at the cursor. *)
Definition type_char (c : Z) (e : editor) : option editor :=
  let m := tmem (ed_sh e) in
  let n := line_len e in
  let cur := cursor e in
  let count := tsh_hist_count (ed_sh e) in
  if cur =? n then
    let m1 := <[line + n + 1 := 0]> (<[line + n := u8 c]> m) in
    Some (with_vga (vga_putchar (u8 c) (ed_vga e)) (with_line m1 (n + 1) (cur + 1) count e))
  else
    let m1 := tmemmove (line + cur + 1) (line + cur) (n - cur + 1) m in
    redraw_line line (n + 1) (cur + 1)
      (with_line (<[line + (n + 1) := 0]> (<[line + cur := u8 c]> m1)) (n + 1) (cur + 1) count e).

(** One key other than Enter. *)
Definition edit_key (c : Z) (e : editor) : option editor :=
  let m := tmem (ed_sh e) in
  let n := line_len e in
  let cur := cursor e in
  let count := tsh_hist_count (ed_sh e) in
  if c =? 8 then
    if cur >? 0 then
      let m1 := tmemmove (line + cur - 1) (line + cur) (n - cur + 1) m in
      redraw_line line (n - 1) (cur - 1) (with_line (<[line + (n - 1) := 0]> m1) (n - 1) (cur - 1) count e)
    else Some e
  else if c =? KEY_DEL then
    if cur <? n then
      let m1 := tmemmove (line + cur) (line + cur + 1) (n - cur) m in
      redraw_line line (n - 1) cur (with_line (<[line + (n - 1) := 0]> m1) (n - 1) cur count e)
    else Some e
  else if c =? KEY_LEFT then
    if cur >? 0 then Some (place_cursor (cur - 1) (with_cursor (cur - 1) e)) else Some e
  else if c =? KEY_RIGHT then
    if cur <? n then Some (place_cursor (cur + 1) (with_cursor (cur + 1) e)) else Some e
  else if c =? KEY_HOME then Some (place_cursor 0 (with_cursor 0 e))
  else if c =? KEY_END then Some (place_cursor n (with_cursor n e))
  else if c =? KEY_UP then
    if hist_pos e >? 0 then recall (hist_pos e - 1) e else Some e
  else if c =? KEY_DOWN then
    if hist_pos e <? count then
      if hist_pos e + 1 >=? count
      then redraw_line line 0 0 (with_line (<[line := 0]> m) 0 0 (hist_pos e + 1) e)
      else recall (hist_pos e + 1) e
    else Some e
  else if (c >=? 32) && (n <? 127) then type_char c e
  else Some e.

Fixpoint edit_keys (ks : list Z) (e : editor) : option editor :=
  match ks with [] => Some e | c :: ks' => e' ← edit_key c e; edit_keys ks' e' end.
End keys.

(** * The editor on texts *)

(** The text, the cursor in it, and the place in the history [h] (its length
    when no line is recalled). *)
Record edited := mk_edited { l_text : list Z; l_cur : nat; l_pos : nat }.

Definition key_spec (h : list (list Z)) (c : Z) (a : edited) : edited :=
  let t := l_text a in
  let cur := l_cur a in
  if c =? 8 then
    match cur with O => a | S k => mk_edited (take k t ++ drop cur t) k (length h) end
  else if c =? KEY_DEL then
    if (cur <? length t)%nat then mk_edited (take cur t ++ drop (S cur) t) cur (length h) else a
  else if c =? KEY_LEFT then mk_edited t (pred cur) (l_pos a)
  else if c =? KEY_RIGHT then mk_edited t (Nat.min (S cur) (length t)) (l_pos a)
  else if c =? KEY_HOME then mk_edited t 0 (l_pos a)
  else if c =? KEY_END then mk_edited t (length t) (l_pos a)
  else if c =? KEY_UP then
    match l_pos a with O => a | S p => let t' := nth p h [] in mk_edited t' (length t') p end
  else if c =? KEY_DOWN then
    if (l_pos a <? length h)%nat then let t' := nth (S (l_pos a)) h [] in mk_edited t' (length t') (S (l_pos a)) else a
  else if (32 <=? c) && (length t <? 127)%nat then mk_edited (take cur t ++ c :: drop cur t) (S cur) (length h)
  else a.

(** * Lemmas *)

(** ** The line in memory

    Each edit is a new text: its bytes at the line, its terminator, nothing
    outside the array changed. *)

Definition line_is (m0 m : bytes) (line : Z) (t : list Z) : Prop :=
  cstr m line t /\ forall x, x < line \/ line + 128 <= x -> rd m x = rd m0 x.

Lemma line_is_bytes m0 m line t : Forall (fun c => 0 < c < 256) t -> (length t <= 127)%nat ->
  (forall k, (k <= length t)%nat -> rd m (line + Z.of_nat k) = nth k t 0) ->
  (forall x, x < line \/ line + 128 <= x -> rd m x = rd m0 x) -> line_is m0 m line t.
Proof.
  intros Ht Hl Hk Hf. split; [|exact Hf]. apply cstr_bytes. split; [exact Ht|].
  intros k Hr. specialize (Hk (Z.to_nat k)). rewrite Z2Nat.id in Hk by lia. apply Hk. lia.
Qed.

Lemma cstr_nth m p t k : cstr m p t -> (k <= length t)%nat -> rd m (p + Z.of_nat k) = nth k t 0.
Proof. intros Ht Hk. apply cstr_bytes in Ht as [_ Ht]. rewrite Ht by lia. f_equal. lia. Qed.

Lemma cstr_chars m p t : cstr m p t -> Forall (fun c => 0 < c < 256) t.
Proof. intros Ht. apply cstr_bytes in Ht as [H _]. exact H. Qed.

Lemma nth_cut (t : list Z) i k : (i < length t)%nat -> nth k (take i t ++ drop (S i) t) 0 = nth (if (k <? i)%nat then k else S k) t 0.
Proof.
  intros Hi. destruct (Nat.ltb_spec k i).
  - rewrite app_nth1 by (rewrite length_take; lia). rewrite nth_firstn. replace (k <? i)%nat with true by lia. reflexivity.
  - rewrite app_nth2 by (rewrite length_take; lia). rewrite length_take, nth_skipn. f_equal. lia.
Qed.

Lemma nth_put (t : list Z) i c k : (i <= length t)%nat ->
  nth k (take i t ++ c :: drop i t) 0 = if (k <? i)%nat then nth k t 0 else if (k =? i)%nat then c else nth (pred k) t 0.
Proof.
  intros Hi. destruct (Nat.ltb_spec k i).
  - rewrite app_nth1 by (rewrite length_take; lia). rewrite nth_firstn. replace (k <? i)%nat with true by lia. reflexivity.
  - rewrite app_nth2 by (rewrite length_take; lia). rewrite length_take. replace (k - i `min` length t)%nat with (k - i)%nat by lia.
    destruct (Nat.eqb_spec k i) as [->|Hne]; [rewrite Nat.sub_diag; reflexivity|].
    destruct (k - i)%nat as [|d] eqn:E; [lia|]. cbn [nth]. rewrite nth_skipn. f_equal. lia.
Qed.

Lemma length_cut (t : list Z) i : (i < length t)%nat -> length (take i t ++ drop (S i) t) = pred (length t).
Proof. intros. rewrite length_app, length_take, length_drop. lia. Qed.
Lemma length_put (t : list Z) i c : (i <= length t)%nat -> length (take i t ++ c :: drop i t) = S (length t).
Proof. intros. rewrite length_app. cbn [length]. rewrite length_take, length_drop. lia. Qed.

(** Deleting the character at [i]. *)
Lemma line_delete m line t i : cstr m line t -> (length t <= 127)%nat -> (i < length t)%nat ->
  line_is m (<[line + (len t - 1) := 0]> (tmemmove (line + Z.of_nat i) (line + Z.of_nat i + 1) (len t - Z.of_nat i) m))
    line (take i t ++ drop (S i) t).
Proof.
  intros Ht Hl Hi. apply line_is_bytes.
  - apply list.Forall_app; split; [apply list.Forall_take|apply list.Forall_drop]; exact (cstr_chars _ _ _ Ht).
  - rewrite length_cut by exact Hi. lia.
  - intros k Hk. rewrite length_cut in Hk by exact Hi. rewrite nth_cut by exact Hi.
    destruct (decide (k = pred (length t))) as [->|Hne].
    + replace (line + Z.of_nat (pred (length t))) with (line + (len t - 1)) by lia. rewrite rd_insert_eq.
      rewrite nth_overflow; [reflexivity|]. case_match; lia.
    + rewrite rd_insert_ne by lia. rewrite tmemmove_spec by lia. destruct (Nat.ltb_spec k i).
      * replace (_ && _) with false by lia. apply (cstr_nth _ _ _ _ Ht). lia.
      * replace (_ && _) with true by lia.
        replace (line + Z.of_nat i + 1 + (line + Z.of_nat k - (line + Z.of_nat i))) with (line + Z.of_nat (S k)) by lia.
        apply (cstr_nth _ _ _ _ Ht). lia.
  - intros x Hx. rewrite rd_insert_ne by lia. rewrite tmemmove_spec by lia. replace (_ && _) with false by lia. reflexivity.
Qed.

(** Inserting [c] before position [i]. *)
Lemma line_insert m line t i c : cstr m line t -> (length t < 127)%nat -> (i <= length t)%nat -> 0 < c < 256 ->
  line_is m (<[line + (len t + 1) := 0]> (<[line + Z.of_nat i := c]>
      (tmemmove (line + Z.of_nat i + 1) (line + Z.of_nat i) (len t - Z.of_nat i + 1) m)))
    line (take i t ++ c :: drop i t).
Proof.
  intros Ht Hl Hi Hc. apply line_is_bytes.
  - apply list.Forall_app; split; [apply list.Forall_take, (cstr_chars _ _ _ Ht)|].
    apply list.Forall_cons; split; [exact Hc|]. apply list.Forall_drop, (cstr_chars _ _ _ Ht).
  - rewrite length_put by exact Hi. lia.
  - intros k Hk. rewrite length_put in Hk by exact Hi. rewrite nth_put by exact Hi.
    destruct (decide (k = S (length t))) as [->|Hne].
    { replace (line + Z.of_nat (S (length t))) with (line + (len t + 1)) by lia. rewrite rd_insert_eq.
      replace (_ <? _)%nat with false by lia. replace (_ =? _)%nat with false by lia. rewrite nth_overflow by lia. reflexivity. }
    rewrite rd_insert_ne by lia. destruct (Nat.ltb_spec k i) as [Hlt|Hge].
    { rewrite rd_insert_ne, tmemmove_spec by lia. replace (_ && _) with false by lia. apply (cstr_nth _ _ _ _ Ht). lia. }
    destruct (Nat.eqb_spec k i) as [->|Hki]; [apply rd_insert_eq|].
    rewrite rd_insert_ne, tmemmove_spec by lia. replace (_ && _) with true by lia.
    replace (line + Z.of_nat i + (line + Z.of_nat k - (line + Z.of_nat i + 1))) with (line + Z.of_nat (pred k)) by lia.
    apply (cstr_nth _ _ _ _ Ht). lia.
  - intros x Hx. rewrite !rd_insert_ne by lia. rewrite tmemmove_spec by lia. replace (_ && _) with false by lia. reflexivity.
Qed.

(** Appending [c]. *)
Lemma line_append m line t c : cstr m line t -> (length t < 127)%nat -> 0 < c < 256 ->
  line_is m (<[line + len t + 1 := 0]> (<[line + len t := c]> m)) line (take (length t) t ++ c :: drop (length t) t).
Proof.
  intros Ht Hl Hc. apply line_is_bytes.
  - rewrite firstn_all, drop_all. apply list.Forall_app; split; [exact (cstr_chars _ _ _ Ht)|repeat constructor; lia].
  - rewrite length_put; lia.
  - intros k Hk. rewrite length_put in Hk by lia. rewrite nth_put by lia.
    destruct (decide (k = S (length t))) as [->|Hne].
    { replace (line + Z.of_nat (S (length t))) with (line + len t + 1) by lia. rewrite rd_insert_eq.
      replace (_ <? _)%nat with false by lia. replace (_ =? _)%nat with false by lia. rewrite nth_overflow by lia. reflexivity. }
    rewrite rd_insert_ne by lia. destruct (Nat.ltb_spec k (length t)) as [Hlt|Hge].
    { rewrite rd_insert_ne by lia. apply (cstr_nth _ _ _ _ Ht). lia. }
    replace (k =? length t)%nat with true by lia. replace k with (length t) by lia. apply rd_insert_eq.
  - intros x Hx. rewrite !rd_insert_ne by lia. reflexivity.
Qed.

(** Copying a line of the history. *)
Lemma line_recall m line src t : cstr m src t -> (length t <= 127)%nat -> separate line 128 src 128 ->
  line_is m (tstrncpy line src 128 m) line t.
Proof.
  intros Ht Hl Hs. unfold separate in Hs. split.
  - apply strncpy_cstr; [exact Ht|lia|lia].
  - apply (strncpy_bytes line src 128 t m Ht); lia.
Qed.

(** ** Drawing keeps everything else *)

Lemma place_cursor_is c e : exists v, place_cursor c e = with_vga v e /\ vga_ok v.
Proof. eexists. split; [reflexivity|]. apply set_cursor_ok. Qed.

Lemma redraw_is line n c e t : cstr (tmem (ed_sh e)) line t -> (length t <= 127)%nat ->
  exists v, redraw_line line n c e = Some (with_vga v e) /\ vga_ok v.
Proof.
  intros Ht Hl. unfold redraw_line. rewrite (vga_puts_all _ t _ _ _ Ht) by lia. cbn [mbind option_bind].
  eexists. split; [reflexivity|]. apply set_cursor_ok.
Qed.

(** * Refinement *)

Section refine.
Context (hist_entries line : Z) (h : list (list Z)).
Context (Happ : separate line 128 hist_entries 4096) (Hpos : 0 < hist_entries).

(** The concrete editor holds the abstract one. *)
Record holds (e : editor) (a : edited) : Prop := {
  ho_text : cstr (tmem (ed_sh e)) line (l_text a) /\ (length (l_text a) <= 127)%nat;
  ho_len : line_len e = len (l_text a);
  ho_cur : cursor e = Z.of_nat (l_cur a) /\ (l_cur a <= length (l_text a))%nat;
  ho_pos : hist_pos e = Z.of_nat (l_pos a) /\ (l_pos a <= length h)%nat;
  ho_hist : hist_ok hist_entries (ed_sh e) h;
  ho_vga : vga_ok (ed_vga e)
}.

(** What an edit leaves alone. *)
Definition edit_frame (e e' : editor) : Prop :=
  env_count (ed_sh e') = env_count (ed_sh e) /\ hist_count (ed_sh e') = hist_count (ed_sh e) /\
  prompt_row e' = prompt_row e /\
  forall x, x < line \/ line + 128 <= x -> rd (tmem (ed_sh e')) x = rd (tmem (ed_sh e)) x.

Lemma edit_frame_refl e : edit_frame e e.
Proof. repeat split. Qed.

Lemma edit_frame_trans e1 e2 e3 : edit_frame e1 e2 -> edit_frame e2 e3 -> edit_frame e1 e3.
Proof.
  intros (A1 & B1 & C1 & D1) (A2 & B2 & C2 & D2). repeat split; try congruence.
  intros x Hx. rewrite D2, D1 by exact Hx. reflexivity.
Qed.

(** A key has its abstract effect. *)
Definition realises (e : editor) (r : option editor) (a : edited) : Prop :=
  exists e', r = Some e' /\ holds e' a /\ edit_frame e e'.

Lemma realises_move e a v c : holds e a -> vga_ok v -> (c <= length (l_text a))%nat ->
  realises e (Some (with_vga v (with_cursor (Z.of_nat c) e))) (mk_edited (l_text a) c (l_pos a)).
Proof.
  intros [] Hv Hc. eexists. split; [reflexivity|]. split; [split; try assumption; split; [reflexivity|exact Hc]|repeat split].
Qed.

(** The cursor moves. *)
Lemma realises_place e a c z : holds e a -> (c <= length (l_text a))%nat -> z = Z.of_nat c ->
  realises e (Some (place_cursor z (with_cursor z e))) (mk_edited (l_text a) c (l_pos a)).
Proof.
  intros Ha Hc ->. destruct (place_cursor_is (Z.of_nat c) (with_cursor (Z.of_nat c) e)) as (v & -> & Hv).
  apply realises_move; assumption.
Qed.

Lemma realises_stay e a : holds e a -> realises e (Some e) a.
Proof. intros Ha. exists e. split; [reflexivity|]. split; [exact Ha|apply edit_frame_refl]. Qed.

(** The line changes to [t], drawn as [v]. *)
Lemma realises_line e a m v t n c c' p p' : holds e a -> line_is (tmem (ed_sh e)) m line t -> (length t <= 127)%nat ->
  vga_ok v -> n = len t -> c = Z.of_nat c' -> (c' <= length t)%nat -> p = Z.of_nat p' -> (p' <= length h)%nat ->
  realises e (Some (with_vga v (with_line m n c p e))) (mk_edited t c' p').
Proof.
  intros [_ _ _ _ Hh _] [Ht Hf] Hl Hv -> -> Hc -> Hp. eexists. split; [reflexivity|].
  split; [|repeat split; exact Hf]. split; cbn; auto.
  apply (hist_ok_frame _ _ _ _ Hh); [reflexivity|]. intros x Hx. apply Hf. unfold separate in Happ. lia.
Qed.

Lemma realises_redraw e a m t n c c' p p' : holds e a -> line_is (tmem (ed_sh e)) m line t -> (length t <= 127)%nat ->
  n = len t -> c = Z.of_nat c' -> (c' <= length t)%nat -> p = Z.of_nat p' -> (p' <= length h)%nat ->
  realises e (redraw_line line n c (with_line m n c p e)) (mk_edited t c' p').
Proof.
  intros Ha Hm Hl Hn Hc Hc' Hp Hp'. destruct (redraw_is line n c (with_line m n c p e) t) as (v & -> & Hv); [apply Hm|exact Hl|].
  eapply realises_line; eassumption.
Qed.

Lemma hist_get_row e p : hist_ok hist_entries (ed_sh e) h -> (p < length h)%nat ->
  tsh_hist_get hist_entries (Z.of_nat p) (ed_sh e) = hist_row hist_entries (Z.of_nat p).
Proof.
  intros (Hc & _) Hp. unfold tsh_hist_get. rewrite Hc.
  destruct (_ || _) eqn:E; [lia|reflexivity].
Qed.

Lemma realises_recall e a p : holds e a -> (p < length h)%nat ->
  realises e (recall hist_entries line (Z.of_nat p) e) (mk_edited (nth p h []) (length (nth p h [])) p).
Proof.
  intros Ha Hp. pose proof (ho_hist _ _ Ha) as Hh. unfold recall. rewrite hist_get_row by assumption.
  destruct Hh as (_ & Hlen & Hrow). destruct (lookup_lt_is_Some_2 h p Hp) as [t Et].
  rewrite (nth_lookup_Some _ _ [] _ Et). destruct (Hrow p t Et) as [Ht Hl].
  assert (line_is (tmem (ed_sh e)) (tstrncpy line (hist_row hist_entries (Z.of_nat p)) 128 (tmem (ed_sh e))) line t) as Hm.
  { apply line_recall; [exact Ht|lia|]. unfold separate, hist_row, TSH_HIST_LEN in *. lia. }
  replace (hist_row _ _ =? 0) with false by (unfold hist_row, TSH_HIST_LEN; lia).
  unfold tstrlen. rewrite (strlen_from_spec _ _ _ t) by (rewrite ?Z.add_0_r; try apply Hm; lia). cbn [mbind option_bind].
  apply (realises_redraw e a); auto; lia.
Qed.

Lemma realises_type e a c : holds e a -> 0 < c < 128 -> (length (l_text a) < 127)%nat ->
  realises e (type_char line c e) (mk_edited (take (l_cur a) (l_text a) ++ c :: drop (l_cur a) (l_text a)) (S (l_cur a)) (length h)).
Proof.
  intros Ha Hc Hl. pose proof Ha as [[Ht _] Hn [Hcu Hcl] _ (Hcnt & _ & _) Hv].
  unfold type_char, tsh_hist_count. rewrite Hn, Hcu, Hcnt, (u8_small c) by lia.
  destruct (Z.eqb_spec (Z.of_nat (l_cur a)) (len (l_text a))) as [Hend|Hmid].
  - replace (l_cur a) with (length (l_text a)) by lia.
    eapply realises_line; [exact Ha|apply line_append; [exact Ht|lia|lia]|rewrite ?length_put; lia| |rewrite ?length_put; lia..].
    exact (proj1 (op_spec _ (OpPutchar c) Hv)).
  - apply (realises_redraw e a); [exact Ha|apply line_insert; [exact Ht|lia..]|rewrite ?length_put; lia..].
Qed.

(** The empty line behind the newest line of the history. *)
Lemma realises_blank e a p : holds e a -> (p <= length h)%nat ->
  realises e (redraw_line line 0 0 (with_line (<[line := 0]> (tmem (ed_sh e))) 0 0 (Z.of_nat p) e)) (mk_edited [] 0 p).
Proof.
  intros Ha Hp. apply (realises_redraw e a); [exact Ha| |cbn; lia..].
  apply line_is_bytes; [constructor|cbn; lia| |].
  - intros [|k] Hk; [|cbn in Hk; lia]. cbn. rewrite Z.add_0_r. apply rd_insert_eq.
  - intros x Hx. apply rd_insert_ne. lia.
Qed.

(** The keys of the keyboard driver, Enter apart: characters and the negative
    codes of the other keys. *)
Definition is_key (c : Z) : Prop := c <> 10 /\ c < 128.

Lemma edit_key_spec e a c : holds e a -> is_key c -> realises e (edit_key hist_entries line c e) (key_spec h c a).
Proof.
  intros Ha [Hc10 Hc128]. pose proof Ha as [[Ht Hl] Hn [Hcu Hcl] [Hp Hpl] (Hcnt & _ & _) Hv].
  unfold edit_key, key_spec, tsh_hist_count. rewrite Hn, Hcu, Hp, Hcnt.
  destruct (c =? 8).
  { destruct (l_cur a) as [|k] eqn:Ek; [apply realises_stay, Ha|]. replace (_ >? 0) with true by lia.
    apply (realises_redraw e a); [exact Ha| |rewrite ?length_cut; lia..].
    pose proof (line_delete _ _ _ k Ht Hl ltac:(lia)) as Hd.
    replace (line + Z.of_nat (S k) - 1) with (line + Z.of_nat k) by lia.
    replace (line + Z.of_nat (S k)) with (line + Z.of_nat k + 1) by lia.
    replace (len (l_text a) - Z.of_nat (S k) + 1) with (len (l_text a) - Z.of_nat k) by lia. exact Hd. }
  destruct (c =? KEY_DEL).
  { destruct (Nat.ltb_spec (l_cur a) (length (l_text a))) as [Hlt|Hge].
    - replace (_ <? _) with true by lia.
      apply (realises_redraw e a); [exact Ha|apply line_delete; assumption|rewrite ?length_cut; lia..].
    - replace (_ <? _) with false by lia. apply realises_stay, Ha. }
  destruct (c =? KEY_LEFT).
  { destruct (l_cur a) as [|k] eqn:Ek; cbn [pred].
    - destruct a as [t cur pos]. cbn in Ek. subst cur. apply realises_stay, Ha.
    - replace (_ >? 0) with true by lia. apply realises_place; [exact Ha|lia..]. }
  destruct (c =? KEY_RIGHT).
  { destruct (Nat.ltb_spec (l_cur a) (length (l_text a))) as [Hlt|Hge].
    - replace (_ <? _) with true by lia. apply realises_place; [exact Ha|lia..].
    - replace (_ <? _) with false by lia. replace (_ `min` _)%nat with (l_cur a) by lia.
      destruct a. apply realises_stay, Ha. }
  destruct (c =? KEY_HOME); [apply realises_place; [exact Ha|lia..]|].
  destruct (c =? KEY_END); [apply realises_place; [exact Ha|lia..]|].
  destruct (c =? KEY_UP).
  { destruct (l_pos a) as [|p] eqn:Ep; [apply realises_stay, Ha|]. replace (_ >? 0) with true by lia.
    replace (Z.of_nat (S p) - 1) with (Z.of_nat p) by lia. apply (realises_recall e a); [exact Ha|lia]. }
  destruct (c =? KEY_DOWN).
  { destruct (Nat.ltb_spec (l_pos a) (length h)) as [Hlt|Hge]; [|replace (_ <? _) with false by lia; apply realises_stay, Ha].
    replace (_ <? _) with true by lia. replace (Z.of_nat (l_pos a) + 1) with (Z.of_nat (S (l_pos a))) by lia.
    destruct (Z.geb_spec (Z.of_nat (S (l_pos a))) (len h)) as [Hend|Hin].
    - rewrite (nth_overflow h) by lia. apply (realises_blank e a); [exact Ha|lia].
    - apply (realises_recall e a); [exact Ha|lia]. }
  replace (c >=? 32) with (32 <=? c) by lia.
  replace (len (l_text a) <? 127) with (length (l_text a) <? 127)%nat by lia.
  destruct (_ && _) eqn:Ek; [|apply realises_stay, Ha].
  apply realises_type; [exact Ha|lia..].
Qed.

(** C22. The line editor refines the editor on texts: for every sequence of keys
    other than Enter, the editor returns, the array holds the text, terminated
    within its 128 bytes, that inserting, deleting, moving and recalling
    history lines gives on lists, the length, cursor and history position are
    those of the text, and no byte outside the array changes. *)
Theorem line_editor_correct e a ks : holds e a -> Forall is_key ks ->
  exists e', edit_keys hist_entries line ks e = Some e' /\ holds e' (fold_left (fun a c => key_spec h c a) ks a) /\
    edit_frame e e'.
Proof.
  intros Ha Hks. revert e a Ha. induction Hks as [|c ks Hc _ IH]; intros e a Ha; cbn [edit_keys fold_left].
  { exists e. split; [reflexivity|]. split; [exact Ha|apply edit_frame_refl]. }
  destruct (edit_key_spec e a c Ha Hc) as (e1 & -> & Ha1 & Hf1). cbn [mbind option_bind].
  destruct (IH e1 _ Ha1) as (e2 & E & Ha2 & Hf2). exists e2. split; [exact E|]. split; [exact Ha2|].
  exact (edit_frame_trans _ _ _ Hf1 Hf2).
Qed.
End refine.

(** * What is drawn *)

(** The cell of the cursor. *)
Definition cell (v : vga) : Z := terminal_row v * VGA_WIDTH + terminal_col v.

(** [v'] is [v] with the characters [l] from cell [p] on and the cursor behind
    them. *)
Record drawn (p : Z) (l : list Z) (v v' : vga) : Prop := {
  dr_ok : vga_ok v';
  dr_cell : cell v' = p + len l;
  dr_color : terminal_color v' = terminal_color v;
  dr_mem : forall x, rd (VGA_MEM v') x =
    if (p <=? x) && (x <? p + len l) then glyph (terminal_color v) (nth (Z.to_nat (x - p)) l 0) else rd (VGA_MEM v) x
}.

Definition printable (c : Z) : Prop := 32 <= c < 256.

(** One character, away from the last cell. *)
Lemma putchar_drawn c v : vga_ok v -> printable c -> cell v + 1 < 2000 -> drawn (cell v) [c] v (vga_putchar c v).
Proof.
  intros (Hr & Hc & _) Hp Hn. unfold cell, printable, VGA_WIDTH, VGA_HEIGHT in *. unfold vga_putchar, place.
  replace (c =? 10) with false by lia. replace (c =? 13) with false by lia. replace (c =? 9) with false by lia.
  replace (c =? 8) with false by lia. unfold settle, VGA_WIDTH, VGA_HEIGHT.
  cbn [with_pos with_mem terminal_row terminal_col terminal_color VGA_MEM].
  destruct (Z.geb_spec (terminal_col v + 1) 80) as [Hge|Hlt];
    cbn [with_pos with_mem terminal_row terminal_col terminal_color VGA_MEM];
    (replace (_ >=? 25) with false by lia);
    (split; [apply cursor_ok; cbn; unfold VGA_HEIGHT, VGA_WIDTH; lia|unfold cell, VGA_WIDTH; cbn; lia|reflexivity|]);
    intros x; cbn [update_cursor with_pos with_mem VGA_MEM length]; destruct (_ && _) eqn:E;
    try (replace x with (terminal_row v * 80 + terminal_col v) by lia; rewrite rd_insert_eq, Z.sub_diag; reflexivity);
    apply rd_insert_ne; lia.
Qed.

Lemma drawn_app p a b v v1 v2 : drawn p a v v1 -> drawn (p + len a) b v1 v2 -> drawn p (a ++ b) v v2.
Proof.
  intros [_ C1 K1 M1] [Hok C2 K2 M2]. split; [exact Hok|rewrite length_app; lia|congruence|].
  intros x. rewrite M2, M1, K1, length_app. destruct ((p + len a <=? x) && _) eqn:E2.
  - replace (_ && _) with true by lia. rewrite app_nth2 by lia. do 2 f_equal. lia.
  - destruct ((p <=? x) && (x <? p + len a)) eqn:E1.
    + replace (_ && _) with true by lia. rewrite app_nth1 by lia. reflexivity.
    + replace (_ && _) with false by lia. reflexivity.
Qed.

Lemma put_all_drawn l : forall v, vga_ok v -> Forall printable l -> cell v + len l < 2000 -> drawn (cell v) l v (put_all l v).
Proof.
  induction l as [|c l IH]; intros v Hv Hl Hn.
  { split; [exact Hv|simpl; lia|reflexivity|]. intros x. cbn [length]. replace (_ && _) with false by lia. reflexivity. }
  apply list.Forall_cons in Hl as [Hc Hl]. cbn [length] in Hn.
  pose proof (putchar_drawn c v Hv Hc ltac:(lia)) as H1. pose proof (dr_cell _ _ _ _ H1) as Hcell. cbn [length] in Hcell.
  apply (drawn_app _ [c] l _ (vga_putchar c v)); [exact H1|].
  replace (cell v + len [c]) with (cell (vga_putchar c v)) by (rewrite Hcell; reflexivity).
  apply (IH _ (dr_ok _ _ _ _ H1) Hl). lia.
Qed.

Lemma set_cursor_drawn x y v : 0 <= x < 80 -> 0 <= y < 25 ->
  drawn (80 * y + x) [] v (vga_set_cursor x y v).
Proof.
  intros Hx Hy. split; [apply set_cursor_ok| |reflexivity|].
  - unfold vga_set_cursor, cell, VGA_WIDTH, VGA_HEIGHT. cbn. replace (x <? 0) with false by lia. replace (y <? 0) with false by lia.
    replace (x >=? 80) with false by lia. replace (y >=? 25) with false by lia. lia.
  - intros z. cbn [length]. replace (_ && _) with false by lia. reflexivity.
Qed.

(** Text put after a move of the cursor. *)
Lemma move_put_drawn l y v : Forall printable l -> 0 <= y < 25 -> 80 * y + len l < 2000 ->
  drawn (80 * y) l v (put_all l (vga_set_cursor 0 y v)).
Proof.
  intros Hl Hy Hn. pose proof (set_cursor_drawn 0 y v ltac:(lia) Hy) as H0. rewrite Z.add_0_r in H0.
  pose proof (dr_cell _ _ _ _ H0) as Hc. cbn [length] in Hc. rewrite Z.add_0_r in Hc.
  apply (drawn_app _ [] l _ (vga_set_cursor 0 y v)); [exact H0|]. cbn [length]. rewrite Z.add_0_r, <- Hc.
  apply put_all_drawn; [apply (dr_ok _ _ _ _ H0)|exact Hl|lia].
Qed.

(** Rows of spaces. *)
Lemma blank_rows_drawn row n v : 0 <= row -> row + Z.of_nat n <= 24 ->
  let v' := for_range (fun r v => blank_row (row + r) v) 0 (Z.of_nat n) v in
  terminal_color v' = terminal_color v /\
  forall x, rd (VGA_MEM v') x =
    if (80 * row <=? x) && (x <? 80 * (row + Z.of_nat n)) then glyph (terminal_color v) 32 else rd (VGA_MEM v) x.
Proof.
  intros Hr Hn. cbv zeta. apply (for_range_ind (fun r v' => terminal_color v' = terminal_color v /\
    forall x, rd (VGA_MEM v') x =
      if (80 * row <=? x) && (x <? 80 * (row + r)) then glyph (terminal_color v) 32 else rd (VGA_MEM v) x)); [lia| |].
  { split; [reflexivity|]. intros x. replace (_ && _) with false by lia. reflexivity. }
  intros r w Hi [Hk Hm]. unfold blank_row.
  assert (drawn (80 * (row + r)) (replicate 80 32) w (put_all (replicate 80 32) (vga_set_cursor 0 (row + r) w))) as [_ _ K M].
  { apply move_put_drawn; [apply list.Forall_replicate; unfold printable; lia|lia|rewrite length_replicate; lia]. }
  split; [congruence|]. intros x. rewrite M, length_replicate, Hk. destruct ((_ <=? x) && _) eqn:E.
  - replace (_ && _) with true by lia. rewrite (nth_lookup_Some _ _ 0 32); [reflexivity|]. apply lookup_replicate_2. lia.
  - rewrite Hm. destruct (_ && (x <? 80 * (row + r))) eqn:E1.
    + replace (_ && _) with true by lia. reflexivity.
    + replace (_ && _) with false by lia. reflexivity.
Qed.

(** Redrawing shows the line: while the prompt and the rows of the line end
    above the last row, the rows from the prompt on show the prompt, the text
    and spaces, the other rows are untouched, and the hardware cursor stands
    six cells plus the cursor position after the start of the prompt.  (The
    prompt has five characters, so that is one cell to the right of the
    character at the cursor.) *)
Theorem redraw_shows_line line e t cur : cstr (tmem (ed_sh e)) line t -> Forall printable t -> (length t <= 127)%nat ->
  0 <= prompt_row e -> prompt_row e + line_rows (len t) <= 24 -> 0 <= cur <= len t ->
  exists v, redraw_line line (len t) cur e = Some (with_vga v e) /\
    (forall x, rd (VGA_MEM v) x =
      if (80 * prompt_row e <=? x) && (x <? 80 * (prompt_row e + line_rows (len t)))
      then glyph (terminal_color (ed_vga e)) (nth (Z.to_nat (x - 80 * prompt_row e)) (PROMPT ++ t) 32)
      else rd (VGA_MEM (ed_vga e)) x) /\
    256 * crtc_hi v + crtc_lo v = 80 * prompt_row e + 6 + cur.
Proof.
  intros Ht Hp Hl Hrow Hbot Hcur. unfold redraw_line. rewrite (vga_puts_all _ t _ _ _ Ht) by lia. cbn [mbind option_bind].
  set (row := prompt_row e) in *. set (rows := line_rows (len t)) in *.
  assert (1 <= rows /\ len t + 6 <= 80 * rows) as [Hrows1 Hrows] by (unfold rows, line_rows, VGA_WIDTH; case_if; zlia).
  pose proof (blank_rows_drawn row (Z.to_nat rows) (ed_vga e) Hrow ltac:(lia)) as [K0 M0].
  rewrite Z2Nat.id in K0, M0 by lia. set (v0 := for_range _ 0 rows (ed_vga e)) in *.
  assert (drawn (80 * row) (PROMPT ++ t) v0 (put_all t (put_all PROMPT (vga_set_cursor 0 row v0)))) as [_ _ K1 M1].
  { assert (put_all t (put_all PROMPT (vga_set_cursor 0 row v0)) = put_all (PROMPT ++ t) (vga_set_cursor 0 row v0)) as ->
      by (unfold put_all; rewrite fold_left_app; reflexivity).
    apply move_put_drawn; [|lia|rewrite length_app; change (length PROMPT) with 5%nat; lia].
    apply list.Forall_app. split; [|exact Hp]. repeat constructor; unfold printable; vm_compute; intuition discriminate. }
  set (v1 := put_all t _) in *. unfold place_cursor. cbn [with_vga ed_vga prompt_row]. fold row.
  pose proof (set_cursor_drawn ((6 + cur) mod 80) (row + (6 + cur) / 80) v1 ltac:(zlia) ltac:(zlia)) as [(_ & _ & Hc) Hcell _ _].
  eexists. split; [reflexivity|]. split.
  - intros x. cbn [vga_set_cursor update_cursor with_pos VGA_MEM]. rewrite M1, M0, K0, length_app.
    change (length PROMPT) with 5%nat. destruct ((80 * row <=? x) && (x <? 80 * row + _)) eqn:E1.
    + replace (_ && _) with true by lia. f_equal. apply nth_indep. rewrite length_app. change (length PROMPT) with 5%nat. lia.
    + destruct (_ && (x <? 80 * (row + rows))) eqn:E2; [|reflexivity]. rewrite nth_overflow; [reflexivity|].
      rewrite length_app. change (length PROMPT) with 5%nat. lia.
  - unfold VGA_WIDTH in *. unfold cell, VGA_WIDTH in Hcell. cbn [length] in Hcell. rewrite Hc, Hcell. zlia.
Qed.

(** * Witnesses *)

(** An empty line at 100, the history ["ls"] at 8000, the prompt on row 2. *)
Definition demo_line_mem : bytes := store_bytes 8000 (text "ls" ++ [0]) ∅.
Definition demo_ed (row : Z) : editor :=
  print_prompt (mk_editor (mk_tsh demo_line_mem 0 1) (vga_set_cursor 0 row demo_screen) 0 0 1 0).

Lemma demo_holds : holds 8000 100 [text "ls"] (demo_ed 2) (mk_edited [] 0 1).
Proof.
  split; cbn [l_text l_cur l_pos length]; try (split; [vm_compute; reflexivity|lia]); try (vm_compute; reflexivity).
  - split; [vm_compute; reflexivity|]. split; [cbn; lia|]. intros [|i] l Hi; [|destruct i; discriminate].
    injection Hi as <-. split; [vm_compute; intuition discriminate|vm_compute; reflexivity].
  - vm_compute. intuition discriminate.
Qed.

Lemma demo_line_apart : separate 100 128 8000 4096.
Proof. unfold separate. lia. Qed.

(** Keys: recall, Home, [x], End, Backspace. *)
Lemma line_editor_correct_witness :
  exists e', edit_keys 8000 100 [KEY_UP; KEY_HOME; 120; KEY_END; 8] (demo_ed 2) = Some e' /\
    cstr (tmem (ed_sh e')) 100 (text "xl") /\ cursor e' = 2.
Proof.
  destruct (line_editor_correct 8000 100 [text "ls"] demo_line_apart ltac:(lia) (demo_ed 2) (mk_edited [] 0 1)
    [KEY_UP; KEY_HOME; 120; KEY_END; 8] demo_holds) as (e' & E & [[Ht _] _ [Hc _] _ _ _] & _).
  - unfold is_key, KEY_UP, KEY_HOME, KEY_END. repeat constructor; lia.
  - exists e'. split; [exact E|]. split; [exact Ht|exact Hc].
Defined.

(** A line of two characters at 100. *)
Definition demo_ab_ed (row : Z) : editor :=
  print_prompt (mk_editor (mk_tsh (store_bytes 100 [97; 98; 0] ∅) 0 0) (vga_set_cursor 0 row demo_screen) 2 2 0 0).

Lemma redraw_shows_line_witness :
  exists v, redraw_line 100 2 1 (demo_ab_ed 2) = Some (with_vga v (demo_ab_ed 2)) /\
    shown v 2 5 = glyph 7 97 /\ shown v 2 6 = glyph 7 98 /\ 256 * crtc_hi v + crtc_lo v = 80 * 2 + 7.
Proof.
  destruct (redraw_shows_line 100 (demo_ab_ed 2) [97; 98] 1) as (v & E & Hm & Hc);
    [vm_compute; intuition discriminate|repeat constructor; unfold printable; lia|cbn; lia|vm_compute; discriminate|
     vm_compute; discriminate|cbn; lia|].
  exists v. split; [exact E|]. unfold shown. rewrite !Hm. split; [reflexivity|]. split; [reflexivity|exact Hc].
Defined.

(** With the prompt on the last row, clearing the row scrolls the screen: the
    row above the prompt moves up by one at every redraw. *)
Lemma redraw_scrolls_at_bottom :
  let e := demo_ab_ed 24 in
  let e := with_vga (vga_set_cursor 0 24 (vga_putchar 35 (vga_set_cursor 0 23 (ed_vga e)))) e in
  match redraw_line 100 2 2 e with
  | Some e' => shown (ed_vga e) 23 0 = glyph 7 35 /\ shown (ed_vga e') 22 0 = glyph 7 35 /\ shown (ed_vga e') 23 0 = glyph 7 32
  | None => False
  end.
Proof. vm_compute. repeat split. Qed.

(** After the cursor key Left the hardware cursor is on the cell of the
    character behind the cursor. *)
Lemma cursor_one_too_far :
  match edit_key 8000 100 KEY_LEFT (demo_ab_ed 2) with
  | Some e' => cursor e' = 1 /\ cell (ed_vga e') = 80 * 2 + 5 + 2
  | None => False
  end.
Proof. vm_compute. repeat split. Qed.
