(* ===== verification/Ternel.v ===== *)
(** The shell of [src/ternel.c]: formatted console output, the state that the
    commands work on, and the commands of the environment, the files and the
    scheduler's table.

    A command is a computation in a small monad over the whole [kernel]: it
    returns, or it stops for a reason that is a value ([stop]).  Strings that
    the commands print are arguments that carry their text with their address,
    so that a conversion that takes an integer for a string is visible. *)
From Stdlib Require Import String Ascii.
From stdpp Require Import prelude gmap list numbers.
From Stdlib Require Import ZArith Lia ZifyBool List.
From S2P Require Import Prelude TtaskCore Ttask Tpmm Tmalloc Tvmm Tstring Telf Tsec Tfs TfsSpec Keyboard Vga Tsh Printf Serial Idt Tsys Tprocfs.
#[local] Open Scope Z_scope.

(** * [tprintf] *)

(** An argument: a number, or a pointer with the string it points to. *)
Inductive arg := Num (v : Z) | Ptr (a : Z) (s : list Z).

Definition arg_val (x : arg) : Z := match x with Num v => v | Ptr a _ => a end.

(** What [%s] prints: a null pointer is spelled out, and an integer taken for
    a pointer is an access to memory that is not a string of the program. *)
Definition arg_str (x : arg) : option (list Z) :=
  match x with Ptr _ s => Some s | Num v => if v =? 0 then Some null_text else None end.

(** The number routines with their local buffer. *)
Definition put_dec (v : Z) (s : vga) : option vga := vga_put_dec 0 v ∅ s.
Definition put_hex (v : Z) (s : vga) : option vga := vga_put_hex 0 v ∅ s.

(** [None]: a missing argument, or a string that is none. *)
Fixpoint tprintf (fmt : list Z) (args : list arg) (s : vga) : option vga :=
  match fmt with
  | [] => Some s
  | c :: f =>
      if negb (c =? 37) then tprintf f args (vga_putchar c s)
      else
        match f with
        | [] => Some (vga_putchar 37 s)
        | d :: f' =>
            if d =? 37 then tprintf f' args (vga_putchar 37 s)
            else if d =? 115 then
              match args with [] => None | a :: r => t ← arg_str a; tprintf f' r (put_all t s) end
            else if d =? 100 then
              match args with
              | [] => None
              | a :: r =>
                  let v := s32 (arg_val a) in
                  s' ← (if v <? 0 then put_dec (u32 (0 - u32 v)) (vga_putchar 45 s) else put_dec (u32 v) s);
                  tprintf f' r s'
              end
            else if d =? 117 then
              match args with [] => None | a :: r => s' ← put_dec (u32 (arg_val a)) s; tprintf f' r s' end
            else if d =? 120 then
              match args with [] => None | a :: r => s' ← put_hex (u32 (arg_val a)) s; tprintf f' r s' end
            else if d =? 112 then
              match args with
              | [] => None
              | a :: r => s' ← put_hex (u32 (arg_val a)) (put_all (text "0x") s); tprintf f' r s'
              end
            else if d =? 99 then
              match args with [] => None | a :: r => tprintf f' r (vga_putchar (u8 (arg_val a)) s) end
            else tprintf f args (vga_putchar 37 s)
        end
  end.

(** The text of a format. *)
Definition conv_text (d : Z) (a : arg) : option (list Z) :=
  if d =? 115 then arg_str a
  else if d =? 100 then
    let v := s32 (arg_val a) in if v <? 0 then cons 45 <$> to_digits 16 10 (- v) else to_digits 16 10 v
  else if d =? 117 then to_digits 16 10 (u32 (arg_val a))
  else if d =? 120 then to_digits 16 16 (u32 (arg_val a))
  else if d =? 112 then app (text "0x") <$> to_digits 16 16 (u32 (arg_val a))
  else Some [u8 (arg_val a)].

Definition is_conv (d : Z) : bool :=
  (d =? 115) || (d =? 100) || (d =? 117) || (d =? 120) || (d =? 112) || (d =? 99).

Fixpoint printed (fmt : list Z) (args : list arg) : option (list Z) :=
  match fmt with
  | [] => Some []
  | c :: f =>
      if negb (c =? 37) then cons c <$> printed f args
      else
        match f with
        | [] => Some [37]
        | d :: f' =>
            if d =? 37 then cons 37 <$> printed f' args
            else if is_conv d then
              match args with [] => None | a :: r => t ← conv_text d a; app t <$> printed f' r end
            else cons 37 <$> printed f args
        end
  end.

Lemma put_all_app a b s : put_all (a ++ b) s = put_all b (put_all a s).
Proof. unfold put_all. apply fold_left_app. Qed.

Lemma put_number_text base v s : base = 10 \/ base = 16 -> 0 <= v < 4294967296 ->
  exists l, to_digits 16 base v = Some l /\ put_number base 0 v ∅ s = Some (put_all l s).
Proof.
  intros Hb Hv. assert (10 ^ 16 <= base ^ 16) by (apply Z.pow_le_mono_l; lia).
  destruct (to_digits_spec base 16 v ltac:(lia) ltac:(lia) ltac:(simpl in *; lia)) as (l & E & _ & Hl & Hf).
  exists l. split; [exact E|]. unfold put_number, titoa. rewrite E. apply vga_puts_all; [apply stored_cstr, Hf|lia].
Qed.

Lemma put_dec_text v s : 0 <= v < 4294967296 -> put_dec v s = (fun t => put_all t s) <$> to_digits 16 10 v.
Proof. intros Hv. destruct (put_number_text 10 v s (or_introl eq_refl) Hv) as (l & E & Ep). unfold put_dec, vga_put_dec. rewrite Ep, E. reflexivity. Qed.
Lemma put_hex_text v s : 0 <= v < 4294967296 -> put_hex v s = (fun t => put_all t s) <$> to_digits 16 16 v.
Proof. intros Hv. destruct (put_number_text 16 v s (or_intror eq_refl) Hv) as (l & E & Ep). unfold put_hex, vga_put_hex. rewrite Ep, E. reflexivity. Qed.

Lemma put_int_text v s :
  (if s32 v <? 0 then put_dec (u32 (0 - u32 (s32 v))) (vga_putchar 45 s) else put_dec (u32 (s32 v)) s) =
  (fun t => put_all t s) <$> (if s32 v <? 0 then cons 45 <$> to_digits 16 10 (- s32 v) else to_digits 16 10 (s32 v)).
Proof.
  pose proof (s32_range v) as Hr. destruct (Z.ltb_spec (s32 v) 0).
  - assert (u32 (0 - u32 (s32 v)) = - s32 v) as -> by (unfold u32; zlia).
    rewrite put_dec_text by lia. destruct (to_digits 16 10 (- s32 v)); reflexivity.
  - rewrite u32_small by lia. apply put_dec_text. lia.
Qed.

(** [tprintf] prints the text of its format, whatever is on the screen. *)
Lemma tprintf_text n : forall fmt args s, (length fmt <= n)%nat ->
  tprintf fmt args s = (fun t => put_all t s) <$> printed fmt args.
Proof.
  induction n as [|n IH]; intros fmt args s Hn; (destruct fmt as [|c f]; [reflexivity|]); [simpl in Hn; lia|].
  cbn [length] in Hn.
  assert (forall f' r t, (length f' < S n)%nat ->
    tprintf f' r (put_all t s) = (fun t => put_all t s) <$> (app t <$> printed f' r)) as Hrec.
  { intros f' r t Hl. rewrite IH by lia. destruct (printed f' r) as [u|]; cbn; [rewrite put_all_app|]; reflexivity. }
  cbn [tprintf printed]. destruct (negb (c =? 37)); [exact (Hrec f args [c] ltac:(lia))|].
  destruct f as [|d f']; [reflexivity|]. cbn [length] in Hn. unfold is_conv, conv_text.
  destruct (d =? 37); [exact (Hrec f' args [37] ltac:(lia))|].
  destruct (d =? 115); [destruct args as [|a r]; [reflexivity|]; cbn; destruct (arg_str a); [exact (Hrec f' r _ ltac:(lia))|reflexivity]|].
  destruct (d =? 100).
  { destruct args as [|a r]; [reflexivity|]. cbv zeta. rewrite put_int_text. cbn [orb].
    destruct (if s32 (arg_val a) <? 0 then _ else _); cbn; [apply Hrec; lia|reflexivity]. }
  destruct (d =? 117); [destruct args as [|a r]; [reflexivity|]; rewrite put_dec_text by apply u32_range; cbn; destruct (to_digits 16 10 _); [exact (Hrec f' r _ ltac:(lia))|reflexivity]|].
  destruct (d =? 120); [destruct args as [|a r]; [reflexivity|]; rewrite put_hex_text by apply u32_range; cbn; destruct (to_digits 16 16 _); [exact (Hrec f' r _ ltac:(lia))|reflexivity]|].
  destruct (d =? 112).
  { destruct args as [|a r]; [reflexivity|]. rewrite put_hex_text by apply u32_range. cbn [orb].
    destruct (to_digits 16 16 _) as [l|]; [|reflexivity]. cbn -[text put_all].
    rewrite <- put_all_app. exact (Hrec f' r _ ltac:(lia)). }
  destruct (d =? 99); [destruct args as [|a r]; [reflexivity|]; exact (Hrec f' r [u8 (arg_val a)] ltac:(lia))|].
  exact (Hrec (d :: f') args [37] ltac:(cbn; lia)).
Qed.

Lemma tprintf_prints fmt args s : tprintf fmt args s = (fun t => put_all t s) <$> printed fmt args.
Proof. exact (tprintf_text _ fmt args s (le_n _)). Qed.

(** * The kernel that the commands see

    Each component that allocates has its own allocator state, as in its own
    file.  The data of the kernel image, string literals and the shell's
    tables included, is the memory of [k_sh]. *)

Record kernel (M H F B : Type) := mk_kernel {
  k_sys : sys M H;
  k_sh : tsh;
  k_fs : tfs F;
  k_heap : heap B;
  k_efer : Z; k_cr0 : Z;
  k_kaslr : Z;
  k_guard : Z
}.
Arguments mk_kernel {M H F B}. Arguments k_sys {M H F B}. Arguments k_sh {M H F B}. Arguments k_fs {M H F B}.
Arguments k_heap {M H F B}. Arguments k_efer {M H F B}. Arguments k_cr0 {M H F B}.
Arguments k_kaslr {M H F B}. Arguments k_guard {M H F B}.

Section state.
Context {M H F B : Type}.
Implicit Types k : kernel M H F B.

Definition set_sys (y : sys M H) k : kernel M H F B :=
  mk_kernel y (k_sh k) (k_fs k) (k_heap k) (k_efer k) (k_cr0 k) (k_kaslr k) (k_guard k).
Definition set_sh (s : tsh) k : kernel M H F B :=
  mk_kernel (k_sys k) s (k_fs k) (k_heap k) (k_efer k) (k_cr0 k) (k_kaslr k) (k_guard k).
Definition set_fs (f : tfs F) k : kernel M H F B :=
  mk_kernel (k_sys k) (k_sh k) f (k_heap k) (k_efer k) (k_cr0 k) (k_kaslr k) (k_guard k).
Definition set_heap (h : heap B) k : kernel M H F B :=
  mk_kernel (k_sys k) (k_sh k) (k_fs k) h (k_efer k) (k_cr0 k) (k_kaslr k) (k_guard k).

Definition k_mach k : machine M := y_mach (k_sys k).
Definition k_vga k : vga := m_vga (k_mach k).
Definition k_sched k : sched M := m_sched (k_mach k).
Definition k_vmm k : vmm H := mmu (k_sys k).
Definition k_frames k : pmm := frames (vm (k_vmm k)).

Definition set_mach k (m : machine M) : kernel M H F B := set_sys (Tsys.set_mach m (k_sys k)) k.
Definition set_vga (v : vga) k : kernel M H F B := set_mach k (with_vga v (k_mach k)).
Definition set_sched (s : sched M) k : kernel M H F B := set_mach k (with_sched s (k_mach k)).
Definition set_vmm (v : vmm H) k : kernel M H F B :=
  let y := k_sys k in set_sys (mk_sys (y_mach y) v (y_mem y) (tipc_table y) (y_if y) (y_cr4 y)) k.
Definition set_frames (p : pmm) k : kernel M H F B :=
  set_vmm (with_vm (mk_vmem (Tvmm.words (vm (k_vmm k))) p) (k_vmm k)) k.
End state.

(** ** The monad *)

(** Why a command does not return: the processor is halted or reset, an
    integer is used as a pointer, an exception, a loop without end, or it hands
    the processor to other tasks in the middle. *)
Inductive stop := Halted | Reset | Wild | Exception (n : Z) | Spins | Yields.

Definition cmd (K A : Type) : Type := K -> (A + stop) * K.

#[global] Instance cmd_ret K : MRet (cmd K) := fun A x k => (inl x, k).
#[global] Instance cmd_bind K : MBind (cmd K) := fun A B f m k =>
  match m k with (inl x, k') => f x k' | (inr e, k') => (inr e, k') end.

Section monad.
Context {K : Type}.
Definition get : cmd K K := fun k => (inl k, k).
Definition modify (f : K -> K) : cmd K unit := fun k => (inl tt, f k).
Definition fail {A} (e : stop) : cmd K A := fun k => (inr e, k).
Definition lift {A} (e : stop) (x : option A) : cmd K A := match x with Some a => mret a | None => fail e end.
Definition skip : cmd K unit := mret tt.

Fixpoint for_each {A} (l : list A) (f : A -> cmd K unit) : cmd K unit :=
  match l with [] => skip | x :: l' => f x ;; for_each l' f end.
End monad.

(** The C string at [p]. *)
Fixpoint read_string (m : bytes) (fuel : nat) (p : Z) : option (list Z) :=
  if rd m p =? 0 then Some []
  else match fuel with O => None | S f => cons (rd m p) <$> read_string m f (p + 1) end.

Lemma read_string_spec m t : forall fuel p, cstr m p t -> (length t <= fuel)%nat -> read_string m fuel p = Some t.
Proof.
  induction t as [|c t IH]; intros fuel p Ht Hf; cbn [cstr length] in *.
  - destruct fuel; cbn [read_string]; rewrite Ht; reflexivity.
  - destruct Ht as (Hc & Hp & Ht). destruct fuel as [|fuel]; [lia|]. cbn [read_string]. rewrite Hp.
    replace (c =? 0) with false by lia. rewrite (IH fuel (p + 1) Ht) by lia. reflexivity.
Qed.

(** * Commands *)

(** Addresses of the image: the shell's tables, the tokenizer's local buffer,
    the root node, the task table, string literals, generators, the demo
    tasks, the entry trampolines, the linker's symbols, the boot stack; [a_buf]
    is the 256-byte local of [cmd_cat]. *)
Record addrs := mk_addrs {
  a_env_keys : Z; a_env_vals : Z; a_hist_entries : Z; a_arg_buf : Z; a_keybuf : Z;
  a_root : Z;
  a_tasks : Z;
  a_buf : Z;
  a_lit : list Z -> Z;
  a_gen : Z -> option gen_fn;
  a_demo_counter : Z; a_ipc_writer : Z; a_ipc_reader : Z; a_mutex_worker : Z;
  a_entry : Z; a_entry_iret : Z;
  a_virtual_start : Z; a_phys_start : Z; a_phys_end : Z;
  a_boot_stack_top : Z
}.

Section commands.
Context {M H F B : Type} {TM : TaskMem M} {SH : SmallHeap H} {SF : SmallHeap F} {HB : HeapBackend B} (A : addrs).
Abbreviation K := (kernel M H F B).
Abbreviation lit := (a_lit A).
Abbreviation root := (a_root A).
Abbreviation buf := (a_buf A).

(** [tprintf] on the console of the kernel. *)
Definition say (fmt : list Z) (args : list arg) : cmd K unit :=
  k ← get;
  v ← lift Wild (tprintf fmt args (k_vga k));
  modify (set_vga v).

(** A string literal as an argument, and the string at a pointer. *)
Definition str (s : String.string) : arg := Ptr (lit (text s)) (text s).
Definition nl (s : String.string) : list Z := text s ++ [10].

Definition string_at (p : Z) : cmd K (list Z) := k ← get; lift Wild (read_string (tmem (k_sh k)) 4096 p).
Definition ptr (p : Z) : cmd K arg := if p =? 0 then mret (Num 0) else s ← string_at p; mret (Ptr p s).

Definition argc (argv : list Z) : Z := Z.of_nat (length argv).
Definition arg_n (argv : list Z) (i : nat) : Z := nth i argv 0.

(** ** History and environment *)

Definition cmd_hist (argv : list Z) : cmd K unit :=
  k ← get;
  if tsh_hist_count (k_sh k) =? 0 then say (nl " (empty)") []
  else for_each (seqZ 0 (tsh_hist_count (k_sh k))) (fun i =>
         e ← ptr (tsh_hist_get (a_hist_entries A) i (k_sh k));
         say (nl " %2d  %s") [Num i; e]).

Definition print_env (key val : Z) : cmd K unit :=
  a ← ptr key; b ← ptr val; say (nl " %s=%s") [a; b].

Definition cmd_env (argv : list Z) : cmd K unit :=
  k ← get; for_each (tsh_env_list (a_env_keys A) (a_env_vals A) (k_sh k)) (fun e => print_env e.1 e.2).

Definition cmd_set (argv : list Z) : cmd K unit :=
  if argc argv <? 2 then say (nl " usage: set KEY=VALUE") []
  else
    k ← get;
    eq ← lift Wild (tstrchr (tmem (k_sh k)) 4096 (arg_n argv 1) 61);
    match eq with
    | None => say (nl " set: expected KEY=VALUE") []
    | Some p =>
        let sh := with_tmem (<[p := 0]> (tmem (k_sh k))) (k_sh k) in
        r ← lift Wild (tsh_env_set (a_env_keys A) (a_env_vals A) 4096 (arg_n argv 1) (p + 1) sh);
        modify (set_sh r.2) ;;
        if negb (r.1 =? 0) then say (nl " set: environment table full") [] else skip
    end.

Definition cmd_whoami (argv : list Z) : cmd K unit :=
  k ← get;
  user ← lift Wild (tsh_env_get (a_env_keys A) (a_env_vals A) 4096 (lit (text "USER")) (k_sh k));
  u ← (if user =? 0 then mret (str "root") else ptr user);
  say (nl " %s") [u].

(** ** Files *)

Definition node_at (n : Z) : cmd K tfs_node_t := k ← get; mret (node (nodes (k_fs k)) n).

Definition print_node (n : Z) : cmd K unit :=
  d ← node_at n;
  say (nl " %s %u  %s%s")
    [if n_type d =? TFS_DIR then str "drw-" else str "-rw-"; Num (u32 (n_size d)); Ptr n (n_name d);
     if n_type d =? TFS_DIR then str "/" else str ""].

Definition lookup (path : list Z) : cmd K Z := k ← get; lift Spins (tfs_lookup root path (k_fs k)).

Definition cmd_ls (argv : list Z) : cmd K unit :=
  p ← (if argc argv >? 1 then string_at (arg_n argv 1) else mret (text "/"));
  let path := Ptr (if argc argv >? 1 then arg_n argv 1 else lit (text "/")) p in
  n ← lookup p;
  if n =? 0 then say (nl " ls: '%s': not found") [path]
  else
    d ← node_at n;
    if n_type d =? TFS_DIR then k ← get; l ← lift Spins (tfs_list n (k_fs k)); for_each l print_node
    else print_node n.

(** What the generators read. *)
Definition stats_of (k : K) : kstats B :=
  mk_kstats (timer_ticks (k_mach k)) (k_frames k) (k_heap k) (a_virtual_start A) (a_phys_start A) (a_phys_end A).

(** The bytes of memory from [p] on, to the console. *)
Definition put_bytes (p n : Z) : cmd K unit :=
  modify (fun k => set_vga (put_all (map (fun i => rd (tmem (k_sh k)) (p + i)) (seqZ 0 n)) (k_vga k)) k).

Definition cmd_cat (argv : list Z) : cmd K unit :=
  if argc argv <? 2 then say (nl " usage: cat <path>") []
  else
    p ← string_at (arg_n argv 1);
    let path := Ptr (arg_n argv 1) p in
    n ← lookup p;
    if n =? 0 then say (nl " cat: '%s': not found") [path]
    else
      d ← node_at n;
      if n_type d =? TFS_DIR then say (nl " cat: '%s' is a directory") [path]
      else if negb (n_gen d =? 0) then
        g ← lift Wild (a_gen A (n_gen d));
        k ← get;
        r ← lift Spins (run_gen (stats_of k) lit 4096 g d buf 256 (tmem (k_sh k)));
        modify (fun k => set_sh (with_tmem r.2 (k_sh k)) (set_fs (with_nodes (<[n := r.1]> (nodes (k_fs k))) (k_fs k)) k)) ;;
        put_bytes buf (u32 (n_size r.1))
      else
        match n_data d with
        | Some (_, data) => modify (fun k => set_vga (put_all (take (Z.to_nat (u32 (n_size d))) data) (k_vga k)) k)
        | None => skip
        end.

Definition cmd_mkdir (argv : list Z) : cmd K unit :=
  if argc argv <? 2 then say (nl " usage: mkdir <path>") []
  else
    p ← string_at (arg_n argv 1);
    let path := Ptr (arg_n argv 1) p in
    k ← get;
    r ← lift Spins (tfs_mkdir root p (k_fs k));
    modify (set_fs r.2) ;;
    say (if negb (r.1 =? 0) then nl " ok" else nl " mkdir: '%s': failed or exists") [path].

Definition cmd_touch (argv : list Z) : cmd K unit :=
  if argc argv <? 2 then say (nl " usage: touch <path>") []
  else
    p ← string_at (arg_n argv 1);
    let path := Ptr (arg_n argv 1) p in
    k ← get;
    r ← lift Spins (tfs_touch root p (k_fs k));
    modify (set_fs r.2) ;;
    say (if negb (r.1 =? 0) then nl " ok" else nl " touch: '%s': failed or exists") [path].

Definition cmd_rm (argv : list Z) : cmd K unit :=
  if argc argv <? 2 then say (nl " usage: rm <path>") []
  else
    p ← string_at (arg_n argv 1);
    let path := Ptr (arg_n argv 1) p in
    n ← lookup p;
    if n =? 0 then say (nl " rm: '%s': failed") [path]
    else
      k ← get;
      r ← lift Spins (tfs_rm root n (k_fs k));
      modify (set_fs r.2) ;;
      if negb (r.1 =? 0) then say (nl " rm: '%s': failed") [path] else say (nl " ok") [].

(** The loop that joins the words with spaces in [text[128]]. *)
Fixpoint join_args (first : bool) (ps : list Z) (acc : list Z) : cmd K (list Z) :=
  match ps with
  | [] => mret acc
  | p :: ps' =>
      if (length acc <? 127)%nat then
        let acc1 := if first then acc else acc ++ [32] in
        w ← string_at p;
        join_args false ps' (acc1 ++ take (127 - length acc1) w)
      else mret acc
  end.

Definition cmd_write (argv : list Z) : cmd K unit :=
  if argc argv <? 3 then say (nl " usage: write <path> <text>") []
  else
    p ← string_at (arg_n argv 1);
    let path := Ptr (arg_n argv 1) p in
    n ← lookup p;
    if n =? 0 then say (nl " write: '%s': not found") [path]
    else
      t ← join_args true (drop 2 argv) [];
      k ← get;
      let '(r, f) := tfs_write n t (k_fs k) in
      modify (set_fs f) ;;
      if r =? 0 then say (nl " ok (%u bytes)") [Num (u32 (len t))]
      else say (nl " write: '%s' is not writable") [path].

Definition print_mount (name : list Z) (n : Z) : cmd K unit :=
  d ← node_at n; say (nl "  %s  ->  %s") [Ptr (lit name) name; Ptr n (n_name d)].

Definition cmd_mount (argv : list Z) : cmd K unit :=
  k ← get; for_each (tfs_mount_list (k_fs k)) (fun e => print_mount e.1 e.2).

(** ** The task table *)

Definition state_name (t : ttask_t) : String.string :=
  match t_state t with
  | TTASK_READY => "ready" | TTASK_RUNNING => "run" | TTASK_EXITED => "done" | TTASK_BLOCKED => "block" | _ => "?"
  end%string.

(** [t->name] of the task with index [i]. *)
Definition name_arg (i : Z) (t : ttask_t) : arg := Ptr (a_tasks A + 104 * i + 8) (t_name t).

(** The loops over the slots that hold a task, [exited] ones or not. *)
Definition live_slots (exited : bool) (k : K) : list (Z * ttask_t) :=
  omap (fun i => t ← ttask_at (k_sched k) i;
          if state_is (t_state t) TTASK_FREE || (negb exited && state_is (t_state t) TTASK_EXITED) then None
          else Some (i, t)) (seqZ 0 TTASK_MAX_TASKS).

Definition cmd_tasks (argv : list Z) : cmd K unit :=
  say (nl " id  name      state    prio  slice  ticks") [] ;;
  k ← get;
  for_each (live_slots true k) (fun '(i, t) =>
    say (nl " %-3d %-9s %-8s %-5u %-6u %-6u%s%s")
      [Num i; name_arg i t; str (state_name t); Num (t_priority t); Num (t_slice t); Num (t_ticks t);
       if bool_decide (current_task (k_sched k) = Some i) then str "  <=" else str "";
       if t_user_mode t then str "  user" else str ""]).

(** The decimal digits at [p], as an [int]. *)
Fixpoint digits_at (m : bytes) (fuel : nat) (p v : Z) : option Z :=
  let c := s8 (rd m p) in
  if (c >=? 48) && (c <=? 57) then
    match fuel with O => None | S f => digits_at m f (p + 1) (s32 (v * 10 + (c - 48))) end
  else Some v.
Definition number_at (p : Z) : cmd K Z := k ← get; lift Wild (digits_at (tmem (k_sh k)) 4096 p 0).

Definition cmd_priority (argv : list Z) : cmd K unit :=
  if argc argv <? 2 then
    say (nl " usage: priority <id> [0-7]") [] ;;
    say (nl " priority levels: 0=idle, 1=normal, 2=interactive, 3-7=urgent") [] ;;
    say (nl " current priorities:") [] ;;
    k ← get;
    for_each (live_slots false k) (fun '(i, t) =>
      say (nl "   %-3d %-9s prio=%u slice=%u") [Num i; name_arg i t; Num (t_priority t); Num (t_slice t)])
  else
    id ← number_at (arg_n argv 1);
    k ← get;
    match ttask_at (k_sched k) id with
    | None => say (nl " invalid task id") []
    | Some t =>
        if state_is (t_state t) TTASK_FREE || state_is (t_state t) TTASK_EXITED then say (nl " invalid task id") []
        else if argc argv <? 3 then
          say (nl " task %d: prio=%u slice=%u ticks=%u")
            [Num id; Num (ttask_get_priority (u32 id) (k_sched k)); Num (t_slice t); Num (t_ticks t)]
        else
          prio ← number_at (arg_n argv 2);
          if (prio <? 0) || (prio >? 7) then say (nl " priority must be 0-7") []
          else
            modify (fun k => set_sched (ttask_set_priority (u32 id) (u8 prio) (k_sched k)) k) ;;
            k ← get;
            say (nl " task %d priority set to %u (slice=%u)")
              [Num id; Num prio; Num (t_slice (task_at (k_sched k) id))]
    end.

Definition stats (k : K) : ttask_stats_t := ttask_get_stats (timer_ticks (k_mach k)) (k_sched k).

Definition percent (n total : Z) : Z := if total >? 0 then u32 (n * 100) / total else 0.

Definition cmd_perf (argv : list Z) : cmd K unit :=
  k0 ← get;
  let st := stats k0 in
  say (nl " id  name      prio  ticks  switches  blocked  wakes  util") [] ;;
  k ← get;
  for_each (live_slots false k) (fun '(i, t) =>
    say (nl " %-3d %-9s %-5u %-6u %-9u %-8u %-6u %u%%")
      [Num i; name_arg i t; Num (t_priority t); Num (t_ticks t); Num (t_switches t); Num (t_blocked_count t);
       Num (t_wake_count t); Num (percent (t_ticks t) (st_total_ticks st))]).

Definition cmd_sched (argv : list Z) : cmd K unit :=
  k ← get;
  let st := stats k in
  let alive := ttask_count (k_sched k) in
  let ready := for_range (fun i n => if state_is (state_of (k_sched k) i) TTASK_READY then n + 1 else n) 0 TTASK_MAX_TASKS 0 in
  let idle := t_ticks (task_at (k_sched k) 0) in
  say (nl " scheduler stats:") [] ;;
  say (nl "   uptime       : %us (%u ticks @ %u Hz)")
    [Num (st_total_ticks st / 100); Num (st_total_ticks st); Num (timer_hz (k_mach k))] ;;
  say (nl "   tasks        : %d alive, %d ready") [Num alive; Num ready] ;;
  say (nl "   switches     : %u") [Num (st_total_switches st)] ;;
  say (nl "   blocks       : %u") [Num (st_total_blocks st)] ;;
  say (nl "   wakes        : %u") [Num (st_total_wakes st)] ;;
  say (nl "   idle util    : %u%%") [Num (percent idle (st_total_ticks st))] ;;
  say (nl "   kernel util  : %u%%") [Num (percent (u32 (st_total_ticks st - idle)) (st_total_ticks st))].

(** The address space that goes with the slot a creation reuses. *)
Definition reused_space (s : sched M) : Z :=
  match find_slot s with
  | Some i =>
      let t := task_at s i in
      if scheduler_ready s && state_is (t_state t) TTASK_EXITED && t_user_mode t then t_aspace t else 0
  | None => 0
  end.

(** [ttask_create] or [ttask_create_user]: the scheduler, and the page tables
    of the space that is destroyed with a reused slot. *)
Definition create_task (create : sched M -> option Z * sched M) : cmd K (option Z) :=
  k ← get;
  let '(t, s) := create (k_sched k) in
  modify (fun k => set_vmm (vmm_aspace_destroy (reused_space (k_sched k)) (k_vmm k)) k) ;;
  modify (set_sched s) ;;
  mret t.

Definition cmd_spawn (argv : list Z) : cmd K unit :=
  if argc argv <? 2 then say (nl " usage: spawn <name>") []
  else
    name ← string_at (arg_n argv 1);
    t ← create_task (ttask_create (a_entry A) (a_entry_iret A) name (a_demo_counter A) 0);
    say (nl " %s: %s") [Ptr (arg_n argv 1) name; match t with Some _ => str "spawned" | None => str "FAILED (table full)" end].

(** The loop of [cmd_burst] from task [i] on: how many were created. *)
Fixpoint burst_loop (n : nat) (i made : Z) : cmd K Z :=
  match n with
  | O => mret made
  | S n' =>
      name ← lift Wild (render (fun _ => None) (text "d%u") [i]);
      t ← create_task (ttask_create (a_entry A) (a_entry_iret A) (take 15 name) (a_demo_counter A) 0);
      burst_loop n' (i + 1) (match t with Some _ => made + 1 | None => made end)
  end.

Fixpoint udigits_at (m : bytes) (fuel : nat) (p v : Z) : option Z :=
  let c := s8 (rd m p) in
  if (c >=? 48) && (c <=? 57) then
    match fuel with O => None | S f => udigits_at m f (p + 1) (u32 (u32 (v * 10) + (c - 48))) end
  else Some v.

Definition cmd_burst (argv : list Z) : cmd K unit :=
  k ← get;
  n ← (if argc argv >? 1 then lift Wild (udigits_at (tmem (k_sh k)) 4096 (arg_n argv 1) 0) else mret 4);
  let n := if n >? 16 then 16 else n in
  made ← burst_loop (Z.to_nat n) 0 0;
  say (nl " spawned %d task%s") [Num made; if made =? 1 then str "" else str "s"].

(** When another task runs, the rest waits until this one is picked again. *)
Definition cmd_yield (argv : list Z) : cmd K unit :=
  say (nl " yielding...") [] ;;
  k ← get;
  let self := cur (k_sched k) in
  modify (fun k => set_mach k (run_sched (ttask_yield (a_boot_stack_top A)) (k_mach k))) ;;
  k ← get;
  if cur (k_sched k) =? self then say (nl " back in shell") [] else fail Yields.

(** ** Memory *)

Definition show_frame (i frame : Z) : cmd K unit :=
  if negb (frame =? 0) then say (nl "   frame %d @ 0x%x") [Num i; Num (u32 frame)]
  else say (nl "   frame %d: FAILED") [Num i].

(** The allocation loop from page [i] on: the addresses, in order. *)
Fixpoint alloc_loop (n : nat) (i : Z) : cmd K (list Z) :=
  match n with
  | O => mret []
  | S n' =>
      k ← get;
      let '(f, p) := tpmm_alloc (k_frames k) in
      modify (set_frames p) ;;
      show_frame i f ;;
      l ← alloc_loop n' (i + 1);
      mret (f :: l)
  end.

Definition free_frame (f : Z) : cmd K unit := modify (fun k => set_frames (tpmm_free f (k_frames k)) k).

Definition cmd_alloc (argv : list Z) : cmd K unit :=
  say (nl " allocating 8 frames:") [] ;;
  pages ← alloc_loop 8 0;
  for_each pages (fun f => if negb (f =? 0) then free_frame f else skip) ;;
  k ← get;
  say (nl " freed them again (%u frames free)") [Num (tpmm_free_frames (k_frames k))].

(** A 32-bit store and load through the page tables; a page fault is exception
    14. *)
Definition store32 (va v : Z) : cmd K unit :=
  k ← get;
  match copy_to va (le_bytes 4 v) (k_sys k) with
  | Some y => modify (set_sys y)
  | None => fail (Exception 14)
  end.

Definition load32 (va : Z) : cmd K Z :=
  k ← get; l ← lift (Exception 14) (copy_from 4 va (k_sys k)); mret (le_val l).

Definition cmd_paging (argv : list Z) : cmd K unit :=
  k ← get;
  let '(frame, p) := tpmm_alloc (k_frames k) in
  modify (set_frames p) ;;
  if frame =? 0 then say (nl " out of memory") []
  else
    let virt := 0xFFFF800000000000 in
    say (nl " frame @ 0x%x, mapping at 0xffff800000000000") [Num (u32 frame)] ;;
    k ← get;
    let '(r, v) := vmm_map_page virt frame (Z.lor VMM_PAGE_WRITE VMM_PAGE_NX) (k_vmm k) in
    modify (set_vmm v) ;;
    if negb (r =? 0) then say (nl " map failed") [] ;; free_frame frame
    else
      store32 virt 0x54524149 ;;
      x ← load32 virt;
      say (nl " wrote 0x54524149, read back 0x%x") [Num x] ;;
      modify (fun k => set_vmm (vmm_unmap_page virt (k_vmm k)) k) ;;
      free_frame frame ;;
      say (nl " unmapped and freed") [].

Definition kib (x : Z) : Z := u32 (Z.shiftr x 10).
Definition mib (x : Z) : Z := u32 (Z.shiftr x 20).

(** [tmalloc] and [tfree] on the kernel's heap. *)
Definition malloc (n : Z) : cmd K Z :=
  k ← get; r ← lift Spins (tmalloc 65536 n (k_heap k)); modify (set_heap r.2) ;; mret r.1.
Definition free (p : Z) : cmd K unit := modify (fun k => set_heap (tfree p (k_heap k)) k).

Definition cmd_heap (argv : list Z) : cmd K unit :=
  k ← get;
  say (nl " heap: %u KiB mapped, %u KiB used, %u blocks")
    [Num (kib (tmalloc_total (k_heap k))); Num (kib (tmalloc_used (k_heap k))); Num (tmalloc_blocks (k_heap k))] ;;
  a ← malloc 64;
  b ← malloc 1024;
  c ← malloc 48;
  say (nl " tmalloc(64)=%p tmalloc(1024)=%p tmalloc(48)=%p") [Num a; Num b; Num c] ;;
  k ← get;
  say (nl " used: %u KiB, %u blocks") [Num (kib (tmalloc_used (k_heap k))); Num (tmalloc_blocks (k_heap k))] ;;
  free b ;; free a ;; free c ;;
  k ← get;
  say (nl " after free: %u KiB used, %u blocks") [Num (kib (tmalloc_used (k_heap k))); Num (tmalloc_blocks (k_heap k))].

Definition aspace_create : cmd K Z :=
  k ← get; let '(a, v) := vmm_aspace_create (k_vmm k) in modify (set_vmm v) ;; mret a.
Definition aspace_destroy (a : Z) : cmd K unit := modify (fun k => set_vmm (vmm_aspace_destroy a (k_vmm k)) k).
Definition aspace_map (a virt phys flags : Z) : cmd K Z :=
  k ← get; let '(r, v) := vmm_aspace_map a virt phys flags (k_vmm k) in modify (set_vmm v) ;; mret r.
Definition aspace_switch (a : Z) : cmd K unit :=
  modify (fun k => set_vmm (vmm_aspace_switch a (k_vmm k)) (set_sched (with_aspace a (k_sched k)) k)).
Definition alloc_frame : cmd K Z :=
  k ← get; let '(f, p) := tpmm_alloc (k_frames k) in modify (set_frames p) ;; mret f.

Definition cmd_aspace (argv : list Z) : cmd K unit :=
  let addr := 0x0000008000000000 in
  let flags := Z.lor (Z.lor VMM_PAGE_WRITE VMM_PAGE_USER) VMM_PAGE_NX in
  k ← get;
  let kernel := current (k_vmm k) in
  a ← aspace_create;
  b ← aspace_create;
  if (a =? 0) || (b =? 0) then say (nl " out of memory") []
  else
    pa ← alloc_frame;
    pb ← alloc_frame;
    if (pa =? 0) || (pb =? 0) then
      say (nl " out of frames") [] ;;
      (if negb (pa =? 0) then free_frame pa else skip) ;;
      (if negb (pb =? 0) then free_frame pb else skip) ;;
      aspace_destroy a ;;
      aspace_destroy b
    else
      _ ← aspace_map a addr pa flags;
      _ ← aspace_map b addr pb flags;
      say (nl " 2 address spaces, same virtual page mapped in both") [] ;;
      aspace_switch a ;;
      store32 addr 0x11111111 ;;
      x ← load32 addr;
      say (nl "  in space A: wrote 0x11111111, read back 0x%x") [Num x] ;;
      aspace_switch b ;;
      store32 addr 0x22222222 ;;
      x ← load32 addr;
      say (nl "  in space B: wrote 0x22222222, read back 0x%x") [Num x] ;;
      aspace_switch a ;;
      x ← load32 addr;
      say (nl "  in space A: still 0x%x (per-process isolation works)") [Num x] ;;
      aspace_switch kernel ;;
      modify (fun k => set_vmm (vmm_aspace_unmap a addr (k_vmm k)) k) ;;
      modify (fun k => set_vmm (vmm_aspace_unmap b addr (k_vmm k)) k) ;;
      free_frame pa ;;
      free_frame pb ;;
      aspace_destroy a ;;
      aspace_destroy b ;;
      say (nl " spaces torn down, frames returned") [].

(** ** Hardening *)

(** The state that [src/tsec.c] reads. *)
Definition sec_of (k : K) : sec :=
  mk_sec (vm (k_vmm k)) (cr3 (k_vmm k)) (k_kaslr k) (k_guard k) (k_efer k) (y_cr4 (k_sys k)) (y_mem (k_sys k)).

(** [sec_scrub_ram()]: the count, and the cleared memory. *)
Definition scrub : cmd K Z :=
  k ← get;
  let '(n, s) := sec_scrub_ram (sec_of k) in
  modify (set_sys (Tsys.set_mem (ram s) (k_sys k))) ;; mret n.

Definition cmd_scrub (argv : list Z) : cmd K unit :=
  n ← scrub; say (nl " zeroed %u free frames (%u KiB)") [Num n; Num (n / 4)].

Definition cmd_halt (argv : list Z) : cmd K unit :=
  n ← scrub;
  say (nl " scrubbing %u free frames...") [Num n] ;;
  say (nl " halting") [] ;;
  fail Halted.

Definition cmd_reboot (argv : list Z) : cmd K unit :=
  n ← scrub;
  say (nl " scrubbing %u free frames...") [Num n] ;;
  say (nl " rebooting...") [] ;;
  modify (fun k => set_mach k (port_out 0x64 0xFE (k_mach k))) ;;
  fail Reset.

Definition flag (x bit : Z) (s : String.string) : arg := if has x (Z.shiftl 1 bit) then str s else str "".
Definition yesno (x : Z) (a b : String.string) : arg := if negb (x =? 0) then str a else str b.

Definition cmd_sec (argv : list Z) : cmd K unit :=
  k ← get;
  let s := sec_of k in
  let efer := sec_read_efer s in
  let cr4 := sec_read_cr4 s in
  say (nl " EFER   : 0x%lx%s%s%s") [Num efer; flag efer 11 " NXE"; flag efer 8 " LME"; flag efer 9 " LMA"] ;;
  say (nl " CR4    : 0x%lx%s%s%s") [Num cr4; flag cr4 5 " PAE"; flag cr4 20 " SMEP"; flag cr4 21 " SMAP"] ;;
  say (nl " CR0    : 0x%lx%s%s") [Num (k_cr0 k); flag (k_cr0 k) 0 " PE"; flag (k_cr0 k) 31 " PG"] ;;
  let base := sec_kernel_phys_base s in
  say (nl " kaslr  : %s (image @ 0x%lx)") [yesno base "on" "off"; Num (if negb (base =? 0) then base else 0x100000)] ;;
  say (nl " W^X    : %s") [yesno (sec_wx_enforced s) "enforced" "VIOLATED"] ;;
  say (nl " NX     : %s") [yesno (sec_nx_enforced s) "enforced" "VIOLATED"] ;;
  say (nl " stack  : %s") [yesno (sec_stack_guard_enabled s) "guarded" "unguarded"] ;;
  say (nl " heap   : mapped non-executable") [].

(** ** Information *)

Definition cmd_clear (argv : list Z) : cmd K unit := modify (fun k => set_vga (vga_clear (k_vga k)) k).

Definition cmd_uptime (argv : list Z) : cmd K unit :=
  k ← get;
  let t := timer_ticks (k_mach k) in say (nl " uptime: %us (%u ticks)") [Num (t / 100); Num t].

Definition cmd_ver (argv : list Z) : cmd K unit := say (nl " TrigerOS v0.12.0 (x86_64, Multiboot2)") [].

Definition cmd_info (argv : list Z) : cmd K unit :=
  say (nl " arch      : x86_64") [] ;;
  say (nl " boot      : GRUB2 / Multiboot2 (BIOS + UEFI)") [] ;;
  say (nl " storage   : none - runs entirely from RAM") [] ;;
  k ← get;
  let p := k_frames k in
  say (nl " memory    : %u MiB total, %u MiB available (%u KiB)")
    [Num (mib (tpmm_total_mem p)); Num (mib (tpmm_available_mem p)); Num (kib (tpmm_available_mem p) mod 1024)] ;;
  say (nl " frames    : %u free / %u used") [Num (tpmm_free_frames p); Num (tpmm_used_frames p)] ;;
  say (nl " heap      : %u KiB mapped, %u KiB used, %u blocks")
    [Num (kib (tmalloc_total (k_heap k))); Num (kib (tmalloc_used (k_heap k))); Num (tmalloc_blocks (k_heap k))] ;;
  let s := sec_of k in
  let both := Z.lor (Z.shiftl 1 20) (Z.shiftl 1 21) in
  say (nl " sec      : NX %s, W^X %s, SMEP/SMAP %s, kaslr %s")
    [yesno (sec_nx_enforced s) "on" "off"; yesno (sec_wx_enforced s) "on" "off";
     if Z.land (sec_read_cr4 s) both =? both then str "on" else str "off"; yesno (sec_kernel_phys_base s) "on" "off"].

Fixpoint echo_args (first : bool) (ps : list Z) : cmd K unit :=
  match ps with
  | [] => skip
  | p :: ps' =>
      (if first then skip else say (text " ") []) ;;
      a ← ptr p; say (text "%s") [a] ;;
      echo_args false ps'
  end.
Definition cmd_echo (argv : list Z) : cmd K unit := echo_args true (drop 1 argv) ;; say [10] [].

(** [5 / (x - 1)] with [x = 1] is the divide error. *)
Definition cmd_die (argv : list Z) : cmd K unit := say (nl " dividing by zero...") [] ;; fail (Exception 0).

(** ** Programs *)

Definition USER_STACK_BASE : Z := 0x0000008000200000.
Definition USER_STACK_SIZE : Z := 16 * 1024.

(** An embedded program: its name and the bytes between its symbols. *)
Definition user_blob : Type := list Z * list Z.

Definition find_blob (blobs : list user_blob) (name : list Z) : option user_blob :=
  List.find (fun b => bool_decide (b.1 = name)) blobs.

(** The loop that maps the stack: [false] at the first failure. *)
Fixpoint map_stack (n : nat) (a i phys : Z) : cmd K bool :=
  match n with
  | O => mret true
  | S n' =>
      r ← aspace_map a (u64 (USER_STACK_BASE + i * 4096)) (u64 (phys + i * 4096))
            (Z.lor (Z.lor VMM_PAGE_USER VMM_PAGE_WRITE) VMM_PAGE_NX);
      if negb (r =? 0) then mret false else map_stack n' a (i + 1) phys
  end.

(** The segments in place, or the error of [telf_load]; a read outside the
    blob is [Wild]. *)
Definition load_blob (a : Z) (blob : list Z) : cmd K Z :=
  k ← get;
  let '(rc, (v, m)) := telf_load a blob (k_vmm k) (y_mem (k_sys k)) in
  modify (fun k => set_vmm v (set_sys (Tsys.set_mem m (k_sys k)) k)) ;;
  lift Wild rc.

Definition plan_entry_of (blob : list Z) : Z :=
  match telf_parse blob with POk p => plan_entry p | _ => 0 end.

(** From the program to the task: the part that [cmd_run] and [cmd_kush]
    share; the messages are the arguments. *)
Inductive launched := NoSpace | LoadFailed (rc : Z) | NoStack | StackMapFailed | NoSlot | Running (pid : Z).

Definition launch (name : list Z) (b : user_blob) : cmd K launched :=
  a ← aspace_create;
  if a =? 0 then mret NoSpace
  else
    rc ← load_blob a b.2;
    if negb (rc =? TELF_OK) then aspace_destroy a ;; mret (LoadFailed rc)
    else
      k ← get;
      let '(phys, p) := tpmm_alloc_low_contig (USER_STACK_SIZE / 4096) (k_frames k) in
      modify (set_frames p) ;;
      if phys =? 0 then aspace_destroy a ;; mret NoStack
      else
        ok ← map_stack (Z.to_nat (USER_STACK_SIZE / 4096)) a 0 phys;
        if negb ok then aspace_destroy a ;; mret StackMapFailed
        else
          t ← create_task (ttask_create_user (a_entry A) (a_entry_iret A) name (plan_entry_of b.2) a
                             (USER_STACK_BASE + USER_STACK_SIZE));
          match t with
          | None => aspace_destroy a ;; mret NoSlot
          | Some i => mret (Running i)
          end.

Definition cmd_run (blobs : list user_blob) (argv : list Z) : cmd K unit :=
  if argc argv <? 2 then
    say (nl " usage: run <program>") [] ;;
    say (text " programs:") [] ;;
    for_each blobs (fun b => say (text " %s") [Ptr (lit b.1) b.1]) ;;
    say [10] []
  else
    p ← string_at (arg_n argv 1);
    let name := Ptr (arg_n argv 1) p in
    match find_blob blobs p with
    | None => say (nl " unknown program '%s'") [name]
    | Some b =>
        r ← launch p b;
        match r with
        | NoSpace => say (nl " no address space available") []
        | LoadFailed rc => say (nl " '%s': load failed (%d)") [name; Num rc]
        | NoStack => say (nl " '%s': no stack frames") [name]
        | StackMapFailed => say (nl " '%s': stack map failed") [name]
        | NoSlot => say (nl " '%s': no task slot") [name]
        | Running pid => say (nl " '%s' running (pid %d)") [name; Num pid]
        end
    end.

Definition cmd_kush (blobs : list user_blob) (argv : list Z) : cmd K unit :=
  match find_blob blobs (text "kush") with
  | None => say (nl " kush not found in embedded programs") []
  | Some b =>
      r ← launch (text "kush") b;
      match r with
      | NoSpace => say (nl " no address space available") []
      | LoadFailed rc => say (nl " kush: load failed (%d)") [Num rc]
      | NoStack => say (nl " kush: no stack frames") []
      | StackMapFailed => say (nl " kush: stack map failed") []
      | NoSlot => say (nl " kush: no task slot") []
      | Running pid => say (nl " kush running (pid %d)") [Num pid]
      end
  end.
End commands.

(** * Commands as steps *)

Section steps.
Context {M H F B : Type}.
Abbreviation K := (kernel M H F B).

(** A text on the console, and nothing else. *)
Definition shows (t : list Z) (k : K) : K := set_vga (put_all t (k_vga k)) k.

Lemma say_spec fmt args (k : K) :
  say fmt args k = match printed fmt args with Some t => (inl tt, shows t k) | None => (inr Wild, k) end.
Proof.
  unfold say, mbind, cmd_bind, get, lift. rewrite tprintf_prints. destruct (printed fmt args); reflexivity.
Qed.

Lemma say_text fmt args t (k : K) : printed fmt args = Some t -> say fmt args k = (inl tt, shows t k).
Proof. intros E. rewrite say_spec, E. reflexivity. Qed.

(** A text without percent signs is printed as it is. *)
Definition plain_text (l : list Z) : bool := forallb (fun c => negb (c =? 37)) l.

Lemma printed_lit l f args : plain_text l = true -> printed (l ++ f) args = app l <$> printed f args.
Proof.
  induction l as [|c l IH]; cbn [app plain_text forallb]; [intros _; destruct (printed f args); reflexivity|].
  intros E. apply andb_true_iff in E as [Ec E]. cbn [printed]. rewrite Ec, IH by exact E.
  destruct (printed f args); reflexivity.
Qed.

Lemma printed_plain l args : plain_text l = true -> printed l args = Some l.
Proof. intros E. rewrite <- (app_nil_r l), printed_lit by exact E. cbn. rewrite app_nil_r. reflexivity. Qed.

(** A conversion. *)
Lemma printed_conv d f a r t : is_conv d = true -> conv_text d a = Some t ->
  printed (37 :: d :: f) (a :: r) = app t <$> printed f r.
Proof.
  intros Hd E. cbn [printed]. change (negb (37 =? 37)) with false. cbv iota. rewrite Hd, E.
  replace (d =? 37) with false by (unfold is_conv in Hd; lia). reflexivity.
Qed.

Lemma bind_spec {A C} (m : cmd K A) (f : A -> cmd K C) k a k' : m k = (inl a, k') -> (x ← m; f x) k = f a k'.
Proof. intros E. unfold mbind, cmd_bind. rewrite E. reflexivity. Qed.

Lemma string_at_spec (k : K) p t : cstr (tmem (k_sh k)) p t -> (length t <= 4096)%nat -> string_at p k = (inl t, k).
Proof. intros Ht Hl. unfold string_at, mbind, cmd_bind, get, lift. rewrite (read_string_spec _ t) by assumption. reflexivity. Qed.
End steps.

(** * Inverting commands *)

Section inversion.
Context {K : Type}.

Lemma bind_inl {A C} (m : cmd K A) (f : A -> cmd K C) k c k' :
  (x ← m; f x) k = (inl c, k') -> exists a k1, m k = (inl a, k1) /\ f a k1 = (inl c, k').
Proof. unfold mbind, cmd_bind. destruct (m k) as [[a|e] k1]; [eauto|discriminate]. Qed.

Lemma modify_inl (f : K -> K) k u k' : modify f k = (inl u, k') -> k' = f k.
Proof. unfold modify. congruence. Qed.

Lemma get_inl k x k' : (get : cmd K K) k = (inl x, k') -> x = k /\ k' = k.
Proof. unfold get. intros [= <- <-]. auto. Qed.

Lemma mret_inl {A} (a b : A) (k k' : K) : (mret a : cmd K A) k = (inl b, k') -> b = a /\ k' = k.
Proof. intros [= <- <-]. auto. Qed.
End inversion.

(** One step of an inversion. *)
Ltac cmd_step E :=
  lazymatch type of E with
  | (mbind _ _) _ = (inl _, _) => let x := fresh "x" in let k := fresh "k" in let E1 := fresh "E" in
      apply bind_inl in E as (x & k & E1 & E)
  end.

(** Addresses for the concrete kernels of the files below. *)
Definition demo_addrs : addrs :=
  mk_addrs 1000 2000 8000 16000 900 8 40000 500 (fun _ => 600) (fun _ => None) 700 703 704 705 701 702 0 0 0 0.
