(* ===== verification/IpcDemo.v ===== *)
(** The mailbox demonstration of [src/ternel.c]: the tasks [ipc_writer] and
    [ipc_reader] that the command [ipc] starts.

    Each task is a function that performs its next atomic action: a pass of
    the blocking primitive it is in, or the code up to the next call.  The
    demonstration interleaves these with everything else the kernel does
    ([env_step]).  The proof carries the program's own counters in an invariant
    on top of that of the mailbox system of Tipc. *)
From stdpp Require Import prelude gmap list numbers.
From Stdlib Require Import ZArith Lia ZifyBool.
From S2P Require Import Prelude Fifo TipcCore TtaskCore Ttask Tipc.
#[local] Open Scope Z_scope.

(** * The mailbox demonstration *)

Definition IPC_DEMO_MSGS : Z := 100.

(** [struct ipc_demo] without the mailbox, which the system carries. *)
Record ipc_demo := mk_ipc_demo { d_active : Z; d_ok : Z; d_delivered : Z }.

(** Where the writer is: at the head of its loop, inside [tipc_send], behind
    it, before and behind [demo_done], or gone.  [m] is the local message. *)
Inductive wphase :=
| WLoop (i : Z) (m : tipc_msg_t) | WCall (i : Z) (m : tipc_msg_t) | WRet (i rc : Z) (m : tipc_msg_t)
| WDone | WOver | WGone.

Inductive rphase :=
| RLoop (i sum : Z) (m : tipc_msg_t) | RCall (i sum : Z) (m : tipc_msg_t) | RRet (i sum rc : Z) (m : tipc_msg_t)
| RDone | ROver | RGone.

Record ipcsys (M : Type) := mk_ipcsys { ip_ms : mbsys M; ip_w : wphase; ip_r : rphase; ip_d : ipc_demo }.
Arguments mk_ipcsys {M}. Arguments ip_ms {M}. Arguments ip_w {M}. Arguments ip_r {M}. Arguments ip_d {M}.

Definition demo_done (d : ipc_demo) : ipc_demo := mk_ipc_demo (d_active d - 1) (d_ok d) (d_delivered d).
Definition spoil (d : ipc_demo) : ipc_demo := mk_ipc_demo (d_active d) 0 (d_delivered d).

(** [tmemcpy(m.data, &i, 4); m.len = 4;] *)
Definition writer_msg (i : Z) (m : tipc_msg_t) : tipc_msg_t :=
  mk_msg (msg_sender m) 4 (le_bytes 4 i ++ drop 4 (msg_data m)).

(** [tmemcpy(&v, m.data, 4)] *)
Definition msg_value (m : tipc_msg_t) : Z := le_val (take 4 (msg_data m)).

(** The checks of the reader on the message it got. *)
Definition reader_check (i : Z) (m : tipc_msg_t) (d : ipc_demo) : ipc_demo :=
  if negb (msg_value m =? i) || negb (msg_len m =? 4) || (msg_sender m =? 0) then spoil d else d.

Section ipc.
Context {M : Type} `{TaskMem M}.
Variables boot_stack_top ttask_entry_addr ttask_entry_iret_addr : Z.
Variables w r : Z.
Abbreviation X := (ipcsys M).

(** The running task stays at [p] in the mailbox system. *)
Definition at_pc (i : Z) (p : mb_pc) (ms : mbsys M) : mbsys M :=
  mk_mbsys (ms_sched ms) (ms_mb ms) (fupd (ms_pc ms) i p) (ms_sent ms) (ms_recvd ms).
Definition on_sched (s : sched M) (ms : mbsys M) : mbsys M :=
  mk_mbsys s (ms_mb ms) (ms_pc ms) (ms_sent ms) (ms_recvd ms).

(** One pass of [tipc_send] or [tipc_recv] by task [i]. *)
Definition send_turn (i : Z) (m : tipc_msg_t) (ms : mbsys M) : option Z * mbsys M :=
  let '(rc, s', mb') := tipc_send_pass i m (ms_sched ms) (ms_mb ms) in
  (rc, mk_mbsys s' mb' (fupd (ms_pc ms) i (after_block rc i s' Out (SendLoop m) (SendParked m)))
         (if bool_decide (rc = Some 0) then ms_sent ms ++ [m] else ms_sent ms) (ms_recvd ms)).
Definition recv_turn (i : Z) (out : tipc_msg_t) (ms : mbsys M) : option Z * tipc_msg_t * mbsys M :=
  let '(rc, out', s', mb') := tipc_recv_pass i out (ms_sched ms) (ms_mb ms) in
  (rc, out', mk_mbsys s' mb' (fupd (ms_pc ms) i (after_block rc i s' Out RecvLoop RecvParked))
         (ms_sent ms) (if bool_decide (rc = Some 0) then ms_recvd ms ++ [out'] else ms_recvd ms)).

(** The next action of [ipc_writer]. *)
Definition ipc_writer (x : X) : X :=
  let '(mk_ipcsys ms pw pr d) := x in
  match pw with
  | WLoop i m =>
      if i <? IPC_DEMO_MSGS then
        let m' := stamp (ttask_self (ms_sched ms)) (writer_msg i m) in
        mk_ipcsys (at_pc w (SendLoop m') ms) (WCall i m') pr d
      else mk_ipcsys ms WDone pr d
  | WCall i m =>
      match ms_pc ms w with
      | SendLoop m1 =>
          let '(rc, ms') := send_turn w m1 ms in
          mk_ipcsys ms' (match rc with Some rc => WRet i rc m | None => WCall i m end) pr d
      | _ => mk_ipcsys (at_pc w (SendLoop m) ms) pw pr d
      end
  | WRet i rc m => if negb (rc =? 0) then mk_ipcsys ms WDone pr (spoil d) else mk_ipcsys ms (WLoop (u32 (i + 1)) m) pr d
  | WDone => mk_ipcsys ms WOver pr (demo_done d)
  | WOver => mk_ipcsys (on_sched (ttask_exit boot_stack_top (ms_sched ms)) ms) WGone pr d
  | WGone => x
  end.

(** The next action of [ipc_reader]. *)
Definition ipc_reader (x : X) : X :=
  let '(mk_ipcsys ms pw pr d) := x in
  match pr with
  | RLoop i sum m =>
      if i <? IPC_DEMO_MSGS then mk_ipcsys (at_pc r RecvLoop ms) pw (RCall i sum m) d
      else mk_ipcsys ms pw RDone (if negb (sum =? IPC_DEMO_MSGS * (IPC_DEMO_MSGS - 1) / 2) then spoil d else d)
  | RCall i sum m =>
      match ms_pc ms r with
      | RecvLoop =>
          let '(rc, m', ms') := recv_turn r m ms in
          mk_ipcsys ms' pw (match rc with Some rc => RRet i sum rc m' | None => RCall i sum m end) d
      | _ => mk_ipcsys (at_pc r RecvLoop ms) pw pr d
      end
  | RRet i sum rc m =>
      if negb (rc =? 0) then
        mk_ipcsys ms pw RDone (spoil d)
      else
        let d1 := reader_check i m d in
        mk_ipcsys ms pw (RLoop (u32 (i + 1)) (u32 (sum + msg_value m)) m)
          (mk_ipc_demo (d_active d1) (d_ok d1) (u32 (i + 1)))
  | RDone => mk_ipcsys ms pw ROver (demo_done d)
  | ROver => mk_ipcsys (on_sched (ttask_exit boot_stack_top (ms_sched ms)) ms) pw RGone d
  | RGone => x
  end.

(** A task of the table that is not (or no longer) part of the demonstration. *)
Definition bystander (x : X) (i : Z) : Prop := (i = w -> ip_w x = WGone) /\ (i = r -> ip_r x = RGone).

Inductive ipc_step : X -> X -> Prop :=
| ip_writer x : cur (ms_sched (ip_ms x)) = w -> ip_w x <> WGone -> ipc_step x (ipc_writer x)
| ip_reader x : cur (ms_sched (ip_ms x)) = r -> ip_r x <> RGone -> ipc_step x (ipc_reader x)
| ip_env x s' :
    env_step boot_stack_top ttask_entry_addr ttask_entry_iret_addr (bystander x) (fun _ => True) (ms_sched (ip_ms x)) s' ->
    ipc_step x (mk_ipcsys (on_sched s' (ip_ms x)) (ip_w x) (ip_r x) (ip_d x)).

(** The state that [cmd_ipc] sets up. *)
Definition ipc_boot (s : sched M) (mb : tipc_mailbox_t) (m0 m1 : tipc_msg_t) : X :=
  mk_ipcsys (mb_boot s mb) (WLoop 0 m0) (RLoop 0 0 m1) (mk_ipc_demo 2 1 0).

(** ** One pass, with no competitor *)

Local Abbreviation MAX := TTASK_MAX_TASKS.

(** What a pass of task [i] does to the states of the others: it may wake one
    that waits on the other side. *)
Definition woken (waits : mb_pc -> bool) (i : Z) (ms ms' : mbsys M) : Prop :=
  forall j, 0 <= j < MAX -> j <> i -> state_of (ms_sched ms') j = state_of (ms_sched ms) j \/
    waits (ms_pc ms j) = true /\ state_of (ms_sched ms') j = TTASK_READY.

Lemma side_empty waits act avail st q i :
  side_ok (waitq_list q) waits act avail st -> (forall j, waits j = true -> j = i) -> waits i = false ->
  waitq_list q = [].
Proof.
  intros [_ Hw _] Hone Hi. destruct (waitq_list q) as [|j l]; [reflexivity|]. exfalso.
  destruct (proj1 (Hw j) (list_elem_of_here _ _)) as (_ & Hj & _). pose proof (Hone j Hj). congruence.
Qed.

Lemma empty_push q i : waitq_ok q -> waitq_list q = [] -> exists q', tipc_core_waitq_push q i = (0, q').
Proof.
  intros Hq Hn. destruct (waitq_push_spec q i Hq) as [[En _]|(_ & q' & E & _)]; [|eauto].
  exfalso. destruct Hq as (Hl & Hh & Hr). assert (wq_n q = 0) as E0 by (eapply ring_list_nil_inv; [|exact Hn]; lia).
  unfold TIPC_WAIT_MAX in En. lia.
Qed.

(** The only sender sends, or waits for room. *)
Lemma send_turn_spec i m ms : mb_inv ms -> cur (ms_sched ms) = i -> ms_pc ms i = SendLoop m ->
  (forall j, send_waits (ms_pc ms j) = true -> j = i) ->
  exists rc ms', send_turn i m ms = (rc, ms') /\ mb_inv ms' /\ ms_recvd ms' = ms_recvd ms /\
  ((rc = Some 0 /\ ms_sent ms' = ms_sent ms ++ [m] /\ ms_pc ms' = fupd (ms_pc ms) i Out /\
    woken recv_waits i ms ms' /\ state_of (ms_sched ms') i = TTASK_READY) \/
   (rc = None /\ ms_sent ms' = ms_sent ms /\ ms_pc ms' = fupd (ms_pc ms) i (SendParked m) /\ woken recv_waits i ms ms')).
Proof.
  intros Hinv <- Epc Hone. destruct ms as [s mb pc snt rcv]. cbn [ms_sched ms_mb ms_pc ms_sent ms_recvd] in *.
  pose proof Hinv as [Hl (Hring & Hws & Hwr) Hz Hpc Hr Hs Hh Hf]. cbn [ms_sched ms_mb ms_pc ms_sent ms_recvd] in *.
  destruct (live_cur s Hl) as (_ & Hc & Hrun). assert (cur s <> 0) as Hne by congruence.
  pose proof (mb_inv_send s mb pc snt rcv m) as Hkeep. unfold send_turn. cbn [ms_sched ms_mb ms_pc ms_sent ms_recvd].
  destruct (tipc_send_pass (cur s) m s mb) as [[rc s'] mb'] eqn:E. specialize (Hkeep rc s' mb' Hinv Epc eq_refl).
  eexists _, _. split; [reflexivity|]. split; [exact Hkeep|]. split; [reflexivity|]. unfold tipc_send_pass in E.
  destruct (mb_push_spec mb m Hring) as [(_ & _ & Ep)|(_ & _ & mb1 & Ep & _ & _ & _ & Hr1 & _)]; rewrite Ep in E; simpl in E.
  - right. destruct (empty_push (mb_wait_send mb) (cur s) Hws) as [q Eq].
    { eapply side_empty; [exact Hs|exact Hone|]. simpl. rewrite Epc. reflexivity. }
    rewrite Eq in E. simpl in E. injection E as <- <- <-. cbn [ms_sched ms_mb ms_pc ms_sent ms_recvd].
    destruct (block_states s Hl Hne) as (_ & Hcur & Hst). cbn [after_block].
    apply Z.eqb_neq in Hcur. rewrite Hcur. repeat (split; [reflexivity|]).
    intros j Hj Hji. left. cbn [ms_sched]. rewrite Hst by exact Hj. destruct (Z.eqb_spec (cur s) j); congruence.
  - left. rewrite Hr1 in E. destruct (tipc_core_waitq_pop (mb_wait_recv mb)) as [u q] eqn:Eq. injection E as <- <- <-.
    destruct (side_pop s _ _ _ _ _ _ Hl Hwr Eq Hr) as (_ & _ & _ & _ & Hst); [intros j; destruct (pc j); simpl; auto|].
    repeat (split; [reflexivity|]). split.
    + intros j Hj _. cbn [ms_sched ms_pc]. destruct (Hst j Hj) as [?|(? & _ & ?)]; auto.
    + cbn [ms_sched]. destruct (Hst _ Hc) as [->|(_ & _ & ?)]; assumption.
Qed.

(** The only receiver receives the oldest message, or waits for one. *)
Lemma recv_turn_spec i out ms : mb_inv ms -> cur (ms_sched ms) = i -> ms_pc ms i = RecvLoop ->
  (forall j, recv_waits (ms_pc ms j) = true -> j = i) ->
  exists rc out' ms', recv_turn i out ms = (rc, out', ms') /\ mb_inv ms' /\ ms_sent ms' = ms_sent ms /\
  ((rc = Some 0 /\ ms_recvd ms' = ms_recvd ms ++ [out'] /\ ms_pc ms' = fupd (ms_pc ms) i Out /\
    woken send_waits i ms ms' /\ state_of (ms_sched ms') i = TTASK_READY) \/
   (rc = None /\ ms_recvd ms' = ms_recvd ms /\ ms_pc ms' = fupd (ms_pc ms) i RecvParked /\ woken send_waits i ms ms')).
Proof.
  intros Hinv <- Epc Hone. destruct ms as [s mb pc snt rcv]. cbn [ms_sched ms_mb ms_pc ms_sent ms_recvd] in *.
  pose proof Hinv as [Hl (Hring & Hws & Hwr) Hz Hpc Hr Hs Hh Hf]. cbn [ms_sched ms_mb ms_pc ms_sent ms_recvd] in *.
  destruct (live_cur s Hl) as (_ & Hc & Hrun). assert (cur s <> 0) as Hne by congruence.
  pose proof (mb_inv_recv s mb pc snt rcv out) as Hkeep. unfold recv_turn. cbn [ms_sched ms_mb ms_pc ms_sent ms_recvd].
  destruct (tipc_recv_pass (cur s) out s mb) as [[[rc out'] s'] mb'] eqn:E. specialize (Hkeep rc out' s' mb' Hinv Epc eq_refl).
  eexists _, _, _. split; [reflexivity|]. split; [exact Hkeep|]. split; [reflexivity|]. unfold tipc_recv_pass in E.
  destruct (mb_pop_spec mb out Hring) as [(_ & _ & Ep)|(_ & m & mb1 & Ep & _ & _ & Hs1 & _ & _)]; rewrite Ep in E; simpl in E.
  - right. destruct (empty_push (mb_wait_recv mb) (cur s) Hwr) as [q Eq].
    { eapply side_empty; [exact Hr|exact Hone|]. simpl. rewrite Epc. reflexivity. }
    rewrite Eq in E. simpl in E. injection E as <- <- <- <-. cbn [ms_sched ms_mb ms_pc ms_sent ms_recvd].
    destruct (block_states s Hl Hne) as (_ & Hcur & Hst). cbn [after_block].
    apply Z.eqb_neq in Hcur. rewrite Hcur. repeat (split; [reflexivity|]).
    intros j Hj Hji. left. cbn [ms_sched]. rewrite Hst by exact Hj. destruct (Z.eqb_spec (cur s) j); congruence.
  - left. rewrite Hs1 in E. destruct (tipc_core_waitq_pop (mb_wait_send mb)) as [u q] eqn:Eq. injection E as <- <- <- <-.
    destruct (side_pop s _ _ _ _ _ _ Hl Hws Eq Hs) as (_ & _ & _ & _ & Hst); [intros j; destruct (pc j); simpl; auto|].
    repeat (split; [reflexivity|]). split.
    + intros j Hj _. cbn [ms_sched ms_pc]. destruct (Hst j Hj) as [?|(? & _ & ?)]; auto.
    + cbn [ms_sched]. destruct (Hst _ Hc) as [->|(_ & _ & ?)]; assumption.
Qed.

(** ** The invariant *)

Local Abbreviation len l := (Z.of_nat (length l)).

(** The message number [i] of the writer. *)
Definition msg_is (i : Z) (m : tipc_msg_t) : Prop :=
  msg_sender m = w /\ msg_len m = 4 /\ take 4 (msg_data m) = le_bytes 4 i.

(** Phase, program point and number of messages sent agree. *)
Definition writer_ok (ph : wphase) (p : mb_pc) (n : Z) : Prop :=
  match ph with
  | WLoop i _ => p = Out /\ 0 <= i <= IPC_DEMO_MSGS /\ n = i
  | WCall i m => (p = SendLoop m \/ p = SendParked m) /\ 0 <= i < IPC_DEMO_MSGS /\ n = i /\ msg_is i m
  | WRet i rc _ => p = Out /\ rc = 0 /\ 0 <= i < IPC_DEMO_MSGS /\ n = i + 1
  | WDone | WOver | WGone => p = Out /\ n = IPC_DEMO_MSGS
  end.

Definition reader_ok (ph : rphase) (p : mb_pc) (rcv : list tipc_msg_t) (delivered : Z) : Prop :=
  match ph with
  | RLoop i sum _ => p = Out /\ 0 <= i <= IPC_DEMO_MSGS /\ len rcv = i /\ sum = i * (i - 1) / 2 /\ delivered = i
  | RCall i sum _ => (p = RecvLoop \/ p = RecvParked) /\ 0 <= i < IPC_DEMO_MSGS /\ len rcv = i /\ sum = i * (i - 1) / 2 /\ delivered = i
  | RRet i sum rc m => p = Out /\ rc = 0 /\ 0 <= i < IPC_DEMO_MSGS /\ rcv !! Z.to_nat i = Some m /\ len rcv = i + 1 /\
      sum = i * (i - 1) / 2 /\ delivered = i
  | RDone | ROver | RGone => p = Out /\ len rcv = IPC_DEMO_MSGS /\ delivered = IPC_DEMO_MSGS
  end.

(** How many of the two have not called [demo_done]. *)
Definition w_active (ph : wphase) : Z := match ph with WOver | WGone => 0 | _ => 1 end.
Definition r_active (ph : rphase) : Z := match ph with ROver | RGone => 0 | _ => 1 end.

Record ipc_inv (x : X) : Prop := {
  di_mb : mb_inv (ip_ms x);
  di_out : forall i, i <> w -> i <> r -> ms_pc (ip_ms x) i = Out;
  di_sent : forall j m, ms_sent (ip_ms x) !! j = Some m -> msg_is (Z.of_nat j) m;
  di_w : writer_ok (ip_w x) (ms_pc (ip_ms x) w) (len (ms_sent (ip_ms x)));
  di_r : reader_ok (ip_r x) (ms_pc (ip_ms x) r) (ms_recvd (ip_ms x)) (d_delivered (ip_d x));
  di_wready : ip_w x <> WGone -> ms_pc (ip_ms x) w = Out -> state_of (ms_sched (ip_ms x)) w = TTASK_READY;
  di_rready : ip_r x <> RGone -> ms_pc (ip_ms x) r = Out -> state_of (ms_sched (ip_ms x)) r = TTASK_READY;
  di_ok : d_ok (ip_d x) = 1;
  di_active : d_active (ip_d x) = w_active (ip_w x) + r_active (ip_r x)
}.

Context (Hw : 0 < w < MAX) (Hr : 0 < r < MAX) (Hwr : w <> r).

(** The mailbox system moves with the demonstration, one side at a time. *)
Lemma writer_alone x : ipc_inv x -> forall j, send_waits (ms_pc (ip_ms x) j) = true -> j = w.
Proof.
  intros Hx j Hj. destruct (Z.eq_dec j w) as [|Hn]; [assumption|]. destruct (Z.eq_dec j r) as [->|Hn2].
  - pose proof (di_r x Hx) as Hr'. destruct (ip_r x); simpl in Hr'; destruct (ms_pc (ip_ms x) r); try discriminate; naive_solver.
  - rewrite (di_out x Hx j Hn Hn2) in Hj. discriminate.
Qed.

Lemma reader_alone x : ipc_inv x -> forall j, recv_waits (ms_pc (ip_ms x) j) = true -> j = r.
Proof.
  intros Hx j Hj. destruct (Z.eq_dec j r) as [|Hn]; [assumption|]. destruct (Z.eq_dec j w) as [->|Hn2].
  - pose proof (di_w x Hx) as Hw'. destruct (ip_w x); simpl in Hw'; destruct (ms_pc (ip_ms x) w); try discriminate; naive_solver.
  - rewrite (di_out x Hx j Hn2 Hn) in Hj. discriminate.
Qed.

Lemma reader_pc_not_send x : ipc_inv x -> send_act (ms_pc (ip_ms x) r) = false.
Proof.
  intros Hx. pose proof (di_r x Hx) as Hr'. destruct (ip_r x); simpl in Hr'; destruct (ms_pc (ip_ms x) r); try reflexivity; naive_solver.
Qed.
Lemma writer_pc_not_recv x : ipc_inv x -> recv_act (ms_pc (ip_ms x) w) = false.
Proof.
  intros Hx. pose proof (di_w x Hx) as Hw'. destruct (ip_w x); simpl in Hw'; destruct (ms_pc (ip_ms x) w); try reflexivity; naive_solver.
Qed.

(** A received message is the one that was sent at its place. *)
Lemma received_is x j m : ipc_inv x -> ms_recvd (ip_ms x) !! j = Some m -> msg_is (Z.of_nat j) m.
Proof.
  intros Hx Hj. apply (di_sent x Hx). rewrite (mi_hist _ (di_mb x Hx)). apply lookup_app_l_Some, Hj.
Qed.

Lemma msg_is_value i m : 0 <= i < 4294967296 -> msg_is i m -> msg_value m = i.
Proof. intros Hi (_ & _ & E). unfold msg_value. rewrite E, le_val_bytes. apply Z.mod_small. simpl. lia. Qed.

Lemma writer_msg_is i m : 0 <= i -> msg_is i (stamp w (writer_msg i m)).
Proof.
  intros Hi. split; [reflexivity|]. split; [reflexivity|]. cbn [stamp writer_msg msg_data].
  rewrite take_app_length'; [reflexivity|]. rewrite le_bytes_length. reflexivity.
Qed.

(** ** Preservation *)

Local Abbreviation mbstep := (mb_step boot_stack_top ttask_entry_addr ttask_entry_iret_addr).

Lemma inv_writer ms pw pr d ms' pw' d' :
  ipc_inv (mk_ipcsys ms pw pr d) -> mb_inv ms' -> ms_recvd ms' = ms_recvd ms ->
  (forall i, i <> w -> ms_pc ms' i = ms_pc ms i) -> writer_ok pw' (ms_pc ms' w) (len (ms_sent ms')) ->
  (forall j m, ms_sent ms' !! j = Some m -> msg_is (Z.of_nat j) m) -> woken recv_waits w ms ms' ->
  (pw' <> WGone -> ms_pc ms' w = Out -> state_of (ms_sched ms') w = TTASK_READY) ->
  d_ok d' = 1 -> d_delivered d' = d_delivered d -> d_active d' = w_active pw' + r_active pr ->
  ipc_inv (mk_ipcsys ms' pw' pr d').
Proof.
  intros [I1 I2 I3 I4 I5 I6 I7 I8 I9] Hmb Hrcv Hpc Hwok Hsent Hwk Hrdy Hok Hdel Hact.
  constructor; cbn [ip_ms ip_w ip_r ip_d] in *; try assumption.
  - intros i Hi Hi2. rewrite Hpc by exact Hi. auto.
  - rewrite Hrcv, Hdel, Hpc by congruence. exact I5.
  - rewrite Hpc by congruence. intros Hg Ho. destruct (Hwk r) as [->|[Hx _]]; [lia|congruence|auto|].
    rewrite Ho in Hx. discriminate.
Qed.

Lemma inv_reader ms pw pr d ms' pr' d' :
  ipc_inv (mk_ipcsys ms pw pr d) -> mb_inv ms' -> ms_sent ms' = ms_sent ms ->
  (forall i, i <> r -> ms_pc ms' i = ms_pc ms i) -> reader_ok pr' (ms_pc ms' r) (ms_recvd ms') (d_delivered d') ->
  woken send_waits r ms ms' ->
  (pr' <> RGone -> ms_pc ms' r = Out -> state_of (ms_sched ms') r = TTASK_READY) ->
  d_ok d' = 1 -> d_active d' = w_active pw + r_active pr' ->
  ipc_inv (mk_ipcsys ms' pw pr' d').
Proof.
  intros [I1 I2 I3 I4 I5 I6 I7 I8 I9] Hmb Hsnt Hpc Hrok Hwk Hrdy Hok Hact.
  constructor; cbn [ip_ms ip_w ip_r ip_d] in *; try assumption.
  - intros i Hi Hi2. rewrite Hpc by exact Hi2. auto.
  - rewrite Hsnt. exact I3.
  - rewrite Hsnt, Hpc by congruence. exact I4.
  - rewrite Hpc by congruence. intros Hg Ho. destruct (Hwk w) as [->|[Hx _]]; [lia|congruence|auto|].
    rewrite Ho in Hx. discriminate.
Qed.

(** Without a change of the scheduler nobody is woken. *)
Lemma woken_same waits i ms ms' : ms_sched ms' = ms_sched ms -> woken waits i ms ms'.
Proof. intros E j _ _. rewrite E. auto. Qed.

Lemma woken_exit waits ms : mb_inv ms -> cur (ms_sched ms) <> 0 ->
  woken waits (cur (ms_sched ms)) ms (on_sched (ttask_exit boot_stack_top (ms_sched ms)) ms).
Proof.
  intros Hi Hne j Hj Hn. left. cbn. rewrite (proj2 (exit_states boot_stack_top _ (mi_live _ Hi) Hne)) by exact Hj.
  destruct (Z.eqb_spec (cur (ms_sched ms)) j); congruence.
Qed.

Lemma mb_inv_exit ms : mb_inv ms -> cur (ms_sched ms) <> 0 -> ms_pc ms (cur (ms_sched ms)) = Out ->
  mb_inv (on_sched (ttask_exit boot_stack_top (ms_sched ms)) ms).
Proof.
  intros Hi Hne Ho. destruct ms as [s mb pc snt rcv].
  eapply (mb_step_inv boot_stack_top ttask_entry_addr ttask_entry_iret_addr); [exact Hi|].
  apply mb_env. apply env_exit; [exact Ho|exact I|exact Hne].
Qed.

(** The moves of the running task between program points. *)
Lemma mb_inv_at p ms : mb_inv ms -> cur (ms_sched ms) <> 0 ->
  (ms_pc ms (cur (ms_sched ms)) = Out /\ (p = RecvLoop \/ exists m, p = SendLoop (stamp (ttask_self (ms_sched ms)) m))) \/
  (exists m, ms_pc ms (cur (ms_sched ms)) = SendParked m /\ p = SendLoop m) \/
  (ms_pc ms (cur (ms_sched ms)) = RecvParked /\ p = RecvLoop) ->
  mb_inv (at_pc (cur (ms_sched ms)) p ms).
Proof.
  intros Hi Hne Hp. destruct ms as [s mb pc snt rcv]. cbn in Hne, Hp.
  eapply (mb_step_inv boot_stack_top ttask_entry_addr ttask_entry_iret_addr); [exact Hi|].
  destruct Hp as [[Ho [->|[m ->]]]|[(m & Ho & ->)|[Ho ->]]].
  - apply mb_call_recv; assumption.
  - apply mb_call_send; assumption.
  - apply mb_resume_send; assumption.
  - apply mb_resume_recv; assumption.
Qed.

Lemma writer_inv x : ipc_inv x -> cur (ms_sched (ip_ms x)) = w -> ip_w x <> WGone -> ipc_inv (ipc_writer x).
Proof.
  intros Hx Hc Hg. pose proof Hx as [I1 I2 I3 I4 I5 I6 I7 I8 I9]. pose proof (writer_alone x Hx) as Halone.
  destruct x as [ms pw pr d]. cbn [ip_ms ip_w ip_r ip_d] in *.
  assert (cur (ms_sched ms) <> 0) as Hne by lia. unfold ipc_writer.
  destruct pw as [i m|i m|i rc m| | |]; cbn [writer_ok] in I4; [| | | | |congruence].
  - destruct I4 as (Ho & Hi & Hn). destruct (Z.ltb_spec i IPC_DEMO_MSGS).
    + assert (ttask_self (ms_sched ms) = w) as Hself by (rewrite (live_self _ (mi_live _ I1)); exact Hc).
      apply (inv_writer ms (WLoop i m) pr d); try assumption; try reflexivity.
      * rewrite <- Hc. apply mb_inv_at; [exact I1|exact Hne|]. left. rewrite Hc. eauto.
      * intros j Hj. cbn. rewrite fupd_ne by exact Hj. reflexivity.
      * cbn. rewrite fupd_eq, Hself. split; [auto|]. split; [lia|]. split; [exact Hn|]. apply writer_msg_is. lia.
      * apply woken_same. reflexivity.
      * cbn. rewrite fupd_eq. discriminate.
    + apply (inv_writer ms (WLoop i m) pr d); try assumption; try reflexivity; auto.
      * cbn. split; [exact Ho|lia].
      * apply woken_same. reflexivity.

  - destruct I4 as (Hp & Hi & Hn & Hm). destruct Hp as [Hp|Hp]; rewrite Hp.
    + destruct (send_turn_spec w m ms I1 Hc Hp Halone) as (rc & ms' & -> & Hmb' & Hrcv &
        [(-> & Hsnt & Hpc & Hwk & Hst)|(-> & Hsnt & Hpc & Hwk)]).
      * apply (inv_writer ms (WCall i m) pr d); try assumption; try reflexivity; auto.
        -- intros j Hj. rewrite Hpc, fupd_ne by exact Hj. reflexivity.
        -- rewrite Hsnt, Hpc, fupd_eq, length_app. cbn [writer_ok length]. repeat (split; [reflexivity|]). lia.
        -- intros j m' Hj. rewrite Hsnt in Hj. apply lookup_app_Some in Hj as [Hj|[Hle Hj]]; [auto|].
           apply list_lookup_singleton_Some in Hj as [Ej <-]. replace (Z.of_nat j) with i by lia. exact Hm.
      * apply (inv_writer ms (WCall i m) pr d); try assumption; try reflexivity; auto.
        -- intros j Hj. rewrite Hpc, fupd_ne by exact Hj. reflexivity.
        -- rewrite Hsnt, Hpc, fupd_eq. cbn. auto.
        -- rewrite Hsnt. exact I3.
        -- rewrite Hpc, fupd_eq. discriminate.
    + apply (inv_writer ms (WCall i m) pr d); try assumption; try reflexivity; auto.
      * rewrite <- Hc. apply mb_inv_at; [exact I1|exact Hne|]. rewrite Hc. eauto.
      * intros j Hj. cbn. rewrite fupd_ne by exact Hj. reflexivity.
      * cbn. rewrite fupd_eq. auto.
      * apply woken_same. reflexivity.
      * cbn. rewrite fupd_eq. discriminate.
  - destruct I4 as (Ho & -> & Hi & Hn). cbn [negb Z.eqb].
    apply (inv_writer ms (WRet i 0 m) pr d); try assumption; try reflexivity; auto.
    + cbn. unfold IPC_DEMO_MSGS in *. rewrite u32_small by lia. split; [exact Ho|lia].
    + apply woken_same. reflexivity.

  - apply (inv_writer ms WDone pr d); try assumption; try reflexivity; auto.
    + apply woken_same. reflexivity.

    + cbn in *. lia.
  - rewrite <- Hc in I4 at 1. apply (inv_writer ms WOver pr d); try assumption; try reflexivity; auto.
    + apply mb_inv_exit; [exact I1|exact Hne|apply I4].
    + cbn. rewrite Hc in I4. exact I4.
    + rewrite <- Hc. apply woken_exit; assumption.
    + congruence.
Qed.

Lemma tri_step i : 0 <= i -> i * (i - 1) / 2 + i = (i + 1) * (i + 1 - 1) / 2.
Proof. intros Hi. rewrite <- Z.div_add by lia. f_equal. lia. Qed.

Lemma tri_bound i : 0 <= i <= IPC_DEMO_MSGS -> 0 <= i * (i - 1) / 2 <= 4950.
Proof. unfold IPC_DEMO_MSGS. intros Hi. split; [apply Z.div_pos; nia|apply Z.div_le_upper_bound; nia]. Qed.

(** The reader finds what it expects. *)
Lemma reader_check_passes i m d : 0 <= i < 4294967296 -> msg_is i m -> reader_check i m d = d.
Proof.
  intros Hi Hm. unfold reader_check. rewrite (msg_is_value i m Hi Hm), Z.eqb_refl.
  destruct Hm as (-> & -> & _). replace (w =? 0) with false by lia. reflexivity.
Qed.

Lemma reader_inv x : ipc_inv x -> cur (ms_sched (ip_ms x)) = r -> ip_r x <> RGone -> ipc_inv (ipc_reader x).
Proof.
  intros Hx Hc Hg. pose proof Hx as [I1 I2 I3 I4 I5 I6 I7 I8 I9]. pose proof (reader_alone x Hx) as Halone.
  pose proof (received_is x) as Hrecv. destruct x as [ms pw pr d]. cbn [ip_ms ip_w ip_r ip_d] in *.
  assert (cur (ms_sched ms) <> 0) as Hne by lia. unfold ipc_reader.
  destruct pr as [i sum m|i sum m|i sum rc m| | |]; cbn [reader_ok] in I5; [| | | | |congruence].
  - destruct I5 as (Ho & Hi & Hn & Hs & Hd). destruct (Z.ltb_spec i IPC_DEMO_MSGS).
    + apply (inv_reader ms pw (RLoop i sum m) d); try assumption; try reflexivity; auto.
      * rewrite <- Hc. apply mb_inv_at; [exact I1|exact Hne|]. left. rewrite Hc. auto.
      * intros j Hj. cbn. rewrite fupd_ne by exact Hj. reflexivity.
      * cbn. rewrite fupd_eq. split; [auto|]. split; [lia|auto].
      * apply woken_same. reflexivity.
    + assert (i = IPC_DEMO_MSGS) as Ei by lia. rewrite Hs, Ei, Z.eqb_refl. cbn [negb].
      apply (inv_reader ms pw (RLoop i sum m) d); try assumption; try reflexivity; auto.
      * cbn. rewrite Hn, Hd. auto.
      * apply woken_same. reflexivity.
  - destruct I5 as (Hp & Hi & Hn & Hs & Hd). destruct Hp as [Hp|Hp]; rewrite Hp.
    + destruct (recv_turn_spec r m ms I1 Hc Hp Halone) as (rc & m' & ms' & -> & Hmb' & Hsnt &
        [(-> & Hrcv & Hpc & Hwk & Hst)|(-> & Hrcv & Hpc & Hwk)]).
      * apply (inv_reader ms pw (RCall i sum m) d); try assumption; try reflexivity; auto.
        -- intros j Hj. rewrite Hpc, fupd_ne by exact Hj. reflexivity.
        -- rewrite Hrcv, Hpc, fupd_eq. cbn [reader_ok]. rewrite length_app. cbn [length]. split; [reflexivity|]. split; [reflexivity|].
           split; [exact Hi|]. split; [|split; [lia|auto]].
           replace (Z.to_nat i) with (length (ms_recvd ms)) by lia. apply list_lookup_middle. reflexivity.
      * apply (inv_reader ms pw (RCall i sum m) d); try assumption; try reflexivity; auto.
        -- intros j Hj. rewrite Hpc, fupd_ne by exact Hj. reflexivity.
        -- rewrite Hrcv, Hpc, fupd_eq. cbn. auto.
        -- rewrite Hpc, fupd_eq. discriminate.
    + apply (inv_reader ms pw (RCall i sum m) d); try assumption; try reflexivity; auto.
      * rewrite <- Hc. apply mb_inv_at; [exact I1|exact Hne|]. rewrite Hc. auto.
      * intros j Hj. cbn. rewrite fupd_ne by exact Hj. reflexivity.
      * cbn. rewrite fupd_eq. auto.
      * apply woken_same. reflexivity.
      * cbn. rewrite fupd_eq. discriminate.
  - destruct I5 as (Ho & -> & Hi & Hm & Hn & Hs & Hd). cbn [negb Z.eqb]. pose proof (tri_bound i ltac:(lia)) as Hb.
    apply (Hrecv (Z.to_nat i) m Hx) in Hm. rewrite Z2Nat.id in Hm by lia. unfold IPC_DEMO_MSGS in Hi.
    rewrite (reader_check_passes i m d) by (lia || exact Hm).
    rewrite (msg_is_value i m) by (lia || exact Hm). rewrite !u32_small by lia.
    apply (inv_reader ms pw (RRet i sum 0 m) d); try assumption; try reflexivity; auto.
    + cbn. unfold IPC_DEMO_MSGS. split; [exact Ho|]. split; [lia|]. split; [exact Hn|]. split; [|reflexivity].
      rewrite Hs. apply tri_step. lia.
    + apply woken_same. reflexivity.
  - apply (inv_reader ms pw RDone d); try assumption; try reflexivity; auto.
    + apply woken_same. reflexivity.
    + cbn in *. lia.
  - rewrite <- Hc in I5 at 1. apply (inv_reader ms pw ROver d); try assumption; try reflexivity; auto.
    + apply mb_inv_exit; [exact I1|exact Hne|apply I5].
    + cbn. rewrite Hc in I5. exact I5.
    + rewrite <- Hc. apply woken_exit; assumption.
    + congruence.
Qed.

(** The rest of the kernel. *)
Lemma env_step_mono (P Q E : Z -> Prop) (s s' : sched M) : (forall i, P i -> Q i) ->
  env_step boot_stack_top ttask_entry_addr ttask_entry_iret_addr P E s s' ->
  env_step boot_stack_top ttask_entry_addr ttask_entry_iret_addr Q E s s'.
Proof. intros Hpq Hs. destruct Hs; econstructor; eauto. Qed.

Lemma env_inv x s' : ipc_inv x ->
  env_step boot_stack_top ttask_entry_addr ttask_entry_iret_addr (bystander x) (fun _ => True) (ms_sched (ip_ms x)) s' ->
  ipc_inv (mk_ipcsys (on_sched s' (ip_ms x)) (ip_w x) (ip_r x) (ip_d x)).
Proof.
  intros Hx Hs. pose proof Hx as [I1 I2 I3 I4 I5 I6 I7 I8 I9].
  assert (forall i, bystander x i -> ms_pc (ip_ms x) i = Out) as Hb.
  { intros i [Bw Br]. destruct (Z.eq_dec i w) as [->|Hn].
    - rewrite (Bw eq_refl) in I4. apply I4.
    - destruct (Z.eq_dec i r) as [->|Hn2]; [rewrite (Br eq_refl) in I5; apply I5|auto]. }
  destruct (env_states _ _ _ _ _ _ _ (mi_live _ I1) Hs) as [_ Hst].
  constructor; cbn [ip_ms ip_w ip_r ip_d on_sched ms_sched ms_mb ms_pc ms_sent ms_recvd]; try assumption.
  - destruct (ip_ms x) as [s mb pc snt rcv]. eapply mb_inv_env; [exact I1|]. exact (env_step_mono _ _ _ _ _ Hb Hs).
  - intros Hg Ho. specialize (I6 Hg Ho). destruct (Hst w) as [->|[[Hby _]|[Hf|Hf]]]; [lia|exact I6| |congruence..].
    destruct (Hg (proj1 Hby eq_refl)).
  - intros Hg Ho. specialize (I7 Hg Ho). destruct (Hst r) as [->|[[Hby _]|[Hf|Hf]]]; [lia|exact I7| |congruence..].
    destruct (Hg (proj2 Hby eq_refl)).
Qed.

Lemma ipc_reachable_inv s mb m0 m1 x : live s -> mb_storage mb ->
  state_of s w = TTASK_READY -> state_of s r = TTASK_READY ->
  star ipc_step (ipc_boot s mb m0 m1) x -> ipc_inv x.
Proof.
  intros Hl Hmb Hsw Hsr Hstar. refine (star_invariant ipc_step ipc_inv _ _ _ Hstar _).
  - intros a b Ha Hab. destruct Hab; [apply writer_inv|apply reader_inv|apply env_inv]; assumption.
  - constructor; cbn; auto.
    + apply mb_boot_inv; assumption.
    + intros j m Hj. discriminate.
    + repeat split; auto; unfold IPC_DEMO_MSGS; lia.
    + repeat split; auto; unfold IPC_DEMO_MSGS; lia.
Qed.

(** A task of the demonstration that cannot run is blocked on a mailbox that is
    full, or empty: the other side has work to do. *)
Lemma writer_idle x : ipc_inv x -> ip_w x <> WGone -> state_of (ms_sched (ip_ms x)) w <> TTASK_READY ->
  mb_count (ms_mb (ip_ms x)) = TIPC_QUEUE_SLOTS /\ len (ms_sent (ip_ms x)) < IPC_DEMO_MSGS.
Proof.
  intros Hx Hg Hs. pose proof (mi_pc _ (di_mb x Hx) w ltac:(lia)) as Pw. destruct (mi_mb _ (di_mb x Hx)) as ((_ & _ & Hcnt) & _).
  pose proof (di_w x Hx) as I4. pose proof (di_wready x Hx Hg) as I6.
  assert (exists i m, ip_w x = WCall i m /\ ms_pc (ip_ms x) w = SendParked m) as (i & m & Eph & Ep).
  { destruct (ip_w x) as [i m|i m|i rc m| | |]; cbn [writer_ok] in I4; try (destruct (Hs (I6 (proj1 I4)))).
    destruct I4 as [[E|E] _]; rewrite E in Pw; [destruct (Hs (proj1 Pw))|eauto]. }
  rewrite Ep in Pw. destruct Pw as [[Pw|Pw] _]; [contradiction|].
  destruct (side_progress _ _ _ _ _ w (mi_send _ (di_mb x Hx)) ltac:(lia)) as [_ Hex]; [rewrite Ep; reflexivity|exact Pw|].
  rewrite Eph in I4. cbn [writer_ok] in I4. split; [|lia].
  destruct (Z.eq_dec (mb_count (ms_mb (ip_ms x))) TIPC_QUEUE_SLOTS) as [|Hne]; [assumption|exfalso].
  destruct Hex as (j & _ & Hj & Hsj); [lia|]. destruct (Z.eq_dec j w) as [->|Hn]; [congruence|].
  destruct (Z.eq_dec j r) as [->|Hn2]; [rewrite (reader_pc_not_send x Hx) in Hj|rewrite (di_out x Hx j Hn Hn2) in Hj]; discriminate.
Qed.

Lemma reader_idle x : ipc_inv x -> ip_r x <> RGone -> state_of (ms_sched (ip_ms x)) r <> TTASK_READY ->
  mb_count (ms_mb (ip_ms x)) = 0 /\ len (ms_recvd (ip_ms x)) < IPC_DEMO_MSGS.
Proof.
  intros Hx Hg Hs. pose proof (mi_pc _ (di_mb x Hx) r ltac:(lia)) as Pr. destruct (mi_mb _ (di_mb x Hx)) as ((_ & _ & Hcnt) & _).
  pose proof (di_r x Hx) as I5. pose proof (di_rready x Hx Hg) as I7.
  assert (exists i sum m, ip_r x = RCall i sum m /\ ms_pc (ip_ms x) r = RecvParked) as (i & sum & m & Eph & Ep).
  { destruct (ip_r x) as [i sum m|i sum m|i sum rc m| | |]; cbn [reader_ok] in I5; try (destruct (Hs (I7 (proj1 I5)))).
    destruct I5 as [[E|E] _]; rewrite E in Pr; [destruct (Hs Pr)|eauto]. }
  rewrite Ep in Pr. destruct Pr as [Pr|Pr]; [contradiction|].
  destruct (side_progress _ _ _ _ _ r (mi_recv _ (di_mb x Hx)) ltac:(lia)) as [_ Hex]; [rewrite Ep; reflexivity|exact Pr|].
  rewrite Eph in I5. cbn [reader_ok] in I5. split; [|lia].
  destruct (Z.eq_dec (mb_count (ms_mb (ip_ms x))) 0) as [|Hne]; [assumption|exfalso].
  destruct Hex as (j & _ & Hj & Hsj); [lia|]. destruct (Z.eq_dec j r) as [->|Hn]; [congruence|].
  destruct (Z.eq_dec j w) as [->|Hn2]; [rewrite (writer_pc_not_recv x Hx) in Hj|rewrite (di_out x Hx j Hn2 Hn) in Hj]; discriminate.
Qed.

(** What the writer sent is what the reader got and what is in the ring. *)
Lemma ipc_counts x : ipc_inv x -> len (ms_sent (ip_ms x)) = len (ms_recvd (ip_ms x)) + mb_count (ms_mb (ip_ms x)).
Proof.
  intros Hx. rewrite (mi_hist _ (di_mb x Hx)), length_app, Nat2Z.inj_add. f_equal.
  destruct (mi_mb _ (di_mb x Hx)) as ((_ & _ & Hcnt) & _). apply ring_list_length; lia.
Qed.

(** Neither can starve the other: as long as one of the two has not finished,
    one of them is READY. *)
Lemma ipc_progress x : ipc_inv x -> d_active (ip_d x) <> 0 ->
  (ip_w x <> WGone /\ state_of (ms_sched (ip_ms x)) w = TTASK_READY) \/
  (ip_r x <> RGone /\ state_of (ms_sched (ip_ms x)) r = TTASK_READY).
Proof.
  intros Hx Ha. pose proof (ipc_counts x Hx) as Hn. pose proof (di_w x Hx) as I4. pose proof (di_r x Hx) as I5.
  pose proof (di_active x Hx) as I9. destruct (mi_mb _ (di_mb x Hx)) as ((_ & _ & Hcnt) & _).
  assert (ip_w x = WGone \/ ip_w x <> WGone) as [Ew|Gw] by (destruct (ip_w x); auto);
    assert (ip_r x = RGone \/ ip_r x <> RGone) as [Er|Gr] by (destruct (ip_r x); auto).
  - rewrite Ew, Er in I9. destruct (Ha I9).
  - right. split; [exact Gr|]. destruct (decide (state_of (ms_sched (ip_ms x)) r = TTASK_READY)) as [|Hs]; [assumption|exfalso].
    destruct (reader_idle x Hx Gr Hs) as [E0 Hlt]. rewrite Ew in I4. cbn [writer_ok] in I4. lia.
  - left. split; [exact Gw|]. destruct (decide (state_of (ms_sched (ip_ms x)) w = TTASK_READY)) as [|Hs]; [assumption|exfalso].
    destruct (writer_idle x Hx Gw Hs) as [E0 Hlt]. rewrite Er in I5. cbn [reader_ok] in I5. lia.
  - destruct (decide (state_of (ms_sched (ip_ms x)) w = TTASK_READY)) as [|Hs]; [auto|right].
    split; [exact Gr|]. destruct (decide (state_of (ms_sched (ip_ms x)) r = TTASK_READY)) as [|Hs2]; [assumption|exfalso].
    destruct (writer_idle x Hx Gw Hs) as [E8 _], (reader_idle x Hx Gr Hs2) as [E0 _]. unfold TIPC_QUEUE_SLOTS in E8. lia.
Qed.

Lemma ipc_end_counts x : ipc_inv x -> d_active (ip_d x) = 0 -> d_delivered (ip_d x) = IPC_DEMO_MSGS.
Proof.
  intros Hx Ha. pose proof (di_r x Hx) as I5. pose proof (di_active x Hx) as I9. rewrite Ha in I9.
  destruct (ip_r x); cbn [reader_ok] in I5; try (destruct (ip_w x); cbn in I9; lia); tauto.
Qed.

(** C8. The mailbox demonstration proves what it claims: in every state that
    any interleaving of the writer, the reader, the timer and the other tasks
    can reach, the check has not failed and the reader has received, in order,
    a prefix of the hundred numbered messages with the writer's id; while a
    task of the demonstration is active one of the two is READY, so they cannot
    block each other for good; and when [active] is 0 exactly one hundred
    messages were delivered, so [cmd_ipc] reports 100/100 and yes. *)
Theorem ipc_demo_correct s mb m0 m1 x :
  live s -> mb_storage mb -> state_of s w = TTASK_READY -> state_of s r = TTASK_READY ->
  star ipc_step (ipc_boot s mb m0 m1) x ->
  d_ok (ip_d x) = 1 /\ 0 <= d_delivered (ip_d x) <= IPC_DEMO_MSGS /\
  (forall j m, ms_recvd (ip_ms x) !! j = Some m ->
     msg_value m = Z.of_nat j /\ msg_len m = 4 /\ msg_sender m = w) /\
  (d_active (ip_d x) <> 0 -> (ip_w x <> WGone /\ state_of (ms_sched (ip_ms x)) w = TTASK_READY) \/
     (ip_r x <> RGone /\ state_of (ms_sched (ip_ms x)) r = TTASK_READY)) /\
  (d_active (ip_d x) = 0 -> d_delivered (ip_d x) = IPC_DEMO_MSGS).
Proof.
  intros Hl Hmb Hsw Hsr Hstar. pose proof (ipc_reachable_inv _ _ _ _ _ Hl Hmb Hsw Hsr Hstar) as Hx.
  pose proof (di_r x Hx) as I5. pose proof (di_w x Hx) as I4. pose proof (ipc_counts x Hx) as Hn.
  destruct (mi_mb _ (di_mb x Hx)) as ((_ & _ & Hcnt) & _).
  split; [exact (di_ok x Hx)|]. split.
  { destruct (ip_r x); cbn [reader_ok] in I5; unfold IPC_DEMO_MSGS in *; lia. }
  split; [|split; [apply ipc_progress, Hx|]].
  - intros j m Hj. pose proof (received_is x j m Hx Hj) as Hm. split; [|split; apply Hm].
    apply (msg_is_value (Z.of_nat j) m); [|exact Hm]. apply lookup_lt_Some in Hj.
    assert (len (ms_sent (ip_ms x)) <= IPC_DEMO_MSGS) by (destruct (ip_w x); cbn [writer_ok] in I4; unfold IPC_DEMO_MSGS in *; lia).
    unfold IPC_DEMO_MSGS in *. lia.
  - apply ipc_end_counts, Hx.
Qed.
End ipc.

(** * A complete run

    Without timer interrupts: the shell yields in its loop, writer and reader
    run until they block. *)

Lemma star_iter {A} (R : A -> A -> Prop) f n a : (forall x, R x (f x)) -> star R a (Nat.iter n f a).
Proof.
  intros Hf. induction n as [|n IH]; [apply star_refl|]. eapply star_trans; [exact IH|]. apply star_one, Hf.
Qed.

Section run.
Context {M : Type} `{TaskMem M}.
Variables boot_stack_top ttask_entry_addr ttask_entry_iret_addr w r : Z.

(** The running task acts; any other task yields. *)
Definition ipc_next (x : ipcsys M) : ipcsys M :=
  let c := cur (ms_sched (ip_ms x)) in
  if (c =? w) && negb (match ip_w x with WGone => true | _ => false end) then ipc_writer boot_stack_top w x
  else if (c =? r) && negb (match ip_r x with RGone => true | _ => false end) then ipc_reader boot_stack_top r x
  else mk_ipcsys (on_sched (ttask_yield boot_stack_top (ms_sched (ip_ms x))) (ip_ms x)) (ip_w x) (ip_r x) (ip_d x).

Lemma ipc_next_step x : ipc_step boot_stack_top ttask_entry_addr ttask_entry_iret_addr w r x (ipc_next x).
Proof.
  unfold ipc_next. set (c := cur (ms_sched (ip_ms x))).
  destruct (_ && _) eqn:E1; [apply ip_writer; [lia|destruct (ip_w x); (discriminate || lia)]|].
  destruct ((c =? r) && _) eqn:E2; [apply ip_reader; [lia|destruct (ip_r x); (discriminate || lia)]|].
  apply ip_env, env_yield. fold c. split; intros ->; rewrite Z.eqb_refl in *; cbn in *;
    [destruct (ip_w x)|destruct (ip_r x)]; (reflexivity || discriminate).
Qed.
End run.

Definition ipc_sched : sched flat_mem := (ttask_create 7 8 [114] 6 0 (ttask_create 7 8 [119] 5 0 demo_boot).2).2.
Definition ipc_end : ipcsys flat_mem := Nat.iter 700 (ipc_next 0 1 2) (ipc_boot ipc_sched demo_mb demo_msg demo_msg).

Lemma ipc_sched_live : live ipc_sched.
Proof. split; [|split; vmeq]. do 2 (apply create_ok; [|lia]). apply boot_init_ok. Qed.

(** The demonstration ends: after 700 actions both tasks are gone. *)
Lemma ipc_end_active : d_active (ip_d ipc_end) = 0.
Proof. vmeq. Qed.

Lemma ipc_demo_correct_witness :
  d_active (ip_d ipc_end) = 0 /\ d_ok (ip_d ipc_end) = 1 /\ d_delivered (ip_d ipc_end) = IPC_DEMO_MSGS.
Proof.
  destruct (ipc_demo_correct 0 7 8 1 2 ltac:(unfold TTASK_MAX_TASKS; lia) ltac:(unfold TTASK_MAX_TASKS; lia) ltac:(lia)
    ipc_sched demo_mb demo_msg demo_msg ipc_end ipc_sched_live ltac:(repeat split; reflexivity) ltac:(vmeq) ltac:(vmeq)
    (star_iter _ _ 700 _ (ipc_next_step 0 7 8 1 2))) as (Hok & _ & _ & _ & Hd).
  split; [exact ipc_end_active|]. split; [exact Hok|exact (Hd ipc_end_active)].
Defined.
