(* ===== verification/MutexDemo.v ===== *)
(** The mutex demonstration of [src/ternel.c]: the tasks [mutex_worker] that
    the command [mutex] starts.

    The increment of the shared counter is a load and a store with a possible
    preemption between them; the theorem is that none is lost.  The workers
    are a list of task slots; the command starts [MUTEX_TASKS] of them. *)
From stdpp Require Import prelude gmap list numbers.
From Stdlib Require Import ZArith Lia ZifyBool.
From S2P Require Import Prelude Fifo TipcCore TtaskCore Ttask Tipc IpcDemo.
#[local] Open Scope Z_scope.

Definition MUTEX_TASKS : Z := 3.
Definition MUTEX_ITERS : Z := 5000.

(** Where a worker is: at the head of its loop, inside [tipc_mutex_lock],
    behind it, between the load and the store of [d->counter++], before
    [tipc_mutex_unlock], before and behind [demo_done], or gone. *)
Inductive kphase :=
| KLoop (i : Z) | KLock (i : Z) | KIn (i : Z) | KLoaded (i v : Z) | KStored (i : Z) | KDone | KOver | KGone.

(** [struct mutex_demo]: the mutex is in the system. *)
Record mutexsys (M : Type) := mk_mutexsys {
  mx_ms : mtxsys M; mx_phase : Z -> kphase; mx_counter : Z; mx_active : Z }.
Arguments mk_mutexsys {M}. Arguments mx_ms {M}. Arguments mx_phase {M}. Arguments mx_counter {M}. Arguments mx_active {M}.

(** Sums over the workers. *)
Fixpoint total (f : Z -> Z) (l : list Z) : Z := match l with [] => 0 | i :: l' => f i + total f l' end.

Lemma total_ext f g l : (forall i, i ∈ l -> f i = g i) -> total f l = total g l.
Proof.
  induction l as [|i l IH]; intros E; cbn [total]; [reflexivity|].
  rewrite E by apply list_elem_of_here. f_equal. apply IH. intros j Hj. apply E, list_elem_of_further, Hj.
Qed.

Lemma total_update f g l i : NoDup l -> i ∈ l -> (forall j, j <> i -> g j = f j) -> total g l = total f l + (g i - f i).
Proof.
  intros Hnd Hi Hext. induction Hnd as [|j l Hj _ IH]; [inversion Hi|]. cbn [total].
  apply elem_of_cons in Hi as [<-|Hi].
  - rewrite (total_ext g f l); [lia|]. intros k Hk. apply Hext. intros ->. contradiction.
  - rewrite IH, (Hext j) by (exact Hi || (intros ->; contradiction)). lia.
Qed.

Lemma total_bounds f l lo hi : (forall i, i ∈ l -> lo <= f i <= hi) ->
  lo * Z.of_nat (length l) <= total f l <= hi * Z.of_nat (length l).
Proof.
  induction l as [|i l IH]; intros Hb; cbn [total length]; [lia|].
  pose proof (Hb i (list_elem_of_here _ _)). assert (forall j, j ∈ l -> lo <= f j <= hi) as Hb' by (intros j Hj; apply Hb, list_elem_of_further, Hj).
  specialize (IH Hb'). lia.
Qed.

Lemma total_const f l c : (forall i, i ∈ l -> f i = c) -> total f l = c * Z.of_nat (length l).
Proof. intros E. pose proof (total_bounds f l c c) as Hb. lapply Hb; [lia|]. intros i Hi. rewrite E by exact Hi. lia. Qed.

Lemma total_pos f l : (forall i, i ∈ l -> 0 <= f i) -> total f l <> 0 -> exists i, i ∈ l /\ 0 < f i.
Proof.
  induction l as [|j l IH]; intros Hf Ht; cbn [total] in Ht; [contradiction|].
  pose proof (Hf j (list_elem_of_here _ _)). destruct (Z.eq_dec (f j) 0) as [E|].
  - destruct IH as (i & Hi & Hp); [intros i Hi; apply Hf, list_elem_of_further, Hi|lia|].
    exists i. split; [apply list_elem_of_further, Hi|exact Hp].
  - exists j. split; [apply list_elem_of_here|lia].
Qed.

Lemma total_zero f l : (forall i, i ∈ l -> 0 <= f i) -> total f l = 0 -> forall i, i ∈ l -> f i = 0.
Proof.
  induction l as [|j l IH]; intros Hf Ht i Hi; [inversion Hi|]. cbn [total] in Ht.
  assert (forall k, k ∈ l -> 0 <= f k) as Hl by (intros k Hk; apply Hf, list_elem_of_further, Hk).
  assert (0 <= total f l) by (clear - Hl; induction l as [|k l IH]; cbn [total]; [lia|]; pose proof (Hl k (list_elem_of_here _ _));
    specialize (IH ltac:(intros q Hq; apply Hl, list_elem_of_further, Hq)); lia).
  pose proof (Hf j (list_elem_of_here _ _)). apply elem_of_cons in Hi as [->|Hi]; [lia|]. apply IH; [exact Hl|lia|exact Hi].
Qed.

Section mutex.
Context {M : Type} `{TaskMem M}.
Variables boot_stack_top ttask_entry_addr ttask_entry_iret_addr : Z.
Variables workers : list Z.
Abbreviation X := (mutexsys M).
Local Abbreviation MAX := TTASK_MAX_TASKS.

Definition on_sched (s : sched M) (ms : mtxsys M) : mtxsys M := mk_mtxsys s (xs_mtx ms) (xs_pc ms) (xs_held ms).
Definition at_pc (i : Z) (p : mtx_pc) (ms : mtxsys M) : mtxsys M :=
  mk_mtxsys (xs_sched ms) (xs_mtx ms) (fupd (xs_pc ms) i p) (xs_held ms).

(** One pass of [tipc_mutex_lock], and [tipc_mutex_unlock], by task [i]. *)
Definition lock_turn (i : Z) (ms : mtxsys M) : option Z * mtxsys M :=
  let '(rc, s', m') := tipc_mutex_lock_pass i (xs_sched ms) (xs_mtx ms) in
  (rc, mk_mtxsys s' m' (fupd (xs_pc ms) i (after_block rc i s' MOut LockLoop LockParked))
         (if bool_decide (rc = Some 0) then fupd (xs_held ms) i (xs_held ms i + 1) else xs_held ms)).
Definition unlock_turn (i : Z) (ms : mtxsys M) : mtxsys M :=
  let '(rc, s', m') := tipc_mutex_unlock i (xs_sched ms) (xs_mtx ms) in
  mk_mtxsys s' m' (xs_pc ms) (if rc =? 0 then fupd (xs_held ms) i (xs_held ms i - 1) else xs_held ms).

(** The next action of [mutex_worker], run as task [i].  The results of the
    lock and the unlock are ignored, as in the code. *)
Definition mutex_worker (i : Z) (x : X) : X :=
  let '(mk_mutexsys ms ph n act) := x in
  match ph i with
  | KLoop j =>
      if j <? MUTEX_ITERS then mk_mutexsys (at_pc i LockLoop ms) (fupd ph i (KLock j)) n act
      else mk_mutexsys ms (fupd ph i KDone) n act
  | KLock j =>
      match xs_pc ms i with
      | LockLoop =>
          let '(rc, ms') := lock_turn i ms in
          mk_mutexsys ms' (fupd ph i (match rc with Some _ => KIn j | None => KLock j end)) n act
      | _ => mk_mutexsys (at_pc i LockLoop ms) (fupd ph i (KLock j)) n act
      end
  | KIn j => mk_mutexsys ms (fupd ph i (KLoaded j n)) n act
  | KLoaded j v => mk_mutexsys ms (fupd ph i (KStored j)) (u32 (v + 1)) act
  | KStored j => mk_mutexsys (unlock_turn i ms) (fupd ph i (KLoop (j + 1))) n act
  | KDone => mk_mutexsys ms (fupd ph i KOver) n (act - 1)
  | KOver => mk_mutexsys (on_sched (ttask_exit boot_stack_top (xs_sched ms)) ms) (fupd ph i KGone) n act
  | KGone => x
  end.

(** A task of the table that is not (or no longer) a worker. *)
Definition bystander (x : X) (i : Z) : Prop := i ∈ workers -> mx_phase x i = KGone.

Inductive mutex_step : X -> X -> Prop :=
| mx_worker x i : i ∈ workers -> cur (xs_sched (mx_ms x)) = i -> mx_phase x i <> KGone -> mutex_step x (mutex_worker i x)
| mx_env x s' :
    env_step boot_stack_top ttask_entry_addr ttask_entry_iret_addr (bystander x) (bystander x) (xs_sched (mx_ms x)) s' ->
    mutex_step x (mk_mutexsys (on_sched s' (mx_ms x)) (mx_phase x) (mx_counter x) (mx_active x)).

(** The state that [cmd_mutex] sets up. *)
Definition mutex_boot (s : sched M) (m : tipc_mutex_t) : X :=
  mk_mutexsys (mtx_boot s m) (fun _ => KLoop 0) 0 (Z.of_nat (length workers)).

(** ** The invariant *)

(** The increments a worker has done. *)
Definition increments (p : kphase) : Z :=
  match p with KLoop j | KLock j | KIn j | KLoaded j _ => j | KStored j => j + 1 | KDone | KOver | KGone => MUTEX_ITERS end.
Definition still_active (p : kphase) : Z := match p with KOver | KGone => 0 | _ => 1 end.

Lemma still_active_range p : 0 <= still_active p.
Proof. destruct p; cbn; lia. Qed.

Definition worker_ok (p : kphase) (pc : mtx_pc) (held n : Z) : Prop :=
  match p with
  | KLoop j => pc = MOut /\ held = 0 /\ 0 <= j <= MUTEX_ITERS
  | KLock j => (pc = LockLoop \/ pc = LockParked) /\ held = 0 /\ 0 <= j < MUTEX_ITERS
  | KIn j | KStored j => pc = MOut /\ held = 1 /\ 0 <= j < MUTEX_ITERS
  | KLoaded j v => pc = MOut /\ held = 1 /\ 0 <= j < MUTEX_ITERS /\ v = n
  | KDone | KOver | KGone => pc = MOut /\ held = 0
  end.

Record mutex_inv (x : X) : Prop := {
  qi_ms : mtx_inv (mx_ms x);
  qi_out : forall i, i ∉ workers -> xs_pc (mx_ms x) i = MOut /\ xs_held (mx_ms x) i = 0;
  qi_worker : forall i, i ∈ workers -> worker_ok (mx_phase x i) (xs_pc (mx_ms x) i) (xs_held (mx_ms x) i) (mx_counter x);
  qi_ready : forall i, i ∈ workers -> mx_phase x i <> KGone -> xs_pc (mx_ms x) i = MOut ->
    state_of (xs_sched (mx_ms x)) i = TTASK_READY;
  qi_count : mx_counter x = total (fun i => increments (mx_phase x i)) workers;
  qi_active : mx_active x = total (fun i => still_active (mx_phase x i)) workers
}.

Context (Hnd : NoDup workers) (Hrange : forall i, i ∈ workers -> 0 < i < MAX) (Hfew : Z.of_nat (length workers) = MUTEX_TASKS).

(** ** One call, with the queue long enough *)

(** Only the holder holds. *)
Lemma one_holder x held i j : owner_ok x held -> 0 < held i -> 0 < held j -> i = j.
Proof.
  intros [[_ H0]|(_ & _ & _ & H0)] Hi Hj; [rewrite H0 in Hi; lia|].
  destruct (Z.eq_dec i (mtx_owner x)), (Z.eq_dec j (mtx_owner x)); try congruence; [rewrite (H0 j) in Hj by assumption|rewrite (H0 i) in Hi by assumption..]; lia.
Qed.

(** Only workers wait, so a waiter always finds a place in the queue. *)
Lemma queue_has_room (ms : mtxsys M) i : mtx_inv ms -> (forall j, lock_waits (xs_pc ms j) = true -> j ∈ workers) ->
  exists q, tipc_core_waitq_push (mtx_wait (xs_mtx ms)) i = (0, q).
Proof.
  intros Hi Hin. destruct (waitq_push_spec _ i (xi_wait _ Hi)) as [[En _]|(_ & q & E & _)]; [|eauto]. exfalso.
  pose proof (xi_side _ Hi) as [Hn Hw _]. destruct (xi_wait _ Hi) as (Hl & Hh & Hr).
  assert (waitq_list (mtx_wait (xs_mtx ms)) ⊆+ workers) as Hsub.
  { apply NoDup_submseteq; [exact Hn|]. intros j Hj. apply Hin. apply Hw, Hj. }
  apply submseteq_length in Hsub. pose proof (ring_list_length TIPC_WAIT_MAX (wq_id (mtx_wait (xs_mtx ms)))
    (wq_head (mtx_wait (xs_mtx ms))) (wq_n (mtx_wait (xs_mtx ms))) ltac:(lia)) as Hlen.
  unfold waitq_list, MUTEX_TASKS, TIPC_WAIT_MAX in *. lia.
Qed.

(** Other tasks keep their state, except that a waiter may be woken. *)
Definition woken (i : Z) (ms ms' : mtxsys M) : Prop :=
  forall j, 0 <= j < MAX -> j <> i -> state_of (xs_sched ms') j = state_of (xs_sched ms) j \/
    lock_waits (xs_pc ms j) = true /\ state_of (xs_sched ms') j = TTASK_READY.

Lemma lock_turn_spec i ms : mtx_inv ms -> cur (xs_sched ms) = i -> xs_pc ms i = LockLoop -> xs_held ms i = 0 ->
  (forall j, lock_waits (xs_pc ms j) = true -> j ∈ workers) ->
  exists rc ms', lock_turn i ms = (rc, ms') /\ mtx_inv ms' /\ woken i ms ms' /\
  ((rc = Some 0 /\ xs_pc ms' = fupd (xs_pc ms) i MOut /\ xs_held ms' = fupd (xs_held ms) i 1 /\
    state_of (xs_sched ms') i = TTASK_READY) \/
   (rc = None /\ xs_pc ms' = fupd (xs_pc ms) i LockParked /\ xs_held ms' = xs_held ms)).
Proof.
  intros Hinv <- Epc Hheld Hin. pose proof (queue_has_room ms (cur (xs_sched ms)) Hinv Hin) as [q Eq].
  destruct ms as [s m pc held]. cbn [xs_sched xs_mtx xs_pc xs_held] in *.
  pose proof (mtx_inv_lock s m pc held) as Hkeep. unfold lock_turn. cbn [xs_sched xs_mtx xs_pc xs_held].
  destruct (tipc_mutex_lock_pass (cur s) s m) as [[rc s'] m'] eqn:E. specialize (Hkeep rc s' m' Hinv Epc ltac:(lia) eq_refl).
  eexists _, _. split; [reflexivity|]. split; [exact Hkeep|]. unfold tipc_mutex_lock_pass in E.
  pose proof Hinv as [Hl _ Hz _ _ Ho _]. cbn [xs_sched xs_mtx xs_pc xs_held] in *.
  destruct (live_cur s Hl) as (_ & Hc & Hrun). assert (cur s <> 0) as Hne by congruence.
  destruct (Z.eqb_spec (mtx_owner m) TIPC_NONE) as [En|En].
  { injection E as <- <- <-. split; [intros j _ _; auto|]. left. cbn. rewrite Hheld. auto. }
  destruct Ho as [[? _]|(_ & Hpos & _)]; [contradiction|].
  destruct (Z.eqb_spec (mtx_owner m) (cur s)) as [Eo|Eo]; [rewrite Eo in Hpos; lia|].
  rewrite Eq in E. cbn in E. injection E as <- <- <-.
  destruct (block_states s Hl Hne) as (_ & Hcur & Hst). split.
  - intros j Hj Hji. left. cbn. rewrite Hst by exact Hj. destruct (Z.eqb_spec (cur s) j); congruence.
  - right. cbn. apply Z.eqb_neq in Hcur. rewrite Hcur. auto.
Qed.

Lemma unlock_turn_spec i ms : mtx_inv ms -> cur (xs_sched ms) = i -> xs_pc ms i = MOut -> xs_held ms i = 1 ->
  let ms' := unlock_turn i ms in
  mtx_inv ms' /\ woken i ms ms' /\ xs_pc ms' = xs_pc ms /\ xs_held ms' = fupd (xs_held ms) i 0 /\
  state_of (xs_sched ms') i = TTASK_READY.
Proof.
  intros Hinv <- Epc Hheld. destruct ms as [s m pc held]. cbn [xs_sched xs_mtx xs_pc xs_held] in *. cbv zeta.
  pose proof (mtx_inv_unlock s m pc held) as Hkeep. unfold unlock_turn. cbn [xs_sched xs_mtx xs_pc xs_held].
  destruct (tipc_mutex_unlock (cur s) s m) as [[rc s'] m'] eqn:E. specialize (Hkeep rc s' m' Hinv Epc eq_refl).
  split; [exact Hkeep|]. unfold tipc_mutex_unlock in E. pose proof Hinv as [Hl Hq _ _ Hs Ho _]. cbn [xs_sched xs_mtx xs_pc xs_held] in *.
  destruct (live_cur s Hl) as (_ & Hc & Hrun).
  destruct Ho as [[_ H0]|(Hr & Hpos & Hd & H0)]; [rewrite H0 in Hheld; lia|].
  destruct (Z.eqb_spec (mtx_owner m) (cur s)) as [Eo|Eo]; [|rewrite H0 in Hheld by congruence; lia].
  cbn [negb] in E. rewrite Hd, Eo, Hheld in E. change (u32 (1 - 1) =? 0) with true in E.
  destruct (tipc_core_waitq_pop (mtx_wait m)) as [w q] eqn:Eq. injection E as <- <- <-. cbn.
  destruct (side_pop s _ _ _ _ _ _ Hl Hq Eq Hs) as (_ & _ & _ & _ & Hst); [intros j; destruct (pc j); simpl; auto|].
  split; [|split; [reflexivity|split; [rewrite Hheld; reflexivity|]]].
  - intros j Hj _. cbn. destruct (Hst j Hj) as [?|(? & _ & ?)]; auto.
  - destruct (Hst _ Hc) as [->|(_ & _ & ?)]; assumption.
Qed.

(** ** Preservation *)

Lemma only_workers_wait x : mutex_inv x -> forall j, lock_waits (xs_pc (mx_ms x) j) = true -> j ∈ workers.
Proof.
  intros Hx j Hj. destruct (decide (j ∈ workers)) as [|Hn]; [assumption|].
  rewrite (proj1 (qi_out x Hx j Hn)) in Hj. discriminate.
Qed.

(** A worker moves from its phase to [p']. *)
Lemma inv_worker ms ph n act i ms' p' n' act' :
  mutex_inv (mk_mutexsys ms ph n act) -> i ∈ workers -> mtx_inv ms' ->
  (forall j, j <> i -> xs_pc ms' j = xs_pc ms j /\ xs_held ms' j = xs_held ms j) ->
  worker_ok p' (xs_pc ms' i) (xs_held ms' i) n' -> n' = n \/ xs_held ms i = 1 -> woken i ms ms' ->
  (p' <> KGone -> xs_pc ms' i = MOut -> state_of (xs_sched ms') i = TTASK_READY) ->
  n' = n + (increments p' - increments (ph i)) -> act' = act + (still_active p' - still_active (ph i)) ->
  mutex_inv (mk_mutexsys ms' (fupd ph i p') n' act').
Proof.
  intros [I1 I2 I3 I4 I5 I6] Hi Hms Hpc Hok Hn Hwk Hrdy Hcnt Hact.
  cbn [mx_ms mx_phase mx_counter mx_active] in *. constructor; cbn [mx_ms mx_phase mx_counter mx_active]; [exact Hms| | | | |].
  - intros j Hj. destruct (Hpc j) as [-> ->]; [intros ->; contradiction|]. apply I2, Hj.
  - intros j Hj. fupd_cases i j; [exact Hok|]. destruct (Hpc j) as [-> ->]; [assumption|].
    specialize (I3 j Hj). destruct Hn as [->|Hn]; [exact I3|]. pose proof (xi_owner _ I1) as Ho.
    destruct (ph j); cbn [worker_ok] in *; try exact I3.
    exfalso. assert (j = i) by (apply (one_holder _ _ _ _ Ho); lia). contradiction.
  - intros j Hj. fupd_cases i j; [exact Hrdy|]. destruct (Hpc j) as [-> _]; [assumption|]. intros Hg Ho.
    destruct (Hwk j) as [->|[Hx _]]; [specialize (Hrange j Hj); lia|assumption|auto|]. rewrite Ho in Hx. discriminate.
  - rewrite (total_update (fun j => increments (ph j)) _ workers i Hnd Hi), fupd_eq.
    + rewrite <- I5. exact Hcnt.
    + intros j Hj. rewrite fupd_ne by exact Hj. reflexivity.
  - rewrite (total_update (fun j => still_active (ph j)) _ workers i Hnd Hi), fupd_eq.
    + rewrite <- I6. exact Hact.
    + intros j Hj. rewrite fupd_ne by exact Hj. reflexivity.
Qed.

Lemma mutex_woken_same i ms ms' : xs_sched ms' = xs_sched ms -> woken i ms ms'.
Proof. intros E j _ _. rewrite E. auto. Qed.

Lemma mtx_inv_at ms : mtx_inv ms -> cur (xs_sched ms) <> 0 -> mtx_inv (at_pc (cur (xs_sched ms)) LockLoop ms).
Proof. intros Hi Hne. destruct ms as [s m pc held]. apply mtx_inv_move; [exact Hi|exact Hne|reflexivity|reflexivity]. Qed.

Lemma counter_bounds x i : mutex_inv x -> i ∈ workers -> increments (mx_phase x i) < MUTEX_ITERS ->
  0 <= mx_counter x < MUTEX_TASKS * MUTEX_ITERS.
Proof.
  intros Hx Hi Hlt. rewrite (qi_count x Hx).
  assert (forall j, j ∈ workers -> 0 <= increments (mx_phase x j) <= MUTEX_ITERS) as Hb.
  { intros j Hj. pose proof (qi_worker x Hx j Hj) as Hok. destruct (mx_phase x j); cbn in *; unfold MUTEX_ITERS in *; lia. }
  set (f := fun j => increments (mx_phase x j)). split; [pose proof (total_bounds f workers 0 MUTEX_ITERS Hb); lia|].
  pose proof (total_update f (fun j => if j =? i then MUTEX_ITERS else f j) workers i Hnd Hi) as Hu.
  cbv beta in Hu. rewrite Z.eqb_refl in Hu. specialize (Hu ltac:(intros j Hj; destruct (Z.eqb_spec j i); congruence)).
  pose proof (total_bounds (fun j => if j =? i then MUTEX_ITERS else f j) workers 0 MUTEX_ITERS) as Hb2.
  lapply Hb2; [|intros j Hj; destruct (j =? i); [unfold MUTEX_ITERS; lia|exact (Hb j Hj)]].
  intros Hb3. unfold f in *. lia.
Qed.

(** The routine goals of a move. *)
Ltac routine Hpc Hheld := try solve [assumption | auto | apply mutex_woken_same; reflexivity | cbn; lia
  | intros k Hk; rewrite ?Hpc, ?Hheld; cbn; rewrite ?fupd_ne by exact Hk; auto
  | rewrite ?Hpc, ?Hheld; cbn; rewrite ?fupd_eq; repeat split; auto; lia
  | rewrite ?Hpc; cbn; rewrite ?fupd_eq; discriminate | congruence].

Lemma worker_inv i x : mutex_inv x -> i ∈ workers -> cur (xs_sched (mx_ms x)) = i -> mx_phase x i <> KGone ->
  mutex_inv (mutex_worker i x).
Proof.
  intros Hx Hi Hc Hg. pose proof Hx as [I1 I2 I3 I4 I5 I6]. pose proof (only_workers_wait x Hx) as Hwait.
  pose proof (counter_bounds x i Hx Hi) as Hcb. destruct x as [ms ph n act]. cbn [mx_ms mx_phase mx_counter mx_active] in *.
  pose proof (Hrange i Hi) as Hir. assert (cur (xs_sched ms) <> 0) as Hne by lia.
  pose proof (mtx_inv_at ms I1 Hne) as Hat. rewrite Hc in Hat.
  specialize (I3 i Hi). specialize (I4 i Hi Hg). unfold mutex_worker.
  destruct (ph i) as [j|j|j|j v|j| | |] eqn:Eph; cbn [worker_ok] in I3; [| | | | | | |congruence].
  - destruct I3 as (Ho & Hh & Hj).
    destruct (Z.ltb_spec j MUTEX_ITERS); apply (inv_worker ms ph n act i); rewrite ?Eph; routine Ho Hh.
  - destruct I3 as (Hp & Hh & Hj). destruct Hp as [Hp|Hp]; rewrite Hp.
    + destruct (lock_turn_spec i ms I1 Hc Hp Hh Hwait) as (rc & ms' & -> & Hms' & Hwk &
        [(-> & Hpc & Hheld & Hst)|(-> & Hpc & Hheld)]);
        apply (inv_worker ms ph n act i); rewrite ?Eph; routine Hpc Hheld.
    + apply (inv_worker ms ph n act i); rewrite ?Eph; routine Hp Hh.
  - destruct I3 as (Ho & Hh & Hj). apply (inv_worker ms ph n act i); rewrite ?Eph; routine Ho Hh.
  - destruct I3 as (Ho & Hh & Hj & ->). specialize (Hcb ltac:(cbn; lia)). unfold MUTEX_TASKS, MUTEX_ITERS in Hcb.
    apply (inv_worker ms ph n act i); rewrite ?Eph, ?u32_small by lia; routine Ho Hh.
  - destruct I3 as (Ho & Hh & Hj). destruct (unlock_turn_spec i ms I1 Hc Ho Hh) as (Hms' & Hwk & Hpc & Hheld & Hst).
    apply (inv_worker ms ph n act i); rewrite ?Eph; routine Hpc Hheld.
  - apply (inv_worker ms ph n act i); rewrite ?Eph; routine I3 I3.
  - destruct I3 as (Ho & Hh). apply (inv_worker ms ph n act i); rewrite ?Eph; routine Ho Hh.
    + destruct ms as [s m pc held]. cbn in *. eapply (mtx_inv_env boot_stack_top ttask_entry_addr ttask_entry_iret_addr); [exact I1|].
      apply env_exit; [rewrite Hc; exact Ho|rewrite Hc; exact Hh|exact Hne].
    + intros k Hk Hki. left. cbn. rewrite (proj2 (exit_states boot_stack_top _ (xi_live _ I1) Hne)) by exact Hk.
      destruct (Z.eqb_spec (cur (xs_sched ms)) k); congruence.
Qed.

Lemma mutex_env_inv x s' : mutex_inv x ->
  env_step boot_stack_top ttask_entry_addr ttask_entry_iret_addr (bystander x) (bystander x) (xs_sched (mx_ms x)) s' ->
  mutex_inv (mk_mutexsys (on_sched s' (mx_ms x)) (mx_phase x) (mx_counter x) (mx_active x)).
Proof.
  intros Hx Hs. pose proof Hx as [I1 I2 I3 I4 I5 I6].
  assert (forall i, bystander x i -> xs_pc (mx_ms x) i = MOut /\ xs_held (mx_ms x) i = 0) as Hb.
  { intros i Hi. destruct (decide (i ∈ workers)) as [Hin|Hn]; [|apply I2, Hn]. specialize (I3 i Hin).
    rewrite (Hi Hin) in I3. exact I3. }
  destruct (env_states _ _ _ _ _ _ _ (xi_live _ I1) Hs) as [_ Hst].
  constructor; cbn [mx_ms mx_phase mx_counter mx_active on_sched xs_sched xs_mtx xs_pc xs_held]; try assumption.
  - destruct (mx_ms x) as [s m pc held]. eapply mtx_inv_env; [exact I1|]. cbn in *.
    destruct Hs; econstructor; eauto; apply Hb; assumption.
  - intros i Hi Hg Ho. specialize (I4 i Hi Hg Ho). destruct (Hst i) as [->|[[Hby _]|[Hf|Hf]]]; [|exact I4| |congruence..].
    + specialize (Hrange i Hi). lia.
    + destruct (Hg (Hby Hi)).
Qed.

Lemma mutex_reachable_inv s m x : live s -> Z.of_nat (length (wq_id (mtx_wait m))) = TIPC_WAIT_MAX ->
  (forall i, i ∈ workers -> state_of s i = TTASK_READY) ->
  star mutex_step (mutex_boot s m) x -> mutex_inv x.
Proof.
  intros Hl Hm Hs Hstar. refine (star_invariant mutex_step mutex_inv _ _ _ Hstar _).
  - intros a b Ha Hab. destruct Hab; [apply worker_inv|apply mutex_env_inv]; assumption.
  - constructor; cbn; auto.
    + eapply mtx_reachable_inv; [exact Hl|exact Hm|constructor].
    + intros i Hi. unfold MUTEX_ITERS. repeat split; lia.
    + rewrite (total_const _ _ 0); [lia|reflexivity].
    + rewrite (total_const _ _ 1); [lia|reflexivity].
  Unshelve. all: exact 0.
Qed.

(** While a worker is active, one of them can run: the holder, or a task that
    is about to take the free mutex. *)
Lemma mutex_progress x : mutex_inv x -> mx_active x <> 0 ->
  exists i, i ∈ workers /\ mx_phase x i <> KGone /\ state_of (xs_sched (mx_ms x)) i = TTASK_READY.
Proof.
  intros Hx Ha. rewrite (qi_active x Hx) in Ha.
  apply total_pos in Ha as (i & Hi & Hp); [|intros i _; apply still_active_range].
  assert (mx_phase x i <> KGone) as Hg by (intros E; rewrite E in Hp; cbn in Hp; lia).
  destruct (decide (state_of (xs_sched (mx_ms x)) i = TTASK_READY)) as [|Hs]; [eauto|].
  pose proof (qi_worker x Hx i Hi) as Hw. pose proof (qi_ready x Hx i Hi Hg) as Hr.
  pose proof (xi_pc _ (qi_ms x Hx) i ltac:(specialize (Hrange i Hi); lia)) as Hpc.
  assert (xs_pc (mx_ms x) i = LockParked /\ state_of (xs_sched (mx_ms x)) i = TTASK_BLOCKED) as [Ep Hb].
  { destruct (xs_pc (mx_ms x) i) eqn:Ep; cbn in Hpc; [destruct (Hs (Hr eq_refl))|contradiction|].
    destruct Hpc; [contradiction|auto]. }
  destruct (xi_owner _ (qi_ms x Hx)) as [[En H0]|(Hor & Hpos & _)].
  - destruct (side_progress _ _ _ _ _ i (xi_side _ (qi_ms x Hx)) ltac:(specialize (Hrange i Hi); lia)) as [_ Hex];
      [rewrite Ep; reflexivity|exact Hb|]. destruct Hex as (j & Hj & Hact & Hsj); [unfold mtx_avail; rewrite En; reflexivity|].
    assert (j ∈ workers) as Hjw.
    { destruct (decide (j ∈ workers)) as [|Hn]; [assumption|]. rewrite (proj1 (qi_out x Hx j Hn)) in Hact. discriminate. }
    exists j. split; [exact Hjw|]. split; [|exact Hsj]. intros E. pose proof (qi_worker x Hx j Hjw) as Hj'.
    rewrite E in Hj'. destruct Hj' as [Ej _]. rewrite Ej in Hact. discriminate.
  - set (o := mtx_owner (xs_mtx (mx_ms x))) in *. assert (o ∈ workers) as How.
    { destruct (decide (o ∈ workers)) as [|Hn]; [assumption|]. rewrite (proj2 (qi_out x Hx o Hn)) in Hpos. lia. }
    pose proof (qi_worker x Hx o How) as Ho. assert (mx_phase x o <> KGone) as Hgo
      by (intros E; rewrite E in Ho; destruct Ho as [_ Eh]; lia).
    exists o. split; [exact How|]. split; [exact Hgo|]. apply (qi_ready x Hx o How Hgo).
    destruct (mx_phase x o); cbn [worker_ok] in Ho; first [apply Ho|exfalso; lia].
Qed.

Lemma mutex_end_counter x : mutex_inv x -> mx_active x = 0 -> mx_counter x = MUTEX_TASKS * MUTEX_ITERS.
Proof.
  intros Hx Ha. rewrite (qi_count x Hx), (total_const _ _ MUTEX_ITERS); [lia|]. intros i Hi.
  rewrite (qi_active x Hx) in Ha. pose proof (total_zero _ _ ltac:(intros k _; apply still_active_range) Ha i Hi) as E0.
  cbn in E0. destruct (mx_phase x i); (reflexivity || discriminate E0).
Qed.

(** C9. The mutex demonstration proves what it claims: under every interleaving
    of the workers, the timer and the other tasks at most one worker is between
    lock and unlock, so no increment is lost although each is a load and a
    store with preemption in between: the counter is exactly the number of
    increments done, it reaches 15000 when [active] is 0, which is what
    [cmd_mutex] expects; and while a worker is active one of them is READY. *)
Theorem mutex_demo_correct s m x :
  live s -> Z.of_nat (length (wq_id (mtx_wait m))) = TIPC_WAIT_MAX ->
  (forall i, i ∈ workers -> state_of s i = TTASK_READY) -> star mutex_step (mutex_boot s m) x ->
  mx_counter x = total (fun i => increments (mx_phase x i)) workers /\
  (forall i j v, i ∈ workers -> mx_phase x i = KLoaded j v -> v = mx_counter x) /\
  (mx_active x = 0 -> mx_counter x = MUTEX_TASKS * MUTEX_ITERS) /\
  (mx_active x <> 0 -> exists i, i ∈ workers /\ mx_phase x i <> KGone /\ state_of (xs_sched (mx_ms x)) i = TTASK_READY).
Proof.
  intros Hl Hm Hs Hstar. pose proof (mutex_reachable_inv s m x Hl Hm Hs Hstar) as Hx.
  split; [exact (qi_count x Hx)|]. split; [|split; [|exact (mutex_progress x Hx)]].
  - intros i j v Hi E. pose proof (qi_worker x Hx i Hi) as Hw. rewrite E in Hw. apply Hw.
  - apply mutex_end_counter, Hx.
Qed.
End mutex.

(** * A complete run

    Workers in slots 1, 2 and 3; the timer strikes after every eleven actions
    that the running task performs, also between the load and the store. *)
Section run.
Context {M : Type} `{TaskMem M}.
Variables boot_stack_top ttask_entry_addr ttask_entry_iret_addr : Z.
Variable workers : list Z.

Definition mutex_next (x : mutexsys M) : mutexsys M :=
  let c := cur (xs_sched (mx_ms x)) in
  if bool_decide (c ∈ workers) && negb (match mx_phase x c with KGone => true | _ => false end)
  then mutex_worker boot_stack_top c x
  else mk_mutexsys (on_sched (ttask_yield boot_stack_top (xs_sched (mx_ms x))) (mx_ms x)) (mx_phase x) (mx_counter x) (mx_active x).

Definition mutex_tick (x : mutexsys M) : mutexsys M :=
  mk_mutexsys (on_sched (ttask_tick boot_stack_top (xs_sched (mx_ms x))) (mx_ms x)) (mx_phase x) (mx_counter x) (mx_active x).

Local Abbreviation step := (mutex_step boot_stack_top ttask_entry_addr ttask_entry_iret_addr workers).

Lemma mutex_next_step x : step x (mutex_next x).
Proof.
  unfold mutex_next. set (c := cur (xs_sched (mx_ms x))). destruct (_ && _) eqn:E.
  - apply andb_true_iff in E as [E1 E2]. apply bool_decide_eq_true_1 in E1.
    apply mx_worker; [exact E1|reflexivity|]. destruct (mx_phase x c); discriminate.
  - apply mx_env, env_yield. fold c. intros Hin. rewrite bool_decide_eq_true_2 in E by exact Hin. cbn in E.
    destruct (mx_phase x c); (reflexivity || discriminate).
Qed.

Lemma mutex_tick_step x : step x (mutex_tick x).
Proof. apply mx_env, env_tick. Qed.

Definition mutex_round (x : mutexsys M) : mutexsys M := mutex_tick (Nat.iter 11 mutex_next x).

Lemma mutex_rounds n x : star step x (Nat.iter n mutex_round x).
Proof.
  induction n as [|n IH]; [apply star_refl|]. eapply star_trans; [exact IH|].
  eapply star_trans; [apply star_iter, mutex_next_step|]. apply star_one, mutex_tick_step.
Qed.
End run.

Definition mutex_sched : sched flat_mem :=
  (ttask_create 7 8 [51] 5 0 (ttask_create 7 8 [50] 5 0 (ttask_create 7 8 [49] 5 0 demo_boot).2).2).2.
Definition mutex_after (n : nat) : mutexsys flat_mem := Nat.iter n (mutex_round 0 [1; 2; 3]) (mutex_boot [1; 2; 3] mutex_sched demo_mtx).

Lemma mutex_sched_live : live mutex_sched.
Proof. split; [|split; vmeq]. do 3 (apply create_ok; [|lia]). apply boot_init_ok. Qed.

(** After twenty ticks: forty increments, one task between load and store or
    waiting at every tick. *)
Lemma mutex_demo_correct_witness :
  mx_counter (mutex_after 20) = 40 /\
  mx_counter (mutex_after 20) = total (fun i => increments (mx_phase (mutex_after 20) i)) [1; 2; 3].
Proof.
  split; [vmeq|].
  destruct (mutex_demo_correct 0 7 8 [1; 2; 3] ltac:(repeat constructor; set_solver)
    ltac:(intros i Hi; assert (i = 1 \/ i = 2 \/ i = 3) by set_solver; unfold TTASK_MAX_TASKS; lia) eq_refl
    mutex_sched demo_mtx (mutex_after 20) mutex_sched_live eq_refl) as (Hc & _).
  - intros i Hi. assert (i = 1 \/ i = 2 \/ i = 3) as [->|[->| ->]] by set_solver; vmeq.
  - exact (mutex_rounds 0 7 8 [1; 2; 3] 20 (mutex_boot [1; 2; 3] mutex_sched demo_mtx)).
  - exact Hc.
Defined.
