(* ===== verification/Demos.v ===== *)
(** The commands [ipc] and [mutex] of [src/ternel.c].

    Each allocates the shared structure, starts its tasks, gives the processor
    away until they are done, and reports.  The part in the middle is the
    interleaving of IpcDemo and MutexDemo; the theorems join the three. *)
From Stdlib Require Import String Ascii.
From stdpp Require Import prelude gmap list numbers.
From Stdlib Require Import ZArith Lia ZifyBool.
From S2P Require Import Prelude Fifo TipcCore TtaskCore Ttask Tipc Tpmm Tmalloc Tvmm Tstring Tfs Tsh Vga Printf Idt Tsys Ternel IpcDemo MutexDemo.
#[local] Open Scope Z_scope.

Section demos.
Context {M H F B : Type} {TM : TaskMem M} {SH : SmallHeap H} {SF : SmallHeap F} {HB : HeapBackend B} (A : addrs).
Abbreviation K := (kernel M H F B).

(** [sizeof(struct ipc_demo)] and [sizeof(struct mutex_demo)] *)
Definition sizeof_ipc_demo : Z := 8 * 64 + 4 + 2 * 68 + 3 * 4.
Definition sizeof_mutex_demo : Z := 8 + 68 + 2 * 4.

(** [tmalloc] returns the address of the block header, so the first sixteen
    bytes of a structure are the header words of its block. *)
Definition header_words (d w0 w1 : Z) : cmd K unit :=
  modify (fun k => set_heap (store_word (d + 8) w1 (store_word d w0 (k_heap k))) k).

Definition spawn (name : list Z) (fn arg : Z) : cmd K (option Z) :=
  create_task (ttask_create (a_entry A) (a_entry_iret A) name fn arg).

(** ** [cmd_ipc] *)

(** Up to the loop that waits: the structure, the writer and the reader. *)
Definition ipc_start : cmd K (option (Z * Z * Z)) :=
  d ← malloc sizeof_ipc_demo;
  if d =? 0 then say (nl " out of memory") [] ;; mret None
  else
    say (nl " ipc: spawning writer + reader (%u messages)") [Num IPC_DEMO_MSGS] ;;
    w ← spawn (text "ipc-writer") (a_ipc_writer A) d;
    match w with
    | None => say (nl " spawn failed (task table full)") [] ;; mret None
    | Some w =>
        r ← spawn (text "ipc-reader") (a_ipc_reader A) d;
        match r with
        | None => say (nl " spawn failed (task table full)") [] ;; mret None
        | Some r => mret (Some (d, w, r))
        end
    end.

(** The header words under [d->mb.slot[0]]. *)
Definition slot0_words (mb : tipc_mailbox_t) : Z * Z :=
  let m := mb_slot mb !!! 0%nat in
  (msg_sender m + 4294967296 * msg_len m, le_val (take 8 (msg_data m))).

(** Behind the loop: [mb] and [x] are the structure as the tasks left it. *)
Definition ipc_finish (d : Z) (mb : tipc_mailbox_t) (x : ipc_demo) : cmd K unit :=
  say (nl " ipc: %u/%u delivered, sum ok: %s")
    [Num (d_delivered x); Num IPC_DEMO_MSGS; if negb (d_ok x =? 0) then str A "yes" else str A "NO (CHECK FAILED)"] ;;
  header_words d (slot0_words mb).1 (slot0_words mb).2 ;;
  free d.

Definition cmd_ipc (argv : list Z) : cmd K unit :=
  r ← ipc_start; match r with None => skip | Some _ => fail Yields end.

(** ** [cmd_mutex] *)

(** The loop that creates the workers, from number [i] on. *)
Fixpoint mutex_spawn (n : nat) (i d : Z) : cmd K (option (list Z)) :=
  match n with
  | O => mret (Some [])
  | S n' =>
      name ← lift Wild (render (fun _ => None) (text "mx%d") [i]);
      t ← spawn (take 15 name) (a_mutex_worker A) d;
      match t with
      | None => say (nl " spawn failed (task table full)") [] ;; mret None
      | Some t =>
          l ← mutex_spawn n' (i + 1) d;
          mret (match l with Some l => Some (t :: l) | None => None end)
      end
  end.

Definition mutex_start : cmd K (option (Z * list Z)) :=
  d ← malloc sizeof_mutex_demo;
  if d =? 0 then say (nl " out of memory") [] ;; mret None
  else
    say (nl " mutex: %d tasks incrementing a shared counter x%d") [Num MUTEX_TASKS; Num MUTEX_ITERS] ;;
    l ← mutex_spawn (Z.to_nat MUTEX_TASKS) 0 d;
    mret (match l with Some l => Some (d, l) | None => None end).

(** The header words under [d->m]: owner and depth, and the first two waiters. *)
Definition mutex_words (m : tipc_mutex_t) : Z * Z :=
  (mtx_owner m + 4294967296 * mtx_depth m, wq_id (mtx_wait m) !!! 0%nat + 4294967296 * wq_id (mtx_wait m) !!! 1%nat).

Definition mutex_finish (d : Z) (m : tipc_mutex_t) (counter : Z) : cmd K unit :=
  let expect := u32 (MUTEX_TASKS * MUTEX_ITERS) in
  say (nl " mutex: counter = %u (expected %u): %s")
    [Num counter; Num expect; if counter =? expect then str A "exclusion ok" else str A "EXCLUSION FAILED"] ;;
  header_words d (mutex_words m).1 (mutex_words m).2 ;;
  free d.

Definition cmd_mutex (argv : list Z) : cmd K unit :=
  r ← mutex_start; match r with None => skip | Some _ => fail Yields end.
End demos.

(** * What the commands report *)

Section reports.
Context {M H F B : Type} {TM : TaskMem M} {SH : SmallHeap H} {SF : SmallHeap F} {HB : HeapBackend B} (A : addrs).
Abbreviation K := (kernel M H F B).
Local Abbreviation MAX := TTASK_MAX_TASKS.

(** A task that [spawn] created, in a kernel that goes on. *)
Lemma spawn_spec name fn arg (k k' : K) i : live (k_sched k) -> spawn A name fn arg k = (inl (Some i), k') ->
  live (k_sched k') /\ 0 < i < MAX /\ state_of (k_sched k') i = TTASK_READY /\
  state_of (k_sched k) i <> TTASK_READY /\
  (forall j, 0 <= j -> j <> i -> state_of (k_sched k') j = state_of (k_sched k) j).
Proof.
  intros Hl E. unfold spawn, create_task in E. cmd_step E. apply get_inl in E0 as [-> ->].
  destruct (ttask_create _ _ _ _ _ _) as [t s'] eqn:Ec in E. cmd_step E. apply modify_inl in E0 as ->.
  cmd_step E. apply modify_inl in E0 as ->. apply mret_inl in E as [<- ->].
  change (k_sched (set_sched s' _)) with s'. pose proof Hl as (Hok & Hh & H0).
  pose proof (create_states (a_entry A) (a_entry_iret A) (k_sched k) name 1 fn arg None) as (Hh' & _ & _).
  pose proof (create_ok (a_entry A) (a_entry_iret A) (k_sched k) name 1 fn arg None Hok ltac:(lia)) as Hok'.
  unfold ttask_create in Ec. rewrite Ec in Hh', Hok'. cbn [snd] in Hh', Hok'.
  destruct (create_with_spec _ _ _ _ _ _ _ _ _ _ (ok_tasks _ Hok) Ec) as (Hi & Hf & Ho & Hs & _).
  assert (i <> 0) as Hi0 by (intros ->; destruct Hf; congruence).
  assert (forall j, 0 <= j -> j <> i -> state_of s' j = state_of (k_sched k) j) as Hst
    by (intros j Hj Hji; unfold state_of; rewrite Ho by assumption; reflexivity).
  split; [split; [exact Hok'|split; [congruence|rewrite Hst by lia; exact H0]]|].
  split; [lia|]. split; [exact Hs|]. split; [destruct Hf; congruence|exact Hst].
Qed.

Lemma say_sched fmt args (k k' : K) u : say fmt args k = (inl u, k') -> k_sched k' = k_sched k.
Proof. rewrite say_spec. destruct (printed fmt args); [|discriminate]. intros [= _ <-]. reflexivity. Qed.

Lemma malloc_sched n (k k' : K) d : malloc n k = (inl d, k') -> k_sched k' = k_sched k.
Proof.
  intros E. unfold malloc in E. cmd_step E. apply get_inl in E0 as [-> ->]. cmd_step E.
  destruct (tmalloc _ _ _) as [r|]; [|discriminate E0]. apply mret_inl in E0 as [-> ->]. cmd_step E.
  apply modify_inl in E0 as ->. apply mret_inl in E as [_ ->]. reflexivity.
Qed.

Lemma ipc_start_spec (k k' : K) d w r : live (k_sched k) -> ipc_start A k = (inl (Some (d, w, r)), k') ->
  live (k_sched k') /\ 0 < w < MAX /\ 0 < r < MAX /\ w <> r /\
  state_of (k_sched k') w = TTASK_READY /\ state_of (k_sched k') r = TTASK_READY.
Proof.
  intros Hl E. unfold ipc_start in E. cmd_step E. apply malloc_sched in E0. rewrite <- E0 in Hl.
  destruct (x =? 0); [cmd_step E; apply mret_inl in E as [E _]; discriminate|].
  cmd_step E. apply say_sched in E1. rewrite <- E1 in Hl. cmd_step E.
  destruct x1 as [w'|]; [|cmd_step E; apply mret_inl in E as [E _]; discriminate].
  destruct (spawn_spec _ _ _ _ _ _ Hl E2) as (Hl1 & Hw & Sw & _ & _). cmd_step E.
  destruct x1 as [r'|]; [|cmd_step E; apply mret_inl in E as [E _]; discriminate].
  destruct (spawn_spec _ _ _ _ _ _ Hl1 E3) as (Hl2 & Hr & Sr & Nr & Hst). apply mret_inl in E as [[= -> -> ->] ->].
  assert (w' <> r') as Hwr by (intros ->; contradiction).
  split; [exact Hl2|]. split; [exact Hw|]. split; [exact Hr|]. split; [exact Hwr|].
  split; [rewrite Hst by lia; exact Sw|exact Sr].
Qed.

Lemma ipc_report_text : printed (nl " ipc: %u/%u delivered, sum ok: %s") [Num IPC_DEMO_MSGS; Num IPC_DEMO_MSGS; str A "yes"] =
  Some (nl " ipc: 100/100 delivered, sum ok: yes").
Proof. vm_compute. reflexivity. Qed.

Lemma mutex_report_text : printed (nl " mutex: counter = %u (expected %u): %s")
  [Num (MUTEX_TASKS * MUTEX_ITERS); Num (u32 (MUTEX_TASKS * MUTEX_ITERS)); str A "exclusion ok"] =
  Some (nl " mutex: counter = 15000 (expected 15000): exclusion ok").
Proof. vm_compute. reflexivity. Qed.


Lemma mutex_spawn_spec n : forall i d (k k' : K) l, live (k_sched k) -> mutex_spawn A n i d k = (inl (Some l), k') ->
  live (k_sched k') /\ length l = n /\ NoDup l /\
  (forall t, t ∈ l -> 0 < t < MAX /\ state_of (k_sched k') t = TTASK_READY /\ state_of (k_sched k) t <> TTASK_READY) /\
  (forall j, 0 <= j -> j ∉ l -> state_of (k_sched k') j = state_of (k_sched k) j).
Proof.
  induction n as [|n IH]; intros i d k k' l Hl E; cbn [mutex_spawn] in E.
  { apply mret_inl in E as [[= ->] ->]. split; [exact Hl|]. split; [reflexivity|]. split; [constructor|].
    split; [intros t Ht; inversion Ht|reflexivity]. }
  cmd_step E. destruct (render _ _ _) as [nm|]; [|discriminate E0]. apply mret_inl in E0 as [-> ->]. cmd_step E.
  destruct x as [t|]; [|cmd_step E; apply mret_inl in E as [E _]; discriminate].
  destruct (spawn_spec _ _ _ _ _ _ Hl E0) as (Hl1 & Ht & St & Nt & Hst). cmd_step E. apply mret_inl in E as [E ->].
  destruct x as [l1|]; [|discriminate E]. injection E as ->.
  destruct (IH _ _ _ _ _ Hl1 E1) as (Hl2 & Hn & Hnd & Hin & Hout).
  assert (t ∉ l1) as Htl by (intros Hx; destruct (Hin t Hx) as (_ & _ & Hx'); contradiction).
  split; [exact Hl2|]. split; [cbn; congruence|]. split; [constructor; assumption|]. split.
  - intros j Hj. apply elem_of_cons in Hj as [->|Hj]; [rewrite Hout by (lia || assumption); auto|].
    destruct (Hin j Hj) as (R1 & R2 & R3). split; [exact R1|]. split; [exact R2|].
    rewrite <- Hst; [exact R3|lia|intros ->; contradiction].
  - intros j Hj Hnl. apply not_elem_of_cons in Hnl as [N1 N2]. rewrite Hout, Hst by assumption. reflexivity.
Qed.

Lemma mutex_start_spec (k k' : K) d l : live (k_sched k) -> mutex_start A k = (inl (Some (d, l)), k') ->
  live (k_sched k') /\ Z.of_nat (length l) = MUTEX_TASKS /\ NoDup l /\
  (forall t, t ∈ l -> 0 < t < MAX) /\ (forall t, t ∈ l -> state_of (k_sched k') t = TTASK_READY).
Proof.
  intros Hl E. unfold mutex_start in E. cmd_step E. apply malloc_sched in E0. rewrite <- E0 in Hl.
  destruct (x =? 0); [cmd_step E; apply mret_inl in E as [E _]; discriminate|].
  cmd_step E. apply say_sched in E1. rewrite <- E1 in Hl. cmd_step E. apply mret_inl in E as [E ->].
  destruct x1 as [l1|]; [|discriminate E]. injection E as -> ->.
  destruct (mutex_spawn_spec _ _ _ _ _ _ Hl E2) as (Hl2 & Hn & Hnd & Hin & _).
  split; [exact Hl2|]. split; [rewrite Hn; reflexivity|]. split; [exact Hnd|]. split; intros t Ht; apply Hin, Ht.
Qed.

(** The command [mutex] reports success: when the three workers it created
    have finished, under any interleaving, the line it prints is counter =
    15000, exclusion ok. *)
Theorem cmd_mutex_reports (k k1 k2 : K) d l m x :
  live (k_sched k) -> mutex_start A k = (inl (Some (d, l)), k1) ->
  Z.of_nat (length (wq_id (mtx_wait m))) = TIPC_WAIT_MAX ->
  star (mutex_step (a_boot_stack_top A) (a_entry A) (a_entry_iret A) l) (mutex_boot l (k_sched k1) m) x ->
  mx_active x = 0 ->
  exists k3, mutex_finish A d (xs_mtx (mx_ms x)) (mx_counter x) k2 = (inl tt, k3) /\
    k_vga k3 = put_all (nl " mutex: counter = 15000 (expected 15000): exclusion ok") (k_vga k2).
Proof.
  intros Hl E Hm Hstar Ha. destruct (mutex_start_spec k k1 d l Hl E) as (Hl1 & Hn & Hnd & Hr & Hs).
  pose proof (mutex_reachable_inv _ _ _ l Hnd Hr Hn _ m x Hl1 Hm Hs Hstar) as Hx.
  unfold mutex_finish. rewrite (mutex_end_counter l Hn x Hx Ha). cbv zeta.
  change (MUTEX_TASKS * MUTEX_ITERS =? u32 (MUTEX_TASKS * MUTEX_ITERS)) with true.
  erewrite bind_spec by (apply say_text, mutex_report_text). eexists. split; reflexivity.
Qed.
End reports.

(** * Witnesses *)

#[local] Instance demo_records : SmallHeap Z := { sh_malloc _ h := (h, h + 32); sh_free _ h := h }.
#[local] Existing Instance easy_backend.

(** A kernel with an empty file system and heap, in which only the shell runs. *)
Definition idle_kernel : kernel flat_mem Z Z unit :=
  set_sched demo_boot (mk_kernel demo_sys (mk_tsh ∅ 0 0) (mk_tfs ∅ [] 1000) demo_heap 0 0 0 0).

Lemma idle_live : live (k_sched idle_kernel).
Proof. split; [apply boot_init_ok|split; vmeq]. Qed.

Definition ipc_started : kernel flat_mem Z Z unit := (ipc_start demo_addrs idle_kernel).2.
Definition ipc_over : ipcsys flat_mem := Nat.iter 700 (ipc_next 0 1 2) (ipc_boot (k_sched ipc_started) demo_mb demo_msg demo_msg).

Lemma ipc_start_eq : ipc_start demo_addrs idle_kernel = (inl (Some (HEAP_VIRT_BASE + 16, 1, 2)), ipc_started).
Proof.
  unfold ipc_started. destruct (ipc_start demo_addrs idle_kernel) as [o k] eqn:E. cbn [snd]. f_equal.
  change o with (o, k).1. rewrite <- E. vm_compute. reflexivity.
Qed.

Lemma ipc_over_active : d_active (ip_d ipc_over) = 0.
Proof. vmeq. Qed.


(** The array of waiters of a new [struct mutex_demo]: its first words are the
    magic number that [tmalloc] stored. *)
Definition fresh_mutex : tipc_mutex_t := mk_mutex 0 0 (mk_waitq (MALLOC_MAGIC :: replicate 15 0) 0 0).

Definition mutex_started : kernel flat_mem Z Z unit := (mutex_start demo_addrs idle_kernel).2.

(** Without the timer the workers are done after 75100 actions. *)
Definition mutex_over : mutexsys flat_mem :=
  N.iter 75100 (mutex_next 0 [1; 2; 3]) (mutex_boot [1; 2; 3] (k_sched mutex_started) fresh_mutex).

Lemma mutex_start_eq : mutex_start demo_addrs idle_kernel = (inl (Some (HEAP_VIRT_BASE + 16, [1; 2; 3])), mutex_started).
Proof.
  unfold mutex_started. destruct (mutex_start demo_addrs idle_kernel) as [o k] eqn:E. cbn [snd]. f_equal.
  change o with (o, k).1. rewrite <- E. vm_compute. reflexivity.
Qed.

Lemma mutex_over_reached :
  star (mutex_step 0 701 702 [1; 2; 3]) (mutex_boot [1; 2; 3] (k_sched mutex_started) fresh_mutex) mutex_over.
Proof.
  unfold mutex_over. apply N.iter_invariant; [|apply star_refl]. intros x Hx. eapply star_trans; [exact Hx|].
  apply star_one, mutex_next_step.
Qed.

Lemma mutex_over_active : mx_active mutex_over = 0.
Proof. vmeq. Qed.

Lemma cmd_mutex_reports_witness :
  exists k3, mutex_finish demo_addrs (HEAP_VIRT_BASE + 16) (xs_mtx (mx_ms mutex_over)) (mx_counter mutex_over) mutex_started
      = (inl tt, k3) /\
    k_vga k3 = put_all (nl " mutex: counter = 15000 (expected 15000): exclusion ok") (k_vga mutex_started).
Proof.
  apply (cmd_mutex_reports demo_addrs idle_kernel mutex_started mutex_started (HEAP_VIRT_BASE + 16) [1; 2; 3] fresh_mutex mutex_over).
  - exact idle_live.
  - exact mutex_start_eq.
  - reflexivity.
  - exact mutex_over_reached.
  - exact mutex_over_active.
Defined.

(** * The structures on the heap *)

(** The structure of [ipc] is never given back: the first message slot lies over
    the block header, so [tfree] finds a message where the magic number was and
    ignores the block. *)
Theorem ipc_leaks_structure :
  let k := (ipc_finish demo_addrs (HEAP_VIRT_BASE + 16) (ms_mb (ip_ms ipc_over)) (ip_d ipc_over) ipc_started).2 in
  tmalloc_blocks (k_heap idle_kernel) = 0 /\ tmalloc_blocks (k_heap k) = 1 /\ Tmalloc.free_list (k_heap k) = 0.
Proof. cbv zeta. split; [vmeq|]. split; vmeq. Qed.

(** When no worker of [mutex] had to wait, the array of waiters is untouched, and [tfree]
    takes the owner field, which is [TIPC_NONE], for the size of the block: a
    block of 4 GiB starts the free list, and later allocations are cut from it
    over the other blocks of the heap. *)
Theorem mutex_frees_4GiB :
  let k := (mutex_finish demo_addrs (HEAP_VIRT_BASE + 16) (xs_mtx (mx_ms mutex_over)) (mx_counter mutex_over) mutex_started).2 in
  Tmalloc.free_list (k_heap k) = HEAP_VIRT_BASE + 16 /\ rd (hmem (k_heap k)) (HEAP_VIRT_BASE + 16) = 4294967295.
Proof. cbv zeta. split; vmeq. Qed.
