(* ===== verification/Shell.v ===== *)
(** The command interpreter and the key loop of [ternel_main] in
    [src/ternel.c], on top of the commands of [Ternel] and the line editor of
    [Tline]. *)
From Stdlib Require Import String Ascii.
From stdpp Require Import prelude gmap list numbers.
From Stdlib Require Import ZArith Lia ZifyBool List.
From S2P Require Import Prelude TtaskCore Ttask Tpmm Tmalloc Tvmm Tstring Telf Tsec Tfs TfsSpec Keyboard Vga Tsh Printf Serial Idt Tsys Tprocfs Tline Ternel Demos.
#[local] Open Scope Z_scope.

(** * The command table *)

Inductive command :=
| C_help | C_clear | C_uptime | C_ver | C_info | C_alloc | C_paging | C_heap | C_echo | C_die |
  C_aspace | C_hist | C_env | C_set | C_whoami | C_halt | C_reboot | C_sec | C_scrub | C_tasks |
  C_spawn | C_burst | C_yield | C_ipc | C_mutex | C_run | C_ls | C_cat | C_mkdir | C_touch | C_rm |
  C_write | C_mount | C_priority | C_perf | C_sched | C_kush.

Definition commands : list (String.string * command * String.string) :=
  [("help", C_help, "list available commands");
   ("clear", C_clear, "clear the screen");
   ("uptime", C_uptime, "seconds since boot");
   ("ver", C_ver, "kernel version");
   ("info", C_info, "system + memory info");
   ("alloc", C_alloc, "allocate and free 8 physical pages");
   ("paging", C_paging, "map a page at high vaddr, poke it, unmap");
   ("heap", C_heap, "exercise the kernel heap (tmalloc/tfree)");
   ("echo", C_echo, "print the rest of the line");
   ("die", C_die, "divide by zero (panic demo)");
   ("aspace", C_aspace, "demo per-process address spaces (page tables)");
   ("hist", C_hist, "show command history (up/down arrows recall)");
   ("env", C_env, "show environment variables");
   ("set", C_set, "set an environment variable (KEY=VALUE)");
   ("whoami", C_whoami, "print the current user (from $USER)");
   ("halt", C_halt, "halt the CPU (power-off not implemented)");
   ("reboot", C_reboot, "reboot via the keyboard controller (8042)");
   ("sec", C_sec, "show + verify CPU hardening (NX, W^X, SMEP/SMAP)");
   ("scrub", C_scrub, "zero every free physical frame (amnesia)");
   ("tasks", C_tasks, "list scheduler tasks");
   ("spawn", C_spawn, "spawn a demo task");
   ("burst", C_burst, "spawn N demo tasks");
   ("yield", C_yield, "yield the CPU to another task");
   ("ipc", C_ipc, "mailbox demo: writer/reader block on a shared queue");
   ("mutex", C_mutex, "mutex demo: 3 tasks share a protected counter");
   ("run", C_run, "run a user-mode program (hello, spinner)");
   ("ls", C_ls, "list a directory (default /)");
   ("cat", C_cat, "print a file (ramfs, procfs, sysfs)");
   ("mkdir", C_mkdir, "create a directory");
   ("touch", C_touch, "create an empty file");
   ("rm", C_rm, "remove a file or directory");
   ("write", C_write, "write text into a file");
   ("mount", C_mount, "list mounted filesystems");
   ("priority", C_priority, "get/set task priority (priority <id> [0-7])");
   ("perf", C_perf, "show per-task performance counters");
   ("sched", C_sched, "show global scheduler statistics");
   ("kush", C_kush, "launch userspace shell (ring 3)")]%string.

Section shell.
Context {M H F B : Type} {TM : TaskMem M} {SH : SmallHeap H} {SF : SmallHeap F} {HB : HeapBackend B} (A : addrs).
Abbreviation K := (kernel M H F B).

(** The embedded programs. *)
Context (blobs : list user_blob).

Definition cmd_help (argv : list Z) : cmd K unit :=
  say (nl " commands:") [] ;;
  for_each commands (fun '(name, _, desc) => say (nl "   %-8s  %s") [str A name; str A desc]).

(** [commands[i].fn] *)
Definition run (c : command) : list Z -> cmd K unit := fun argv =>
  match c with
  | C_help => cmd_help argv
  | C_clear => cmd_clear argv
  | C_uptime => cmd_uptime argv
  | C_ver => cmd_ver argv
  | C_info => cmd_info A argv
  | C_alloc => cmd_alloc argv
  | C_paging => cmd_paging argv
  | C_heap => cmd_heap argv
  | C_echo => cmd_echo argv
  | C_die => cmd_die argv
  | C_aspace => cmd_aspace argv
  | C_hist => cmd_hist A argv
  | C_env => cmd_env A argv
  | C_set => cmd_set A argv
  | C_whoami => cmd_whoami A argv
  | C_halt => cmd_halt argv
  | C_reboot => cmd_reboot argv
  | C_sec => cmd_sec A argv
  | C_scrub => cmd_scrub argv
  | C_tasks => cmd_tasks A argv
  | C_spawn => cmd_spawn A argv
  | C_burst => cmd_burst A argv
  | C_yield => cmd_yield A argv
  | C_ipc => cmd_ipc A argv
  | C_mutex => cmd_mutex A argv
  | C_run => cmd_run A blobs argv
  | C_ls => cmd_ls A argv
  | C_cat => cmd_cat A argv
  | C_mkdir => cmd_mkdir A argv
  | C_touch => cmd_touch A argv
  | C_rm => cmd_rm A argv
  | C_write => cmd_write A argv
  | C_mount => cmd_mount A argv
  | C_priority => cmd_priority A argv
  | C_perf => cmd_perf A argv
  | C_sched => cmd_sched argv
  | C_kush => cmd_kush A blobs argv
  end.

Definition find_command (name : list Z) : option command :=
  match List.find (fun e => bool_decide (text e.1.1 = name)) commands with Some e => Some e.1.2 | None => None end.

Definition run_command (line : Z) : cmd K unit :=
  k ← get;
  r ← lift Spins (tsh_tokenize (a_env_keys A) (a_env_vals A) (a_arg_buf A) 4096 (a_keybuf A) line TSH_ARGV_MAX (k_sh k));
  modify (set_sh r.2) ;;
  match r.1 with
  | [] => skip
  | p :: _ =>
      name ← string_at p;
      match find_command name with
      | Some c => run c r.1
      | None => say (nl " unknown command '%s' (try 'help')") [Ptr p name]
      end
  end.

(** * The key loop *)

(** The kernel with the local variables of [ternel_main]. *)
Record shell := mk_shell { s_kernel : K; s_len : Z; s_cursor : Z; s_pos : Z; s_row : Z }.

Definition on_kernel {T} (c : cmd K T) : cmd shell T := fun s =>
  match c (s_kernel s) with (r, k) => (r, mk_shell k (s_len s) (s_cursor s) (s_pos s) (s_row s)) end.

(** The editor works on the shell's tables and the screen of the kernel. *)
Definition editor_of (s : shell) : editor :=
  mk_editor (k_sh (s_kernel s)) (k_vga (s_kernel s)) (s_len s) (s_cursor s) (s_pos s) (s_row s).
Definition with_editor (e : editor) (s : shell) : shell :=
  mk_shell (set_vga (ed_vga e) (set_sh (ed_sh e) (s_kernel s))) (line_len e) (cursor e) (hist_pos e) (prompt_row e).

Definition on_editor (f : editor -> option editor) : cmd shell unit :=
  s ← get; e ← lift Spins (f (editor_of s)); modify (with_editor e).

(** [line] and [expanded] are the local arrays, [nbuf] the buffer of the log
    formatter, [polls] bounds the waits for the serial port. *)
Context (line expanded nbuf : Z) (polls : nat).

(** [tlog("cmd: %s\n", line)] *)
Definition log_command : cmd K unit :=
  k ← get;
  s ← lift Spins (tlog polls 4096 (tmem (k_sh k)) nbuf (a_lit A (nl "cmd: %s")) [line] (m_ser (k_mach k)));
  modify (fun k => set_mach k (with_ser s (k_mach k))).

Definition set_sh_of (sh : tsh) : cmd shell unit := on_kernel (modify (set_sh sh)).
Definition sh_of : cmd shell tsh := s ← get; mret (k_sh (s_kernel s)).

(** The line is executed: history, log, command. *)
Definition execute_line : cmd shell unit :=
  sh ← sh_of;
  r ← lift Spins (tsh_hist_push (a_hist_entries A) 4096 line sh);
  set_sh_of r.2 ;;
  modify (fun s => mk_shell (s_kernel s) (s_len s) (s_cursor s) (tsh_hist_count r.2) (s_row s)) ;;
  on_kernel log_command ;;
  on_kernel (run_command line).

(** The line after a history reference was replaced. *)
Definition take_expansion : cmd shell unit :=
  sh ← sh_of;
  let m := tstrncpy line expanded 128 (tmem sh) in
  set_sh_of (with_tmem m sh) ;;
  n ← lift Spins (tstrlen m 128 line);
  modify (fun s => mk_shell (s_kernel s) n (s_cursor s) (s_pos s) (s_row s)).

Definition enter : cmd shell unit :=
  on_kernel (modify (fun k => set_vga (vga_putchar 10 (k_vga k)) k)) ;;
  s ← get;
  (if s_len s >? 0 then
     sh ← sh_of;
     r ← lift Spins (tsh_hist_expand (a_hist_entries A) 4096 line expanded TSH_HIST_LEN sh);
     set_sh_of r.2 ;;
     if r.1 <? 0 then on_kernel (say (nl " history: no such entry") [])
     else (if r.1 >? 0 then take_expansion else skip) ;; execute_line
   else skip) ;;
  modify (fun s => with_editor (print_prompt (with_line (<[line := 0]> (tmem (k_sh (s_kernel s)))) 0 0 (s_pos s) (editor_of s))) s).

(** The body of the loop, for the key [c]. *)
Definition main_key (c : Z) : cmd shell unit :=
  if c =? 10 then enter else on_editor (edit_key (a_hist_entries A) line c).

(** One round of [while ((c = keyboard_getchar()) != KEY_NONE)]: [false] when
    no key is pending. *)
Definition key_turn : cmd shell bool :=
  s ← get;
  let '(c, kb) := keyboard_getchar (m_kb (k_mach (s_kernel s))) in
  on_kernel (modify (fun k => set_mach k (with_kb kb (k_mach k)))) ;;
  if c =? KEY_NONE then mret false else main_key c ;; mret true.

(** The loop; [Spins] when it takes more than [fuel] keys. *)
Fixpoint key_loop (fuel : nat) : cmd shell unit :=
  match fuel with O => fail Spins | S f => b ← key_turn; if b : bool then key_loop f else skip end.
End shell.
