(* ===== verification/ShellSpec.v ===== *)
(** What the shell's commands do: files written and shown, programs started,
    lines executed, and the commands whose output goes wrong. *)
From Stdlib Require Import String Ascii.
From stdpp Require Import prelude gmap list numbers.
From Stdlib Require Import ZArith Lia ZifyBool List.
From S2P Require Import Prelude TtaskCore Ttask Tpmm Tmalloc Tvmm Tstring Telf Tsec Tfs TfsSpec Keyboard Vga Tsh Printf Serial Idt Tsys Tprocfs Tline Ternel Shell.
#[local] Open Scope Z_scope.

(** * Files *)

(** Words with spaces between them. *)
Fixpoint unwords (ws : list (list Z)) : list Z :=
  match ws with [] => [] | [w] => w | w :: ws' => w ++ 32 :: unwords ws' end.

(** The loop of [cmd_write] on texts. *)
Fixpoint join_words (first : bool) (ws : list (list Z)) (acc : list Z) : list Z :=
  match ws with
  | [] => acc
  | w :: ws' =>
      if (length acc <? 127)%nat then
        let acc1 := if first then acc else acc ++ [32] in
        join_words false ws' (acc1 ++ take (127 - length acc1) w)
      else acc
  end.

(** Cutting the last piece first makes no difference. *)
Lemma take_cut n (a w r : list Z) : (length a <= n)%nat ->
  take n ((a ++ take (n - length a) w) ++ r) = take n (a ++ w ++ r).
Proof.
  intros Ha. rewrite <- app_assoc, (take_app a (_ ++ r)), (take_app a (w ++ r)). f_equal.
  set (k := (n - length a)%nat). destruct (Nat.le_gt_cases (length w) k); [rewrite (take_ge w) by lia; reflexivity|].
  rewrite (take_app (take k w) r), (take_app w r), take_take, length_take.
  replace (k - k `min` length w)%nat with (k - length w)%nat by lia. f_equal. f_equal. lia.
Qed.

Lemma join_words_acc ws : forall acc, (length acc <= 127)%nat ->
  join_words false ws acc = take 127 (acc ++ concat (map (fun w => 32 :: w) ws)).
Proof.
  induction ws as [|w ws IH]; intros acc Hl; [cbn; rewrite app_nil_r, take_ge by lia; reflexivity|].
  cbn [join_words map concat]. destruct (Nat.ltb_spec (length acc) 127) as [Hlt|Hge].
  - cbv zeta. rewrite IH by (rewrite !length_app, length_take; cbn; lia).
    rewrite take_cut by (rewrite length_app; cbn; lia). rewrite <- (app_assoc acc [32]). reflexivity.
  - rewrite take_app, (take_ge acc) by lia. replace (127 - length acc)%nat with 0%nat by lia. rewrite take_0, app_nil_r. reflexivity.
Qed.

Lemma unwords_concat w ws : unwords (w :: ws) = w ++ concat (map (fun w => 32 :: w) ws).
Proof.
  revert w. induction ws as [|v ws IH]; intros w; [cbn; rewrite app_nil_r; reflexivity|].
  change (unwords (w :: v :: ws)) with (w ++ 32 :: unwords (v :: ws)). rewrite IH. reflexivity.
Qed.

(** The loop is cutting the joined words at 127 bytes. *)
Lemma join_words_spec ws : join_words true ws [] = take 127 (unwords ws).
Proof.
  destruct ws as [|w ws]; [reflexivity|]. rewrite unwords_concat. cbn [join_words length]. change (0 <? 127)%nat with true.
  cbv iota zeta. cbn [app length]. rewrite join_words_acc by (rewrite length_take; lia).
  exact (take_cut 127 [] w _ ltac:(cbn; lia)).
Qed.

Section files.
Context {M H F B : Type} {TM : TaskMem M} {SH : SmallHeap H} {SF : SmallHeap F} {SL : SmallHeapLaws F}
  {HB : HeapBackend B} (A : addrs).
Abbreviation K := (kernel M H F B).
Implicit Types k : K.

(** The words of a command line, at the pointers of its argument vector. *)
Definition argv_at (k : K) (argv : list Z) (ws : list (list Z)) : Prop :=
  Forall2 (fun p w => cstr (tmem (k_sh k)) p w /\ (length w <= 4096)%nat) argv ws.

Lemma join_args_spec k ps ws : argv_at k ps ws -> forall first acc,
  join_args first ps acc k = (inl (join_words first ws acc), k).
Proof.
  induction 1 as [|p w ps ws [Hw Hl] _ IH]; intros first acc; [reflexivity|]. cbn [join_args join_words].
  destruct (length acc <? 127)%nat; [|reflexivity]. cbv zeta. erewrite bind_spec by (apply string_at_spec; eassumption).
  apply IH.
Qed.

Definition ok_text (d : list Z) : list Z := text " ok (" ++ d ++ nl " bytes)".

Lemma printed_ok n : 0 <= n < 4294967296 -> exists d, to_digits 16 10 n = Some d /\
  printed (nl " ok (%u bytes)") [Num (u32 n)] = Some (ok_text d).
Proof.
  intros Hn. destruct (to_digits_spec 10 16 n) as (d & E & _); [lia|lia|simpl; lia|]. exists d. split; [exact E|].
  change (nl " ok (%u bytes)") with (text " ok (" ++ 37 :: 117 :: nl " bytes)").
  rewrite printed_lit by reflexivity. rewrite (printed_conv 117 _ _ _ d); [|reflexivity|].
  - rewrite printed_plain by reflexivity. reflexivity.
  - unfold conv_text. cbn [Z.eqb Pos.eqb arg_val]. rewrite !u32_small; [exact E|lia|rewrite u32_small; lia].
Qed.

Definition not_writable_text (path : list Z) : list Z := text " write: '" ++ path ++ nl "' is not writable".

Lemma cmd_write_spec k c p ps w path ws n : argv_at k (c :: p :: ps) (w :: path :: ws) -> ws <> [] ->
  tfs_lookup (a_root A) path (k_fs k) = Some n -> n <> 0 ->
  exists d, to_digits 16 10 (len (take 127 (unwords ws))) = Some d /\
  cmd_write A (c :: p :: ps) k =
    let '(r, f) := tfs_write n (take 127 (unwords ws)) (k_fs k) in
    (inl tt, shows (if r =? 0 then ok_text d else not_writable_text path) (set_fs f k)).
Proof.
  intros Ha Hws Hl Hn. apply list.Forall2_cons in Ha as [_ Ha]. apply list.Forall2_cons in Ha as [[Hp Hpl] Ha].
  set (t := take 127 (unwords ws)). destruct (printed_ok (len t)) as (d & Ed & Ep);
    [unfold t; rewrite length_take; lia|]. exists d. split; [exact Ed|].
  unfold cmd_write, argc. assert (1 <= length ps)%nat as Hps.
  { rewrite (list.Forall2_length _ _ _ Ha). destruct ws; [contradiction|cbn; lia]. }
  cbn [length]. replace (_ <? 3) with false by lia. cbn [arg_n nth drop].
  erewrite bind_spec by (apply string_at_spec; eassumption). cbv zeta.
  erewrite bind_spec by (unfold lookup, mbind, cmd_bind, get, lift; rewrite Hl; reflexivity).
  apply Z.eqb_neq in Hn. rewrite Hn. erewrite bind_spec by (apply join_args_spec; exact Ha).
  rewrite join_words_spec. fold t. unfold mbind at 1, cmd_bind at 1, get at 1.
  destruct (tfs_write n t (k_fs k)) as [r f]. erewrite bind_spec by reflexivity. destruct (r =? 0).
  - apply say_text, Ep.
  - apply say_text. change (nl " write: '%s' is not writable") with (text " write: '" ++ 37 :: 115 :: nl "' is not writable").
    rewrite printed_lit by reflexivity. rewrite (printed_conv 115 _ _ _ path); [|reflexivity|reflexivity].
    rewrite printed_plain by reflexivity. reflexivity.
Qed.

Lemma cmd_cat_spec k c p w path n d : argv_at k [c; p] [w; path] ->
  tfs_lookup (a_root A) path (k_fs k) = Some n -> n <> 0 -> node (nodes (k_fs k)) n = d ->
  n_type d = TFS_FILE -> n_gen d = 0 -> n_size d = len (content d) -> len (content d) < 4294967296 ->
  cmd_cat A [c; p] k = (inl tt, shows (content d) k).
Proof.
  intros Ha Hl Hn Hd Ht Hg Hs Hb. apply list.Forall2_cons in Ha as [_ Ha]. apply list.Forall2_cons in Ha as [[Hp Hpl] _].
  unfold cmd_cat. change (argc [c; p] <? 2) with false. cbv iota. cbn [arg_n nth].
  erewrite bind_spec by (apply string_at_spec; eassumption). cbv zeta.
  erewrite bind_spec by (unfold lookup, mbind, cmd_bind, get, lift; rewrite Hl; reflexivity).
  apply Z.eqb_neq in Hn. rewrite Hn. erewrite bind_spec by (unfold node_at, mbind, cmd_bind, get; rewrite Hd; reflexivity).
  rewrite Ht, Hg, Hs. change (TFS_FILE =? TFS_DIR) with false. cbn [Z.eqb negb]. unfold content in *.
  destruct (n_data d) as [[a l]|].
  - unfold modify, shows. rewrite u32_small by lia. rewrite Nat2Z.id, firstn_all. reflexivity.
  - destruct k as [[[]] ]; reflexivity.
Qed.

(** What is written is what is shown: [write path words] on an ordinary file
    of a well-formed file system returns; when the allocator has a block the
    message reports the bytes, and [cat path] afterwards shows exactly the words
    with single spaces, cut at 127 bytes; when it has none the message says so
    and the files are unchanged.  The file system stays well formed and every
    path leads where it led. *)
Theorem write_then_cat k c p ps w path ws n m c' w' :
  argv_at k (c :: p :: ps) (w :: path :: ws) -> ws <> [] -> argv_at k [c'] [w'] ->
  fs_ok (a_root A) (k_fs k) -> tfs_lookup (a_root A) path (k_fs k) = Some n ->
  nodes (k_fs k) !! n = Some m -> n <> 0 -> n_type m = TFS_FILE -> n_gen m = 0 ->
  let t := take 127 (unwords ws) in
  exists k1, cmd_write A (c :: p :: ps) k = (inl tt, k1) /\ fs_ok (a_root A) (k_fs k1) /\ k_sh k1 = k_sh k /\
    (forall path', tfs_lookup (a_root A) path' (k_fs k1) = tfs_lookup (a_root A) path' (k_fs k)) /\
    ((exists d, to_digits 16 10 (len t) = Some d /\ k_vga k1 = put_all (ok_text d) (k_vga k) /\
        cmd_cat A [c'; p] k1 = (inl tt, shows t k1)) \/
     (k_vga k1 = put_all (not_writable_text path) (k_vga k) /\ nodes (k_fs k1) = nodes (k_fs k))).
Proof.
  intros Ha Hws Hc' Hok Hl Hn Hn0 Ht Hg t.
  destruct (cmd_write_spec k c p ps w path ws n Ha Hws Hl Hn0) as (d & Ed & Ew). fold t in Ed, Ew.
  pose proof (write_file (a_root A) (k_fs k) n m t Hok Hn Ht) as Hw.
  destruct (tfs_write n t (k_fs k)) as [r f]. destruct Hw as (Hok' & Hpaths & Hr). eexists. split; [exact Ew|].
  split; [exact Hok'|]. split; [reflexivity|]. split; [exact Hpaths|].
  destruct Hr as [(-> & E)|(-> & buf & E & Ec)]; [right; split; [reflexivity|exact E]|left].
  exists d. split; [exact Ed|]. split; [reflexivity|]. cbn [Z.eqb].
  assert (len t < 128) as Hlt by (unfold t; rewrite length_take; lia).
  rewrite (cmd_cat_spec _ c' p w' path n (set_data buf (len t) m)); [rewrite Ec; reflexivity| | | | | | | |].
  - apply list.Forall2_cons in Hc' as [Hc' _]. apply list.Forall2_cons in Ha as [_ Ha]. apply list.Forall2_cons in Ha as [Hp _].
    constructor; [exact Hc'|constructor; [exact Hp|constructor]].
  - rewrite <- Hl. apply Hpaths.
  - exact Hn0.
  - cbn. rewrite E. apply node_insert_eq.
  - exact Ht.
  - exact Hg.
  - rewrite Ec. reflexivity.
  - rewrite Ec. lia.
Qed.
End files.

(** The console formatter has no field widths: the directive [%2d] prints
    itself and takes no argument, so [%s] takes the argument before its own.
    [hist] shows its first line as a null string and follows the index 1 as a
    pointer on the second, and [help] shows the name of a command where its
    description belongs. *)
Theorem width_shifts_arguments i a s b d :
  printed (nl " %2d  %s") [Num 0; Ptr a s] = Some (nl " %2d  (null)") /\
  (0 < i -> printed (nl " %2d  %s") [Num i; Ptr a s] = None) /\
  printed (nl "   %-8s  %s") [Ptr a s; Ptr b d] = Some (text "   %-8s  " ++ s ++ [10]).
Proof.
  split; [reflexivity|]. split; [|reflexivity].
  intros Hi. destruct i; [lia|reflexivity|lia].
Qed.

(** * Witnesses *)

#[local] Existing Instances rising rising_laws.

(** A kernel with the file [/b], and the line [write /b hi you] split into words
    at 100, 110, 120 and 130. *)
Definition demo_words : bytes :=
  store_bytes 100 (text "write" ++ [0]) (store_bytes 110 (text "/b" ++ [0])
    (store_bytes 120 (text "hi" ++ [0]) (store_bytes 130 (text "you" ++ [0]) ∅))).
Definition demo_kernel : kernel flat_mem Z Z unit :=
  mk_kernel demo_sys (mk_tsh demo_words 0 0) demo_fs2 demo_heap 0 0 0 0.

Lemma demo_argv : argv_at demo_kernel [100; 110; 120; 130] [text "write"; text "/b"; text "hi"; text "you"].
Proof.
  repeat (apply list.Forall2_cons; split;
    [split; [vm_compute; repeat split; discriminate || reflexivity|apply Nat.leb_le; reflexivity]|]). constructor.
Qed.

Lemma write_then_cat_witness :
  exists k1, cmd_write demo_addrs [100; 110; 120; 130] demo_kernel = (inl tt, k1) /\ fs_ok 8 (k_fs k1).
Proof.
  destruct (write_then_cat demo_addrs demo_kernel 100 110 [120; 130] (text "write") (text "/b") [text "hi"; text "you"] 1000
    (node (nodes demo_fs2) 1000) 100 (text "write") demo_argv) as (k1 & E & Hok & _).
  - discriminate.
  - constructor; [|constructor]. split; [vm_compute; repeat split; discriminate || reflexivity|apply Nat.leb_le; reflexivity].
  - exact demo_ok2.
  - vm_compute. reflexivity.
  - vm_compute. reflexivity.
  - discriminate.
  - vm_compute. reflexivity.
  - vm_compute. reflexivity.
  - exists k1. split; [exact E|exact Hok].
Defined.
