(* ===== verification/Typing.v ===== *)
(** From keys to a command: the key loop of [ternel_main] takes a typed line
    from the keyboard ring through the line editor, the history, the log and
    the tokenizer to the function of the command it names. *)
From Stdlib Require Import String Ascii.
From stdpp Require Import prelude gmap list numbers.
From Stdlib Require Import ZArith Lia ZifyBool List.
From S2P Require Import Prelude TtaskCore Ttask Tpmm Tmalloc Tvmm Tstring Telf Tsec Tfs TfsSpec Keyboard Vga Tsh Printf Serial Idt Tsys Tprocfs Tline Ternel Demos Shell ShellSpec.
#[local] Open Scope Z_scope.

(** A step that succeeds, in any state. *)
Lemma bind_step {S X Y : Type} (m : cmd S X) (f : X -> cmd S Y) s x s' : m s = (inl x, s') -> (m ≫= f) s = f x s'.
Proof. intros E. unfold mbind, cmd_bind. rewrite E. reflexivity. Qed.

(** Equal results continue equally. *)
Lemma bind_congr {S X Y : Type} (m m' : cmd S X) (f : X -> cmd S Y) s s' : m s = m' s' -> (m ≫= f) s = (m' ≫= f) s'.
Proof. intros E. unfold mbind, cmd_bind. rewrite E. reflexivity. Qed.
Lemma bind_assoc_at {S X Y Z : Type} (m : cmd S X) (f : X -> cmd S Y) (g : Y -> cmd S Z) s :
  ((m ≫= f) ≫= g) s = (m ≫= (fun x => f x ≫= g)) s.
Proof. unfold mbind, cmd_bind. destruct (m s) as [[x|x] s1]; reflexivity. Qed.

Section typing.
Context {M H F B : Type} {TM : TaskMem M} {SH : SmallHeap H} {SF : SmallHeap F} {HB : HeapBackend B} (A : addrs).
Abbreviation K := (kernel M H F B).
Context (blobs : list user_blob) (line expanded nbuf : Z) (polls : nat).
Abbreviation sh_state := (@shell M H F B).
Implicit Types (k : K) (s : sh_state) (h : list (list Z)) (e : list (list Z * list Z)) (t : list Z).

(** What a key or a line may touch before its command runs. *)
Definition touched (sh : tsh) (kb : keyboard) (v : vga) (ser : serial) k : K :=
  set_sh sh (set_mach k (with_ser ser (with_kb kb (Idt.with_vga v (k_mach k))))).

Definition k_kb k : keyboard := m_kb (k_mach k).
Definition k_ser k : serial := m_ser (k_mach k).

Lemma touched_touched sh kb v ser sh' kb' v' ser' k :
  touched sh' kb' v' ser' (touched sh kb v ser k) = touched sh' kb' v' ser' k.
Proof. reflexivity. Qed.

Lemma touched_id k : touched (k_sh k) (k_kb k) (k_vga k) (k_ser k) k = k.
Proof. destruct k as [[[]] ]. reflexivity. Qed.

(** The function that a line calls: by the first of its words. *)
Definition invoke (argv : list Z) (ws : list (list Z)) : cmd K unit :=
  match argv, ws with
  | p :: _, w :: _ =>
      match find_command w with
      | Some c => run A blobs c argv
      | None => say (nl " unknown command '%s' (try 'help')") [Ptr p w]
      end
  | _, _ => skip
  end.

(** The line is cleared and a new prompt printed. *)
Definition new_prompt : cmd sh_state unit :=
  modify (fun s => with_editor (print_prompt (with_line (<[line := 0]> (tmem (k_sh (s_kernel s)))) 0 0 (s_pos s) (editor_of s))) s).

(** The memory of the shell: its tables, the array [line] and the literal of the
    log message do not overlap. *)
Definition log_fmt : list Z := nl "cmd: %s".
Record layout : Prop := {
  ly_statics : statics_apart (a_env_keys A) (a_env_vals A) (a_hist_entries A) (a_arg_buf A);
  ly_key : client (a_env_keys A) (a_env_vals A) (a_hist_entries A) (a_arg_buf A) (a_keybuf A) 32;
  ly_line : readable (a_env_keys A) (a_env_vals A) (a_hist_entries A) (a_arg_buf A) (a_keybuf A) line 128;
  ly_line_pos : line <> 0;
  ly_fmt : separate (a_lit A log_fmt) 9 line 128 /\ separate (a_lit A log_fmt) 9 (a_hist_entries A) 4096 /\
    separate (a_lit A log_fmt) 9 (a_arg_buf A) 1024 /\ separate (a_lit A log_fmt) 9 (a_keybuf A) 32
}.

(** The loop with the text [t] typed so far, the cursor at its end. *)
Record typing s h e t : Prop := {
  ty_edit : holds (a_hist_entries A) line h (editor_of s) (mk_edited t (length t) (length h));
  ty_env : env_ok (a_env_keys A) (a_env_vals A) (k_sh (s_kernel s)) e;
  ty_fmt : cstr (tmem (k_sh (s_kernel s))) (a_lit A log_fmt) log_fmt;
  ty_kb : kb_ok (k_kb (s_kernel s))
}.

Context (L : layout).

Lemma line_hist : separate line 128 (a_hist_entries A) 4096.
Proof. destruct (ly_line L) as ((_ & _ & Hh & _) & _). exact Hh. Qed.

(** A character at the end of the line is appended and echoed. *)
Lemma type_end h t c ed : holds (a_hist_entries A) line h ed (mk_edited t (length t) (length h)) -> 32 <= c < 128 ->
  (length t < 127)%nat ->
  exists ed', edit_key (a_hist_entries A) line c ed = Some ed' /\
    holds (a_hist_entries A) line h ed' (mk_edited (t ++ [c]) (length (t ++ [c])) (length h)) /\
    edit_frame line ed ed' /\ ed_vga ed' = vga_putchar c (ed_vga ed).
Proof.
  intros Ho Hc Hl. destruct (edit_key_spec _ _ h line_hist (proj2 (sa_pos _ _ _ _ (ly_statics L))) ed _ c Ho) as (ed' & E & Ho' & Hf);
    [split; lia|].
  exists ed'. split; [exact E|]. split; [|split; [exact Hf|]].
  - revert Ho'. unfold key_spec. unfold KEY_DEL, KEY_LEFT, KEY_RIGHT, KEY_HOME, KEY_END, KEY_UP, KEY_DOWN. cbn [l_text l_cur l_pos].
    repeat (replace (c =? _) with false by lia). replace (_ && _) with true by lia.
    rewrite take_ge, drop_ge by lia. rewrite length_app, Nat.add_1_r. auto.
  - revert E. unfold edit_key, KEY_DEL, KEY_LEFT, KEY_RIGHT, KEY_HOME, KEY_END, KEY_UP, KEY_DOWN.
    repeat (replace (c =? _) with false by lia). destruct Ho as [_ Hn [Hcu _] _ _ _]. cbn [l_text l_cur] in Hn, Hcu.
    rewrite Hn. replace (_ && _) with true by lia. unfold type_char. rewrite Hn, Hcu, Z.eqb_refl. injection 1 as <-.
    cbn. rewrite u8_small by lia. reflexivity.
Qed.

Abbreviation turn := (key_turn A blobs line expanded nbuf polls).
Abbreviation loop := (key_loop A blobs line expanded nbuf polls).

(** The state after typing: the text on the screen, the keys taken. *)
Definition typed_state s h t v kb sh : sh_state :=
  mk_shell (touched sh kb v (k_ser (s_kernel s)) (s_kernel s)) (len t) (len t) (len h) (s_row s).

Lemma type_turn s h e t c q : typing s h e t -> kb_list (k_kb (s_kernel s)) = c :: q -> 32 <= c < 128 -> (length t < 127)%nat ->
  exists sh kb, let s' := typed_state s h (t ++ [c]) (vga_putchar c (k_vga (s_kernel s))) kb sh in
    turn s = (inl true, s') /\ typing s' h e (t ++ [c]) /\ kb_list kb = q.
Proof.
  intros [Ho He Hfm Hkb] Hq Hc Hl. pose proof (getchar_spec _ Hkb) as Hg.
  destruct (keyboard_getchar (k_kb (s_kernel s))) as [c' kb] eqn:Eg. destruct Hg as (Hkb' & _ & [[E _]|E]); [congruence|].
  rewrite Hq in E. injection E as <- ->.
  destruct (type_end h t c (editor_of s) Ho Hc Hl) as (ed & E & Ho' & (Fe & Fh & Fr & Fm) & Ev).
  change (ed_vga (editor_of s)) with (k_vga (s_kernel s)) in Ev. exists (ed_sh ed), kb. cbv zeta. unfold typed_state. rewrite <- Ev.
  assert (mk_shell (touched (ed_sh ed) kb (ed_vga ed) (k_ser (s_kernel s)) (s_kernel s)) (len (t ++ [c])) (len (t ++ [c])) (len h) (s_row s)
    = with_editor ed (mk_shell (set_mach (s_kernel s) (with_kb kb (k_mach (s_kernel s)))) (s_len s) (s_cursor s) (s_pos s) (s_row s))) as ->.
  { destruct Ho' as [_ H1 [H2 _] [H3 _] _ _]. cbn [l_text l_cur l_pos] in H1, H2, H3. unfold with_editor.
    rewrite H1, H2, H3, Fr. reflexivity. }
  split; [|split; [split|reflexivity]].
  - unfold key_turn. erewrite bind_step by reflexivity. fold (k_kb (s_kernel s)). rewrite Eg.
    erewrite bind_step by reflexivity. replace (c =? KEY_NONE) with false by (unfold KEY_NONE; lia).
    erewrite bind_step; [reflexivity|]. unfold main_key. replace (c =? 10) with false by lia. unfold on_editor.
    erewrite bind_step by reflexivity. erewrite bind_step; [reflexivity|].
    change (editor_of (mk_shell _ _ _ _ _)) with (editor_of s). rewrite E. reflexivity.
  - destruct ed. exact Ho'.
  - cbn. apply (env_ok_frame _ _ (k_sh (s_kernel s))); [exact He|exact Fe|]. intros x Hx. apply Fm.
    destruct (ly_line L) as ((Hk & Hv & _) & _). unfold separate in *. lia.
  - change (cstr (tmem (ed_sh ed)) (a_lit A log_fmt) log_fmt). eapply cstr_frame; [|exact Hfm]. intros x Hx. apply Fm. destruct (ly_fmt L) as (Hs & _).
    unfold separate in Hs. change (length log_fmt) with 8%nat in Hx. lia.
  - exact Hkb'.
Qed.

(** The keys of a text. *)
Lemma type_turns f ts : forall s h e t q, typing s h e t -> kb_list (k_kb (s_kernel s)) = ts ++ q ->
  Forall (fun c => 32 <= c < 128) ts -> (length (t ++ ts) <= 127)%nat -> s_len s = len t -> s_cursor s = len t -> s_pos s = len h ->
  exists sh kb, let s' := typed_state s h (t ++ ts) (put_all ts (k_vga (s_kernel s))) kb sh in
    loop (length ts + f) s = loop f s' /\ typing s' h e (t ++ ts) /\ kb_list kb = q.
Proof.
  induction ts as [|c ts IH]; intros s h e t q Ht Hq Hcs Hl E1 E2 E3.
  { exists (k_sh (s_kernel s)), (k_kb (s_kernel s)). cbv zeta. unfold typed_state, put_all. cbn [fold_left]. rewrite app_nil_r, touched_id.
    assert (mk_shell (s_kernel s) (len t) (len t) (len h) (s_row s) = s) as -> by (destruct s; cbn in *; congruence).
    split; [reflexivity|]. split; [exact Ht|exact Hq]. }
  apply list.Forall_cons in Hcs as [Hc Hcs]. rewrite length_app in Hl. cbn [length] in Hl.
  destruct (type_turn s h e t c (ts ++ q) Ht Hq Hc ltac:(lia)) as (sh1 & kb1 & T1 & Ht1 & Hq1).
  destruct (IH _ h e (t ++ [c]) q Ht1 Hq1 Hcs ltac:(rewrite !length_app; cbn [length]; lia) eq_refl eq_refl eq_refl)
    as (sh2 & kb2 & T2 & Ht2 & Hq2).
  rewrite <- app_assoc in T2, Ht2. cbn [app] in T2, Ht2. exists sh2, kb2. cbv zeta. split; [|split; [exact Ht2|exact Hq2]].
  cbn [length Nat.add key_loop]. erewrite bind_step by exact T1. exact T2.
Qed.

(** ** The line is executed *)

Lemma on_kernel_step {X} (c : cmd K X) s x k' : c (s_kernel s) = (inl x, k') ->
  on_kernel c s = (inl x, mk_shell k' (s_len s) (s_cursor s) (s_pos s) (s_row s)).
Proof. intros E. unfold on_kernel. rewrite E. reflexivity. Qed.

(** The log line. *)
Lemma log_command_spec k t : cstr (tmem (k_sh k)) line t -> (length t <= 127)%nat ->
  cstr (tmem (k_sh k)) (a_lit A log_fmt) log_fmt -> transmits polls (k_ser k) ->
  exists ser, log_command A line nbuf polls k = (inl tt, touched (k_sh k) (k_kb k) (k_vga k) ser k) /\
    after_sending COM1 (tlog_tag ++ text "cmd: " ++ t ++ [10]) (k_ser k) ser.
Proof.
  intros Ht Hl Hf Htr. set (str := fun a => if a =? line then Some t else None).
  assert (render str log_fmt [line] = Some (text "cmd: " ++ t ++ [10])) as Er.
  { change log_fmt with (text "cmd: " ++ 37 :: 115 :: [10]).
    rewrite render_lit by (vm_compute; repeat constructor; discriminate).
    rewrite (render_s str _ line _ t (ly_line_pos L)) by (unfold str; rewrite Z.eqb_refl; reflexivity). reflexivity. }
  edestruct (tlog_sends polls 4096 (tmem (k_sh k)) nbuf (a_lit A log_fmt)) with (4 := Er) as (ser & E & Ha); [|exact Hf| |exact Htr|].
  - intros a u. unfold str. destruct (Z.eqb_spec a line) as [->|]; [|discriminate]. injection 1 as <-.
    split; [exact Ht|]. change (length log_fmt) with 8%nat. lia.
  - change (length log_fmt) with 8%nat. lia.
  - exists ser. split; [|exact Ha]. unfold log_command. erewrite bind_step by reflexivity. fold log_fmt.
    erewrite bind_step by (fold (k_ser k); rewrite E; reflexivity). unfold touched, k_kb, k_vga, k_mach.
    destruct k as [[[]] ]. reflexivity.
Qed.

Definition line_words e t : list (list Z) := words 8 e t.
Definition line_argv e t : list Z := map (arg_row (a_arg_buf A)) (seqZ 0 (len (line_words e t))).

(** The tokenizer and the search of the command table. *)
Lemma run_command_spec k h e t : env_ok (a_env_keys A) (a_env_vals A) (k_sh k) e -> hist_ok (a_hist_entries A) (k_sh k) h ->
  cstr (tmem (k_sh k)) line t -> (length t <= 127)%nat -> Forall (fun w => len w < 128) (line_words e t) ->
  exists sh, run_command A blobs line k = invoke (line_argv e t) (line_words e t) (set_sh sh k) /\
    argv_at (set_sh sh k) (line_argv e t) (line_words e t) /\
    env_ok (a_env_keys A) (a_env_vals A) sh e /\ hist_ok (a_hist_entries A) sh h /\ kept (a_arg_buf A) (a_keybuf A) 0 (k_sh k) sh.
Proof.
  intros He Hh Ht Hl Hw. pose proof (ly_statics L) as Hst. pose proof (ly_key L) as Hkey.
  assert (readable (a_env_keys A) (a_env_vals A) (a_hist_entries A) (a_arg_buf A) (a_keybuf A) line (len t + 1)) as Hr.
  { destruct (ly_line L) as ((? & ? & ? & ?) & ?). repeat split; unfold separate in *; lia. }
  destruct (tokenize_spec _ _ _ _ (a_keybuf A) e Hst Hkey 4096 8 0 line t (k_sh k)) as (argv & sh & E & Ea & Kp & Hrows);
    auto; try lia.
  { eapply list.Forall_impl; [exact Hw|]. intros w Hlw. cbn in *. lia. }
  exists sh. fold (line_words e t) in Ea, Hrows. fold (line_argv e t) in Ea. subst argv.
  assert (argv_at (set_sh sh k) (line_argv e t) (line_words e t)) as Hargv.
  { apply Forall2_lookup. intros i. unfold line_argv. change (map ?g ?l) with (g <$> l). rewrite list_lookup_fmap.
    destruct (line_words e t !! i) as [w|] eqn:Ew.
    - pose proof (lookup_lt_Some _ _ _ Ew). rewrite lookup_seqZ_lt by lia. constructor. split; [apply Hrows, Ew|].
      apply (Forall_lookup_1 _ _ _ _ Hw) in Ew. cbn in Ew. lia.
    - apply lookup_ge_None in Ew. rewrite lookup_seqZ_ge by lia. constructor. }
  split; [|split; [exact Hargv|split; [eapply kept_env; eauto; lia|split; [eapply kept_hist; eauto; lia|exact Kp]]]].
  unfold run_command. erewrite bind_step by reflexivity. erewrite bind_step by (unfold tsh_tokenize, TSH_ARGV_MAX; change (Z.to_nat 8) with 8%nat; rewrite E; reflexivity).
  erewrite bind_step by reflexivity. cbn [fst snd]. unfold invoke. inversion Hargv as [|p w ps ws [Hp Hpl] Hrest E1 E2]; [reflexivity|].
  erewrite bind_step by (apply string_at_spec; eassumption). reflexivity.
Qed.

(** The state in which the command of the line starts. *)
Definition line_state s h t v kb sh ser : sh_state :=
  mk_shell (touched sh kb v ser (s_kernel s)) (len t) (s_cursor s) (len (hist_after h t)) (s_row s).

Lemma execute_line_spec s h e t : typing s h e t -> s_len s = len t -> Forall (fun w => len w < 128) (line_words e t) ->
  transmits polls (k_ser (s_kernel s)) ->
  exists sh ser, let s1 := line_state s h t (k_vga (s_kernel s)) (k_kb (s_kernel s)) sh ser in
    execute_line A blobs line nbuf polls s = on_kernel (invoke (line_argv e t) (line_words e t)) s1 /\
    argv_at (s_kernel s1) (line_argv e t) (line_words e t) /\
    env_ok (a_env_keys A) (a_env_vals A) sh e /\ hist_ok (a_hist_entries A) sh (hist_after h t) /\
    cstr (tmem sh) (a_lit A log_fmt) log_fmt /\
    after_sending COM1 (tlog_tag ++ text "cmd: " ++ t ++ [10]) (k_ser (s_kernel s)) ser.
Proof.
  intros [Ho He Hfm Hkb] Hn Hw Htr. destruct Ho as [[Ht Hl] _ _ _ Hh _]. cbn [l_text ed_sh editor_of] in Ht, Hl, Hh.
  pose proof (ly_line L) as ((L1 & L2 & L3 & L4) & L5). destruct (ly_fmt L) as (_ & Lf & Lfa & Lfk). unfold separate in *.
  assert (client (a_env_keys A) (a_env_vals A) (a_hist_entries A) (a_arg_buf A) line (len t + 1)) as Cl
    by (repeat split; unfold separate; lia).
  destruct (tsh_hist_push_correct _ _ _ _ (ly_statics L) (k_sh (s_kernel s)) e h line t 4096 He Hh ltac:(lia) Ht ltac:(lia) Cl)
    as (r & sh1 & E1 & He1 & Hh1 & _).
  pose proof (hist_push_frame _ _ _ _ _ _ _ _ Hh Ht ltac:(lia) ltac:(unfold separate; lia) E1) as Hfr.
  set (s1 := mk_shell (set_sh sh1 (s_kernel s)) (s_len s) (s_cursor s) (tsh_hist_count sh1) (s_row s)).
  destruct (log_command_spec (s_kernel s1) t) as (ser & E2 & Hs).
  - eapply cstr_frame; [|exact Ht]. intros x Hx. apply Hfr. lia.
  - exact Hl.
  - eapply cstr_frame; [|exact Hfm]. intros x Hx. apply Hfr. change (length log_fmt) with 8%nat in Hx. lia.
  - exact Htr.
  - destruct (run_command_spec (touched sh1 (k_kb (s_kernel s)) (k_vga (s_kernel s)) ser (s_kernel s)) (hist_after h t) e t)
      as (sh & E3 & Ha & He3 & Hh3 & Kp); auto.
    { eapply cstr_frame; [|exact Ht]. intros x Hx. apply Hfr. lia. }
    exists sh, ser. cbv zeta. split; [|split; [exact Ha|split; [exact He3|split; [exact Hh3|split; [|exact Hs]]]]].
    2: { eapply cstr_frame; [|exact Hfm]. intros x Hx. change (length log_fmt) with 8%nat in Hx.
         rewrite (kp_mem _ _ _ _ _ Kp) by (unfold arg_row, TSH_ARG_MAX; lia). apply Hfr. lia. }
    unfold execute_line. erewrite bind_step by reflexivity. erewrite bind_step by (rewrite E1; reflexivity).
    erewrite bind_step by reflexivity. erewrite bind_step by reflexivity. cbn [snd].
    erewrite bind_step by (apply on_kernel_step; exact E2). unfold on_kernel. cbn [s_kernel].
    change (touched _ _ _ ser _) with (touched sh1 (k_kb (s_kernel s)) (k_vga (s_kernel s)) ser (s_kernel s)) at 1.
    rewrite E3. unfold line_state. cbn [s_kernel s_len s_cursor s_pos s_row s1]. rewrite Hn.
    destruct Hh1 as (Hc & _). unfold tsh_hist_count. rewrite Hc. reflexivity.
Qed.

Lemma enter_turn s h e t q : typing s h e t -> s_len s = len t -> kb_list (k_kb (s_kernel s)) = 10 :: q ->
  t <> [] -> hd 0 t <> 33 -> Forall (fun w => len w < 128) (line_words e t) -> transmits polls (k_ser (s_kernel s)) ->
  exists sh ser kb, let s1 := line_state s h t (vga_putchar 10 (k_vga (s_kernel s))) kb sh ser in
    turn s = (on_kernel (invoke (line_argv e t) (line_words e t)) ;; new_prompt ;; mret true) s1 /\
    argv_at (s_kernel s1) (line_argv e t) (line_words e t) /\
    env_ok (a_env_keys A) (a_env_vals A) sh e /\ hist_ok (a_hist_entries A) sh (hist_after h t) /\
    cstr (tmem sh) (a_lit A log_fmt) log_fmt /\
    after_sending COM1 (tlog_tag ++ text "cmd: " ++ t ++ [10]) (k_ser (s_kernel s)) ser /\ kb_ok kb /\ kb_list kb = q.
Proof.
  intros Hty Hn Hq Ht0 Hbang Hw Htr. pose proof (getchar_spec _ (ty_kb _ _ _ _ Hty)) as Hg.
  destruct (keyboard_getchar (k_kb (s_kernel s))) as [c kb] eqn:Eg. destruct Hg as (Hkb & _ & [[E _]|E]); [congruence|].
  rewrite Hq in E. injection E as <- ->.
  set (s0 := mk_shell (touched (k_sh (s_kernel s)) kb (vga_putchar 10 (k_vga (s_kernel s))) (k_ser (s_kernel s)) (s_kernel s))
    (s_len s) (s_cursor s) (s_pos s) (s_row s)).
  assert (typing s0 h e t) as Hty0.
  { destruct Hty as [[H1 H2 H3 H4 H5 H6] He Hf _]. split; [|exact He|exact Hf|exact Hkb]. split; try assumption.
    exact (proj1 (op_spec _ (OpPutchar 10) H6)). }
  destruct (execute_line_spec s0 h e t Hty0 Hn Hw Htr) as (sh & ser & E & Ha & He & Hh & Hfm & Hs).
  exists sh, ser, kb. cbv zeta. split; [|auto 10]. unfold key_turn. erewrite bind_step by reflexivity.
  fold (k_kb (s_kernel s)). rewrite Eg. erewrite bind_step by reflexivity. cbn [Z.eqb KEY_NONE].
  unfold main_key. change (10 =? 10) with true. change (10 =? -1) with false. cbv iota.
  set (s1 := line_state s _ _ _ _ _ _). rewrite <- bind_assoc_at. apply bind_congr.
  unfold enter. erewrite bind_step by reflexivity. erewrite bind_step by reflexivity. apply bind_congr.
  match goal with |- _ ?x = _ => change x with s0 end. refine (eq_trans _ E). change (s_len s0) with (s_len s). rewrite Hn.
  replace (len t >? 0) with true by (destruct t; [congruence|cbn; lia]).
  erewrite bind_step by reflexivity.
  assert (negb (rd (tmem (k_sh (s_kernel s))) line =? 33) = true) as Eb.
  { destruct Hty as [[[Ht _] _ _ _ _ _] _ _ _]. destruct t as [|c t]; [congruence|]. cbn in Ht, Hbang.
    destruct Ht as (_ & -> & _). lia. }
  erewrite bind_step by (unfold tsh_hist_expand; change (tmem (k_sh (s_kernel s0))) with (tmem (k_sh (s_kernel s))); rewrite Eb; reflexivity). erewrite bind_step by reflexivity.
  cbn [fst Z.ltb Z.gtb Z.compare]. erewrite bind_step by reflexivity. unfold s0. reflexivity.
Qed.

(** The keys of a line, up to the start of its command. *)
Lemma typed_line f s h e t q :
  typing s h e [] -> kb_list (k_kb (s_kernel s)) = t ++ 10 :: q ->
  Forall (fun c => 32 <= c < 128) t -> (1 <= length t <= 127)%nat -> hd 0 t <> 33 ->
  Forall (fun w => len w < 128) (line_words e t) -> transmits polls (k_ser (s_kernel s)) ->
  exists sh kb ser,
    let s1 := mk_shell (touched sh kb (put_all (t ++ [10]) (k_vga (s_kernel s))) ser (s_kernel s))
                (len t) (len t) (len (hist_after h t)) (s_row s) in
    loop (length t + S f) s = (on_kernel (invoke (line_argv e t) (line_words e t)) ;; new_prompt ;; loop f) s1 /\
    argv_at (s_kernel s1) (line_argv e t) (line_words e t) /\
    env_ok (a_env_keys A) (a_env_vals A) sh e /\ hist_ok (a_hist_entries A) sh (hist_after h t) /\
    cstr (tmem sh) (a_lit A log_fmt) log_fmt /\
    after_sending COM1 (tlog_tag ++ text "cmd: " ++ t ++ [10]) (k_ser (s_kernel s)) ser /\
    kb_ok kb /\ kb_list kb = q.
Proof.
  intros Hty Hq Hcs Hl Hbang Hw Htr. pose proof (ty_edit _ _ _ _ Hty) as [_ E1 [E2 _] [E3 _] _ _].
  destruct (type_turns (S f) t s h e [] (10 :: q) Hty Hq Hcs ltac:(cbn [app]; lia) E1 E2 E3) as (sh1 & kb1 & T1 & Hty1 & Hq1).
  cbn [app] in T1, Hty1.
  destruct (enter_turn _ h e t q Hty1 eq_refl Hq1 ltac:(intros ->; cbn in Hl; lia) Hbang Hw Htr)
    as (sh & ser & kb & T2 & Ha & He & Hh & Hfm & Hs & Hk & Hkq).
  exists sh, kb, ser. cbv zeta. rewrite put_all_app. split; [|auto 10].
  rewrite T1. cbn [key_loop]. rewrite (bind_congr _ _ _ _ _ T2), bind_assoc_at.
  unfold mbind at 1 4, cmd_bind at 1 4. cbv beta. change (line_state (typed_state _ _ _ _ _ _) _ _ _ _ _ _) with
    (mk_shell (touched sh kb (vga_putchar 10 (put_all t (k_vga (s_kernel s)))) ser (s_kernel s)) (len t) (len t) (len (hist_after h t)) (s_row s)).
  change (put_all [10] ?v) with (vga_putchar 10 v). destruct (on_kernel _ _) as [[[]|x] s2]; reflexivity.
Qed.

(** C18. Typing a command runs it.  At an empty prompt, with the characters of a
    line and Enter in the keyboard ring, the key loop takes exactly those keys,
    shows the line as it is typed, stores it in the history and in the log, and
    then does what the function of the command named by its first word does on
    the words of the line (quotes, escapes and variables expanded), or reports
    an unknown command, before it prints a new prompt and goes on; up to the
    start of that function nothing else of the kernel has changed. *)
Theorem typed_line_runs f s h e t q :
  typing s h e [] -> kb_list (k_kb (s_kernel s)) = t ++ 10 :: q ->
  Forall (fun c => 32 <= c < 128) t -> (1 <= length t <= 127)%nat -> hd 0 t <> 33 ->
  Forall (fun w => len w < 128) (line_words e t) -> transmits polls (k_ser (s_kernel s)) ->
  exists sh kb ser,
    let s1 := mk_shell (touched sh kb (put_all (t ++ [10]) (k_vga (s_kernel s))) ser (s_kernel s))
                (len t) (len t) (len (hist_after h t)) (s_row s) in
    loop (length t + S f) s = (on_kernel (invoke (line_argv e t) (line_words e t)) ;; new_prompt ;; loop f) s1 /\
    argv_at (s_kernel s1) (line_argv e t) (line_words e t) /\
    env_ok (a_env_keys A) (a_env_vals A) sh e /\ hist_ok (a_hist_entries A) sh (hist_after h t) /\
    after_sending COM1 (tlog_tag ++ text "cmd: " ++ t ++ [10]) (k_ser (s_kernel s)) ser /\
    kb_ok kb /\ kb_list kb = q.
Proof.
  intros Hty Hq Hcs Hl Hbang Hw Htr.
  destruct (typed_line f s h e t q Hty Hq Hcs Hl Hbang Hw Htr) as (sh & kb & ser & E & Ha & He & Hh & _ & Hs & Hk).
  exists sh, kb, ser. auto 8.
Qed.
End typing.

(** * Witness *)

#[local] Existing Instances rising easy_backend.

(** A kernel at its first prompt, the line at 100, with [ver] and Enter typed. *)
Definition demo_keyboard : keyboard := fold_left (fun k c => key_buffer_push c k) [118; 101; 114; 10] keyboard_start.
Definition demo_prompt : shell :=
  mk_shell (touched (mk_tsh (store_bytes 600 (log_fmt ++ [0]) ∅) 0 0) demo_keyboard demo_screen demo_uart demo_kernel) 0 0 0 2.

Lemma demo_layout : layout demo_addrs 100.
Proof.
  split; cbn; [exact demo_apart|apply demo_client; lia| |discriminate|unfold separate; lia].
  split; [apply demo_client; lia|unfold separate; lia].
Qed.

Lemma demo_keyboard_ok : kb_ok demo_keyboard /\ kb_list demo_keyboard = text "ver" ++ [10].
Proof.
  split; [|vm_compute; reflexivity]. unfold demo_keyboard. cbn [fold_left].
  repeat (apply push_spec). apply kb_start_ok.
Qed.

Lemma demo_typing : typing demo_addrs 100 demo_prompt [] [] [].
Proof.
  split; [| | |apply demo_keyboard_ok].
  - split; cbn [l_text l_cur l_pos length]; try (split; [vm_compute; reflexivity|lia]); try (vm_compute; reflexivity).
    + split; [reflexivity|]. split; [cbn; lia|]. intros i l Hi. discriminate.
    + vm_compute. intuition discriminate.
  - split; [reflexivity|]. split; [cbn; lia|]. split; [constructor|]. intros i k v Hi. discriminate.
  - vm_compute. repeat split; discriminate || reflexivity.
Qed.

Lemma typed_line_runs_witness :
  exists s1, key_loop demo_addrs [] 100 0 950 1 5 demo_prompt =
    (on_kernel (cmd_ver [16000]) ;; new_prompt 100 ;; key_loop demo_addrs [] 100 0 950 1 1) s1 /\
    argv_at (s_kernel s1) [16000] [text "ver"].
Proof.
  destruct (typed_line_runs demo_addrs [] 100 0 950 1 demo_layout 1 demo_prompt [] [] (text "ver") [])
    as (sh & kb & ser & E & Ha & _).
  - exact demo_typing.
  - exact (proj2 demo_keyboard_ok).
  - vm_compute. repeat constructor; discriminate.
  - cbn. lia.
  - discriminate.
  - vm_compute. repeat constructor.
  - exact demo_transmits.
  - eexists. split; [exact E|exact Ha].
Defined.

(** The whole loop on those keys: the line, the version, the next prompt. *)
Definition demo_shown : vga := put_all (nl "ver" ++ nl " TrigerOS v0.12.0 (x86_64, Multiboot2)" ++ PROMPT) demo_screen.

Lemma demo_version_shown :
  (let '(r, s1) := key_loop demo_addrs [] 100 0 950 1 6 demo_prompt in
   match r with inl _ => forallb (fun x => rd (VGA_MEM (k_vga (s_kernel s1))) x =? rd (VGA_MEM demo_shown) x) (seqZ 0 2000) | inr _ => false end)
  = true.
Proof. vm_compute. reflexivity. Qed.
