(* ===== verification/Session.v ===== *)
(** Sessions at the kernel's shell: a typed line whose command returns leaves a
    prompt again, so that typed lines compose; and, from the keyboard to the
    screen, a file that is written by one line is shown by the next. *)
From Stdlib Require Import String Ascii.
From stdpp Require Import prelude gmap list numbers.
From Stdlib Require Import ZArith Lia ZifyBool List.
From S2P Require Import Prelude TtaskCore Ttask Tpmm Tmalloc Tvmm Tstring Telf Tsec Tfs TfsSpec Keyboard Vga Tsh Printf Serial Idt Tsys Tprocfs Tline Ternel Demos Shell ShellSpec Typing.
#[local] Open Scope Z_scope.

Section session.
Context {M H F B : Type} {TM : TaskMem M} {SH : SmallHeap H} {SF : SmallHeap F} {SL : SmallHeapLaws F}
  {HB : HeapBackend B} (A : addrs).
Abbreviation K := (kernel M H F B).
Context (blobs : list user_blob) (line expanded nbuf : Z) (polls : nat).
Abbreviation sh_state := (@shell M H F B).
Abbreviation loop := (key_loop A blobs line expanded nbuf polls).
Implicit Types (k : K) (s : sh_state) (h : list (list Z)) (e : list (list Z * list Z)) (t : list Z).

Context (L : layout A line).

(** At an empty prompt, with a serial line that works. *)
Record at_prompt s h e (q : list Z) : Prop := {
  ap_typing : typing A line s h e [];
  ap_keys : kb_list (k_kb (s_kernel s)) = q;
  ap_ser : transmits polls (k_ser (s_kernel s))
}.

(** A line that can be typed: printable, of at most 127 characters, no history
    reference, and with words that fit their rows. *)
Record typable e t : Prop := {
  tp_chars : Forall (fun c => 32 <= c < 128) t;
  tp_length : (1 <= length t <= 127)%nat;
  tp_bang : hd 0 t <> 33;
  tp_words : Forall (fun w => len w < 128) (line_words e t)
}.

Lemma put_all_ok l : forall v, vga_ok v -> vga_ok (put_all l v).
Proof.
  induction l as [|c l IH]; intros v Hv; [exact Hv|]. apply (IH (vga_putchar c v)). exact (proj1 (op_spec _ (OpPutchar c) Hv)).
Qed.

(** A new prompt after a command that left the shell's tables alone. *)
Lemma prompt_again s h e : hist_ok (a_hist_entries A) (k_sh (s_kernel s)) h -> env_ok (a_env_keys A) (a_env_vals A) (k_sh (s_kernel s)) e ->
  cstr (tmem (k_sh (s_kernel s))) (a_lit A log_fmt) log_fmt -> kb_ok (k_kb (s_kernel s)) -> vga_ok (k_vga (s_kernel s)) ->
  s_pos s = len h ->
  exists s', new_prompt line s = (inl tt, s') /\ typing A line s' h e [] /\
    s_kernel s' = touched (k_sh (s_kernel s')) (k_kb (s_kernel s)) (put_all PROMPT (k_vga (s_kernel s))) (k_ser (s_kernel s)) (s_kernel s).
Proof.
  intros Hh He Hf Hk Hv Hp. eexists. split; [reflexivity|]. cbv beta. split; [|destruct s as [[[[]] ] ]; reflexivity].
  destruct (ly_line _ _ L) as ((L1 & L2 & L3 & _) & _). destruct (ly_fmt _ _ L) as (L4 & _). unfold separate in *.
  set (m := <[line := 0]> (tmem (k_sh (s_kernel s)))).
  assert (forall x, x <> line -> rd m x = rd (tmem (k_sh (s_kernel s))) x) as Hm by (intros x Hx; apply rd_insert_ne; lia).
  split.
  - split; cbn [l_text l_cur l_pos length].
    + split; [cbn; apply rd_insert_eq|lia].
    + reflexivity.
    + split; [reflexivity|lia].
    + split; [exact Hp|lia].
    + apply (hist_ok_frame _ (k_sh (s_kernel s))); [exact Hh|reflexivity|]. intros x Hx. apply Hm. lia.
    + apply put_all_ok, Hv.
  - apply (env_ok_frame _ _ (k_sh (s_kernel s))); [exact He|reflexivity|]. intros x Hx. apply Hm. lia.
  - change (cstr m (a_lit A log_fmt) log_fmt). eapply cstr_frame; [|exact Hf]. intros x Hx. apply Hm.
    change (length log_fmt) with 8%nat in Hx. lia.
  - exact Hk.
Qed.

(** A line whose command only writes files and the screen. *)
Lemma line_done f s h e t q fs' out : at_prompt s h e (t ++ 10 :: q) -> typable e t ->
  (forall k, argv_at k (line_argv A e t) (line_words e t) -> k_fs k = k_fs (s_kernel s) ->
    invoke A blobs (line_argv A e t) (line_words e t) k = (inl tt, shows out (set_fs fs' k))) ->
  exists s', loop (length t + S f) s = loop f s' /\ at_prompt s' (hist_after h t) e q /\ k_fs (s_kernel s') = fs' /\
    k_vga (s_kernel s') = put_all (t ++ [10] ++ out ++ PROMPT) (k_vga (s_kernel s)).
Proof.
  intros [Hty Hq Hs] [C1 C2 C3 C4] Hcmd.
  destruct (typed_line A blobs line expanded nbuf polls L f s h e t q Hty Hq C1 C2 C3 C4 Hs)
    as (sh & kb & ser & E & Ha & He & Hh & Hf & Hser & Hk & Hkq).
  set (s1 := mk_shell _ _ _ _ _) in *. specialize (Hcmd (s_kernel s1) Ha eq_refl).
  set (s2 := mk_shell (shows out (set_fs fs' (s_kernel s1))) (s_len s1) (s_cursor s1) (s_pos s1) (s_row s1)).
  destruct (prompt_again s2 (hist_after h t) e Hh He Hf Hk) as (s' & Ep & Hty' & Ek).
  - cbn. apply put_all_ok, put_all_ok. exact (ho_vga _ _ _ _ _ (ty_edit _ _ _ _ _ _ Hty)).
  - reflexivity.
  - exists s'. split.
    + rewrite E. erewrite bind_step by (apply on_kernel_step; exact Hcmd). erewrite bind_step by exact Ep. reflexivity.
    + split; [split; [exact Hty'| |]|].
      * rewrite Ek. exact Hkq.
      * rewrite Ek. exact (transmits_after _ _ _ _ _ Hser Hs).
      * rewrite Ek. split; [reflexivity|]. rewrite (app_assoc t [10]), (put_all_app (t ++ [10])), (put_all_app out). reflexivity.
Qed.

(** ** Writing and showing *)

Lemma argv_cons k argv w ws : argv_at k argv (w :: ws) -> exists p ps, argv = p :: ps /\ argv_at k ps ws.
Proof. intros Ha. inversion Ha as [|p w' ps ws' _ Hps E1 E2]. exists p, ps. auto. Qed.

Lemma invoke_known c argv w ws k : argv_at k argv (w :: ws) -> find_command w = Some c ->
  invoke A blobs argv (w :: ws) k = run A blobs c argv k.
Proof. intros Ha Hc. inversion Ha as [|p w' ps ws' _ _ E1 E2]. cbn [invoke]. rewrite Hc. reflexivity. Qed.

End session.

(** * Witness *)

#[local] Existing Instances rising rising_laws easy_backend.

(** The kernel of [demo_prompt], with both lines in the keyboard ring. *)
Definition demo_write : list Z := text "write /b hi   you".
Definition demo_cat : list Z := text "cat /b".
Definition demo_ring : keyboard :=
  fold_left (fun k c => key_buffer_push c k) (demo_write ++ 10 :: demo_cat ++ [10]) keyboard_start.
Definition with_keys {M H F B} (kb : keyboard) (s : @shell M H F B) : @shell M H F B :=
  let k := s_kernel s in mk_shell (touched (k_sh k) kb (k_vga k) (k_ser k) k) (s_len s) (s_cursor s) (s_pos s) (s_row s).
Definition demo_files : shell := with_keys demo_ring demo_prompt.

Lemma typing_keys {M H F B} A line kb (s : @shell M H F B) h e t : typing A line s h e t -> kb_ok kb ->
  typing A line (with_keys kb s) h e t.
Proof. intros [H1 H2 H3 _] Hk. split; [exact H1|exact H2|exact H3|exact Hk]. Qed.

Lemma pushed_ok l : forall k, kb_ok k -> kb_ok (fold_left (fun k c => key_buffer_push c k) l k).
Proof. induction l as [|c l IH]; intros k Hk; [exact Hk|]. apply IH, push_spec, Hk. Qed.

Lemma demo_at_prompt : at_prompt demo_addrs 100 1 demo_files [] [] (demo_write ++ 10 :: demo_cat ++ [10]).
Proof.
  split; [|vm_compute; reflexivity|exact demo_transmits]. apply typing_keys; [exact demo_typing|].
  apply pushed_ok, kb_start_ok.
Qed.

