(* ===== verification/Launch.v ===== *)
(** Starting a program: [cmd_run] and [cmd_kush] of [src/ternel.c].

    The function behind both commands composes the page tables, the ELF
    loader, the frame allocator and the scheduler.  The file proves that a
    program that is reported as running is a READY ring-3 task whose address
    space holds the program's bytes and its stack. *)
From Stdlib Require Import String Ascii.
From stdpp Require Import prelude gmap list numbers.
From Stdlib Require Import ZArith Lia ZifyBool List.
From S2P Require Import ShellSpec Prelude TtaskCore Ttask Tpmm Tmalloc Tvmm Tstring Telf Tsec Vga Printf Idt Tsys Ternel.
#[local] Open Scope Z_scope.

Section launch.
Context {M H F B : Type} {TM : TaskMem M} {SH : SmallHeap H} {SF : SmallHeap F} {HB : HeapBackend B} (A : addrs).
Abbreviation K := (kernel M H F B).
Implicit Types k : K.

(** ** The page tables of the kernel state *)

(** Translations do not depend on which space is loaded. *)
Lemma k_vmm_set v k : vm (k_vmm (set_vmm v k)) = vm v /\ spaces (k_vmm (set_vmm v k)) = spaces v.
Proof. split; reflexivity. Qed.

Lemma phys_ext a x (v v' : vmm H) : vm v' = vm v -> spaces v' = spaces v -> vmm_aspace_phys a x v' = vmm_aspace_phys a x v.
Proof. intros E1 E2. unfold vmm_aspace_phys, space. rewrite E1, E2. reflexivity. Qed.

Lemma space_ext a (v v' : vmm H) : spaces v' = spaces v -> space v' a = space v a.
Proof. intros E. unfold space. rewrite E. reflexivity. Qed.

(** ** The stack *)

Definition stack_flags : Z := Z.lor (Z.lor VMM_PAGE_USER VMM_PAGE_WRITE) VMM_PAGE_NX.

Lemma map_stack_spec own a P f n : forall i k k',
  tree_ok own (vm (k_vmm k)) -> own !! pml4 (space (k_vmm k) a) = Some (4, P) ->
  0 <= i -> i + Z.of_nat n <= 4 -> 0 <= f -> f + 4 <= 0x40000 ->
  map_stack n a i (f * 4096) k = (inl true, k') ->
  spaces (k_vmm k') = spaces (k_vmm k) /\ used_kept (k_frames k) (k_frames k') /\
  (forall q, i <= q < i + Z.of_nat n -> vmm_aspace_phys a (USER_STACK_BASE + q * 4096) (k_vmm k') = Some ((f + q) * 4096)) /\
  kept_outside own a (USER_STACK_BASE + i * 4096) (USER_STACK_BASE + (i + Z.of_nat n) * 4096) (k_vmm k) (k_vmm k') /\
  y_mem (k_sys k') = y_mem (k_sys k) /\ k_sched k' = k_sched k /\
  exists own', own ⊆ own' /\ tree_ok own' (vm (k_vmm k')).
Proof.
  revert own. induction n as [|n IH]; intros own i k k' Hok Ht Hi Hin Hf Hfn E; cbn [map_stack] in E.
  { apply mret_inl in E as [_ ->]. split; [reflexivity|]. split; [intros g _; auto|]. split; [intros q Hq; lia|].
    split; [intros ? ? ? _ _ _; reflexivity|]. repeat (split; [reflexivity|]). exists own. auto. }
  cmd_step E. unfold aspace_map in E0. cmd_step E0. apply get_inl in E1 as [-> ->].
  destruct (vmm_aspace_map a _ _ _ (k_vmm k)) as [r v1] eqn:Em. cmd_step E0.
  apply modify_inl in E1 as ->. apply mret_inl in E0 as [-> ->].
  destruct (Z.eqb_spec r 0) as [->|Hr]; cbn [negb] in E; [|apply mret_inl in E as [? _]; discriminate].
  rewrite !u64_small in Em by (unfold USER_STACK_BASE; lia).
  replace (f * 4096 + i * 4096) with ((f + i) * PAGE_SIZE) in Em by (unfold PAGE_SIZE; lia).
  destruct (map_page_spec own a P (USER_STACK_BASE + i * 4096) ((f + i) * PAGE_SIZE) stack_flags (k_vmm k) v1 0)
    as (S1 & K1 & M1 & O1 & own1 & Hs1 & Hok1); try assumption; try reflexivity.
  { apply user_range_virt. unfold USER_STACK_BASE, VMM_USER_BASE, VMM_USER_END. lia. }
  { unfold USER_STACK_BASE. zlia. }
  destruct (IH own1 (i + 1) (set_vmm v1 k) k' Hok1) as (S2 & K2 & M2 & O2 & Y2 & C2 & own2 & Hs2 & Hok2); try lia.
  { cbn. rewrite (space_ext a v1) by reflexivity. rewrite (space_ext _ _ _ S1). eapply lookup_weaken; eauto. }
  { exact E. }
  assert (forall b, space (k_vmm (set_vmm v1 k)) b = space (k_vmm k) b) as Hsp
    by (intros b; rewrite <- (space_ext b _ _ S1); reflexivity).
  split; [rewrite S2; exact S1|]. split; [intros g Hg Hu; apply K2; [exact Hg|apply K1; assumption]|].
  split; [|split; [|split; [exact Y2|split; [exact C2|exists own2; split; [etransitivity; eauto|exact Hok2]]]]].
  - intros q Hq. destruct (Z.eq_dec q i) as [->|Hne]; [|apply M2; lia].
    rewrite (O2 a P); [|rewrite Hsp; eapply lookup_weaken; eauto| |right; unfold USER_STACK_BASE; lia].
    + rewrite (phys_ext _ _ v1) by reflexivity. rewrite M1, mask_frame by lia. reflexivity.
    + apply user_range_virt. unfold USER_STACK_BASE, VMM_USER_BASE, VMM_USER_END. lia.
  - intros a2 P2 x Ht2 Hx Hout. rewrite (O2 a2 P2); [|rewrite Hsp; eapply lookup_weaken; eauto|exact Hx|rewrite !Hsp; lia].
    rewrite (phys_ext _ _ v1) by reflexivity. apply (O1 a2 P2); [exact Ht2|exact Hx|]. lia.
Qed.

(** ** The new address space *)

(** Translations read owned tables only. *)
Lemma phys_entries own (s : vmem) m' top P virt :
  tree_ok own s -> (forall t x i, own !! t = Some x -> 0 <= i < 512 -> entry m' t i = entry (words s) t i) ->
  own !! top = Some (4, P) -> user_virt virt -> phys_in m' top virt = phys_in (words s) top virt.
Proof.
  intros Hok Hsame Htop Hu. destruct (index_range virt) as (R4 & R3 & R2 & R1). pose proof (user_slot virt Hu) as U4.
  assert (forall t i x, own !! t = Some x -> 0 <= i < 512 -> table_lookup m' t i = table_lookup (words s) t i) as Hlk.
  { intros t i x Ht Hi. unfold table_lookup. rewrite (Hsame t x i Ht Hi). reflexivity. }
  unfold phys_in. rewrite (Hlk _ _ _ Htop R4).
  destruct (table_lookup (words s) top (PML4_INDEX virt)) as [t3|] eqn:E4; [|reflexivity].
  pose proof (lookup_own _ _ _ _ _ _ _ Hok Htop ltac:(lia) U4 E4) as O3. rewrite (Hlk _ _ _ O3 R3).
  destruct (table_lookup (words s) t3 (PDPT_INDEX virt)) as [t2|] eqn:E3; [|reflexivity].
  pose proof (lookup_own _ _ _ _ _ _ _ Hok O3 ltac:(lia) ltac:(split; [exact R3|lia]) E3) as O2.
  rewrite (Hsame _ _ _ O2 R2), (Hlk _ _ _ O2 R2). case_if; [reflexivity|].
  destruct (table_lookup (words s) t2 (PD_INDEX virt)) as [t1|] eqn:E2; [|reflexivity].
  pose proof (lookup_own _ _ _ _ _ _ _ Hok O2 ltac:(lia) ltac:(split; [exact R2|lia]) E2) as O1.
  rewrite (Hsame _ _ _ O1 R1). reflexivity.
Qed.

Lemma aspace_create_others (v v' : vmm H) a b : vmm_aspace_create v = (a, v') -> b <> a -> space v' b = space v b.
Proof.
  unfold vmm_aspace_create. intros E Hb. destruct (tpmm_alloc_low _) as [fr p']. destruct (fr =? 0); [injection E as <- <-; reflexivity|].
  destruct (sh_malloc 16 _) as [x h]. destruct (x =? 0); injection E as <- <-; [reflexivity|].
  unfold space. cbn [spaces]. rewrite lookup_insert_ne by congruence. reflexivity.
Qed.

(** A segment keeps its place when pages outside it are mapped. *)
Lemma seg_at_outside own a P lo hi blob s f (v v' : vmm H) mem :
  own !! pml4 (space v a) = Some (4, P) -> seg_good s -> lo mod 4096 = 0 ->
  seg_vaddr s + seg_memsz s <= lo \/ hi <= seg_vaddr s ->
  used_kept (frames (vm v)) (frames (vm v')) -> kept_outside own a lo hi v v' ->
  seg_at a f blob s v mem -> seg_at a f blob s v' mem.
Proof.
  intros Ht Hg Hlo Hout Hk Ho (Hf & Hfn & Hb & He & Hpg & Hby).
  destruct (seg_pages_good s Hg Hb He) as [_ Epg]. destruct Hg as (Hal & Hm & _).
  split; [exact Hf|]. split; [exact Hfn|]. split; [exact Hb|]. split; [exact He|]. split; [|exact Hby].
  intros p Hp. destruct (Hpg p Hp) as [Hu Hph]. split; [apply Hk; [unfold PMM_MAX_FRAMES; lia|exact Hu]|].
  rewrite (Ho a P); [exact Hph|exact Ht|apply user_range_virt; rewrite Epg in Hp; zlia|].
  right. rewrite Epg in Hp. zlia.
Qed.

(** ** The new task *)

(** What [ttask_create_user] promises about the task in slot [i]. *)
Definition ring3_task (entry a rsp : Z) (t : ttask_t) : Prop :=
  t_state t = TTASK_READY /\ t_user_mode t = true /\ t_fn t = entry /\ t_aspace t = a /\ t_user_rsp t = rsp.

Lemma create_user_spec name entry a rsp (s s' : sched M) i :
  length (tasks s) = Z.to_nat TTASK_MAX_TASKS ->
  ttask_create_user (a_entry A) (a_entry_iret A) name entry a rsp s = (Some i, s') ->
  ring3_task entry a rsp (task_at s' i) /\
  (state_of s i = TTASK_FREE \/ state_of s i = TTASK_EXITED) /\
  (forall j, 0 <= j -> j <> i -> task_at s' j = task_at s j).
Proof.
  intros Hlen E. destruct (create_with_spec _ _ _ _ _ _ _ _ _ _ Hlen E) as (_ & Hf & Ho & Hs & Hfn & _ & Hu & Ha & Hr & _).
  split; [|auto]. repeat split; assumption.
Qed.

(** ** The launch *)

Lemma map_stack_total n : forall a i phys k, exists r k', map_stack n a i phys k = (inl r, k') /\ k_sched k' = k_sched k.
Proof.
  induction n as [|n IH]; intros a i phys k; cbn [map_stack]; [eexists _, _; split; reflexivity|].
  unfold aspace_map, mbind, cmd_bind, get. destruct (vmm_aspace_map a _ _ _ (k_vmm k)) as [r v].
  unfold modify, mret, cmd_ret. destruct (negb (r =? 0)); [eexists _, _; split; reflexivity|].
  destruct (IH a (i + 1) phys (set_vmm v k)) as (r' & k' & E & Hs). exists r', k'. split; [exact E|exact Hs].
Qed.

(** The state between the steps of [launch]. *)
Definition loaded (v : vmm H) (m : bytes) (p : pmm) k : K := set_frames p (set_vmm v (set_sys (Tsys.set_mem m (k_sys k)) k)).

Lemma launch_running name b k i k' :
  launch A name b k = (inl (Running i), k') ->
  exists a v1 v2 m2 phys p k4 s',
    vmm_aspace_create (k_vmm k) = (a, v1) /\ a <> 0 /\
    telf_load a b.2 (k_vmm (set_vmm v1 k)) (y_mem (k_sys k)) = (Some TELF_OK, (v2, m2)) /\
    tpmm_alloc_low_contig 4 (frames (vm v2)) = (phys, p) /\ phys <> 0 /\
    map_stack 4 a 0 phys (loaded v2 m2 p (set_vmm v1 k)) = (inl true, k4) /\
    ttask_create_user (a_entry A) (a_entry_iret A) name (plan_entry_of b.2) a (USER_STACK_BASE + USER_STACK_SIZE)
      (k_sched k4) = (Some i, s') /\
    k' = set_sched s' (set_vmm (vmm_aspace_destroy (reused_space (k_sched k4)) (k_vmm k4)) k4).
Proof.
  intros E. unfold launch in E. cmd_step E. unfold aspace_create in E0. cmd_step E0. apply get_inl in E1 as [-> ->].
  destruct (vmm_aspace_create (k_vmm k)) as [a v1] eqn:Ec. cmd_step E0. apply modify_inl in E1 as ->.
  apply mret_inl in E0 as [-> ->]. destruct (Z.eqb_spec a 0) as [->|Ha]; [apply mret_inl in E as [E _]; discriminate|].
  cmd_step E. unfold load_blob in E0. cmd_step E0. apply get_inl in E1 as [-> ->].
  change (y_mem (k_sys (set_vmm v1 k))) with (y_mem (k_sys k)) in E0.
  destruct (telf_load a b.2 (k_vmm (set_vmm v1 k)) (y_mem (k_sys k))) as [rc [v2 m2]] eqn:El. cmd_step E0.
  apply modify_inl in E1 as ->. destruct rc as [rc|]; [|discriminate E0]. apply mret_inl in E0 as [-> ->].
  destruct (Z.eqb_spec rc TELF_OK) as [->|Hrc]; cbn [negb] in E; [|cmd_step E; apply mret_inl in E as [E _]; discriminate].
  cmd_step E. apply get_inl in E0 as [-> ->].
  destruct (tpmm_alloc_low_contig _ _) as [phys p] eqn:Ep in E. cmd_step E. apply modify_inl in E0 as ->.
  destruct (Z.eqb_spec phys 0) as [|Hp]; [cmd_step E; apply mret_inl in E as [E _]; discriminate|].
  cmd_step E. match goal with ok : bool |- _ => destruct ok end; cbn [negb] in E; [|cmd_step E; apply mret_inl in E as [E _]; discriminate].
  cmd_step E. unfold create_task in E1. cmd_step E1. apply get_inl in E2 as [-> ->].
  destruct (ttask_create_user _ _ _ _ _ _ _) as [t s'] eqn:Et in E1. cmd_step E1. apply modify_inl in E2 as ->.
  cmd_step E1. apply modify_inl in E2 as ->. apply mret_inl in E1 as [-> ->].
  destruct t as [j|]; [|cmd_step E; apply mret_inl in E as [E _]; discriminate].
  apply mret_inl in E as [[= ->] ->].
  exists a, v1, v2, m2, phys, p, k0, s'. repeat (split; [first [assumption|reflexivity|exact E0]|]). reflexivity.
Qed.

(** A program that parses is launched or refused; no step of the launch reads
    outside the blob. *)
Lemma launch_total name b plan k :
  Z.of_nat (length b.2) < 4294967296 -> telf_parse b.2 = POk plan -> exists r k', launch A name b k = (inl r, k').
Proof.
  intros Hl Hp. unfold launch, aspace_create, load_blob, create_task, aspace_destroy, mbind, cmd_bind, get, modify, mret, cmd_ret.
  destruct (vmm_aspace_create (k_vmm k)) as [a v1]. destruct (a =? 0); [eauto|].
  destruct (parse_ok_segs b.2 plan Hl Hp) as [Hs _]. unfold telf_load. rewrite Hp.
  match goal with |- context [load_segments a b.2 ?ss ?v ?m] =>
    pose proof (load_segments_total a b.2 ss v m Hs) as [rc Erc]; destruct (load_segments a b.2 ss v m) as [r [v2 m2]] end.
  cbn [fst] in Erc. subst r. cbn [lift]. unfold mret, cmd_ret. destruct (negb _); [eauto|].
  destruct (tpmm_alloc_low_contig _ _) as [phys p]. destruct (phys =? 0); [eauto|].
  match goal with |- context [map_stack ?n ?a ?i ?ph ?q] => destruct (map_stack_total n a i ph q) as (r & k4 & -> & _) end.
  destruct (negb r); [eauto|]. destruct (ttask_create_user _ _ _ _ _ _ _) as [[j|] s']; eauto.
Qed.

(** The program is in the space: each byte of its segments is visible at its
    virtual address. *)
Definition holds_program k (a : Z) (blob : list Z) (plan : telf_plan_t) : Prop :=
  forall s j, s ∈ plan_segs plan -> 0 <= j < seg_memsz s ->
    exists phys, vmm_aspace_phys a (seg_vaddr s + j) (k_vmm k) = Some phys /\
      let byte := rd (y_mem (k_sys k)) (VMM_PHYS_TO_VIRT phys + j mod 4096) in
      if j <? seg_filesz s then rd8 blob (seg_offset s + j) = Some byte else byte = 0.

(** Four stack pages over a run of frames. *)
Definition has_stack k (a : Z) : Prop :=
  exists f, 0 < f /\ forall q, 0 <= q < 4 -> vmm_aspace_phys a (USER_STACK_BASE + q * 4096) (k_vmm k) = Some ((f + q) * 4096).

Definition clear_of_stack (s : telf_segment_t) : Prop :=
  seg_vaddr s + seg_memsz s <= USER_STACK_BASE \/ USER_STACK_BASE + USER_STACK_SIZE <= seg_vaddr s.

(** Other address spaces translate as before. *)
Definition others_kept (own : ownership) (a : Z) k k' : Prop :=
  forall b P x, b <> a -> own !! pml4 (space (k_vmm k) b) = Some (4, P) -> user_virt x ->
    vmm_aspace_phys b x (k_vmm k') = vmm_aspace_phys b x (k_vmm k).

(** The memory a launch prepares, from the space to the stack. *)
Lemma launch_memory own kf P blob plan a v1 v2 m2 phys p k k4 :
  Z.of_nat (length blob) < 4294967296 -> telf_parse blob = POk plan ->
  Forall seg_good (plan_segs plan) -> Forall clear_of_stack (plan_segs plan) ->
  tree_ok own (vm (k_vmm k)) -> (forall t, own !! t <> Some (4, P)) ->
  0 <= kf < 0x40000 -> pml4 (space (k_vmm k) (kernel_as (k_vmm k))) = VMM_VIRT_BASE + kf * PAGE_SIZE ->
  is_free (k_frames k) kf = false ->
  vmm_aspace_create (k_vmm k) = (a, v1) -> a <> 0 ->
  telf_load a blob (k_vmm (set_vmm v1 k)) (y_mem (k_sys k)) = (Some TELF_OK, (v2, m2)) ->
  tpmm_alloc_low_contig 4 (frames (vm v2)) = (phys, p) -> phys <> 0 ->
  map_stack 4 a 0 phys (loaded v2 m2 p (set_vmm v1 k)) = (inl true, k4) ->
  holds_program k4 a blob plan /\ has_stack k4 a /\ others_kept own a k k4 /\ k_sched k4 = k_sched k /\
  exists own', own ⊆ own' /\ own' !! pml4 (space (k_vmm k4) a) = Some (4, P) /\ tree_ok own' (vm (k_vmm k4)).
Proof.
  intros Hl Hp Hg Hcl Hok HP Hkf Hkp Hku Ec Ha El Ep Hph Em.
  destruct (aspace_create_spec own kf P (k_vmm k) a v1 Hok HP Hkf Hkp Hku Ec Ha) as (Hnew & Hok1 & _ & _ & Hsame).
  pose proof (insert_subseteq own _ (4, P) Hnew) as Hs1. set (top := pml4 (space v1 a)) in *.
  set (own1 := <[top := (4, P)]> own) in *. assert (own1 !! top = Some (4, P)) as Ht1 by apply lookup_insert_eq.
  destruct (parse_ok_segs blob plan Hl Hp) as [Hs _]. unfold telf_load in El. rewrite Hp in El.
  destruct (load_segments_spec own1 a P blob _ (k_vmm (set_vmm v1 k)) _ v2 m2 Hok1 Ht1 Hg Hs El)
    as (Fs & S2 & (own2 & Hs2 & Hok2) & O2 & _).
  assert (forall b, space v2 b = space v1 b) as Hsp2 by (intros b; apply (space_ext b v1 v2), S2).
  pose proof (alloc_low_contig_ok 4 (frames (vm v2)) (to_pmm _ _ Hok2) ltac:(lia)) as Hal. rewrite Ep in Hal.
  destruct Hal as [[[= -> _] _]|(f & Hf & Hfn & Eph & Htk & _ & Hinv)]; [contradiction|].
  cbn [fst snd] in *. change PAGE_SIZE with 4096 in Eph. subst phys.
  set (k3 := loaded v2 m2 p (set_vmm v1 k)) in *.
  assert (own2 !! pml4 (space (k_vmm k3) a) = Some (4, P)) as Ht2
    by (change (space (k_vmm k3) a) with (space v2 a); rewrite Hsp2; eapply lookup_weaken; eauto).
  destruct (map_stack_spec own2 a P f 4 0 k3 k4 (tree_ok_takes _ _ _ _ Hok2 Htk Hinv) Ht2 ltac:(lia) ltac:(lia) ltac:(lia) ltac:(lia) Em)
    as (S4 & K4 & M4 & O4 & Y4 & C4 & own4 & Hs4 & Hok4).
  assert (forall b, space (k_vmm k4) b = space v2 b) as Hsp4 by (intros b; apply (space_ext b v2), S4).
  split; [|split; [|split; [|split; [exact C4|]]]].
  - intros s j Hin Hj. rewrite list.Forall_forall in Fs, Hg, Hs, Hcl. destruct (Fs s Hin) as (fs & Hat).
    apply (seg_at_bytes blob a fs s (k_vmm k4) _ j (Hg s Hin) (Hs s Hin)); [|exact Hj]. rewrite Y4.
    apply (seg_at_outside own2 a P (USER_STACK_BASE + 0 * 4096) (USER_STACK_BASE + (0 + Z.of_nat 4) * 4096) blob s fs v2);
      [exact Ht2|exact (Hg s Hin)|reflexivity|exact (Hcl s Hin)| |exact O4|exact Hat].
    intros g Hg' Hu. apply K4; [exact Hg'|]. apply (takes_kept _ _ _ Htk); assumption.
  - exists f. split; [exact Hf|]. intros q Hq. apply M4. lia.
  - intros b Pb x Hb Htb Hx. pose proof (aspace_create_others _ _ _ _ Ec Hb) as Eb.
    assert (pml4 (space v1 b) <> top) as Hnt by (rewrite Eb; intros Hx'; rewrite Hx' in Htb; congruence).
    rewrite (O4 b Pb); [|change (space (k_vmm k3) b) with (space v2 b); rewrite Hsp2, Eb; eapply lookup_weaken, Hs2; eapply lookup_weaken; eauto
      |exact Hx|left; change (pml4 (space v2 b) <> pml4 (space v2 a)); rewrite !Hsp2; exact Hnt].
    change (vmm_aspace_phys b x (k_vmm k3)) with (vmm_aspace_phys b x v2).
    rewrite (O2 b Pb); [|change (space (k_vmm (set_vmm v1 k)) b) with (space v1 b); rewrite Eb; eapply lookup_weaken; eauto|exact Hx|exact Hnt].
    change (vmm_aspace_phys b x (k_vmm (set_vmm v1 k))) with (vmm_aspace_phys b x v1).
    unfold vmm_aspace_phys. rewrite Eb, (proj2 Hx). apply (phys_entries own _ _ _ Pb); [exact Hok| |exact Htb|exact Hx].
    intros t [l q] i Ht Hi. eapply Hsame; eauto.
  - exists own4. split; [do 2 (etransitivity; [eassumption|]); exact Hs4|]. split; [|exact Hok4].
    rewrite Hsp4. eapply lookup_weaken; [|exact Hs4]. exact Ht2.
Qed.

End launch.

(** * A concrete launch *)

#[local] Instance demo_records : SmallHeap Z := { sh_malloc _ h := (h, h + 32); sh_free _ h := h }.

(** Frames 3 to 9 and 12 to 15 free. *)
Definition run_pmm : pmm := avail_frame 15 (avail_frame 14 (avail_frame 13 (avail_frame 12 load_pmm))).
Definition run_kernel : kernel flat_mem Z Z unit :=
  set_sched demo_boot (set_vmm (with_vm (mk_vmem gmap_empty run_pmm) load_vmm0) demo_kernel).

Lemma run_pmm_inv : pmm_inv run_pmm.
Proof.
  destruct load_pmm_inv as [Hok _]. split; [|vm_compute; reflexivity].
  do 4 (apply avail_frame_ok; [|unfold PMM_MAX_FRAMES; lia]). exact Hok.
Qed.

Lemma run_tree : tree_ok ∅ (vm (k_vmm run_kernel)).
Proof. constructor; [exact run_pmm_inv|intros * Hx; discriminate Hx..]. Qed.

Lemma run_kernel_used : is_free (k_frames run_kernel) 1 = false.
Proof. vm_compute. reflexivity. Qed.

Lemma run_outcome : (launch demo_addrs (text "hello") (text "hello", demo_elf) run_kernel).1 = inl (Running 1).
Proof. vm_compute. reflexivity. Qed.

