(* ===== verification/Startup.v ===== *)
(** The interrupt sources that [ternel_main] starts, and the two loops that
    only count: the main loop's uptime message and the task [demo_counter]
    ([src/keyboard.c], [src/ternel.c]).

    The answers of the keyboard controller are a list, one byte for each read of
    a port.  [interrupts_started] says for which answers the start-up ends and
    that it leaves exactly the handlers that the theorems on interrupts assume. *)
From Stdlib Require Import String Ascii.
From stdpp Require Import prelude gmap list numbers.
From Stdlib Require Import ZArith Lia ZifyBool.
From S2P Require Import Prelude TtaskCore Ttask Tstring Keyboard Vga Printf Serial Idt.
#[local] Open Scope Z_scope.

Definition KEYBOARD_DATA : Z := 0x60.
Definition KEYBOARD_STATUS : Z := 0x64.

(** * Waiting for the controller

    Each loop takes the answers it reads and returns the rest; [None]: the
    answers end before the loop does. *)

(** [while (inb(KEYBOARD_STATUS) & 0x01) (void)inb(KEYBOARD_DATA);] *)
Fixpoint flush_stale (reads : list Z) : option (list Z) :=
  match reads with
  | [] => None
  | st :: reads' =>
      if has st 1 then match reads' with [] => None | _ :: reads'' => flush_stale reads'' end
      else Some reads'
  end.

(** [while (inb(KEYBOARD_STATUS) & 0x02) ;] *)
Fixpoint wait_writable (reads : list Z) : option (list Z) :=
  match reads with [] => None | st :: reads' => if has st 2 then wait_writable reads' else Some reads' end.

(** [while (!(inb(KEYBOARD_STATUS) & 0x01)) ;] *)
Fixpoint wait_readable (reads : list Z) : option (list Z) :=
  match reads with [] => None | st :: reads' => if has st 1 then Some reads' else wait_readable reads' end.

Section startup.
Context {M : Type} `{TaskMem M}.
Implicit Types k : machine M.

Definition keyboard_init (reads : list Z) k : option (list Z * machine M) :=
  r1 ← flush_stale reads;
  r2 ← wait_writable r1;
  let k1 := port_out KEYBOARD_DATA 0xF4 k in
  r3 ← wait_readable r2;
  match r3 with
  | [] => None
  | _ack :: r4 => Some (r4, irq_register 1 keyboard_callback_fn k1)
  end.

(** [idt_init(); timer_init(100); keyboard_init();] of [ternel_main]. *)
Definition start_interrupts (isr irq : Z -> Z) (idt : list idt_entry_t) (reads : list Z) k
  : option (list idt_entry_t * list Z * machine M) :=
  let '(idt1, k1) := idt_init isr irq idt k in
  k2 ← timer_init 100 k1;
  '(rest, k3) ← keyboard_init reads k2;
  Some (idt1, rest, k3).

Context (rodata : bytes) (lit : list Z -> Z) (polls fuel : nat) (buf boot_stack_top : Z).

Definition uptime_fmt : list Z := text "uptime: %us" ++ [10].
Definition counter_fmt : list Z := text "task %s: %u" ++ [10].

(** The clock at the top of the main loop: [last_sec] and the machine. *)
Definition uptime_turn (last_sec : Z) k : option (Z * machine M) :=
  let now := timer_ticks k in
  if negb (now / 100 =? last_sec) then
    k1 ← log rodata lit polls fuel buf uptime_fmt [now / 100] k; Some (now / 100, k1)
  else Some (last_sec, k).

(** One turn of the loop of [demo_counter]; [name] is [current_task->name]. *)
Definition counter_turn (name n : Z) k : option (Z * machine M) :=
  let n := u64 (n + 1) in
  k1 ← (if Z.land n 0xFFFFF =? 0 then log rodata lit polls fuel buf counter_fmt [name; u32 n] k else Some k);
  Some (n, if Z.land n 0x3FFF =? 0 then run_sched (ttask_yield boot_stack_top) k1 else k1).

(** The first [turns] of them. *)
Fixpoint demo_counter (turns : nat) (name n : Z) k : option (Z * machine M) :=
  match turns with
  | O => Some (n, k)
  | S j => '(n1, k1) ← counter_turn name n k; demo_counter j name n1 k1
  end.

(** * The controller's answers *)

(** Status and data of stale codes, a status without data, statuses while the
    controller is busy, one when it is not, statuses before the answer comes,
    one when it is there, the answer. *)
Definition answers (stale : list (Z * Z)) (none : Z) (busy : list Z) (free : Z) (early : list Z) (ready ack : Z)
  : list Z :=
  concat (map (fun p => [p.1; p.2]) stale) ++ [none] ++ busy ++ [free] ++ early ++ [ready; ack].

Definition answers_ok (stale : list (Z * Z)) (none : Z) (busy : list Z) (free : Z) (early : list Z) (ready : Z) : Prop :=
  Forall (fun p => has p.1 1 = true) stale /\ has none 1 = false /\ Forall (fun st => has st 2 = true) busy /\
  has free 2 = false /\ Forall (fun st => has st 1 = false) early /\ has ready 1 = true.

Lemma flush_stale_spec stale none rest : Forall (fun p => has p.1 1 = true) stale -> has none 1 = false ->
  flush_stale (concat (map (fun p => [p.1; p.2]) stale) ++ none :: rest) = Some rest.
Proof.
  intros Hs Hn. induction Hs as [|[a b] l Ha _ IH]; cbn; [rewrite Hn; reflexivity|].
  cbn in Ha. rewrite Ha. exact IH.
Qed.

Lemma flush_stale_inv n : forall reads rest, (length reads <= n)%nat -> flush_stale reads = Some rest ->
  exists stale none, Forall (fun p => has p.1 1 = true) stale /\ has none 1 = false /\
    reads = concat (map (fun p => [p.1; p.2]) stale) ++ none :: rest.
Proof.
  induction n as [|n IH]; intros [|st reads] rest Hl E; cbn in Hl, E; try discriminate; [lia|].
  destruct (has st 1) eqn:Hst; [|injection E as <-; exists [], st; auto].
  destruct reads as [|b reads]; [discriminate|]. cbn in Hl.
  destruct (IH reads rest ltac:(lia) E) as (stale & none & Hs & Hn & ->).
  exists ((st, b) :: stale), none. split; [constructor; assumption|]. split; [exact Hn|reflexivity].
Qed.

(** Both one-byte waits: [b] is the bit's value while the loop goes on. *)
Lemma wait_spec (f : list Z -> option (list Z)) bit b :
  (forall reads, f reads = match reads with [] => None | st :: r => if Bool.eqb (has st bit) b then f r else Some r end) ->
  forall reads rest, f reads = Some rest <->
    exists l e, Forall (fun st => has st bit = b) l /\ has e bit = negb b /\ reads = l ++ e :: rest.
Proof.
  intros Hf reads rest. split.
  - induction reads as [|st reads IH]; rewrite Hf; [discriminate|].
    destruct (Bool.eqb (has st bit) b) eqn:Hb.
    + intros E. destruct (IH E) as (l & e & Hl & He & ->). exists (st :: l), e. apply eqb_prop in Hb. auto.
    + injection 1 as <-. exists [], st. split; [constructor|]. split; [|reflexivity]. destruct (has st bit), b; easy.
  - intros (l & e & Hl & He & ->). induction Hl as [|st l Hst _ IH]; cbn [app]; rewrite Hf.
    + rewrite He. destruct b; reflexivity.
    + rewrite Hst, eqb_reflx. exact IH.
Qed.

Lemma wait_writable_spec reads rest : wait_writable reads = Some rest <->
  exists l e, Forall (fun st => has st 2 = true) l /\ has e 2 = false /\ reads = l ++ e :: rest.
Proof. apply (wait_spec wait_writable 2 true). intros [|st r]; [reflexivity|]. cbn. destruct (has st 2); reflexivity. Qed.

Lemma wait_readable_spec reads rest : wait_readable reads = Some rest <->
  exists l e, Forall (fun st => has st 1 = false) l /\ has e 1 = true /\ reads = l ++ e :: rest.
Proof. apply (wait_spec wait_readable 1 false). intros [|st r]; [reflexivity|]. cbn. destruct (has st 1); reflexivity. Qed.

Definition keyboard_started k : machine M := irq_register 1 keyboard_callback_fn (port_out KEYBOARD_DATA 0xF4 k).

(** The start-up of the keyboard ends exactly for answers of that form. *)
Lemma keyboard_init_spec reads k rest k' : keyboard_init reads k = Some (rest, k') <->
  k' = keyboard_started k /\ exists stale none busy free early ready ack,
    answers_ok stale none busy free early ready /\ reads = answers stale none busy free early ready ack ++ rest.
Proof.
  unfold keyboard_init. split.
  - intros E. apply bind_Some in E as (r1 & E1 & E). apply bind_Some in E as (r2 & E2 & E).
    apply bind_Some in E as (r3 & E3 & E). destruct r3 as [|ack r4]; [discriminate|]. injection E as <- <-.
    split; [reflexivity|]. apply (flush_stale_inv (length reads)) in E1 as (stale & none & A1 & A2 & ->); [|lia].
    apply wait_writable_spec in E2 as (busy & free & A3 & A4 & ->).
    apply wait_readable_spec in E3 as (early & ready & A5 & A6 & ->).
    exists stale, none, busy, free, early, ready, ack. split; [repeat split; assumption|].
    unfold answers. do 3 (rewrite <- ?app_assoc; cbn [app]). reflexivity.
  - intros (-> & stale & none & busy & free & early & ready & ack & (A1 & A2 & A3 & A4 & A5 & A6) & ->).
    unfold answers. rewrite <- !app_assoc. cbn [app]. rewrite flush_stale_spec by assumption. cbn [mbind option_bind].
    rewrite (proj2 (wait_writable_spec _ (early ++ [ready; ack] ++ rest))); [cbn [mbind option_bind]|].
    + rewrite (proj2 (wait_readable_spec _ (ack :: rest))); [reflexivity|]. exists early, ready. auto.
    + exists busy, free. do 3 (rewrite <- ?app_assoc; cbn [app]). auto.
Qed.

(** The fields of a machine after a series of port writes. *)
Lemma port_outs_fields l : forall k, ports (port_outs l k) = ports k ++ l /\ irq_handlers (port_outs l k) = irq_handlers k /\
  m_sched (port_outs l k) = m_sched k /\ m_kb (port_outs l k) = m_kb k /\ m_vga (port_outs l k) = m_vga k /\ m_ser (port_outs l k) = m_ser k.
Proof.
  induction l as [|[p v] l IH]; intros k; [cbn; rewrite app_nil_r; auto 6|]. change (port_outs ((p, v) :: l) k) with (port_outs l (port_out p v k)).
  destruct (IH (port_out p v k)) as (-> & -> & -> & -> & -> & ->). cbn. rewrite <- app_assoc. auto 6.
Qed.

(** [PIT_BASE_FREQ / 100], the low and the high byte. *)
Definition pit_100hz : list (Z * Z) := [(PIT_COMMAND, 0x36); (PIT_CHANNEL0, 0x9B); (PIT_CHANNEL0, 0x2E)].

Definition timer_started k : machine M := irq_register 0 timer_callback_fn (with_hz 100 (port_outs pit_100hz k)).

Lemma timer_init_100 k : timer_init 100 k = Some (timer_started k).
Proof. reflexivity. Qed.

Lemma start_interrupts_eq isr irq idt reads k : start_interrupts isr irq idt reads k =
  '(rest, k3) ← keyboard_init reads (timer_started (pic_remap k)); Some (idt_table isr irq idt, rest, k3).
Proof. unfold start_interrupts, idt_init. rewrite timer_init_100. reflexivity. Qed.

(** What the two registrations leave. *)
Lemma started_fields k k1 : k1 = pic_remap k -> irq_handlers k = replicate 16 None ->
  let k' := keyboard_started (timer_started k1) in
  timer_wired (irq_handlers k') /\ irq_handlers k' = [Some timer_callback_fn; Some keyboard_callback_fn] ++ replicate 14 None /\
  timer_hz k' = 100 /\ m_sched k' = m_sched k /\ m_kb k' = m_kb k /\ m_vga k' = m_vga k /\ m_ser k' = m_ser k /\
  ports k' = ports k1 ++ pit_100hz ++ [(KEYBOARD_DATA, 0xF4)].
Proof.
  intros E1 Hh k'. destruct (port_outs_fields pit_100hz k1) as (P1 & P2 & P3 & P4 & P5 & P6).
  assert (irq_handlers k1 = irq_handlers k /\ m_sched k1 = m_sched k /\ m_kb k1 = m_kb k /\ m_vga k1 = m_vga k /\ m_ser k1 = m_ser k) as (Q2 & Q3 & Q4 & Q5 & Q6)
    by (subst k1; clear; unfold pic_remap;
      match goal with |- context [port_outs ?l k] => destruct (port_outs_fields l k) as (_ & Q2 & Q3 & Q4 & Q5 & Q6) end; auto 6).
  clear E1. unfold k', keyboard_started, timer_started. revert P1 P2 P3 P4 P5 P6. generalize (port_outs pit_100hz k1).
  intros k2 P1 P2 P3 P4 P5 P6. cbn -[replicate]. rewrite P1, P2, P3, P4, P5, P6, Q2, Q3, Q4, Q5, Q6, Hh, <- app_assoc. split; [exact demo_wired|]. repeat split.
Qed.

(** Starting the interrupts: from handlers that are all empty, the start of
    the interrupt controllers, the timer and the keyboard ends exactly when the
    keyboard controller empties its buffer, accepts a command and answers it;
    then the timer is registered for line 0 and the keyboard for line 1 and
    nothing else, which is what the counting of ticks needs, the timer runs at
    100 Hz, the scan-enable command was sent once, and scheduler, screen, serial
    port and keyboard state are untouched. *)
Theorem interrupts_started isr irq idt reads k out :
  irq_handlers k = replicate 16 None ->
  (exists rest k', start_interrupts isr irq idt reads k = Some (out, rest, k') /\ timer_wired (irq_handlers k') /\
     irq_handlers k' = [Some timer_callback_fn; Some keyboard_callback_fn] ++ replicate 14 None /\
     timer_hz k' = 100 /\ m_sched k' = m_sched k /\ m_kb k' = m_kb k /\ m_vga k' = m_vga k /\ m_ser k' = m_ser k /\
     ports k' = ports (pic_remap k) ++ pit_100hz ++ [(KEYBOARD_DATA, 0xF4)]) <->
  out = idt_table isr irq idt /\ exists stale none busy free early ready ack rest,
    answers_ok stale none busy free early ready /\ reads = answers stale none busy free early ready ack ++ rest.
Proof.
  intros Hh. rewrite start_interrupts_eq. generalize (idt_table isr irq idt). intros table.
  pose proof (started_fields k (pic_remap k) eq_refl Hh) as Hf. cbv zeta in Hf. revert Hf. generalize (pic_remap k). intros k1.
  generalize (timer_started k1). intros k2 Hf.
  split.
  - intros (rest & k' & E & _). apply bind_Some in E as ([r3 k3] & E & Eo). injection Eo as <- <- <-.
    apply keyboard_init_spec in E as (_ & stale & none & busy & free & early & ready & ack & Ha & Er).
    split; [reflexivity|]. exists stale, none, busy, free, early, ready, ack, r3. auto.
  - intros (-> & stale & none & busy & free & early & ready & ack & rest & Ha & Er).
    exists rest, (keyboard_started k2). split; [|exact Hf].
    rewrite (proj2 (keyboard_init_spec reads k2 rest (keyboard_started k2))); [reflexivity|].
    split; [reflexivity|]. exists stale, none, busy, free, early, ready, ack. auto.
Qed.

(** * The clock of the main loop and the counting task *)

Lemma land_low n j : 0 <= j -> Z.land n (2 ^ j - 1) = n mod 2 ^ j.
Proof. intros Hj. rewrite <- Z.land_ones, Z.ones_equiv by exact Hj. reflexivity. Qed.

(** A log line of one of the two loops. *)
Lemma log_spec str f args out k : lit_ok rodata lit f -> render str f args = Some out ->
  (forall a t, str a = Some t -> cstr rodata a t /\ (length f + length t <= fuel)%nat) -> (length f <= fuel)%nat ->
  transmits polls (m_ser k) ->
  exists s, log rodata lit polls fuel buf f args k = Some (with_ser s k) /\ after_sending COM1 (tlog_tag ++ out) (m_ser k) s.
Proof.
  intros [_ Hf] Er Hs Hl Ht. edestruct (tlog_sends polls fuel rodata buf (lit f)) with (4 := Er) as (s & E & A); try eassumption.
  exists s. split; [unfold log; rewrite E; reflexivity|exact A].
Qed.

(** The main loop logs the uptime once for every second in which it wakes up:
    nothing while the second is the one it logged last, one line with the new
    number otherwise, and it remembers that second. *)
Theorem uptime_logged last k :
  lit_ok rodata lit uptime_fmt -> (20 <= fuel)%nat -> transmits polls (m_ser k) -> in_u32 (tick_count k) ->
  exists s l, uptime_turn last k = Some (tick_count k / 100, with_ser s k) /\ value 10 l = tick_count k / 100 /\
    after_sending COM1 (if tick_count k / 100 =? last then [] else tlog_tag ++ text "uptime: " ++ l ++ text "s" ++ [10])
      (m_ser k) s.
Proof.
  intros Hlit Hfuel Htr Hc. unfold uptime_turn, timer_ticks. set (sec := tick_count k / 100).
  assert (0 <= sec < 4294967296) as Hsec by (unfold sec, in_u32 in *; zlia).
  destruct (to_digits_spec 10 12 sec ltac:(lia) ltac:(lia) ltac:(simpl; lia)) as (l & E & Hv & _).
  destruct (Z.eqb_spec sec last) as [->|Hne]; cbn [negb].
  { exists (m_ser k), l. split; [destruct k; reflexivity|]. split; [exact Hv|apply after_sending_nil]. }
  rewrite <- (u32_small sec) in E by exact Hsec.
  destruct (log_spec (fun _ => None) uptime_fmt [sec] (text "uptime: " ++ l ++ text "s" ++ [10]) k Hlit) as (s & El & A).
  - change uptime_fmt with (text "uptime: " ++ 37 :: 117 :: (text "s" ++ [10])).
    rewrite render_lit by (vm_compute; repeat constructor; discriminate). rewrite (render_u _ _ _ _ l E). reflexivity.
  - discriminate.
  - change (length uptime_fmt) with 12%nat. lia.
  - exact Htr.
  - exists s, l. rewrite El. auto.
Qed.

Lemma counter_quiet name n k : 0 <= n < 18446744073709551615 -> (n + 1) mod 16384 <> 0 -> counter_turn name n k = Some (n + 1, k).
Proof.
  intros Hn Hm. unfold counter_turn. rewrite u64_small by lia.
  change 0xFFFFF with (2 ^ 20 - 1). change 0x3FFF with (2 ^ 14 - 1). rewrite !land_low by lia.
  change (2 ^ 20) with 1048576. change (2 ^ 14) with 16384.
  replace ((n + 1) mod 1048576 =? 0) with false by zlia. replace ((n + 1) mod 16384 =? 0) with false by lia. reflexivity.
Qed.

Lemma counter_quiet_run j : forall name n k, 0 <= n -> n + Z.of_nat j < 18446744073709551616 ->
  n mod 16384 + Z.of_nat j < 16384 -> demo_counter j name n k = Some (n + Z.of_nat j, k).
Proof.
  induction j as [|j IH]; intros name n k Hn Hj Hm; cbn [demo_counter]; [rewrite Z.add_0_r; reflexivity|].
  rewrite counter_quiet by zlia. cbn [mbind option_bind]. rewrite IH by zlia. f_equal. f_equal. lia.
Qed.

(** The counting task is a good neighbour: from a multiple of 16384 the next
    16383 turns touch nothing, and the turn after them yields once; every
    1048576 turns it sends its name and the count to the log before that. *)
Theorem counter_rhythm name t n k :
  lit_ok rodata lit counter_fmt -> name <> 0 -> cstr rodata name t -> (40 + length t <= fuel)%nat -> transmits polls (m_ser k) ->
  0 <= n -> n + 16384 < 18446744073709551616 -> n mod 16384 = 0 ->
  demo_counter (Z.to_nat 16383) name n k = Some (n + 16383, k) /\
  exists s l, counter_turn name (n + 16383) k =
      Some (n + 16384, run_sched (ttask_yield boot_stack_top) (with_ser s k)) /\ value 10 l = u32 (n + 16384) /\
    after_sending COM1 (if (n + 16384) mod 1048576 =? 0 then tlog_tag ++ text "task " ++ t ++ text ": " ++ l ++ [10] else [])
      (m_ser k) s.
Proof.
  intros Hlit Hname Ht Hfuel Htr Hn Hmax Hm. split; [rewrite counter_quiet_run by lia; reflexivity|].
  unfold counter_turn. replace (n + 16383 + 1) with (n + 16384) by lia. rewrite u64_small by lia.
  change 0xFFFFF with (2 ^ 20 - 1). change 0x3FFF with (2 ^ 14 - 1). rewrite !land_low by lia.
  change (2 ^ 20) with 1048576. change (2 ^ 14) with 16384. replace ((n + 16384) mod 16384 =? 0) with true by zlia.
  pose proof (u32_range (n + 16384)) as Hu.
  destruct (to_digits_spec 10 12 (u32 (n + 16384)) ltac:(lia) ltac:(lia) ltac:(simpl; lia)) as (l & E & Hv & _).
  destruct ((n + 16384) mod 1048576 =? 0); [|exists (m_ser k), l; split; [destruct k; reflexivity|split; [exact Hv|apply after_sending_nil]]].
  set (str := fun a => if a =? name then Some t else None). rewrite <- (u32_small (u32 (n + 16384))) in E by exact Hu.
  destruct (log_spec str counter_fmt [name; u32 (n + 16384)] (text "task " ++ t ++ text ": " ++ l ++ [10]) k Hlit) as (s & El & A).
  - change counter_fmt with (text "task " ++ 37 :: 115 :: (text ": " ++ 37 :: 117 :: [10])).
    rewrite render_lit by (vm_compute; repeat constructor; discriminate).
    rewrite (render_s str _ name _ t Hname) by (unfold str; rewrite Z.eqb_refl; reflexivity).
    rewrite render_lit by (vm_compute; repeat constructor; discriminate). rewrite (render_u _ _ _ _ l E). reflexivity.
  - intros a u. unfold str. destruct (Z.eqb_spec a name) as [->|]; [|discriminate]. injection 1 as <-.
    split; [exact Ht|]. change (length counter_fmt) with 12%nat. lia.
  - change (length counter_fmt) with 12%nat. lia.
  - exact Htr.
  - exists s, l. rewrite El. auto.
Qed.
End startup.

(** * Witnesses *)

(** One stale code, a busy controller, a late acknowledgement (0xFA). *)
Definition demo_reads : list Z := [1; 0x9C; 0; 2; 0; 0; 1; 0xFA].
Definition demo_cold : machine flat_mem :=
  mk_machine demo_users keyboard_start demo_screen demo_uart (replicate 16 None) 0 0 (fun _ => false) [] false.

Lemma interrupts_started_witness :
  exists rest k', start_interrupts (fun n => n) (fun n => n) [] demo_reads demo_cold = Some (idt_table (fun n => n) (fun n => n) [], rest, k') /\
    timer_wired (irq_handlers k') /\ timer_hz k' = 100.
Proof.
  destruct (proj2 (interrupts_started (fun n => n) (fun n => n) [] demo_reads demo_cold (idt_table (fun n => n) (fun n => n) []) eq_refl))
    as (rest & k' & E & Hw & _ & Hz & _).
  - split; [reflexivity|]. exists [(1, 0x9C)], 0, [2], 0, [0], 1, 0xFA, []. split; [|reflexivity].
    repeat split; repeat constructor.
  - exists rest, k'. split; [exact E|]. split; [exact Hw|exact Hz].
Defined.
