(* ===== verification/Boot.v ===== *)
(** The start of the kernel: [ternel_main] up to its loop ([src/ternel.c]).

    The steps are those of the other files, in the order of the source, on the
    state of the shell together with the tables of the processor.  [boot_faults]
    says how far the sequence gets; [boot_reaches_prompt] says what the steps after
    [gdt_init] establish: the empty prompt from which the sessions start, with
    the log, the banner, the environment and the file system as expected. *)
From Stdlib Require Import String Ascii.
From stdpp Require Import prelude gmap list numbers.
From Stdlib Require Import ZArith Lia ZifyBool List.
From S2P Require Import Prelude TtaskCore Ttask Tpmm Tmalloc Tvmm Tstring Telf Tsec Tfs TfsSpec Keyboard Vga Tsh Printf Serial Gdt Idt Tsys Ttarfs Tprocfs Tline Ternel Demos Shell ShellSpec Typing Session Startup.
#[local] Open Scope Z_scope.

(** What the boot loader, the processor and the linker give: the boot
    information at [e_mbi] in the memory [e_info], the answers of the keyboard
    controller, the time-stamp counter, the addresses of the interrupt stubs, of
    the TSS and of the generators, the image; and the bounds of the walks over
    tags and archive blocks. *)
Record boot_env := mk_boot_env {
  e_mbi : Z; e_info : Z -> Z;
  e_reads : list Z;
  e_tsc_lo : Z; e_tsc_hi : Z;
  e_isr : Z -> Z; e_irq : Z -> Z;
  e_tss : Z;
  e_image : image;
  e_gen : gen_fn -> Z;
  e_tags : nat; e_blocks : nat
}.

Section boot.
Context {M H F B : Type} {TM : TaskMem M} {SH : SmallHeap H} {SF : SmallHeap F} {HB : HeapBackend B} (A : addrs).
Abbreviation K := (kernel M H F B).
Context (blobs : list user_blob) (line nbuf : Z) (polls : nat) (E : boot_env).
Abbreviation sh_state := (@shell M H F B).
Implicit Types (k : K) (s : sh_state).

(** The shell's state with the tables of [src/gdt.c] and [src/idt.c]. *)
Record boot := mk_boot { b_shell : sh_state; b_gdt : list gdt_entry_t; b_tss : tss_t; b_idt : list idt_entry_t }.

Definition on_shell {T} (c : cmd sh_state T) : cmd boot T := fun b =>
  match c (b_shell b) with (r, s) => (r, mk_boot s (b_gdt b) (b_tss b) (b_idt b)) end.
Definition mach_step (f : machine M -> machine M) : cmd K unit := modify (fun k => set_mach k (f (k_mach k))).

(** ** Devices and processor tables *)

(** The locals, [vga_init()] and [serial_init(COM1)]. *)
Definition boot_console : cmd sh_state unit :=
  modify (fun s => mk_shell (set_sh (with_tmem (<[line := 0]> (tmem (k_sh (s_kernel s)))) (k_sh (s_kernel s))) (s_kernel s))
                     0 0 (s_pos s) (s_row s)) ;;
  on_kernel (mach_step (fun m => Idt.with_vga (vga_init (m_vga m)) m)) ;;
  on_kernel (mach_step (fun m => with_ser (serial_init COM1 (m_ser m)).2 m)).

(** [gdt_init()]; a fault here finds no handler. *)
Definition boot_segments : cmd boot unit :=
  b ← get;
  let '(g, t, r) := gdt_init (e_tss E) (b_tss b) in
  modify (fun b => mk_boot (b_shell b) g t (b_idt b)) ;;
  match r with Some _ => skip | None => fail (Exception 13) end.

(** [idt_init(); timer_init(100); keyboard_init();] *)
Definition boot_interrupts : cmd boot unit :=
  b ← get;
  r ← lift Spins (start_interrupts (e_isr E) (e_irq E) (b_idt b) (e_reads E) (k_mach (s_kernel (b_shell b))));
  on_shell (on_kernel (mach_step (fun _ => r.2))) ;;
  modify (fun b => mk_boot (b_shell b) (b_gdt b) (b_tss b) r.1.1).

(** ** Memory *)

(** The state of [src/tsec.c] before and after the address spaces exist. *)
Definition boot_sec k : sec :=
  let v := y_vmm (k_sys k) in
  mk_sec (vm v) (cr3 v) (k_kaslr k) (k_guard k) (k_efer k) (y_cr4 (k_sys k)) (y_mem (k_sys k)).
Definition put_vmm (v : vmm H) k : K :=
  let y := k_sys k in set_sys (mk_sys (y_mach y) v (y_mem y) (tipc_table y) (y_if y) (y_cr4 y)) k.
Definition put_sec (c : sec) k : K :=
  let y := k_sys k in
  let v := y_vmm y in
  mk_kernel (mk_sys (y_mach y) (mk_vmm (smem c) (vheap v) (spaces v) (kernel_as v) (current v) (scr3 c)) (ram c)
               (tipc_table y) (y_if y) (cr4 c))
    (k_sh k) (k_fs k) (k_heap k) (efer c) (k_cr0 k) (kaslr_base c) (stack_guard_set c).

(** [vmm_aspace_current()] and [vmm_aspace_kernel()] as the scheduler has them. *)
Definition with_aspaces (cur kern : Z) (s : sched M) : sched M :=
  mk_sched (tasks s) (konts s) (scheduler_ready s) (total_switches s) (total_blocks s) (total_wakes s) (current_task s)
    (Ttask.tss_rsp0 s) cur kern (halted s) (memory s).

(** [tpmm_init(mbi); sec_kaslr_relocate(mbi); vmm_init();] *)
Definition boot_memory : cmd K unit :=
  k ← get;
  let v := y_vmm (k_sys k) in
  p ← match tpmm_init (e_info E) (e_tags E) (a_phys_start A) (a_phys_end A) (e_mbi E) (frames (vm v)) with
      | InitOk p => mret p
      | InitFault => fail (Exception 0)
      | InitFuel => fail Spins
      end;
  modify (put_vmm (with_vm (mk_vmem (Tvmm.words (vm v)) p) v)) ;;
  k ← get;
  r ← lift Spins (sec_kaslr_relocate (e_image E) (e_info E) (e_tags E) (e_tsc_lo E) (e_tsc_hi E) (e_mbi E) (boot_sec k));
  modify (put_sec r.2) ;;
  modify (fun k => put_vmm (vmm_init (y_vmm (k_sys k))) k) ;;
  modify (fun k => let a := kernel_as (y_vmm (k_sys k)) in set_sched (with_aspaces a a (k_sched k)) k).

(** [tfs_init(); tfs_procfs_init(); tfs_sysfs_init(); tfs_load_initrd(mbi);] *)
Definition boot_files : cmd K unit :=
  k ← get;
  f1 ← lift Spins (tfs_procfs_init (a_root A) (e_gen E) (tfs_init (k_fs k)));
  f2 ← lift Spins (tfs_sysfs_init (a_root A) (e_gen E) f1);
  match tfs_load_initrd (a_root A) (e_tags E) (e_blocks E) (e_info E) (y_mem (k_sys k)) (e_mbi E) (y_vmm (k_sys k)) f2 with
  | UOk (_, v, f) => modify (fun k => set_fs f (put_vmm v k))
  | UOob => fail (Exception 14)
  | UFuel => fail Spins
  end.

(** ** Shell, hardening, scheduler *)

Definition seed_env : cmd K unit :=
  k ← get;
  let l (w : String.string) := a_lit A (text w) in
  s ← lift Spins (tsh_env_seed (a_env_keys A) (a_env_vals A) 4096 (l "OS") (l "HOSTNAME") (l "USER") (l "HOME")
                    (l "trigeros") (l "root") (l "/") (k_sh k))%string;
  modify (set_sh s).

(** [sec_harden(); ttask_init();] *)
Definition boot_harden : cmd K unit :=
  modify (fun k => put_sec (sec_harden (e_image E) (boot_sec k)) k) ;;
  modify (fun k => set_sched (ttask_init (k_sched k)) k).

(** ** Messages *)

Definition log_line (fmt : list Z) (args : list Z) : cmd K unit :=
  k ← get;
  m ← lift Spins (log (tmem (k_sh k)) (a_lit A) polls 4096 nbuf fmt args (k_mach k));
  modify (fun k => set_mach k m).

Definition SMEP_SMAP : Z := Z.lor (Z.shiftl 1 20) (Z.shiftl 1 21).
(** The switches of the security message. *)
Definition switches (c : sec) : list bool :=
  [negb (sec_nx_enforced c =? 0); negb (sec_wx_enforced c =? 0); Z.land (sec_read_cr4 c) SMEP_SMAP =? SMEP_SMAP;
   negb (sec_kernel_phys_base c =? 0); negb (sec_stack_guard_enabled c =? 0)].
Definition onoff (b : bool) : list Z := if b then text "on" else text "off".

Definition booted_fmt : list Z := nl "TrigerOS v0.12.0 booted on x86_64".
Definition memory_fmt : list Z := nl "memory map: %u MiB available (%u frames)".
Definition security_fmt : list Z := nl "security: NX %s, W^X %s, SMEP+SMAP %s, KASLR %s, stack guard %s".
Definition sched_fmt : list Z := nl "scheduler: preemptive round-robin @ %u Hz, %d tasks".
Definition ipc_fmt : list Z := nl "ipc: mailboxes + recursive mutex ready (blocking send/recv/lock)".
Definition user_fmt : list Z := nl "user mode: int 0x80 syscalls, ring-3 tasks, %u program(s) embedded".

Definition boot_log : cmd K unit :=
  k ← get;
  let p := frames (vm (y_vmm (k_sys k))) in
  log_line booted_fmt [] ;;
  log_line memory_fmt [u32 (Z.shiftr (tpmm_available_mem p) 20); tpmm_free_frames p] ;;
  log_line security_fmt (map (fun b => a_lit A (onoff b)) (switches (boot_sec k))) ;;
  log_line sched_fmt [u32 (timer_hz (k_mach k)); ttask_count (k_sched k)] ;;
  log_line ipc_fmt [] ;;
  log_line user_fmt [u32 (Z.of_nat (length blobs))].

Definition RULE : list Z := replicate 47 61.
Definition boot_banner : cmd K unit :=
  say (RULE ++ [10]) [] ;;
  say (nl " TrigerOS v0.12.0 - RAM-resident, amnesic OS") [] ;;
  say (RULE ++ [10; 10]) [] ;;
  say (nl " Type 'help' for a list of commands.") [].

Definition first_prompt : cmd sh_state unit := modify (fun s => with_editor (print_prompt (editor_of s)) s).

(** ** The sequence *)

(** [sti], in the task that [ttask_init] made of this code. *)
Definition sti : cmd K unit := modify (fun k => set_sys (set_if 0 true (k_sys k)) k).

(** After [gdt_init()], up to the loop. *)
Definition boot_rest : cmd boot unit :=
  boot_interrupts ;;
  on_shell (on_kernel (boot_memory ;; boot_files ;; seed_env ;; boot_harden ;; boot_log ;; boot_banner)) ;;
  on_shell first_prompt ;;
  on_shell (on_kernel sti).

Definition ternel_boot : cmd boot unit := on_shell boot_console ;; boot_segments ;; boot_rest.

(** One turn of the loop after [hlt]: the clock, then every pending key;
    [last_sec] is the local variable, [fuel] bounds the keys. *)
Definition main_turn (expanded : Z) (fuel : nat) (last_sec : Z) : cmd sh_state Z :=
  s ← get;
  let k := s_kernel s in
  r ← lift Spins (uptime_turn (tmem (k_sh k)) (a_lit A) polls 4096 nbuf last_sec (k_mach k));
  on_kernel (mach_step (fun _ => r.2)) ;;
  key_loop A blobs line expanded nbuf polls fuel ;;
  mret r.1.
End boot.
Arguments mk_boot {M H F B}. Arguments b_shell {M H F B}. Arguments b_gdt {M H F B}. Arguments b_tss {M H F B}.
Arguments b_idt {M H F B}.

(** * How far it gets *)

Section faults.
Context {M H F B : Type} {TM : TaskMem M} {SH : SmallHeap H} {SF : SmallHeap F} {HB : HeapBackend B} (A : addrs).

(** C40. The kernel does not get past [gdt_init]: for every boot information,
    every answer of the devices and every state of memory, [ternel_main] stops
    with a general-protection fault in [gdt_init], before there is a handler
    for it.  The screen is then cleared and the serial port programmed, and the
    descriptor table is in place; no interrupt handler, no frame, no page
    table, no file, no variable of the shell and no task has been set up. *)
Theorem boot_faults blobs line nbuf polls Ev (b : @boot M H F B) :
  let k := s_kernel (b_shell b) in
  ternel_boot A blobs line nbuf polls Ev b =
    (inr (Exception 13),
     mk_boot (mk_shell (set_mach (set_sh (with_tmem (<[line := 0]> (tmem (k_sh k))) (k_sh k)) k)
                          (with_ser (serial_init COM1 (m_ser (k_mach k))).2 (Idt.with_vga (vga_init (k_vga k)) (k_mach k))))
                0 0 (s_pos (b_shell b)) (s_row (b_shell b)))
       (gdt_setup (e_tss Ev)) (tss_init (b_tss b)) (b_idt b)).
Proof.
  intros k. unfold ternel_boot. erewrite bind_step by reflexivity. unfold mbind at 1, cmd_bind at 1, boot_segments.
  erewrite bind_step by reflexivity. pose proof (proj1 (proj2 (gdt_init_faults (e_tss Ev) (b_tss b)))) as Hg.
  unfold gdt_init in Hg |- *. cbn [snd] in Hg. cbn [b_tss]. rewrite Hg. erewrite bind_step by reflexivity. reflexivity.
Qed.
End faults.

(** * The file system at boot *)

Section files.
Context {F : Type} {SF : SmallHeap F} {SL : SmallHeapLaws F} (root : Z).
Implicit Types f : tfs F.

Lemma virtual_live f dir name gen p : is_Some (nodes f !! p) -> is_Some (nodes (tfs_add_virtual dir name gen f).2 !! p).
Proof.
  intros Hp. unfold tfs_add_virtual, alloc_node, link_child. destruct (_ || _); [exact Hp|].
  destruct (sh_malloc 120 (fheap f)) as [q h]. destruct (Z.eqb_spec q 0) as [->|Hq]; [exact Hp|].
  replace (q =? 0) with false by lia. cbn [snd nodes with_nodes]. rewrite !lookup_insert_is_Some'. auto 6.
Qed.

Lemma virtuals_ok addr dir l : forall f, fs_ok root f -> is_Some (nodes f !! dir) -> fs_ok root (add_virtuals addr dir l f).
Proof.
  induction l as [|e l IH]; intros f Hf Hd; [exact Hf|]. apply (IH (tfs_add_virtual dir (text e.1) (addr e.2) f).2).
  - apply add_virtual_ok; auto.
  - apply virtual_live, Hd.
Qed.

(** A directory with its virtual files, mounted. *)
Lemma mount_virtuals addr path name l f : fs_ok root f ->
  exists f', ('(d, s) ← tfs_mkdir root path f; Some (if d =? 0 then s else tfs_mount name d (add_virtuals addr d l s))) = Some f' /\
    fs_ok root f'.
Proof.
  intros (T & L & Hf). destruct (make_node_spec root path TFS_DIR f T L Hf) as (d & f1 & E & Hok & _ & Hd).
  unfold tfs_mkdir. rewrite E. cbn [mbind option_bind]. eexists. split; [reflexivity|].
  destruct (Z.eqb_spec d 0) as [->|Hne]; [exact Hok|]. destruct (Hd Hne) as ((m & Hm & _) & _).
  eapply step_ok; [|apply st_mount]. apply virtuals_ok; eauto.
Qed.

Lemma virtual_dirs_ok addr f : fs_ok root f ->
  exists f1 f2, tfs_procfs_init root addr (tfs_init f) = Some f1 /\ tfs_sysfs_init root addr f1 = Some f2 /\ fs_ok root f2.
Proof.
  intros Hf. assert (fs_ok root (tfs_init f)) as H0 by (eapply step_ok; [exact Hf|apply st_init]).
  destruct (mount_virtuals addr (text "/proc") (text "procfs") [("uptime"%string, gen_uptime_fn); ("version"%string, gen_version_fn);
    ("meminfo"%string, gen_meminfo_fn); ("heapinfo"%string, gen_heapinfo_fn)] _ H0) as (f1 & E1 & H1).
  destruct (mount_virtuals addr (text "/sys") (text "sysfs") [("memory"%string, gen_memory_fn); ("frames"%string, gen_frames_fn);
    ("kernel"%string, gen_kernel_fn)] _ H1) as (f2 & E2 & H2).
  exists f1, f2. auto.
Qed.

Lemma unpack_keeps tar fuel : forall off f f', fs_ok root f -> unpack_loop root fuel tar off f = UOk f' -> fs_ok root f'.
Proof.
  induction fuel as [|fuel IH]; intros off f f' Hf; cbn [unpack_loop]; destruct (negb _); try congruence.
  set (h := drop (Z.to_nat off) tar). destruct (nth 0 h 0 =? 0); [congruence|]. destruct (full_name h) as [full|]; [|discriminate].
  destruct (unpack_entry_ok root (nth 156 h 0) (tar_field (take 12 (drop 124 h))) (strip_trailing_slash full) (drop 512 h) f Hf)
    as [->|(f1 & -> & H1)]; [discriminate|]. apply IH, H1.
Qed.

Lemma initrd_keeps {V} {SV : SmallHeap V} tags fuel info mem mbi (v : vmm V) f r v' f' : fs_ok root f ->
  tfs_load_initrd root tags fuel info mem mbi v f = UOk (r, v', f') -> fs_ok root f'.
Proof.
  intros Hf. unfold tfs_load_initrd. generalize (u64 (mbi + 8)), (u64 (mbi + rd32 info mbi)). intros p stop. revert p.
  induction tags as [|n IH]; intros p; cbn [find_module]; destruct (negb _); try congruence.
  destruct (rd32 info p =? 0); [congruence|]. destruct (_ =? MB2_TAG_MODULE); [|apply IH]. unfold load_module.
  destruct (map_window _ _ _ v) as [ok v1]. destruct (negb ok); [congruence|]. destruct (_ >? 0); [|congruence].
  destruct (window_bytes _ _ _ _) as [tar|]; [|discriminate].
  destruct (tfs_unpack_tar root fuel tar f) as [f1| |] eqn:E; try discriminate. intros [= _ _ <-]. exact (unpack_keeps _ _ _ _ _ Hf E).
Qed.
End files.

(** * The messages *)

(** The digits of a number of 32 bits. *)
Definition dec (n : Z) : list Z := default [] (to_digits 12 10 (u32 n)).

Lemma dec_digits n : to_digits 12 10 (u32 n) = Some (dec n) /\ value 10 (dec n) = u32 n.
Proof.
  pose proof (u32_range n) as Hn. destruct (to_digits_spec 10 12 (u32 n) ltac:(lia) ltac:(lia) ltac:(simpl; lia)) as (l & E & Hv & _).
  unfold dec. rewrite E. auto.
Qed.

Lemma render_dec str f n args : render str (37 :: 117 :: f) (n :: args) = app (dec n) <$> render str f args.
Proof. apply render_u, dec_digits. Qed.

Lemma render_int str f n args : 0 <= n < 2147483648 ->
  render str (37 :: 100 :: f) (n :: args) = app (dec n) <$> render str f args.
Proof.
  intros Hn. destruct (dec_digits n) as [E _]. rewrite (u32_small n) in E by lia.
  assert (s32 n = n) as Es by (unfold s32; rewrite u32_small by lia; case_if; lia).
  cbn -[to_digits s32]. rewrite Es, Z.abs_eq, E by lia. replace (n <? 0) with false by lia. reflexivity.
Qed.

(** A text without percent signs renders as itself. *)
Lemma render_plain str l args : plain_text l = true -> render str l args = Some l.
Proof.
  intros Hl. rewrite <- (app_nil_r l) at 1. rewrite render_lit; [cbn; rewrite app_nil_r; reflexivity|].
  unfold plain_text in Hl. rewrite forallb_forall in Hl. apply list.Forall_forall. intros c Hc.
  apply list_elem_of_In in Hc. specialize (Hl c Hc). lia.
Qed.

Lemma render_text str l f args : plain_text l = true -> render str (l ++ f) args = app l <$> render str f args.
Proof.
  intros Hl. apply render_lit. unfold plain_text in Hl. rewrite forallb_forall in Hl. apply list.Forall_forall. intros c Hc.
  apply list_elem_of_In in Hc. specialize (Hl c Hc). lia.
Qed.

Section messages.
Context {M H F B : Type} {TM : TaskMem M} {SH : SmallHeap H} {SF : SmallHeap F} {HB : HeapBackend B} (A : addrs).
Abbreviation K := (kernel M H F B).
Context (blobs : list user_blob) (nbuf : Z) (polls : nat).
Implicit Types k : K.

(** The kernel with another state of the serial port. *)
Definition put_ser (s : serial) k : K := set_mach k (with_ser s (k_mach k)).

Lemma put_ser_twice s s' k : put_ser s' (put_ser s k) = put_ser s' k.
Proof. reflexivity. Qed.

(** The strings that the messages need, in the data of the image. *)
Definition boot_formats : list (list Z) :=
  [booted_fmt; memory_fmt; security_fmt; sched_fmt; ipc_fmt; user_fmt; log_fmt; text "on"; text "off"].
Definition has_formats (m : bytes) : Prop := Forall (lit_ok m (a_lit A)) boot_formats.

Definition onoff_str (a : Z) : option (list Z) :=
  if a =? a_lit A (text "on") then Some (text "on") else if a =? a_lit A (text "off") then Some (text "off") else None.

Lemma has_format m l : has_formats m -> l ∈ boot_formats -> lit_ok m (a_lit A) l.
Proof. intros Hm. apply list.Forall_forall, Hm. Qed.

Lemma onoff_formats b : onoff b ∈ boot_formats.
Proof. destruct b; [apply (list_elem_of_lookup_2 _ 7)|apply (list_elem_of_lookup_2 _ 8)]; reflexivity. Qed.

Lemma onoff_str_spec m b : has_formats m -> onoff_str (a_lit A (onoff b)) = Some (onoff b).
Proof.
  intros Hm. destruct (has_format m _ Hm (onoff_formats true)) as [_ Hon], (has_format m _ Hm (onoff_formats false)) as [_ Hoff].
  cbn [onoff] in Hon, Hoff.
  unfold onoff_str. destruct b; cbn [onoff]; [rewrite Z.eqb_refl; reflexivity|].
  destruct (Z.eqb_spec (a_lit A (text "off")) (a_lit A (text "on"))) as [Ee|_]; [|rewrite Z.eqb_refl; reflexivity].
  rewrite Ee in Hoff. vm_compute in Hon, Hoff. destruct Hon as (_ & _ & _ & Hon & _), Hoff as (_ & _ & _ & Hoff & _). congruence.
Qed.

Lemma log_line_spec f args out k : has_formats (tmem (k_sh k)) -> f ∈ take 6 boot_formats ->
  render onoff_str f args = Some out -> transmits polls (k_ser k) ->
  exists s, log_line A nbuf polls f args k = (inl tt, put_ser s k) /\ after_sending COM1 (tlog_tag ++ out) (k_ser k) s.
Proof.
  intros Hm Hf Er Ht.
  assert (f ∈ boot_formats) as Hf' by (rewrite <- (take_drop 6 boot_formats); apply elem_of_app; auto).
  assert (length f <= 100)%nat as Hl.
  { clear Er Hf'. revert f Hf. apply list.Forall_forall. vm_compute. repeat constructor; lia. }
  destruct (log_spec (tmem (k_sh k)) (a_lit A) polls 4096 nbuf onoff_str f args out (k_mach k) (has_format _ _ Hm Hf') Er) as (s & E & As).
  - intros a t Ha. unfold onoff_str in Ha.
    destruct (Z.eqb_spec a (a_lit A (text "on"))) as [->|_];
      [injection Ha as <-; split; [exact (proj2 (has_format _ _ Hm (onoff_formats true)))|change (length (text "on")) with 2%nat; lia]|].
    destruct (Z.eqb_spec a (a_lit A (text "off"))) as [->|_]; [|discriminate].
    injection Ha as <-. split; [exact (proj2 (has_format _ _ Hm (onoff_formats false)))|change (length (text "off")) with 3%nat; lia].
  - lia.
  - exact Ht.
  - exists s. split; [|exact As]. unfold log_line. erewrite bind_step by reflexivity. rewrite E. reflexivity.
Qed.

(** The text that the messages send. *)
Definition boot_report k : list Z :=
  let p := frames (vm (y_vmm (k_sys k))) in
  let switch i := onoff (nth i (switches (boot_sec k)) false) in
  concat (map (app tlog_tag)
    [booted_fmt;
     text "memory map: " ++ dec (u32 (Z.shiftr (tpmm_available_mem p) 20)) ++ text " MiB available (" ++ dec (tpmm_free_frames p) ++ nl " frames)";
     text "security: NX " ++ switch 0%nat ++ text ", W^X " ++ switch 1%nat ++ text ", SMEP+SMAP " ++ switch 2%nat ++
       text ", KASLR " ++ switch 3%nat ++ text ", stack guard " ++ switch 4%nat ++ [10];
     text "scheduler: preemptive round-robin @ " ++ dec (u32 (timer_hz (k_mach k))) ++ text " Hz, " ++ dec (ttask_count (k_sched k)) ++ nl " tasks";
     ipc_fmt;
     text "user mode: int 0x80 syscalls, ring-3 tasks, " ++ dec (u32 (Z.of_nat (length blobs))) ++ nl " program(s) embedded"]).

(** It does not depend on screen, line and serial port. *)
Lemma boot_report_frame k k' : y_vmm (k_sys k') = y_vmm (k_sys k) -> boot_sec k' = boot_sec k ->
  timer_hz (k_mach k') = timer_hz (k_mach k) -> k_sched k' = k_sched k -> boot_report k' = boot_report k.
Proof. intros E1 E2 E3 E4. unfold boot_report. rewrite E1, E2, E3, E4. reflexivity. Qed.

Lemma boot_report_shows t s k : boot_report (shows t (put_ser s k)) = boot_report k.
Proof. apply boot_report_frame; reflexivity. Qed.

Lemma count_range_tasks (s : sched M) : 0 <= ttask_count s <= TTASK_MAX_TASKS.
Proof.
  unfold ttask_count. apply (for_range_ind (fun i n => 0 <= n <= i)); [unfold TTASK_MAX_TASKS; lia|lia|].
  intros i n _ Hn. destruct (negb _); lia.
Qed.

Lemma render_security m c b1 b2 b3 b4 : has_formats m ->
  render onoff_str security_fmt (map (fun b => a_lit A (onoff b)) [c; b1; b2; b3; b4]) =
  Some (text "security: NX " ++ onoff c ++ text ", W^X " ++ onoff b1 ++ text ", SMEP+SMAP " ++ onoff b2 ++
       text ", KASLR " ++ onoff b3 ++ text ", stack guard " ++ onoff b4 ++ [10]).
Proof.
  intros Hm. assert (forall b f args, render onoff_str (37 :: 115 :: f) (a_lit A (onoff b) :: args) = app (onoff b) <$> render onoff_str f args) as Hs.
  { intros b f args. apply render_s; [exact (proj1 (has_format _ _ Hm (onoff_formats b)))|exact (onoff_str_spec m b Hm)]. }
  change security_fmt with (text "security: NX " ++ 37 :: 115 :: (text ", W^X " ++ 37 :: 115 :: (text ", SMEP+SMAP " ++ 37 :: 115 ::
    (text ", KASLR " ++ 37 :: 115 :: (text ", stack guard " ++ 37 :: 115 :: [10]))))).
  cbn [map]. do 5 (rewrite render_text by reflexivity; rewrite Hs). reflexivity.
Qed.

Lemma render_memory str a b : render str memory_fmt [a; b] =
  Some (text "memory map: " ++ dec a ++ text " MiB available (" ++ dec b ++ nl " frames)").
Proof.
  change memory_fmt with (text "memory map: " ++ 37 :: 117 :: (text " MiB available (" ++ 37 :: 117 :: nl " frames)")).
  do 2 (rewrite render_text, render_dec by reflexivity). rewrite render_plain by reflexivity. reflexivity.
Qed.

Lemma render_sched str a b : 0 <= b < 2147483648 -> render str sched_fmt [a; b] =
  Some (text "scheduler: preemptive round-robin @ " ++ dec a ++ text " Hz, " ++ dec b ++ nl " tasks").
Proof.
  intros Hb. change sched_fmt with (text "scheduler: preemptive round-robin @ " ++ 37 :: 117 :: (text " Hz, " ++ 37 :: 100 :: nl " tasks")).
  rewrite render_text, render_dec, render_text, render_int by (exact Hb || reflexivity). rewrite render_plain by reflexivity. reflexivity.
Qed.

Lemma render_user str a : render str user_fmt [a] =
  Some (text "user mode: int 0x80 syscalls, ring-3 tasks, " ++ dec a ++ nl " program(s) embedded").
Proof.
  change user_fmt with (text "user mode: int 0x80 syscalls, ring-3 tasks, " ++ 37 :: 117 :: nl " program(s) embedded").
  rewrite render_text, render_dec, render_plain by reflexivity. reflexivity.
Qed.

(** One message and the rest. *)
Lemma log_then f args out k0 s0 (c : cmd K unit) t : has_formats (tmem (k_sh k0)) -> f ∈ take 6 boot_formats ->
  render onoff_str f args = Some out -> transmits polls s0 ->
  (forall s1, transmits polls s1 -> exists s2, c (put_ser s1 k0) = (inl tt, put_ser s2 k0) /\ after_sending COM1 t s1 s2) ->
  exists s2, (log_line A nbuf polls f args ;; c) (put_ser s0 k0) = (inl tt, put_ser s2 k0) /\
    after_sending COM1 ((tlog_tag ++ out) ++ t) s0 s2.
Proof.
  intros Hm Hf Er Ht Hc. destruct (log_line_spec f args out (put_ser s0 k0) Hm Hf Er Ht) as (s1 & E1 & A1).
  rewrite put_ser_twice in E1. destruct (Hc s1 (transmits_after _ _ _ _ _ A1 Ht)) as (s2 & E2 & A2).
  exists s2. erewrite bind_step by exact E1. split; [exact E2|exact (after_sending_trans _ _ _ _ _ _ A1 A2)].
Qed.

Lemma boot_log_at k s0 : has_formats (tmem (k_sh k)) -> transmits polls s0 ->
  exists s, boot_log A blobs nbuf polls (put_ser s0 k) = (inl tt, put_ser s k) /\ after_sending COM1 (boot_report k) s0 s.
Proof.
  intros Hm Ht. unfold boot_log, boot_report. erewrite bind_step by reflexivity. cbv zeta.
  change (k_sched (put_ser s0 k)) with (k_sched k). change (timer_hz (k_mach (put_ser s0 k))) with (timer_hz (k_mach k)).
  change (y_vmm (k_sys (put_ser s0 k))) with (y_vmm (k_sys k)). change (boot_sec (put_ser s0 k)) with (boot_sec k).
  pose proof (count_range_tasks (k_sched k)) as Hn. unfold TTASK_MAX_TASKS in Hn.
  revert Hn. generalize (ttask_count (k_sched k)), (timer_hz (k_mach k)), (frames (vm (y_vmm (k_sys k)))).
  unfold switches. cbn [nth]. generalize (boot_sec k). intros c n hz p Hn. cbn [map concat].
  assert (forall i f, boot_formats !! i = Some f -> (i < 6)%nat -> f ∈ take 6 boot_formats) as Hin.
  { intros i f Hi Hl. apply (list_elem_of_lookup_2 _ i). rewrite lookup_take_lt by exact Hl. exact Hi. }
  assert (forall s1, transmits polls s1 -> exists s2, log_line A nbuf polls user_fmt [u32 (Z.of_nat (length blobs))] (put_ser s1 k) = (inl tt, put_ser s2 k) /\
    after_sending COM1 ((tlog_tag ++ text "user mode: int 0x80 syscalls, ring-3 tasks, " ++ dec (u32 (Z.of_nat (length blobs))) ++ nl " program(s) embedded") ++ []) s1 s2) as Hlast.
  { intros s1 Ht1. destruct (log_line_spec user_fmt _ _ (put_ser s1 k) Hm (Hin 5%nat _ eq_refl ltac:(lia)) (render_user _ (u32 (Z.of_nat (length blobs)))) Ht1) as (s2 & E & As).
    rewrite put_ser_twice in E. rewrite app_nil_r. exists s2. auto. }
  apply log_then; [exact Hm|exact (Hin 0%nat _ eq_refl ltac:(lia))|apply render_plain; reflexivity|exact Ht|]. clear s0 Ht. intros s0 Ht.
  apply log_then; [exact Hm|exact (Hin 1%nat _ eq_refl ltac:(lia))|apply render_memory|exact Ht|]. clear s0 Ht. intros s0 Ht.
  apply log_then; [exact Hm|exact (Hin 2%nat _ eq_refl ltac:(lia))|exact (render_security _ _ _ _ _ _ Hm)|exact Ht|]. clear s0 Ht. intros s0 Ht.
  apply log_then; [exact Hm|exact (Hin 3%nat _ eq_refl ltac:(lia))|apply render_sched; lia|exact Ht|]. clear s0 Ht. intros s0 Ht.
  apply log_then; [exact Hm|exact (Hin 4%nat _ eq_refl ltac:(lia))|apply render_plain; reflexivity|exact Ht|]. exact Hlast.
Qed.

Lemma boot_log_spec k : has_formats (tmem (k_sh k)) -> transmits polls (k_ser k) ->
  exists s, boot_log A blobs nbuf polls k = (inl tt, put_ser s k) /\ after_sending COM1 (boot_report k) (k_ser k) s.
Proof.
  intros Hm Ht. assert (put_ser (k_ser k) k = k) as Hk by (destruct k as [[[]] ]; reflexivity).
  pose proof (boot_log_at k (k_ser k) Hm Ht) as Hl. rewrite Hk in Hl. exact Hl.
Qed.

(** The banner on the screen. *)
Definition BANNER : list Z :=
  RULE ++ [10] ++ nl " TrigerOS v0.12.0 - RAM-resident, amnesic OS" ++ RULE ++ [10; 10] ++ nl " Type 'help' for a list of commands.".

Lemma boot_banner_spec k : boot_banner k = (inl tt, shows BANNER k).
Proof.
  unfold boot_banner. do 3 (erewrite bind_step by (apply say_text; vm_compute; reflexivity)).
  erewrite say_text by (vm_compute; reflexivity). reflexivity.
Qed.
End messages.

(** * To the prompt *)

Section prompt.
Context {M H F B : Type} {TM : TaskMem M} {SH : SmallHeap H} {SF : SmallHeap F} {SL : SmallHeapLaws F} {HB : HeapBackend B} (A : addrs).
Abbreviation K := (kernel M H F B).
Context (blobs : list user_blob) (line nbuf : Z) (polls : nat) (Ev : boot_env).
Abbreviation sh_state := (@shell M H F B).
Implicit Types (k : K) (s : sh_state).

Abbreviation clients := (client (a_env_keys A) (a_env_vals A) (a_hist_entries A) (a_arg_buf A)).

(** The environment that every session starts with. *)
Definition SEED : list (list Z * list Z) :=
  [(text "OS", text "trigeros"); (text "HOSTNAME", text "trigeros"); (text "USER", text "root"); (text "HOME", text "/")].

(** The data of the image before the shell is used: zeroed tables, and string
    literals that are there and apart from them. *)
Record image_data (sh : tsh) : Prop := {
  im_env : env_count sh = 0;
  im_hist : hist_count sh = 0;
  im_line : rd (tmem sh) line = 0;
  im_literals : Forall (fun l => lit_ok (tmem sh) (a_lit A) l /\ clients (a_lit A l) (len l + 1))
    (boot_formats ++ SEED.*1 ++ SEED.*2)
}.

Context (L : layout A line).

Lemma seed_env_spec k : image_data (k_sh k) ->
  exists sh, seed_env A k = (inl tt, set_sh sh k) /\ env_ok (a_env_keys A) (a_env_vals A) sh SEED /\
    hist_ok (a_hist_entries A) sh [] /\ has_formats A (tmem sh) /\ rd (tmem sh) line = 0.
Proof.
  intros [He Hh Hl Hlits]. apply list.Forall_app in Hlits as [Hf Hw]. rewrite list.Forall_forall in Hw.
  assert (forall t n, t ∈ SEED.*1 ++ SEED.*2 -> len t < n ->
    literal_at (a_env_keys A) (a_env_vals A) (a_hist_entries A) (a_arg_buf A) (k_sh k) (a_lit A t) t n) as Hlit.
  { intros t n Ht Hn. destruct (Hw t Ht) as [[_ Hc] Hcl]. split; [exact Hc|]. auto. }
  destruct (env_set_all_spec (a_env_keys A) (a_env_vals A) (a_hist_entries A) (a_arg_buf A) (ly_statics _ _ L) 4096
    (map (fun kv => (a_lit A kv.1, a_lit A kv.2)) SEED) [] SEED (k_sh k)) as (sh & E & He' & Hh' & Hfr).
  - lia.
  - split; [exact He|]. split; [cbn; lia|]. split; [constructor|]. intros i x v Hi. discriminate.
  - apply list.Forall2_fmap_l, list.Forall_Forall2_diag, list.Forall_forall. intros [x v] Hxv.
    assert (x ∈ SEED.*1 /\ v ∈ SEED.*2) as [Hx Hv]
      by (split; apply list_elem_of_fmap; [exists (x, v)|exists (x, v)]; auto).
    assert (Forall (fun kv => len kv.1 < 32 /\ len kv.2 < 128) SEED) as Hlen by (vm_compute; repeat constructor).
    rewrite list.Forall_forall in Hlen. destruct (Hlen _ Hxv) as [Hl1 Hl2]. cbn [fst snd] in Hl1, Hl2.
    split; cbn [fst snd]; (apply Hlit; [apply elem_of_app; auto|assumption]).
  - vm_compute. repeat (constructor; [set_solver|]). constructor.
  - cbn. lia.
  - exists sh. cbn [app] in He'. split; [|split; [exact He'|split; [|split]]].
    + unfold seed_env. erewrite bind_step by reflexivity. unfold tsh_env_seed.
      change [_; _; _; _] with (map (fun kv => (a_lit A kv.1, a_lit A kv.2)) SEED). rewrite E. reflexivity.
    + split; [rewrite Hh'; exact Hh|]. split; [cbn; lia|]. intros i l Hi. discriminate.
    + eapply list.Forall_impl; [exact Hf|]. intros l [[H0 Hc] (C1 & C2 & _)]. split; [exact H0|].
      eapply cstr_frame; [|exact Hc]. intros x Hx. apply Hfr. unfold separate in C1, C2. split; lia.
    + rewrite Hfr; [exact Hl|]. destruct (ly_line _ _ L) as ((C1 & C2 & _) & _). unfold separate in C1, C2. split; lia.
Qed.

(** ** Memory and files *)

(** After [tpmm_init], and the address spaces after [vmm_init]. *)
Definition after_pmm (p : pmm) k : K :=
  let v := y_vmm (k_sys k) in put_vmm (with_vm (mk_vmem (Tvmm.words (vm v)) p) v) k.
Definition placed (c : sec) k : vmm H := vmm_init (y_vmm (k_sys (put_sec c k))).

(** What the boot loader left can be used: the memory map is read, the image
    has its place, the archive is unpacked. *)
Record boot_media k (p : pmm) (c : sec) (v : vmm H) (f : tfs F) : Prop := {
  md_frames : tpmm_init (e_info Ev) (e_tags Ev) (a_phys_start A) (a_phys_end A) (e_mbi Ev) (frames (vm (y_vmm (k_sys k)))) = InitOk p;
  md_image : exists r, sec_kaslr_relocate (e_image Ev) (e_info Ev) (e_tags Ev) (e_tsc_lo Ev) (e_tsc_hi Ev) (e_mbi Ev) (boot_sec (after_pmm p k)) = Some (r, c);
  md_archive : exists f1 f2 r, tfs_procfs_init (a_root A) (e_gen Ev) (tfs_init (k_fs k)) = Some f1 /\
    tfs_sysfs_init (a_root A) (e_gen Ev) f1 = Some f2 /\
    tfs_load_initrd (a_root A) (e_tags Ev) (e_blocks Ev) (e_info Ev) (ram c) (e_mbi Ev) (placed c k) f2 = UOk (r, v, f)
}.

(** A check that it can. *)
Definition media_check k : bool :=
  match tpmm_init (e_info Ev) (e_tags Ev) (a_phys_start A) (a_phys_end A) (e_mbi Ev) (frames (vm (y_vmm (k_sys k)))),
        tfs_procfs_init (a_root A) (e_gen Ev) (tfs_init (k_fs k)) ≫= tfs_sysfs_init (a_root A) (e_gen Ev) with
  | InitOk p, Some f2 =>
      match sec_kaslr_relocate (e_image Ev) (e_info Ev) (e_tags Ev) (e_tsc_lo Ev) (e_tsc_hi Ev) (e_mbi Ev) (boot_sec (after_pmm p k)) with
      | Some (_, c) =>
          match tfs_load_initrd (a_root A) (e_tags Ev) (e_blocks Ev) (e_info Ev) (ram c) (e_mbi Ev) (placed c k) f2 with
          | UOk _ => true
          | _ => false
          end
      | None => false
      end
  | _, _ => false
  end.

Lemma media_exists k : media_check k = true -> exists p c v f, boot_media k p c v f.
Proof.
  unfold media_check. destruct (tpmm_init _ _ _ _ _ _) as [p| |] eqn:E1; try discriminate.
  destruct (tfs_procfs_init _ _ _) as [f1|] eqn:E2; [|discriminate]. cbn [mbind option_bind].
  destruct (tfs_sysfs_init _ _ _) as [f2|] eqn:E3; [|discriminate].
  destruct (sec_kaslr_relocate _ _ _ _ _ _ _) as [[r c]|] eqn:E4; [|discriminate].
  destruct (tfs_load_initrd _ _ _ _ _ _ _ f2) as [| |[[r' v] f]] eqn:E5; try discriminate. intros _.
  exists p, c, v, f. split; [exact E1|eauto|]. exists f1, f2, r'. auto.
Qed.

Lemma archive_ok k p c v f : boot_media k p c v f -> fs_ok (a_root A) (k_fs k) -> fs_ok (a_root A) f.
Proof.
  intros [_ _ (f1 & f2 & r & E1 & E2 & E3)] Hf. destruct (virtual_dirs_ok (a_root A) (e_gen Ev) _ Hf) as (g1 & g2 & G1 & G2 & Hg).
  assert (g2 = f2) as -> by congruence. exact (initrd_keeps _ _ _ _ _ _ _ _ _ _ _ Hg E3).
Qed.

Lemma boot_sec_put c k : boot_sec (put_sec c k) = c.
Proof. destruct c. reflexivity. Qed.

Lemma boot_sec_shows t ser k : boot_sec (shows t (put_ser ser k)) = boot_sec k.
Proof. reflexivity. Qed.
Lemma boot_sec_sched x k : boot_sec (set_sched x k) = boot_sec k.
Proof. reflexivity. Qed.

(** The kernel after both, whatever the devices are. *)
Definition with_media (c : sec) (v : vmm H) (f : tfs F) k : K :=
  let a := kernel_as (y_vmm (k_sys k)) in
  set_fs f (put_vmm v (put_sec c (set_sched (with_aspaces a a (k_sched k)) k))).

Lemma boot_media_spec k m p c v f : boot_media k p c v f ->
  (boot_memory A Ev ;; boot_files A Ev) (set_mach k m) = (inl tt, with_media c v f (set_mach k m)).
Proof.
  intros [E1 [r E2] (f1 & f2 & r' & E3 & E4 & E5)].
  assert (boot_memory A Ev (set_mach k m) = (inl tt, let k1 := put_sec c (after_pmm p (set_mach k m)) in
    let k2 := put_vmm (placed c k) k1 in let a := kernel_as (y_vmm (k_sys k)) in set_sched (with_aspaces a a (k_sched k2)) k2)) as Em.
  { unfold boot_memory. erewrite bind_step by reflexivity. cbv zeta.
    change (y_vmm (k_sys (set_mach k m))) with (y_vmm (k_sys k)). rewrite E1. erewrite bind_step by reflexivity.
    erewrite bind_step by reflexivity. erewrite bind_step by reflexivity.
    match goal with |- context [boot_sec ?x] => change (boot_sec x) with (boot_sec (after_pmm p k)) end. rewrite E2.
    erewrite bind_step by reflexivity. erewrite bind_step by reflexivity. erewrite bind_step by reflexivity. reflexivity. }
  erewrite bind_step by exact Em. unfold boot_files. erewrite bind_step by reflexivity.
  match goal with |- context [tfs_init (k_fs ?x)] => change (k_fs x) with (k_fs k) end. rewrite E3. erewrite bind_step by reflexivity.
  rewrite E4. erewrite bind_step by reflexivity.
  match goal with |- context [tfs_load_initrd _ _ _ _ (y_mem (k_sys ?x)) _ (y_vmm (k_sys ?x))] =>
    change (y_mem (k_sys x)) with (ram c); change (y_vmm (k_sys x)) with (placed c k) end.
  rewrite E5. reflexivity.
Qed.

(** ** The whole sequence *)

(** The state in which [gdt_init] would return. *)
Record boot_start s (z : Z) (mem : M) : Prop := {
  bs_data : image_data (k_sh (s_kernel s));
  bs_line : s_len s = 0 /\ s_cursor s = 0 /\ s_pos s = 0;
  bs_vga : vga_ok (k_vga (s_kernel s));
  bs_kb : kb_ok (k_kb (s_kernel s)) /\ kb_list (k_kb (s_kernel s)) = [];
  bs_ser : transmits polls (k_ser (s_kernel s));
  bs_irq : irq_handlers (k_mach (s_kernel s)) = replicate 16 None;
  bs_sched : k_sched (s_kernel s) = boot_sched z mem;
  bs_fs : fs_ok (a_root A) (k_fs (s_kernel s))
}.

(** The keyboard controller answers. *)
Definition controller_ready (reads : list Z) : Prop :=
  exists stale none busy free early ready ack rest,
    answers_ok stale none busy free early ready /\ reads = answers stale none busy free early ready ack ++ rest.

(** The kernel steps after the interrupts, with the devices [m]. *)
Lemma boot_kernel_spec k m p c v f z mem : boot_media k p c v f -> image_data (k_sh k) -> transmits polls (m_ser m) ->
  m_sched m = boot_sched z mem ->
  exists sh ser k', (boot_memory A Ev ;; boot_files A Ev ;; seed_env A ;; boot_harden Ev ;; boot_log A blobs nbuf polls ;; boot_banner) (set_mach k m)
      = (inl tt, k') /\
    env_ok (a_env_keys A) (a_env_vals A) sh SEED /\ hist_ok (a_hist_entries A) sh [] /\ has_formats A (tmem sh) /\ rd (tmem sh) line = 0 /\
    after_sending COM1 (boot_report blobs k') (m_ser m) ser /\ k_sh k' = sh /\ k_fs k' = f /\
    k_sched k' = ttask_init (boot_sched (kernel_as (y_vmm (k_sys k))) mem) /\
    k_mach k' = with_ser ser (Idt.with_vga (put_all BANNER (m_vga m)) (with_sched (k_sched k') m)) /\
    boot_sec k' = sec_harden (e_image Ev) (mk_sec (vm v) (cr3 v) (kaslr_base c) (stack_guard_set c) (efer c) (cr4 c) (ram c)).
Proof.
  intros Hm Hd Ht Hs. rewrite <- bind_assoc_at. erewrite bind_step by exact (boot_media_spec k m p c v f Hm).
  destruct (seed_env_spec (with_media c v f (set_mach k m)) Hd) as (sh & E1 & He & Hh & Hf & Hl).
  erewrite bind_step by exact E1. unfold boot_harden. rewrite bind_assoc_at. erewrite bind_step by reflexivity. erewrite bind_step by reflexivity.
  match goal with |- context [_ ?x = (inl tt, _)] => set (k1 := x) end.
  destruct (boot_log_spec A blobs nbuf polls k1 Hf Ht) as (ser & E2 & As).
  exists sh, ser, (shows BANNER (put_ser ser k1)). split; [erewrite bind_step by exact E2; apply boot_banner_spec|].
  split; [exact He|]. split; [exact Hh|]. split; [exact Hf|]. split; [exact Hl|].
  split; [rewrite boot_report_shows; exact As|]. split; [reflexivity|]. split; [reflexivity|]. split; [|split; [reflexivity|]].
  - change (k_sched (shows BANNER (put_ser ser k1))) with (ttask_init (with_aspaces (kernel_as (y_vmm (k_sys k))) (kernel_as (y_vmm (k_sys k))) (m_sched m))).
    rewrite Hs. reflexivity.
  - rewrite boot_sec_shows. unfold k1. rewrite boot_sec_sched, boot_sec_put. f_equal.
Qed.

Lemma on_shell_step {T} (c : cmd sh_state T) (b : boot) x s' : c (b_shell b) = (inl x, s') ->
  on_shell c b = (inl x, mk_boot s' (b_gdt b) (b_tss b) (b_idt b)).
Proof. intros E. unfold on_shell. rewrite E. reflexivity. Qed.

Lemma boot_interrupts_spec s g t idt table rest m :
  start_interrupts (e_isr Ev) (e_irq Ev) idt (e_reads Ev) (k_mach (s_kernel s)) = Some (table, rest, m) ->
  boot_interrupts Ev (mk_boot s g t idt) =
    (inl tt, mk_boot (mk_shell (set_mach (s_kernel s) m) (s_len s) (s_cursor s) (s_pos s) (s_row s)) g t table).
Proof.
  intros E. unfold boot_interrupts. erewrite bind_step by reflexivity. cbn [b_shell b_idt]. rewrite E.
  erewrite bind_step by reflexivity. erewrite bind_step by reflexivity. reflexivity.
Qed.

(** An empty prompt after [print_prompt] and [sti]. *)
Definition prompted s : sh_state :=
  let s1 := with_editor (print_prompt (editor_of s)) s in
  mk_shell (set_sys (set_if 0 true (k_sys (s_kernel s1))) (s_kernel s1)) (s_len s1) (s_cursor s1) (s_pos s1) (s_row s1).

Lemma prompted_at s e : env_ok (a_env_keys A) (a_env_vals A) (k_sh (s_kernel s)) e -> hist_ok (a_hist_entries A) (k_sh (s_kernel s)) [] ->
  has_formats A (tmem (k_sh (s_kernel s))) -> rd (tmem (k_sh (s_kernel s))) line = 0 ->
  s_len s = 0 -> s_cursor s = 0 -> s_pos s = 0 -> vga_ok (k_vga (s_kernel s)) -> kb_ok (k_kb (s_kernel s)) ->
  transmits polls (k_ser (s_kernel s)) -> at_prompt A line polls (prompted s) [] e (kb_list (k_kb (s_kernel s))).
Proof.
  intros He Hh Hf Hl Ln Lc Lp Hv Hk Ht. split; [split; [split; cbn [l_text l_cur l_pos length]|..]|reflexivity|exact Ht].
  - split; [exact Hl|lia].
  - exact Ln.
  - split; [exact Lc|lia].
  - split; [exact Lp|lia].
  - exact Hh.
  - apply put_all_ok, Hv.
  - exact He.
  - refine (proj2 (has_format A _ log_fmt Hf _)). apply (list_elem_of_lookup_2 _ 6). reflexivity.
  - exact Hk.
Qed.

Lemma prompted_fields s : k_fs (s_kernel (prompted s)) = k_fs (s_kernel s) /\ k_sched (s_kernel (prompted s)) = k_sched (s_kernel s) /\
  boot_sec (s_kernel (prompted s)) = boot_sec (s_kernel s) /\ boot_report blobs (s_kernel (prompted s)) = boot_report blobs (s_kernel s) /\
  k_mach (s_kernel (prompted s)) = Idt.with_vga (put_all PROMPT (k_vga (s_kernel s))) (k_mach (s_kernel s)) /\ y_if (k_sys (s_kernel (prompted s))) 0 = true.
Proof.
  split; [reflexivity|]. split; [reflexivity|]. split; [reflexivity|]. split; [apply boot_report_frame; reflexivity|]. split; reflexivity.
Qed.

End prompt.

(** * A turn without keys *)

Section turn.
Context {M H F B : Type} {TM : TaskMem M} {SH : SmallHeap H} {SF : SmallHeap F} {HB : HeapBackend B} (A : addrs).
Context (blobs : list user_blob) (line expanded nbuf : Z) (polls : nat).
Implicit Types s : @shell M H F B.

(** Without a pending key the key loop ends at once. *)
Lemma key_loop_idle f s : kb_ok (k_kb (s_kernel s)) -> kb_list (k_kb (s_kernel s)) = [] ->
  key_loop A blobs line expanded nbuf polls (S f) s = (inl tt, s).
Proof.
  intros Hk Hq. pose proof (getchar_spec _ Hk) as Hg. destruct (keyboard_getchar (k_kb (s_kernel s))) as [c kb] eqn:Eg.
  destruct Hg as (_ & _ & [(_ & -> & ->)|Hn]); [|rewrite Hq in Hn; discriminate].
  assert (key_turn A blobs line expanded nbuf polls s = (inl false, s)) as Et.
  { unfold key_turn. erewrite bind_step by reflexivity. fold (k_kb (s_kernel s)). rewrite Eg. erewrite bind_step by reflexivity.
    destruct s as [[[[]] ] ]. reflexivity. }
  cbn [key_loop]. erewrite bind_step by exact Et. reflexivity.
Qed.

(** A turn of the main loop at a prompt without pending keys returns the
    current second and leaves the prompt as it is; it has logged the uptime
    exactly when the second is a new one. *)
Lemma main_turn_idle f last s h e : at_prompt A line polls s h e [] -> lit_ok (tmem (k_sh (s_kernel s))) (a_lit A) uptime_fmt ->
  in_u32 (tick_count (k_mach (s_kernel s))) ->
  let sec := tick_count (k_mach (s_kernel s)) / 100 in
  exists s' l, main_turn A blobs line nbuf polls expanded (S f) last s = (inl sec, s') /\ at_prompt A line polls s' h e [] /\
    k_vga (s_kernel s') = k_vga (s_kernel s) /\ k_fs (s_kernel s') = k_fs (s_kernel s) /\ value 10 l = sec /\
    after_sending COM1 (if sec =? last then [] else tlog_tag ++ text "uptime: " ++ l ++ text "s" ++ [10]) (k_ser (s_kernel s)) (k_ser (s_kernel s')).
Proof.
  intros [[Hty He Hf Hk] Hq Ht] Hl Hc sec.
  destruct (uptime_logged (tmem (k_sh (s_kernel s))) (a_lit A) polls 4096 nbuf last (k_mach (s_kernel s)) Hl ltac:(lia) Ht Hc) as (ser & l & E & Hv & As).
  exists (mk_shell (touched (k_sh (s_kernel s)) (k_kb (s_kernel s)) (k_vga (s_kernel s)) ser (s_kernel s)) (s_len s) (s_cursor s) (s_pos s) (s_row s)), l.
  split; [|split; [|auto]].
  - unfold main_turn. erewrite bind_step by reflexivity. cbv zeta. rewrite E. erewrite bind_step by reflexivity.
    erewrite bind_step by reflexivity. erewrite bind_step by (apply key_loop_idle; [exact Hk|exact Hq]). reflexivity.
  - split; [split; [|exact He|exact Hf|exact Hk]|exact Hq|exact (transmits_after _ _ _ _ _ As Ht)].
    destruct Hty as [H1 H2 H3 H4 H5 H6]. split; assumption.
Qed.
End turn.

(** * Witness *)

#[local] Existing Instances rising rising_laws easy_backend.

(** An image with its literals from 20000 on, the tables as in [demo_addrs]. *)
Definition demo_table : list (list Z) := boot_formats ++ SEED.*1 ++ SEED.*2.
Definition demo_lit (l : list Z) : Z :=
  match list_find (fun l' => l' = l) demo_table with Some (i, _) => 20000 + 128 * Z.of_nat i | None => 600 end.
Definition demo_data : bytes := fold_left (fun m l => store_bytes (demo_lit l) (l ++ [0]) m) demo_table ∅.
Definition demo_boot_addrs : addrs :=
  mk_addrs 1000 2000 8000 16000 900 8 40000 500 demo_lit (fun _ => None) 700 703 704 705 701 702 0 1048576 1052672 0.
Definition demo_boot_env : boot_env :=
  mk_boot_env 4096 demo_mbi demo_reads 17 0 (fun n => n) (fun n => n) 0x3000 demo_image (fun _ => 1) 8 8.

Definition demo_boot_kernel : kernel flat_mem Z Z unit :=
  mk_kernel
    (mk_sys (mk_machine (boot_sched 0 (mk_flat 1048576 ∅)) keyboard_start demo_screen demo_uart (replicate 16 None) 0 0 (fun _ => false) [] false)
       demo_page_tables ∅ (replicate 32 TIPC_OBJ_FREE) (fun _ => false) 0x20)
    (mk_tsh demo_data 0 0) demo_fs demo_heap 0 0 0 0.
Definition demo_boot_shell : shell := mk_shell demo_boot_kernel 0 0 0 0.

Lemma demo_far p n : 17024 <= p -> client 1000 2000 8000 16000 p n.
Proof. intros Hp. unfold client, separate. lia. Qed.

Lemma demo_boot_layout : layout demo_boot_addrs 100.
Proof.
  split; [exact demo_apart|apply demo_client; cbn; lia| |discriminate|].
  - split; [apply demo_client; cbn; lia|unfold separate; cbn; lia].
  - change (a_lit demo_boot_addrs log_fmt) with (demo_lit log_fmt).
    assert (demo_lit log_fmt = 20768) as -> by (vm_compute; reflexivity). unfold separate; cbn; lia.
Qed.

Lemma demo_image_data : image_data demo_boot_addrs 100 (mk_tsh demo_data 0 0).
Proof.
  split; [reflexivity|reflexivity|vm_compute; reflexivity|].
  repeat (apply list.Forall_cons; split;
    [split; [split; [vm_compute; discriminate|vm_compute; repeat split; discriminate || reflexivity]|apply demo_far; vm_compute; discriminate]|]).
  constructor.
Qed.

Lemma demo_boot_start : boot_start demo_boot_addrs 100 1 demo_boot_shell 0 (mk_flat 1048576 ∅).
Proof.
  split; [exact demo_image_data|repeat split| |split; [exact (proj1 kb_start_ok)|reflexivity]|exact demo_transmits|reflexivity|reflexivity|exact demo_ok].
  vm_compute. repeat split; discriminate.
Qed.

(** The loader left a memory map and no module. *)
Lemma demo_media : exists p c v f, boot_media demo_boot_addrs demo_boot_env demo_boot_kernel p c v f.
Proof. apply media_exists. vm_compute. reflexivity. Qed.

Definition demo_tss : tss_t := tss_init (mk_tss 0 0 0 0 0 [] 0 0 0).

