(* ===== verification/Kush.v ===== *)
(** The ring-3 shell: [user/kush.c] and the system-call wrappers of
    [user/syscall.h].

    The wrappers are the register images they load; [user_calls_reach] shows
    that the handler of Tsys takes each for the call it is meant to be.  The
    shell itself runs over a world with its memory, the characters that its
    reads will return, the bytes it has written and the values of the clock and
    its id; a loop turn is proved to answer a typed line the way a function on
    texts says. *)
From Stdlib Require Import String Ascii.
From stdpp Require Import prelude gmap list numbers.
From Stdlib Require Import ZArith Lia ZifyBool.
From S2P Require Import Prelude TtaskCore Ttask Tipc Tpmm Tvmm Tstring Keyboard Vga Printf Serial Idt Tsys Ternel.
#[local] Open Scope Z_scope.

(** * The wrappers *)

(** [int $0x80] with the number and up to three arguments in registers; what
    a wrapper does not set is left from [r]. *)
Definition int80 (nr : Z) (a1 a2 a3 : option Z) (r : registers_t) : registers_t :=
  mk_regs (default (r_rdi r) (u64 <$> a1)) (default (r_rsi r) (u64 <$> a2)) (default (r_rdx r) (u64 <$> a3)) nr
    128 (r_rip r) (r_cs r).

Module Abi.
Definition sys_write (fd buf n : Z) := int80 1 (Some fd) (Some buf) (Some n).
Definition sys_exit (code : Z) := int80 2 (Some code) None None.
Definition sys_getpid := int80 3 None None None.
Definition sys_yield := int80 4 None None None.
Definition sys_sleep (ticks : Z) := int80 5 (Some ticks) None None.
Definition sys_mb_init := int80 6 None None None.
Definition sys_mb_send (id msg : Z) := int80 7 (Some id) (Some msg) None.
Definition sys_mb_recv (id msg : Z) := int80 8 (Some id) (Some msg) None.
Definition sys_mutex_init := int80 9 None None None.
Definition sys_mutex_lock (id : Z) := int80 10 (Some id) None None.
Definition sys_mutex_unlock (id : Z) := int80 11 (Some id) None None.
Definition sys_getticks := int80 12 None None None.
Definition sys_read (fd buf n : Z) := int80 13 (Some fd) (Some buf) (Some n).
End Abi.

(** * The shell *)

Definition LINE_MAX : Z := 128.

(** Memory of the program, input to come, output so far, id and clock. *)
Record world := mk_world { w_mem : bytes; w_in : list Z; w_out : list Z; w_pid : Z; w_ticks : Z }.

Definition with_mem (m : bytes) (w : world) : world := mk_world m (w_in w) (w_out w) (w_pid w) (w_ticks w).

(** [sys_write(1, ...)] of the text [t]: the kernel refuses an empty one. *)
Definition put (t : list Z) (w : world) : world := mk_world (w_mem w) (w_in w) (w_out w ++ t) (w_pid w) (w_ticks w).

(** [sys_read(0, &ch, 1)]: the next character, or a result of 0 or less. *)
Definition read_char (w : world) : option Z * world :=
  match w_in w with
  | [] => (None, w)
  | c :: l => (Some c, mk_world (w_mem w) l (w_out w) (w_pid w) (w_ticks w))
  end.

(** [print] of the string at [p]; a string without terminator is not printed. *)
Definition print (p : Z) (w : world) : option world :=
  n ← tstrlen (w_mem w) 4096 p;
  Some (put (map (fun k => rd (w_mem w) (p + k)) (seqZ 0 n)) w).

Definition println (s : String.string) (w : world) : world := put [10] (put (text s) w).

(** The digits of [print_uint], last first. *)
Fixpoint uint_tmp (room : nat) (v : Z) : list Z :=
  match room with
  | O => []
  | S n => if v >? 0 then (48 + v mod 10) :: uint_tmp n (v / 10) else []
  end.
Definition print_uint (v : Z) (w : world) : world :=
  if v =? 0 then put [48] w else put (rev (uint_tmp 12 v)) w.

(** The loop of [readline] with [i] characters in the buffer. *)
Fixpoint readline (fuel : nat) (buf maxlen i : Z) (w : world) : option (Z * world) :=
  if i <? maxlen - 1 then
    match fuel with
    | O => None
    | S f =>
        let '(c, w1) := read_char w in
        match c with
        | None => Some (if i >? 0 then i else -1, w1)
        | Some ch =>
            if (ch =? 10) || (ch =? 13) then
              let w2 := put [10] w1 in Some (i, with_mem (<[buf + i := 0]> (w_mem w2)) w2)
            else if (ch =? 8) || (ch =? 127) then
              if i >? 0 then readline f buf maxlen (i - 1) (put [32; 8] w1) else readline f buf maxlen i w1
            else
              let w2 := with_mem (<[buf + i := ch]> (w_mem w1)) w1 in
              readline f buf maxlen (i + 1) (put [ch] w2)
        end
    end
  else Some (i, with_mem (<[buf + i := 0]> (w_mem w)) w).

(** The loops that skip spaces and that run to the end of a word. *)
Fixpoint skip_spaces (m : bytes) (fuel : nat) (p : Z) : option Z :=
  if rd m p =? 32 then match fuel with O => None | S f => skip_spaces m f (p + 1) end else Some p.
Fixpoint word_end (m : bytes) (fuel : nat) (p : Z) : option Z :=
  if negb (rd m p =? 0) && negb (rd m p =? 32)
  then match fuel with O => None | S f => word_end m f (p + 1) end else Some p.

(** [tstrcmp(a, "...")] *)
Fixpoint strcmp_lit (m : bytes) (a : Z) (t : list Z) : Z :=
  match t with
  | [] => u8 (rd m a)
  | c :: t' => if negb (rd m a =? 0) && (rd m a =? c) then strcmp_lit m (a + 1) t' else u8 (rd m a) - u8 c
  end.
Definition is_cmd (m : bytes) (a : Z) (s : String.string) : bool := strcmp_lit m a (text s) =? 0.

Definition clear_text : list Z := 27 :: text "[2J" ++ 27 :: text "[H".

(** The command at [cmd] with its arguments at [args]; [true]: [exit]. *)
Definition dispatch (cmd args : Z) (w : world) : option (bool * world) :=
  let m := w_mem w in
  if is_cmd m cmd "help" then
    Some (false, fold_left (fun w s => println s w)
      ["kush builtins:"; "  help    - show this help"; "  exit    - exit kush"; "  clear   - clear screen";
       "  echo    - print arguments"; "  pid     - show current pid"; "  ticks   - show PIT tick count";
       "  uptime  - show uptime in seconds"]%string w)
  else if is_cmd m cmd "exit" then Some (true, w)
  else if is_cmd m cmd "clear" then Some (false, put clear_text w)
  else if is_cmd m cmd "echo" then w1 ← print args w; Some (false, put [10] w1)
  else if is_cmd m cmd "pid" then Some (false, put [10] (print_uint (u32 (w_pid w)) w))
  else if is_cmd m cmd "ticks" then Some (false, put [10] (print_uint (u32 (w_ticks w)) w))
  else if is_cmd m cmd "uptime" then Some (false, println "s" (print_uint (u32 (w_ticks w) / 100) w))
  else w1 ← print cmd (put (text "unknown: ") w); Some (false, put [10] w1).

(** One turn of [while (1)] of [kush_main], with [line] on the stack. *)
Definition kush_turn (fuel : nat) (line : Z) (w : world) : option (bool * world) :=
  '(n, w1) ← readline fuel line LINE_MAX 0 (put (text "kush> ") w);
  if n <=? 0 then Some (false, w1)
  else
    cmd ← skip_spaces (w_mem w1) 4096 line;
    if rd (w_mem w1) cmd =? 0 then Some (false, w1)
    else
      e ← word_end (w_mem w1) 4096 cmd;
      let '(m2, a) := if negb (rd (w_mem w1) e =? 0) then (<[e := 0]> (w_mem w1), e + 1) else (w_mem w1, e) in
      args ← skip_spaces m2 4096 a;
      dispatch cmd args (with_mem m2 w1).

Definition at_time (k : Z) (w : world) : world := mk_world (w_mem w) (w_in w) (w_out w) (w_pid w) k.

(** [kush_main]: turns until [exit].  A turn asks for the time at most once;
    [clock] holds what the clock says in each. *)
Fixpoint kush_main (clock : list Z) (fuel : nat) (line : Z) (w : world) : option world :=
  match clock with
  | [] => None
  | k :: clock' =>
      '(b, w1) ← kush_turn fuel line (at_time k w); if b : bool then Some w1 else kush_main clock' fuel line w1
  end.

(** * What it should do *)

Definition char_ok (c : Z) : Prop := 0 < c < 256.

(** The characters [cs] typed behind [t]: the line, the echo and the characters
    left, or [None] when the line is not finished. *)
Fixpoint typed (cs t : list Z) : option (list Z * list Z * list Z) :=
  if (length t <? 127)%nat then
    match cs with
    | [] => None
    | c :: cs' =>
        if (c =? 10) || (c =? 13) then Some (t, [10], cs')
        else if (c =? 8) || (c =? 127) then
          match t with
          | [] => typed cs' []
          | _ => '(t', e, r) ← typed cs' (removelast t); Some (t', 32 :: 8 :: e, r)
          end
        else '(t', e, r) ← typed cs' (t ++ [c]); Some (t', c :: e, r)
    end
  else Some (t, [], cs).

Fixpoint drop_spaces (t : list Z) : list Z :=
  match t with c :: t' => if c =? 32 then drop_spaces t' else t | [] => [] end.
Fixpoint first_word (t : list Z) : list Z * list Z :=
  match t with
  | [] => ([], [])
  | c :: t' => if c =? 32 then ([], t) else let '(w, r) := first_word t' in (c :: w, r)
  end.

Definition decimal (v : Z) : list Z := default [] (to_digits 16 10 v).

Definition help_text : list Z :=
  concat (map (fun s => text s ++ [10])
    ["kush builtins:"; "  help    - show this help"; "  exit    - exit kush"; "  clear   - clear screen";
     "  echo    - print arguments"; "  pid     - show current pid"; "  ticks   - show PIT tick count";
     "  uptime  - show uptime in seconds"]%string).

(** The answer to a command; [true]: the shell ends. *)
Definition answer (cmd args : list Z) (pid ticks : Z) : bool * list Z :=
  if bool_decide (cmd = text "help") then (false, help_text)
  else if bool_decide (cmd = text "exit") then (true, [])
  else if bool_decide (cmd = text "clear") then (false, clear_text)
  else if bool_decide (cmd = text "echo") then (false, args ++ [10])
  else if bool_decide (cmd = text "pid") then (false, decimal (u32 pid) ++ [10])
  else if bool_decide (cmd = text "ticks") then (false, decimal (u32 ticks) ++ [10])
  else if bool_decide (cmd = text "uptime") then (false, decimal (u32 ticks / 100) ++ text "s" ++ [10])
  else (false, text "unknown: " ++ cmd ++ [10]).

Definition reply (t : list Z) (pid ticks : Z) : bool * list Z :=
  match drop_spaces t with
  | [] => (false, [])
  | u => let '(cmd, r) := first_word u in answer cmd (drop_spaces (tail r)) pid ticks
  end.

(** A session: what is printed for the keys [cs] up to [exit], and the keys
    left; [clock] as for [kush_main]. *)
Fixpoint session (clock cs : list Z) (pid : Z) : option (list Z * list Z) :=
  match clock with
  | [] => None
  | k :: clock' =>
      '(t, e, r) ← typed cs [];
      let '(b, a) := reply t pid k in
      if b : bool then Some (text "kush> " ++ e ++ a, r)
      else '(o, r') ← session clock' r pid; Some ((text "kush> " ++ e ++ a) ++ o, r')
  end.

(** ** Pieces *)

Lemma put_nil w : put [] w = w.
Proof. destruct w. unfold put. cbn. rewrite app_nil_r. reflexivity. Qed.
Lemma put_app a b w : put b (put a w) = put (a ++ b) w.
Proof. unfold put. cbn. rewrite app_assoc. reflexivity. Qed.

Lemma bytes_seq m p t : cstr m p t -> map (fun k => rd m (p + k)) (seqZ 0 (len t)) = t.
Proof.
  intros Ht. apply cstr_bytes in Ht as [_ Hb]. apply list_eq. intros i. rewrite list_lookup_fmap.
  destruct (decide (i < length t)%nat) as [Hi|Hi].
  - rewrite lookup_seqZ_lt by lia. cbn. rewrite Hb by lia. destruct (lookup_lt_is_Some_2 t i Hi) as [c Ec].
    rewrite Ec. f_equal. apply nth_lookup_Some. rewrite <- Ec. f_equal. lia.
  - rewrite lookup_seqZ_ge by lia. rewrite lookup_ge_None_2 by lia. reflexivity.
Qed.

Lemma print_spec p t w : cstr (w_mem w) p t -> (length t <= 4096)%nat -> print p w = Some (put t w).
Proof.
  intros Ht Hl. unfold print, tstrlen. rewrite (strlen_from_spec _ 4096 p t 0) by (rewrite ?Z.add_0_r; assumption).
  cbn [mbind option_bind]. rewrite Z.add_0_l, bytes_seq by exact Ht. reflexivity.
Qed.

Lemma strcmp_lit_spec m t : forall a c, cstr m a c -> Forall char_ok t -> (strcmp_lit m a t =? 0) = bool_decide (c = t).
Proof.
  induction t as [|b t IH]; intros a c Hc Ht.
  - cbn [strcmp_lit]. destruct c as [|d c]; cbn [cstr] in Hc; [rewrite Hc; reflexivity|].
    destruct Hc as (Hd & -> & _). rewrite u8_small by lia. rewrite bool_decide_eq_false_2 by discriminate. lia.
  - apply list.Forall_cons in Ht as [Hb Ht]. unfold char_ok in Hb. cbn [strcmp_lit]. destruct c as [|d c]; cbn [cstr] in Hc.
    + rewrite Hc. cbn [Z.eqb negb andb]. rewrite (u8_small b), bool_decide_eq_false_2 by (lia || discriminate). change (u8 0) with 0. lia.
    + destruct Hc as (Hd & -> & Hc). replace (d =? 0) with false by lia. cbn [negb andb].
      destruct (Z.eqb_spec d b) as [->|Hne].
      * rewrite (IH _ c Hc Ht). apply bool_decide_ext. split; [intros ->; reflexivity|intros [= ->]; reflexivity].
      * rewrite !u8_small, bool_decide_eq_false_2 by (lia || congruence). lia.
Qed.

Lemma digits_tmp room : forall n v acc, 0 <= v < 10 ^ Z.of_nat n -> (n <= room)%nat ->
  digits_loop room 10 v acc = Some (rev (uint_tmp n v) ++ acc).
Proof.
  induction room as [|room IH]; intros n v acc Hv Hn.
  - replace n with 0%nat in * by lia. cbn in *. replace (v =? 0) with true by lia. reflexivity.
  - cbn [digits_loop]. destruct (Z.eqb_spec v 0) as [->|Hne]; [destruct n; reflexivity|].
    destruct n as [|n]; [cbn in Hv; lia|]. cbn [uint_tmp]. replace (v >? 0) with true by lia.
    rewrite (IH n) by (rewrite ?Nat2Z.inj_succ, ?Z.pow_succ_r in Hv by lia; (split; [apply Z.div_pos|apply Z.div_lt_upper_bound]) || idtac; lia).
    cbn [rev]. rewrite <- app_assoc. unfold digit_char. pose proof (Z.mod_pos_bound v 10 ltac:(lia)).
    replace (v mod 10 <? 10) with true by lia. reflexivity.
Qed.

Lemma print_uint_spec v w : 0 <= v < 4294967296 -> print_uint v w = put (decimal v) w.
Proof.
  intros Hv. unfold print_uint, decimal, to_digits. destruct (Z.eqb_spec v 0) as [|Hne]; [reflexivity|].
  rewrite (digits_tmp 16 12) by (cbn; lia). rewrite app_nil_r. reflexivity.
Qed.

(** ** Reading a line *)

(** The first bytes of the buffer. *)
Definition buffer (m : bytes) (p : Z) (t : list Z) : Prop := forall k c, t !! k = Some c -> rd m (p + Z.of_nat k) = c.

Lemma buffer_cstr m p t : Forall char_ok t -> buffer m p t -> cstr (<[p + len t := 0]> m) p t.
Proof.
  intros Hf Hb. apply cstr_bytes. split; [exact Hf|]. intros k Hk. destruct (Z.eq_dec k (len t)) as [->|Hne].
  - rewrite rd_insert_eq, nth_overflow by lia. reflexivity.
  - rewrite rd_insert_ne by lia. destruct (lookup_lt_is_Some_2 t (Z.to_nat k)) as [c Ec]; [lia|].
    rewrite (nth_lookup_Some _ _ _ _ Ec). rewrite <- (Hb _ _ Ec). f_equal. lia.
Qed.

Lemma buffer_snoc m p t c : buffer m p t -> buffer (<[p + len t := c]> m) p (t ++ [c]).
Proof.
  intros Hb k d Hk. apply lookup_app_Some in Hk as [Hk|[Hle Hk]].
  - pose proof (lookup_lt_Some _ _ _ Hk). rewrite rd_insert_ne by lia. apply Hb, Hk.
  - apply list_lookup_singleton_Some in Hk as [Hk <-]. replace (p + Z.of_nat k) with (p + len t) by lia. apply rd_insert_eq.
Qed.

Lemma removelast_length (t : list Z) : t <> [] -> length t = S (length (removelast t)).
Proof. intros Hne. rewrite (app_removelast_last 0 Hne) at 1. rewrite length_app. cbn. lia. Qed.

Lemma buffer_removelast m p t : buffer m p t -> buffer m p (removelast t).
Proof.
  intros Hb k c Hk. destruct t as [|d t]; [discriminate|].
  apply Hb. rewrite (app_removelast_last 0 (l := d :: t)) by discriminate. apply lookup_app_l_Some, Hk.
Qed.

Lemma Forall_removelast (P : Z -> Prop) t : Forall P t -> Forall P (removelast t).
Proof.
  intros Hf. destruct t as [|d t]; [exact Hf|].
  rewrite (app_removelast_last 0 (l := d :: t)) in Hf by discriminate. apply list.Forall_app in Hf as [Hf _]. exact Hf.
Qed.

(** The world after a line: [t] in the buffer, [e] echoed, [r] left to read. *)
Definition line_read (buf : Z) (t e r : list Z) (w w' : world) : Prop :=
  w_in w' = r /\ w_out w' = w_out w ++ e /\ cstr (w_mem w') buf t /\ w_pid w' = w_pid w /\ w_ticks w' = w_ticks w /\
  forall x, x < buf \/ buf + LINE_MAX <= x -> rd (w_mem w') x = rd (w_mem w) x.

Lemma line_read_step buf t e e0 r w0 w1 w' : line_read buf t e r w1 w' ->
  w_out w1 = w_out w0 ++ e0 -> w_pid w1 = w_pid w0 -> w_ticks w1 = w_ticks w0 ->
  (forall x, x < buf \/ buf + LINE_MAX <= x -> rd (w_mem w1) x = rd (w_mem w0) x) ->
  line_read buf t (e0 ++ e) r w0 w'.
Proof.
  intros (L1 & L2 & L3 & L4 & L5 & L6) Eo Ep Et Hm. split; [exact L1|].
  split; [rewrite L2, Eo, app_assoc; reflexivity|]. split; [exact L3|]. split; [congruence|]. split; [congruence|].
  intros x Hx. rewrite L6, Hm by exact Hx. reflexivity.
Qed.

Lemma readline_spec buf cs : forall t fuel w t' e r, w_in w = cs -> (length cs <= fuel)%nat -> (length t <= 127)%nat ->
  Forall char_ok t -> Forall char_ok cs -> buffer (w_mem w) buf t -> typed cs t = Some (t', e, r) ->
  Forall char_ok t' /\ (length t' <= 127)%nat /\
  exists w', readline fuel buf LINE_MAX (len t) w = Some (len t', w') /\ line_read buf t' e r w w'.
Proof.
  assert (forall t w e, (length t <= 127)%nat -> Forall char_ok t -> buffer (w_mem w) buf t ->
    line_read buf t e (w_in w) w (with_mem (<[buf + len t := 0]> (w_mem w)) (put e w))) as Hend.
  { intros t w e Hl Ht Hb. split; [reflexivity|]. split; [reflexivity|]. split; [apply buffer_cstr; assumption|].
    split; [reflexivity|]. split; [reflexivity|]. intros x Hx. cbn. unfold LINE_MAX in Hx. rewrite rd_insert_ne by lia. reflexivity. }
  induction cs as [|c cs IH]; intros t fuel w t' e r Ein Hf Hl Ht Hcs Hb E; cbn [typed] in E;
    destruct (Nat.ltb_spec (length t) 127) as [Hlt|Hge].
  - discriminate E.
  - injection E as <- <- <-. split; [exact Ht|]. split; [exact Hl|]. pose proof (Hend t w [] Hl Ht Hb) as He. rewrite Ein, put_nil in He.
    destruct fuel; cbn [readline]; unfold LINE_MAX at 1; replace (len t <? 128 - 1) with false by lia; eexists; (split; [reflexivity|exact He]).
  - apply list.Forall_cons in Hcs as [Hc Hcs]. destruct fuel as [|fuel]; [cbn in Hf; lia|]. cbn [length] in Hf.
    cbn [readline]. unfold LINE_MAX at 1. replace (len t <? 128 - 1) with true by lia. unfold read_char. rewrite Ein.
    set (w1 := mk_world (w_mem w) cs (w_out w) (w_pid w) (w_ticks w)).
    destruct ((c =? 10) || (c =? 13)).
    { injection E as <- <- <-. split; [exact Ht|]. split; [exact Hl|]. eexists. split; [reflexivity|]. exact (Hend t w1 [10] Hl Ht Hb). }
    destruct ((c =? 8) || (c =? 127)).
    + destruct t as [|d t0] eqn:Et.
      * change (len [] >? 0) with false. cbv iota. destruct (IH [] fuel w1 t' e r eq_refl ltac:(lia) Hl Ht Hcs Hb E) as (F1 & F2 & w' & E' & L').
        split; [exact F1|]. split; [exact F2|]. exists w'. split; [exact E'|exact L'].
      * rewrite <- Et in *. assert (t <> []) as Hne by (rewrite Et; discriminate). pose proof (removelast_length t Hne) as Hrl.
        replace (len t >? 0) with true by lia. destruct (typed cs (removelast t)) as [[[t1 e1] r1]|] eqn:E1; [|discriminate E].
        injection E as <- <- <-.
        destruct (IH (removelast t) fuel (put [32; 8] w1) t1 e1 r1 eq_refl ltac:(lia) ltac:(lia)
          (Forall_removelast _ _ Ht) Hcs (buffer_removelast _ _ _ Hb) E1) as (F1 & F2 & w' & E' & L').
        split; [exact F1|]. split; [exact F2|]. exists w'. split; [replace (len t - 1) with (len (removelast t)) by lia; exact E'|].
        exact (line_read_step _ _ _ [32; 8] _ w _ _ L' eq_refl eq_refl eq_refl (fun _ _ => eq_refl)).
    + destruct (typed cs (t ++ [c])) as [[[t1 e1] r1]|] eqn:E1; [|discriminate E]. injection E as <- <- <-.
      destruct (IH (t ++ [c]) fuel (put [c] (with_mem (<[buf + len t := c]> (w_mem w)) w1)) t1 e1 r1 eq_refl ltac:(lia)) as (F1 & F2 & w' & E' & L').
      { rewrite length_app. cbn. lia. }
      { apply list.Forall_app. split; [exact Ht|]. apply list.Forall_singleton, Hc. }
      { exact Hcs. }
      { apply buffer_snoc, Hb. }
      { exact E1. }
      split; [exact F1|]. split; [exact F2|]. exists w'. rewrite length_app in E'. cbn [length] in E'.
      replace (Z.of_nat (length t + 1)) with (len t + 1) in E' by lia. split; [exact E'|].
      apply (line_read_step _ _ _ [c] _ w _ _ L' eq_refl eq_refl eq_refl).
      intros x Hx. cbn. unfold LINE_MAX in Hx. rewrite rd_insert_ne by lia. reflexivity.
  - injection E as <- <- <-. split; [exact Ht|]. split; [exact Hl|]. pose proof (Hend t w [] Hl Ht Hb) as He. rewrite Ein, put_nil in He.
    destruct fuel; cbn [readline]; unfold LINE_MAX at 1; replace (len t <? 128 - 1) with false by lia; eexists; (split; [reflexivity|exact He]).
Qed.

(** ** Splitting the line *)

Lemma drop_spaces_suffix t : exists s, t = s ++ drop_spaces t.
Proof.
  induction t as [|c t [s IH]]; [exists []; reflexivity|]. cbn [drop_spaces]. destruct (c =? 32); [|exists []; reflexivity].
  exists (c :: s). cbn. f_equal. exact IH.
Qed.

Lemma skip_spaces_spec m t : forall p fuel, cstr m p t -> (length t <= fuel)%nat ->
  skip_spaces m fuel p = Some (p + (len t - len (drop_spaces t))) /\ cstr m (p + (len t - len (drop_spaces t))) (drop_spaces t).
Proof.
  induction t as [|c t IH]; intros p fuel Ht Hf; cbn [cstr drop_spaces length] in *.
  - replace (p + (Z.of_nat 0 - Z.of_nat 0)) with p by lia. destruct fuel; cbn [skip_spaces]; rewrite Ht; auto.
  - destruct Ht as (Hc & Hp & Ht). destruct fuel as [|fuel]; [lia|]. cbn [skip_spaces]. rewrite Hp. destruct (Z.eqb_spec c 32) as [->|Hne].
    + destruct (IH (p + 1) fuel Ht ltac:(lia)) as [E Ec]. rewrite E.
      replace (p + 1 + (len t - len (drop_spaces t))) with (p + (Z.of_nat (S (length t)) - len (drop_spaces t))) in * by lia. auto.
    + cbn [length]. replace (p + (Z.of_nat (S (length t)) - Z.of_nat (S (length t)))) with p by lia. cbn [cstr]. auto.
Qed.

Lemma first_word_app t : t = (first_word t).1 ++ (first_word t).2.
Proof.
  induction t as [|c t IH]; [reflexivity|]. cbn [first_word]. destruct (c =? 32); [reflexivity|].
  destruct (first_word t) as [w r]. cbn in *. f_equal. exact IH.
Qed.

Lemma word_end_spec m t : forall p fuel, cstr m p t -> (length t <= fuel)%nat ->
  word_end m fuel p = Some (p + len (first_word t).1).
Proof.
  induction t as [|c t IH]; intros p fuel Ht Hf; cbn [cstr first_word length] in *.
  - rewrite Z.add_0_r. destruct fuel; cbn [word_end]; rewrite Ht; reflexivity.
  - destruct Ht as (Hc & Hp & Ht). destruct fuel as [|fuel]; [lia|]. cbn [word_end]. rewrite Hp.
    replace (c =? 0) with false by lia. cbn [negb andb]. destruct (Z.eqb_spec c 32) as [->|Hne]; cbn [negb].
    + cbn. rewrite Z.add_0_r. reflexivity.
    + rewrite (IH (p + 1) fuel Ht) by lia. destruct (first_word t) as [w r]. cbn [fst length]. f_equal. lia.
Qed.

(** Cutting the line at the end of the first word leaves two strings. *)
Lemma cut_word m p t w r : cstr m p t -> first_word t = (w, r) ->
  (r = [] /\ cstr m p w /\ rd m (p + len w) = 0) \/
  (exists r', r = 32 :: r' /\ rd m (p + len w) = 32 /\
     cstr (<[p + len w := 0]> m) p w /\ cstr (<[p + len w := 0]> m) (p + len w + 1) r').
Proof.
  intros Ht Ew. pose proof (first_word_app t) as Et. rewrite Ew in Et. cbn in Et. subst t.
  pose proof Ht as Ht'. apply cstr_app in Ht' as (Hf & Hb & Hr).
  destruct r as [|c r].
  - left. rewrite app_nil_r in Ht. cbn in Hr. auto.
  - right. assert (c = 32) as ->.
    { clear - Ew. revert r Ew. induction w as [|d w IH]; intros r Ew; cbn [app first_word] in Ew.
      - destruct (Z.eqb_spec c 32); [assumption|]. destruct (first_word r); discriminate Ew.
      - destruct (d =? 32); [discriminate Ew|]. destruct (first_word (w ++ c :: r)) as [u v] eqn:E. injection Ew as -> ->. exact (IH r E). }
    cbn [cstr] in Hr. destruct Hr as (_ & Hsp & Hr). exists r. split; [reflexivity|]. split; [exact Hsp|]. split.
    + apply buffer_cstr; [exact Hf|]. intros k c Hk. apply Hb, Hk.
    + apply (cstr_frame m); [|exact Hr]. intros x Hx. rewrite rd_insert_ne by lia. reflexivity.
Qed.

(** ** Commands *)

Lemma text_chars s : forallb (fun c => (0 <? c) && (c <? 256)) (text s) = true -> Forall char_ok (text s).
Proof.
  generalize (text s). intros l. induction l as [|c l IH]; [constructor|]. cbn [forallb]. intros E.
  apply andb_true_iff in E as [Ec E]. constructor; [unfold char_ok; lia|auto].
Qed.

Lemma is_cmd_spec m p c s : cstr m p c -> forallb (fun c => (0 <? c) && (c <? 256)) (text s) = true ->
  is_cmd m p s = bool_decide (c = text s).
Proof. intros Hc Hs. apply strcmp_lit_spec; [exact Hc|apply text_chars, Hs]. Qed.

Lemma dispatch_spec p q c a w : cstr (w_mem w) p c -> cstr (w_mem w) q a -> (length c <= 4096)%nat -> (length a <= 4096)%nat ->
  dispatch p q w = Some ((answer c a (w_pid w) (w_ticks w)).1, put (answer c a (w_pid w) (w_ticks w)).2 w).
Proof.
  intros Hc Ha Hlc Hla. unfold dispatch, answer. rewrite !(is_cmd_spec _ p c) by (exact Hc || reflexivity).
  assert (0 <= u32 (w_ticks w) / 100 < 4294967296) by (pose proof (u32_range (w_ticks w)); split; [apply Z.div_pos; lia|apply Z.div_lt_upper_bound; lia]).
  repeat (case_bool_decide; [try (cbn [fst snd]; rewrite ?put_nil; reflexivity)|]).
  - cbn [fold_left fst snd]. unfold println. rewrite !put_app. reflexivity.
  - rewrite (print_spec q a) by assumption. cbn [mbind option_bind fst snd]. rewrite put_app. reflexivity.
  - cbn [fst snd]. rewrite print_uint_spec, put_app by (pose proof (u32_range (w_pid w)); lia). reflexivity.
  - cbn [fst snd]. rewrite print_uint_spec, put_app by (pose proof (u32_range (w_ticks w)); lia). reflexivity.
  - cbn [fst snd]. unfold println. rewrite print_uint_spec, !put_app by assumption. reflexivity.
  - rewrite (print_spec p c) by assumption. cbn [mbind option_bind fst snd]. rewrite !put_app. reflexivity.
Qed.

(** One turn takes exactly the keys of a line, prints the prompt, the echo and
    the answer, and writes no memory outside the line buffer. *)
Lemma kush_turn_correct fuel line w t e r :
  Forall char_ok (w_in w) -> (length (w_in w) <= fuel)%nat -> typed (w_in w) [] = Some (t, e, r) ->
  exists w', kush_turn fuel line w = Some ((reply t (w_pid w) (w_ticks w)).1, w') /\ w_in w' = r /\
    w_out w' = w_out w ++ text "kush> " ++ e ++ (reply t (w_pid w) (w_ticks w)).2 /\
    w_pid w' = w_pid w /\ (forall x, x < line \/ line + LINE_MAX <= x -> rd (w_mem w') x = rd (w_mem w) x).
Proof.
  intros Hin Hf Ht. set (w0 := put (text "kush> ") w).
  destruct (readline_spec line (w_in w) [] fuel w0 t e r eq_refl Hf ltac:(cbn; lia) ltac:(constructor) Hin
    ltac:(intros k c Hk; discriminate) Ht) as (Hct & Hlt & w1 & E1 & L1).
  pose proof (line_read_step _ _ _ (text "kush> ") _ w w0 _ L1 eq_refl eq_refl eq_refl (fun _ _ => eq_refl)) as (R1 & R2 & R3 & R4 & R5 & R6).
  unfold kush_turn. fold w0. change (len []) with 0 in E1. rewrite E1. cbn [mbind option_bind].
  unfold reply. destruct (skip_spaces_spec _ t line 4096 R3 ltac:(lia)) as [Es Hs].
  set (cmd := line + (len t - len (drop_spaces t))) in *.
  assert (len (drop_spaces t) <= len t) as Hle.
  { destruct (drop_spaces_suffix t) as [s Es']. apply (f_equal length) in Es'. rewrite length_app in Es'. lia. }
  assert (line <= cmd /\ cmd + len (drop_spaces t) <= line + 127) as Hcmd by (unfold cmd; clear - Hle Hlt; lia).
  destruct (Z.leb_spec (len t) 0) as [H0|H0].
  { destruct t; [|cbn in H0; lia]. exists w1. cbn [drop_spaces fst snd]. rewrite app_nil_r. auto. }
  rewrite Es. cbn [mbind option_bind]. destruct (drop_spaces t) as [|c u] eqn:Ed.
  { cbn [cstr] in Hs. rewrite Hs. exists w1. cbn [Z.eqb fst snd]. rewrite app_nil_r. auto. }
  rewrite <- Ed in *. assert (rd (w_mem w1) cmd =? 0 = false) as ->.
  { rewrite Ed in Hs. destruct Hs as (Hc & -> & _). lia. }
  destruct (first_word (drop_spaces t)) as [cw cr] eqn:Ew.
  rewrite (word_end_spec _ _ cmd 4096 Hs) by lia. rewrite Ew. cbn [fst mbind option_bind].
  assert (len cw + len cr = len (drop_spaces t)) as Hlen.
  { pose proof (first_word_app (drop_spaces t)) as Ea. rewrite Ew in Ea. apply (f_equal length) in Ea. rewrite length_app in Ea. cbn in Ea. lia. }
  destruct (cut_word _ cmd _ cw cr Hs Ew) as [(-> & Hcw & Hz)|(cr' & -> & Hsp & Hcw & Hcr)].
  - rewrite Hz. cbn [Z.eqb negb]. destruct (skip_spaces_spec _ [] (cmd + len cw) 4096 Hz ltac:(cbn [length]; lia)) as [-> _].
    replace (cmd + len cw + (len [] - len (drop_spaces []))) with (cmd + len cw) by (cbn; lia).
    cbn [mbind option_bind]. rewrite (dispatch_spec cmd (cmd + len cw) cw []); [|exact Hcw|exact Hz|lia|cbn; lia].
    cbn [w_pid w_ticks with_mem]. rewrite R4, R5. eexists. split; [reflexivity|].
    cbn [put w_in w_out w_mem with_mem tail drop_spaces]. rewrite R2, <- !app_assoc. auto.
  - rewrite Hsp. cbn [Z.eqb negb]. cbn [length] in Hlen. destruct (skip_spaces_spec _ cr' (cmd + len cw + 1) 4096 Hcr ltac:(lia)) as [Ea Ha].
    rewrite Ea. cbn [mbind option_bind]. assert (len (drop_spaces cr') <= len cr') as Hle2.
    { destruct (drop_spaces_suffix cr') as [s Es']. apply (f_equal length) in Es'. rewrite length_app in Es'. lia. }
    rewrite (dispatch_spec cmd _ cw (drop_spaces cr')); [|exact Hcw|exact Ha|lia|lia].
    cbn [w_pid w_ticks with_mem]. rewrite R4, R5. eexists. split; [reflexivity|].
    cbn [put w_in w_out w_mem with_mem tail]. rewrite R2, <- !app_assoc. split; [exact R1|]. split; [reflexivity|]. split; [exact R4|].
    intros x Hx. rewrite rd_insert_ne by (unfold LINE_MAX in Hx; clear - Hx Hcmd Hlen; lia). apply R6, Hx.
Qed.

Lemma typed_suffix cs : forall t t' e r, typed cs t = Some (t', e, r) -> exists s, cs = s ++ r.
Proof.
  induction cs as [|c cs IH]; intros t t' e r; cbn [typed].
  { case_match; [discriminate|]. injection 1 as <- <- <-. exists []. reflexivity. }
  assert (forall u, (exists s, cs = s ++ u) -> exists s, c :: cs = s ++ u) as Hcons
    by (intros u [s ->]; exists (c :: s); reflexivity).
  case_match; [|injection 1 as <- <- <-; exists []; reflexivity].
  case_match; [injection 1 as <- <- <-; exists [c]; reflexivity|].
  case_match; [case_match; [intros E; apply Hcons, (IH _ _ _ _ E)|]|].
  all: intros Eb; apply bind_Some in Eb as ([[t1 e1] r1] & E & Eb); injection Eb as <- <- <-; apply Hcons; eapply IH; exact E.
Qed.

(** C21. A session of the ring-3 shell: for any keys that form lines up to an
    [exit], with corrections by backspace and lines of at most 127 characters,
    [kush_main] returns, has taken exactly those keys, has printed for every
    line the prompt, the echo and the answer that the line as a text calls for
    (the clock as it stood in that turn), and has written no memory outside its
    line buffer. *)
Theorem kush_session_correct clock : forall line w fuel o r,
  Forall char_ok (w_in w) -> (length (w_in w) <= fuel)%nat -> session clock (w_in w) (w_pid w) = Some (o, r) ->
  exists w', kush_main clock fuel line w = Some w' /\ w_in w' = r /\ w_out w' = w_out w ++ o /\
    (forall x, x < line \/ line + LINE_MAX <= x -> rd (w_mem w') x = rd (w_mem w) x).
Proof.
  induction clock as [|k clock IH]; intros line w fuel o r Hin Hf; cbn [session kush_main]; [discriminate|].
  destruct (typed (w_in w) []) as [[[t e] r1]|] eqn:Et; [|discriminate]. cbn [mbind option_bind].
  destruct (kush_turn_correct fuel line (at_time k w) t e r1 Hin Hf Et) as (w1 & E1 & Ei & Eo & Ep & Em).
  cbn [at_time w_pid w_ticks w_out w_mem] in *. rewrite E1. cbn [mbind option_bind].
  destruct (reply t (w_pid w) k) as [b a]. cbn [fst snd] in *. destruct b.
  { injection 1 as <- <-. exists w1. auto. }
  destruct (session clock r1 (w_pid w)) as [[o1 r2]|] eqn:Es; [|discriminate]. cbn [mbind option_bind]. injection 1 as <- <-.
  destruct (typed_suffix _ _ _ _ _ Et) as [pre Epre]. rewrite <- Ei in Epre. rewrite Epre in Hin, Hf.
  rewrite length_app in Hf. apply Forall_app in Hin as [_ Hin]. rewrite <- Ei, <- Ep in Es.
  destruct (IH line w1 fuel o1 r2 Hin ltac:(lia) Es) as (w' & E' & Ei' & Eo' & Em').
  exists w'. split; [exact E'|]. split; [exact Ei'|]. split; [rewrite Eo', Eo, <- app_assoc; reflexivity|].
  intros x Hx. rewrite Em' by exact Hx. apply Em, Hx.
Qed.

(** * The wrappers reach the kernel *)

Section abi.
Context {M H : Type} `{TaskMem M} `{SmallHeap H}.
Context (boot_stack_top : Z) (polls : nat).
Implicit Types y : sys M H.

Lemma int80_fields nr a1 a2 a3 r : r_rax (int80 nr a1 a2 a3 r) = nr /\ r_cs (int80 nr a1 a2 a3 r) = r_cs r.
Proof. split; reflexivity. Qed.

(** The registers of every wrapper carry the number that the kernel gives the
    call, the arguments in the order the handler reads them, and leave the ring
    of the caller; the two calls that only ask are answered with the task's id
    and the tick counter. *)
Theorem user_calls_reach fd buf n code ticks id msg r y :
  Z.land (r_cs r) 3 <> 0 ->
  (map r_rax [Abi.sys_write fd buf n r; Abi.sys_exit code r; Abi.sys_getpid r; Abi.sys_yield r; Abi.sys_sleep ticks r;
     Abi.sys_mb_init r; Abi.sys_mb_send id msg r; Abi.sys_mb_recv id msg r; Abi.sys_mutex_init r; Abi.sys_mutex_lock id r;
     Abi.sys_mutex_unlock id r; Abi.sys_getticks r; Abi.sys_read fd buf n r] =
   [TSYS_WRITE; TSYS_EXIT; TSYS_GETPID; TSYS_YIELD; TSYS_SLEEP; TSYS_MB_INIT; TSYS_MB_SEND; TSYS_MB_RECV; TSYS_MUTEX_INIT;
    TSYS_MUTEX_LOCK; TSYS_MUTEX_UNLOCK; TSYS_GETTICKS; TSYS_READ]) /\
  syscall_handler boot_stack_top polls (Abi.sys_getpid r) y =
    Some (Ret (u64 (ttask_self (y_sched y))), set_if (cur (y_sched y)) false y) /\
  syscall_handler boot_stack_top polls (Abi.sys_getticks r) y =
    Some (Ret (u64 (timer_ticks (y_mach y))), set_if (cur (y_sched y)) false y).
Proof.
  intros Hcs. split; [reflexivity|]. apply Z.eqb_neq in Hcs.
  unfold syscall_handler, Abi.sys_getpid, Abi.sys_getticks, int80. cbn [r_cs r_rax]. rewrite Hcs. split; reflexivity.
Qed.

(** The program's bytes, as the loaded address space shows them. *)
Definition shows_memory y (m : bytes) (p n : Z) : Prop := forall x, p <= x < p + n -> user_byte y x = Some (rd m x).

Lemma copy_from_shown m n : forall p y, shows_memory y m p (Z.of_nat n) ->
  copy_from n p y = Some (map (fun k => rd m (p + k)) (seqZ 0 (Z.of_nat n))).
Proof.
  induction n as [|n IH]; intros p y Hs; [reflexivity|]. cbn [copy_from]. rewrite (Hs p) by lia. cbn [mbind option_bind].
  rewrite (IH (p + 1) y) by (intros x Hx; apply Hs; lia). cbn [mbind option_bind]. f_equal.
  rewrite (seqZ_cons 0 (Z.of_nat (S n))) by lia. cbn [map]. rewrite Z.add_0_r. f_equal.
  replace (Z.pred (Z.of_nat (S n))) with (Z.of_nat n) by lia. change (Z.succ 0) with (1 + 0).
  rewrite <- fmap_add_seqZ, <- list_fmap_compose. apply list_fmap_ext. intros i k _. cbn. f_equal. lia.
Qed.

(** What the shell prints reaches the screen: [print] of a string in the
    program's memory, the wrapper [sys_write] and the kernel's handler together
    put exactly the characters of the string on the console and the serial
    line, and return its length; the world of the shell records the same. *)
Theorem print_reaches_console p t w r y :
  Z.land (r_cs r) 3 <> 0 -> smap_off y -> transmits polls (m_ser (y_mach y)) ->
  t <> [] -> (length t <= 4096)%nat -> in_u64 p -> cstr (w_mem w) p t ->
  shows_memory y (w_mem w) p (len t) -> vmm_range_user p (len t) 0 (mmu y) = Some true ->
  print p w = Some (put t w) /\
  exists y', syscall_handler boot_stack_top polls (Abi.sys_write 1 p (len t) r) y = Some (Ret (len t), y') /\
    m_vga (y_mach y') = put_all t (m_vga (y_mach y)) /\
    after_sending COM1 t (m_ser (y_mach y)) (m_ser (y_mach y')) /\
    y_sched y' = y_sched y /\ y_mem y' = y_mem y /\ tipc_table y' = tipc_table y.
Proof.
  intros Hcs Hsm Htr Ht Hlen Hp Hc Hs Hr. split; [apply print_spec; assumption|].
  assert (0 < len t <= 4096) as Hl by (destruct t; [congruence|cbn [length] in *; lia]).
  assert (u64 p = p) as Eup by (apply u64_small; exact Hp). assert (u64 (len t) = len t) as Eul by (apply u64_small; lia).
  destruct (sys_write_prints boot_stack_top polls (Abi.sys_write 1 p (len t) r) y (len t)) as (l & y' & E & El & Hrest).
  1, 2, 3: first [exact Hcs|reflexivity].
  - exact Eul.
  - lia.
  - exact Hsm.
  - change (r_rsi (Abi.sys_write 1 p (len t) r)) with (u64 p). rewrite Eup, Eup. exact Hr.
  - exact Htr.
  - exists y'. split; [exact E|]. change (r_rsi (Abi.sys_write 1 p (len t) r)) with (u64 p) in El. rewrite Eup, Eup in El.
    rewrite Nat2Z.id, (copy_from_shown (w_mem w)), (bytes_seq _ _ _ Hc) in El by exact Hs. injection El as <-. exact Hrest.
Qed.

(** [sys_read(0, &ch, 1)] with a character waiting in the keyboard ring
    returns 1, takes that character from the ring and stores it in [ch]. *)
Theorem read_takes_key r y buf ch kb a :
  Z.land (r_cs r) 3 <> 0 -> in_u64 buf -> vmm_range_user buf 1 1 (mmu y) = Some true -> user_addr y buf = Some a ->
  keyboard_getchar (m_kb (y_mach y)) = (ch, kb) -> 0 < ch < 256 ->
  exists y', syscall_handler boot_stack_top polls (Abi.sys_read 0 buf 1 r) y = Some (Ret 1, y') /\
    m_kb (y_mach y') = kb /\ y_mem y' = <[a := ch]> (y_mem y) /\ m_vga (y_mach y') = m_vga (y_mach y) /\
    y_sched y' = y_sched y.
Proof.
  intros Hcs Hb Hr Ha Hk Hch. apply Z.eqb_neq in Hcs. assert (u64 buf = buf) as Eb by (apply u64_small; exact Hb).
  unfold syscall_handler, Abi.sys_read, int80. cbn [r_cs r_rax r_rdi r_rsi r_rdx default fmap option_fmap option_map].
  rewrite Hcs. unfold id. rewrite Eb, (u64_s64 buf), Eb. change (s64 13) with TSYS_READ.
  change (u64 (s64 (u64 1))) with 1. change (negb (s64 (u64 0) =? 0) || (s64 (u64 1) <=? 0)) with false.
  cbn [Z.eqb Pos.eqb TSYS_WRITE TSYS_EXIT TSYS_GETPID TSYS_YIELD TSYS_SLEEP TSYS_MB_INIT TSYS_MB_SEND TSYS_MB_RECV
    TSYS_MUTEX_INIT TSYS_MUTEX_LOCK TSYS_MUTEX_UNLOCK TSYS_GETTICKS TSYS_READ].
  change (mmu (set_if (cur (y_sched y)) false y)) with (mmu y). rewrite Hr. cbn [mbind option_bind negb].
  unfold call_pass. change (m_kb (y_mach (set_if (cur (y_sched y)) false y))) with (m_kb (y_mach y)). rewrite Hk.
  replace (ch =? KEY_NONE) with false by (unfold KEY_NONE; lia). replace (ch <? 0) with false by lia.
  cbn [copy_to]. match goal with |- context [user_addr ?z buf] => change (user_addr z buf) with (user_addr y buf) end.
  rewrite Ha. cbn [mbind option_bind]. rewrite u8_small by lia. eexists. split; [reflexivity|]. repeat split.
Qed.
End abi.

(** * A session, and what goes wrong *)

(** The keys: [x], backspace, [ec], then [ho] a space [hi] and Enter. *)
Definition demo_keys : list Z := [120; 8; 101; 99; 104; 111; 32; 104; 105; 10].
Definition demo_world : world := mk_world ∅ (demo_keys ++ text "exit" ++ [13] ++ text "pid") [] 3 250.

Lemma kush_session_correct_witness :
  exists w', kush_main [250; 251] 20 1000 demo_world = Some w' /\ w_in w' = text "pid" /\
    w_out w' = text "kush> x" ++ [32; 8] ++ text "echo hi" ++ [10] ++ text "hi" ++ [10] ++ text "kush> exit" ++ [10].
Proof.
  destruct (kush_session_correct [250; 251] 1000 demo_world 20
    (text "kush> x" ++ [32; 8] ++ text "echo hi" ++ [10] ++ text "hi" ++ [10] ++ text "kush> exit" ++ [10]) (text "pid"))
    as (w' & E & Ei & Eo & _).
  - apply Forall_forall. intros c Hc. cbn in Hc. unfold char_ok. set_unfold in Hc. lia.
  - vm_compute. lia.
  - vm_compute. reflexivity.
  - exists w'. split; [exact E|]. split; [exact Ei|exact Eo].
Defined.

(** The program of [demo_sys] prints the string behind the first bytes of its
    page. *)
Definition demo_text_world : world := mk_world (store_bytes (VMM_USER_BASE + 8) [104; 105; 0] ∅) [] [] 1 7.

Lemma print_reaches_console_witness :
  print (VMM_USER_BASE + 8) demo_text_world = Some (put [104; 105] demo_text_world) /\
  exists y', syscall_handler 0 1 (Abi.sys_write 1 (VMM_USER_BASE + 8) 2 (user_regs 0 0 0 0)) demo_sys = Some (Ret 2, y') /\
    m_vga (y_mach y') = put_all [104; 105] (m_vga (y_mach demo_sys)).
Proof.
  destruct (print_reaches_console 0 1 (VMM_USER_BASE + 8) [104; 105] demo_text_world (user_regs 0 0 0 0) demo_sys)
    as (Ep & y' & E & Ev & _).
  - discriminate.
  - reflexivity.
  - exact demo_transmits.
  - discriminate.
  - cbn [length]. lia.
  - vm_compute. intuition discriminate.
  - cbn [cstr]. repeat split; vm_compute; first [reflexivity|discriminate|lia].
  - intros x Hx. change (Z.of_nat (length [104; 105])) with 2 in Hx.
    assert (x = VMM_USER_BASE + 8 \/ x = VMM_USER_BASE + 9) as [-> | ->] by lia; vm_compute; reflexivity.
  - vm_compute. reflexivity.
  - split; [exact Ep|]. exists y'. split; [exact E|exact Ev].
Defined.

(** Without input the shell never ends: each turn prints one more prompt. *)
Theorem kush_spins_without_input clock line w : w_in w = [] -> kush_main clock 1 line w = None.
Proof.
  revert w. induction clock as [|k clock IH]; intros w Hw; [reflexivity|]. cbn [kush_main]. unfold kush_turn. cbn [readline].
  change (0 <? LINE_MAX - 1) with true. unfold read_char. cbn [w_in put at_time]. rewrite Hw.
  change (0 >? 0) with false. cbn [mbind option_bind]. change (-1 <=? 0) with true. cbv iota. cbn [mbind option_bind].
  apply IH. exact Hw.
Qed.

(** A line that a failing read cuts short is not terminated: what an earlier,
    longer line left in the buffer is executed with it. *)
Theorem kush_reads_stale_bytes :
  let w := mk_world (store_bytes 1000 (text "exit" ++ [0]) ∅) (text "ex") [] 3 250 in
  exists w', kush_turn 20 1000 w = Some (true, w').
Proof. cbv zeta. eexists. vm_compute. reflexivity. Qed.

(** The echo of a backspace is a space and a backspace: on the console the
    deleted character stays where it was, and the cursor does not move. *)
Theorem kush_backspace_stays_visible :
  let s := put_all (text "kush> ab") demo_screen in
  rd (VGA_MEM (put_all [32; 8] s)) 7 = rd (VGA_MEM s) 7 /\ terminal_col (put_all [32; 8] s) = terminal_col s.
Proof. cbv zeta. split; vm_compute; reflexivity. Qed.
