(* ===== verification/Programs.v ===== *)
(** The ring-3 programs in assembly: [user/hello.S], [user/spinner.S] and the
    start of the shell, [user/kush_start.S].

    A program is the sequence of its instructions on the registers it uses and
    its memory; [int 0x80] adds to the list of its requests and returns what the
    handler of Tsys returns for them.  [hello_greets] runs the requests of the
    first program through that handler. *)
From Stdlib Require Import String Ascii.
From stdpp Require Import prelude gmap list numbers.
From Stdlib Require Import ZArith Lia ZifyBool.
From S2P Require Import Prelude TtaskCore Ttask Tipc Tpmm Tvmm Tstring Keyboard Vga Printf Serial Idt Tsys Ternel Kush.
#[local] Open Scope Z_scope.

Record cpu := mk_cpu {
  rax : Z; rbx : Z; rcx : Z; rdx : Z; rdi : Z; rsi : Z; r8 : Z; rsp : Z;
  p_mem : bytes
}.

Inductive request := Write (t : list Z) | Getpid | Sleep (ticks : Z) | Exit (code : Z).

(** A running program: its processor and what it has asked for. *)
Definition running : Type := cpu * list request.

Definition bytes_from (m : bytes) (p n : Z) : list Z := map (fun k => rd m (p + k)) (seqZ 0 n).

Definition with_rax (v : Z) (c : cpu) : cpu := mk_cpu v (rbx c) (rcx c) (rdx c) (rdi c) (rsi c) (r8 c) (rsp c) (p_mem c).
Definition with_rdi (v : Z) (c : cpu) : cpu := mk_cpu (rax c) (rbx c) (rcx c) (rdx c) v (rsi c) (r8 c) (rsp c) (p_mem c).
(** The three argument registers and the number. *)
Definition load (nr a1 a2 a3 : Z) (c : cpu) : cpu := mk_cpu nr (rbx c) (rcx c) a3 a1 a2 (r8 c) (rsp c) (p_mem c).

(** [int 0x80]: the stub saves every register, and the handler replaces [rax]. *)
Definition int_80 (pid : Z) (r : running) : running :=
  let '(c, tr) := r in
  if rax c =? TSYS_WRITE then (with_rax (rdx c) c, tr ++ [Write (bytes_from (p_mem c) (rsi c) (rdx c))])
  else if rax c =? TSYS_EXIT then (c, tr ++ [Exit (rdi c)])
  else if rax c =? TSYS_GETPID then (with_rax pid c, tr ++ [Getpid])
  else if rax c =? TSYS_SLEEP then (with_rax 0 c, tr ++ [Sleep (rdi c)])
  else r.

(** * [hello.S] *)

Definition hello_text : list Z := text "hello from user mode!" ++ [10].

(** The registers at the two system calls; [msg] and [msg_len] are labels. *)
Definition hello_write (msg msg_len : Z) (c : cpu) : cpu := load TSYS_WRITE 1 msg (le_val (bytes_from (p_mem c) msg_len 8)) c.
Definition hello (msg msg_len : Z) (r : running) : running :=
  let '(c, tr) := int_80 0 (hello_write msg msg_len r.1, r.2) in int_80 0 (with_rax TSYS_EXIT c, tr).

(** * [spinner.S] *)

(** The loop [.push]: [xor edx, edx; div rcx; add dl, '0'; dec rsp; mov [rsp], dl;
    test rax, rax; jnz .push]. *)
Fixpoint push_digits (fuel : nat) (c : cpu) : option cpu :=
  match fuel with
  | O => None
  | S f =>
      let q := rax c / rcx c in
      let d := u8 (rax c mod rcx c + 48) in
      let sp := u64 (rsp c - 1) in
      let c := mk_cpu q (rbx c) (rcx c) d (rdi c) (rsi c) (r8 c) sp (<[sp := d]> (p_mem c)) in
      if q =? 0 then Some c else push_digits f c
  end.

(** [call print_dec] with the return address [back], up to its [ret]. *)
Definition print_dec (pid back : Z) (r : running) : option running :=
  let '(c, tr) := r in
  let sp := u64 (rsp c - 8) in
  let m := store_bytes sp (le_bytes 8 back) (p_mem c) in
  c ← push_digits 20 (mk_cpu (rdi c) (rbx c) 10 (rdx c) (rdi c) (rsi c) sp sp m);
  let '(c, tr) := int_80 pid (load TSYS_WRITE 1 (rsp c) (u64 (r8 c - rsp c)) c, tr) in
  Some (mk_cpu (rax c) (rbx c) (rcx c) (rdx c) (rdi c) (rsi c) (r8 c) (u64 (r8 c + 8)) (p_mem c), tr).

Section spinner.
Context (pid s_user s_sep s_nl back1 back2 : Z).

Definition write_lit (p n : Z) (r : running) : running := int_80 pid (load TSYS_WRITE 1 p n r.1, r.2).

(** The body of [.loop], in three parts: [user], the id; the count; the rest. *)
Definition show_id (r : running) : option running :=
  let r := write_lit s_user 5 r in
  let r := int_80 pid (with_rax TSYS_GETPID r.1, r.2) in
  print_dec pid back1 (with_rdi (rax r.1) r.1, r.2).
Definition show_count (r : running) : option running :=
  let r := write_lit s_sep 2 r in print_dec pid back2 (with_rdi (rbx r.1) r.1, r.2).
Definition end_turn (r : running) : running :=
  let r := write_lit s_nl 1 r in
  let '(c, tr) := int_80 pid (with_rdi 25 (with_rax TSYS_SLEEP r.1), r.2) in
  (mk_cpu (rax c) (u32 (rbx c + 1)) (rcx c) (rdx c) (rdi c) (rsi c) (r8 c) (rsp c) (p_mem c), tr).
Definition spinner_turn (r : running) : option running :=
  r ← show_id r; r ← show_count r; Some (end_turn r).

(** [xor ebx, ebx] and the first [n] turns. *)
Fixpoint spinner_turns (n : nat) (r : running) : option running :=
  match n with O => Some r | S k => r ← spinner_turn r; spinner_turns k r end.
Definition spinner (n : nat) (r : running) : option running :=
  let c := r.1 in spinner_turns n (mk_cpu (rax c) 0 (rcx c) (rdx c) (rdi c) (rsi c) (r8 c) (rsp c) (p_mem c), r.2).
End spinner.

(** * [kush_start.S] *)

(** [call kush_main], then [exit] with its result. *)
Definition kush_start (kush_main : running -> running) (r : running) : running :=
  let '(c, tr) := kush_main r in int_80 0 (with_rax TSYS_EXIT (with_rdi (rax c) c), tr).

(** * Digits on the stack *)

Definition bytes_at (m : bytes) (p : Z) (l : list Z) : Prop := bytes_from m p (len l) = l.

Lemma bytes_from_frame m m' p n : (forall x, p <= x < p + n -> rd m' x = rd m x) -> bytes_from m' p n = bytes_from m p n.
Proof. intros Hf. apply map_ext_in. intros k Hk. apply list_elem_of_In, elem_of_seqZ in Hk. apply Hf. lia. Qed.

Lemma bytes_at_frame m m' p l : (forall x, p <= x < p + len l -> rd m' x = rd m x) -> bytes_at m p l -> bytes_at m' p l.
Proof. intros Hf Hb. unfold bytes_at. rewrite (bytes_from_frame m) by exact Hf. exact Hb. Qed.

Lemma bytes_at_cons m p d l : bytes_at m (p + 1) l -> bytes_at (<[p := d]> m) p (d :: l).
Proof.
  intros Hb. unfold bytes_at, bytes_from. cbn [length]. rewrite Nat2Z.inj_succ, seqZ_cons by lia. cbn [map].
  rewrite Z.add_0_r, rd_insert_eq. f_equal. rewrite Z.pred_succ. change (Z.succ 0) with (1 + 0).
  rewrite <- fmap_add_seqZ, <- list_fmap_compose. unfold bytes_at, bytes_from in Hb. rewrite <- Hb at 2.
  apply list_fmap_ext. intros i k Hk. apply lookup_seqZ in Hk. cbn. rewrite rd_insert_ne by lia. f_equal. lia.
Qed.

Lemma push_digits_step f c : push_digits (S f) c =
  let q := rax c / rcx c in
  let d := u8 (rax c mod rcx c + 48) in
  let sp := u64 (rsp c - 1) in
  let c := mk_cpu q (rbx c) (rcx c) d (rdi c) (rsi c) (r8 c) sp (<[sp := d]> (p_mem c)) in
  if q =? 0 then Some c else push_digits f c.
Proof. reflexivity. Qed.

Lemma push_digits_spec f : forall v acc c, rax c = v -> rcx c = 10 -> 0 <= v < 10 ^ Z.of_nat (S f) ->
  bytes_at (p_mem c) (rsp c) acc -> Z.of_nat (S f) <= rsp c < 18446744073709551616 ->
  exists c' l, push_digits (S f) c = Some c' /\ digits_loop f 10 (v / 10) (digit_char (v mod 10) :: acc) = Some l /\
    bytes_at (p_mem c') (rsp c') l /\ rsp c' + len l = rsp c + len acc /\ rsp c - Z.of_nat (S f) <= rsp c' < rsp c /\
    r8 c' = r8 c /\ rbx c' = rbx c /\
    forall x, x < rsp c' \/ rsp c <= x -> rd (p_mem c') x = rd (p_mem c) x.
Proof.
  induction f as [|f IH]; intros v acc c Hv Hc Hr Hb Hs; rewrite push_digits_step; cbv zeta; rewrite Hv, Hc;
    pose proof (Z.mod_pos_bound v 10 ltac:(lia)) as Hm;
    assert (digit_char (v mod 10) = u8 (v mod 10 + 48)) as -> by (unfold digit_char; rewrite u8_small by lia; replace (v mod 10 <? 10) with true by lia; lia);
    rewrite (u64_small (rsp c - 1)) by lia; set (sp := rsp c - 1); set (d := u8 (v mod 10 + 48)); set (c1 := mk_cpu _ _ _ _ _ _ _ sp _).
  all: assert (bytes_at (p_mem c1) (rsp c1) (d :: acc)) as Hb1
    by (unfold c1; cbn [rsp p_mem]; apply bytes_at_cons; unfold sp; replace (rsp c - 1 + 1) with (rsp c) by lia; exact Hb).
  all: assert (forall x, x < sp \/ rsp c <= x -> rd (p_mem c1) x = rd (p_mem c) x) as Hf1
    by (intros x Hx; apply rd_insert_ne; unfold sp in Hx; lia).
  - change (10 ^ Z.of_nat 1) with 10 in Hr. assert (v / 10 = 0) as -> by (apply Z.div_small; lia). cbn [Z.eqb].
    exists c1, (d :: acc). cbn [digits_loop Z.eqb length] in *. repeat split; auto; unfold c1, sp; cbn [rsp]; lia.
  - destruct (Z.eqb_spec (v / 10) 0) as [->|Hne].
    + exists c1, (d :: acc). cbn [digits_loop Z.eqb length]. repeat split; auto; unfold c1, sp; cbn [rsp]; lia.
    + destruct (IH (v / 10) (d :: acc) c1) as (c' & l & E & El & Hl & Hlen & Hsp & H8 & Hbx & Hf).
      * reflexivity.
      * reflexivity.
      * rewrite Nat2Z.inj_succ, Z.pow_succ_r in Hr by lia. split; [apply Z.div_pos; lia|apply Z.div_lt_upper_bound; lia].
      * exact Hb1.
      * unfold c1, sp. cbn [rsp]. lia.
      * exists c', l. rewrite E. cbn [digits_loop]. replace (v / 10 =? 0) with false by lia. split; [reflexivity|]. split; [exact El|].
        split; [exact Hl|]. cbn [length] in Hlen. unfold c1, sp in Hlen, Hsp, H8, Hbx. cbn [rsp r8 rbx] in *.
        split; [lia|]. split; [lia|]. split; [exact H8|]. split; [exact Hbx|].
        intros x Hx. rewrite Hf by (unfold c1, sp; cbn [rsp]; lia). apply Hf1. unfold sp. lia.
Qed.

(** The decimal digits of a 64-bit number. *)
Definition dec64 (v : Z) : list Z := default [] (to_digits 20 10 v).

Lemma dec64_spec v : in_u64 v -> to_digits 20 10 v = Some (dec64 v) /\ value 10 (dec64 v) = v /\ (1 <= length (dec64 v) <= 20)%nat.
Proof.
  intros Hv. unfold in_u64 in Hv. destruct (to_digits_spec 10 20 v ltac:(lia) ltac:(lia) ltac:(simpl; lia)) as (l & E & Hval & Hl & _).
  unfold dec64. rewrite E. split; [reflexivity|]. split; [exact Hval|exact Hl].
Qed.

(** [print_dec] asks for the digits of [rdi], and returns with the stack pointer
    and [rbx] as they were; it has written below the stack pointer only. *)
Lemma print_dec_spec pid back c tr : in_u64 (rdi c) -> 28 <= rsp c < 18446744073709551616 ->
  exists c', print_dec pid back (c, tr) = Some (c', tr ++ [Write (dec64 (rdi c))]) /\ rbx c' = rbx c /\ rsp c' = rsp c /\
    forall x, x < rsp c - 28 \/ rsp c <= x -> rd (p_mem c') x = rd (p_mem c) x.
Proof.
  intros Hv Hs. unfold print_dec. rewrite (u64_small (rsp c - 8)) by lia. cbv zeta.
  set (m := store_bytes _ _ _). set (c0 := mk_cpu _ _ _ _ _ _ _ _ m).
  destruct (push_digits_spec 19 (rdi c) [] c0) as (c1 & l & E & El & Hl & Hlen & Hsp & H8 & Hbx & Hf);
    [reflexivity|reflexivity|unfold in_u64 in Hv; simpl; lia|reflexivity|unfold c0; cbn [rsp]; lia|].
  assert (dec64 (rdi c) = l) as ->.
  { unfold dec64, to_digits. destruct (Z.eqb_spec (rdi c) 0) as [E0|Hne].
    - rewrite E0 in El. cbn in El. injection El as <-. reflexivity.
    - change (digits_loop 20 10 (rdi c) []) with (if rdi c =? 0 then Some [] else digits_loop 19 10 (rdi c / 10) [digit_char (rdi c mod 10)]).
      replace (rdi c =? 0) with false by lia. rewrite El. reflexivity. }
  rewrite E. cbn [mbind option_bind]. unfold c0 in Hlen, Hsp, H8, Hbx, Hf. cbn [rsp r8 rbx p_mem length] in *.
  assert (u64 (r8 c1 - rsp c1) = len l) as Er by (rewrite H8, u64_small by lia; lia).
  unfold int_80, load. cbn [rax rdx rdi rsi p_mem]. change (TSYS_WRITE =? TSYS_WRITE) with true. cbv iota. rewrite Er.
  unfold bytes_at in Hl. rewrite Hl. eexists. split; [reflexivity|]. cbn [rbx rsp r8 p_mem with_rax].
  split; [exact Hbx|]. split; [rewrite H8, u64_small by lia; lia|].
  intros x Hx. rewrite Hf by lia. unfold m. apply store_bytes_spec. change (len (le_bytes 8 back)) with 8. lia.
Qed.

(** * The spinner *)

Section spinning.
Context (pid s_user s_sep s_nl back1 back2 : Z) (Hpid : in_u64 pid).

(** The literals are in place, apart from the stack that the calls use. *)
Record spinner_ready (c : cpu) : Prop := {
  sr_user : bytes_at (p_mem c) s_user (text "user ");
  sr_sep : bytes_at (p_mem c) s_sep (text ": ");
  sr_nl : bytes_at (p_mem c) s_nl [10];
  sr_stack : 28 <= rsp c < 18446744073709551616;
  sr_apart : forall p n, (p, n) ∈ [(s_user, 5); (s_sep, 2); (s_nl, 1)] -> p + n <= rsp c - 28 \/ rsp c <= p
}.

Lemma spinner_ready_frame c c' : spinner_ready c -> rsp c' = rsp c ->
  (forall x, x < rsp c - 28 \/ rsp c <= x -> rd (p_mem c') x = rd (p_mem c) x) -> spinner_ready c'.
Proof.
  intros [H1 H2 H3 H4 H5] Es Hf. pose proof (H5 s_user 5 ltac:(set_solver)). pose proof (H5 s_sep 2 ltac:(set_solver)).
  pose proof (H5 s_nl 1 ltac:(set_solver)).
  split; rewrite ?Es; [| | |exact H4|exact H5]; (eapply bytes_at_frame; [|eassumption]); intros x Hx; apply Hf; cbn in Hx; lia.
Qed.

Lemma write_lit_spec p l c tr : bytes_at (p_mem c) p l ->
  exists c', write_lit pid p (len l) (c, tr) = (c', tr ++ [Write l]) /\ rbx c' = rbx c /\ rsp c' = rsp c /\ p_mem c' = p_mem c.
Proof.
  intros Hb. unfold write_lit, int_80, load. cbn [fst snd rax rsi rdx p_mem]. change (TSYS_WRITE =? TSYS_WRITE) with true. cbv iota.
  rewrite Hb. eexists. split; [reflexivity|]. auto.
Qed.

Lemma int_getpid c tr : int_80 pid (with_rax TSYS_GETPID c, tr) = (with_rax pid c, tr ++ [Getpid]).
Proof. reflexivity. Qed.
Lemma int_sleep n c tr : int_80 pid (with_rdi n (with_rax TSYS_SLEEP c), tr) = (with_rax 0 (with_rdi n c), tr ++ [Sleep n]).
Proof. reflexivity. Qed.

(** [print_dec] on a number, with the literals kept. *)
Lemma dec_step v back c tr : spinner_ready c -> in_u64 v ->
  exists c', print_dec pid back (with_rdi v c, tr) = Some (c', tr ++ [Write (dec64 v)]) /\ rbx c' = rbx c /\ spinner_ready c'.
Proof.
  intros Hr Hv. destruct (print_dec_spec pid back (with_rdi v c) tr Hv (sr_stack _ Hr)) as (c' & E & Hb & Hs & Hf).
  exists c'. split; [exact E|]. split; [exact Hb|]. exact (spinner_ready_frame c c' Hr Hs Hf).
Qed.

Lemma lit_step p l n c tr : spinner_ready c -> bytes_at (p_mem c) p l -> len l = n ->
  exists c', write_lit pid p n (c, tr) = (c', tr ++ [Write l]) /\ rbx c' = rbx c /\ spinner_ready c'.
Proof.
  intros Hr Hl <-. destruct (write_lit_spec p l c tr Hl) as (c' & E & Hb & Hs & Hm).
  exists c'. split; [exact E|]. split; [exact Hb|]. apply (spinner_ready_frame c); rewrite ?Hm; auto.
Qed.

(** The requests of one turn with the count [i]. *)
Definition spinner_line (i : Z) : list request :=
  [Write (text "user "); Getpid; Write (dec64 pid); Write (text ": "); Write (dec64 i); Write [10]; Sleep 25].

Lemma show_id_spec c tr : spinner_ready c ->
  exists c', show_id pid s_user back1 (c, tr) = Some (c', tr ++ [Write (text "user "); Getpid; Write (dec64 pid)]) /\ rbx c' = rbx c /\ spinner_ready c'.
Proof.
  intros Hr. unfold show_id.
  destruct (lit_step s_user (text "user ") 5 c tr Hr (sr_user _ Hr) eq_refl) as (c1 & E1 & B1 & R1). rewrite E1.
  cbn [fst snd]. rewrite int_getpid. cbn [fst snd].
  assert (spinner_ready (with_rax pid c1)) as R2 by (apply (spinner_ready_frame c1); auto).
  destruct (dec_step pid back1 (with_rax pid c1) ((tr ++ [Write (text "user ")]) ++ [Getpid]) R2 Hpid) as (c3 & E3 & B3 & R3).
  exists c3. change (rax (with_rax pid c1)) with pid. rewrite E3, <- !app_assoc. split; [reflexivity|]. split; [exact (eq_trans B3 B1)|exact R3].
Qed.

Lemma show_count_spec c tr : spinner_ready c -> in_u32 (rbx c) ->
  exists c', show_count pid s_sep back2 (c, tr) = Some (c', tr ++ [Write (text ": "); Write (dec64 (rbx c))]) /\ rbx c' = rbx c /\ spinner_ready c'.
Proof.
  intros Hr Hb. unfold show_count.
  destruct (lit_step s_sep (text ": ") 2 c tr Hr (sr_sep _ Hr) eq_refl) as (c1 & E1 & B1 & R1). rewrite E1. cbn [fst snd]. rewrite B1.
  destruct (dec_step (rbx c) back2 c1 (tr ++ [Write (text ": ")]) R1) as (c3 & E3 & B3 & R3); [unfold in_u32, in_u64 in *; lia|].
  exists c3. rewrite E3, <- !app_assoc. split; [reflexivity|]. split; [congruence|exact R3].
Qed.

Lemma end_turn_spec c tr : spinner_ready c ->
  exists c', end_turn pid s_nl (c, tr) = (c', tr ++ [Write [10]; Sleep 25]) /\ rbx c' = u32 (rbx c + 1) /\ spinner_ready c'.
Proof.
  intros Hr. unfold end_turn. destruct (lit_step s_nl [10] 1 c tr Hr (sr_nl _ Hr) eq_refl) as (c1 & E1 & B1 & R1). rewrite E1.
  cbn [fst snd]. rewrite int_sleep, <- app_assoc, <- B1. eexists. split; [reflexivity|]. split; [reflexivity|]. apply (spinner_ready_frame c1); auto.
Qed.

(** A step that returns. *)
Lemma bind_to {X Y : Type} (o : option X) (f : X -> option Y) x : o = Some x -> (o ≫= f) = f x.
Proof. intros ->. reflexivity. Qed.

Lemma spinner_turn_spec c tr : spinner_ready c -> in_u32 (rbx c) ->
  exists c', spinner_turn pid s_user s_sep s_nl back1 back2 (c, tr) = Some (c', tr ++ spinner_line (rbx c)) /\
    spinner_ready c' /\ rbx c' = u32 (rbx c + 1).
Proof.
  intros Hr Hb. destruct (show_id_spec c tr Hr) as (c1 & E1 & B1 & R1).
  destruct (show_count_spec c1 (tr ++ [Write (text "user "); Getpid; Write (dec64 pid)]) R1) as (c2 & E2 & B2 & R2); [rewrite B1; exact Hb|].
  destruct (end_turn_spec c2 ((tr ++ [Write (text "user "); Getpid; Write (dec64 pid)]) ++ [Write (text ": "); Write (dec64 (rbx c1))]) R2) as (c3 & E3 & B3 & R3).
  exists c3. unfold spinner_turn. rewrite (bind_to _ _ _ E1), (bind_to _ _ _ E2), E3, B1.
  split; [unfold spinner_line; rewrite <- !app_assoc; reflexivity|]. split; [exact R3|]. rewrite B3, B2, B1. reflexivity.
Qed.

(** The spinner counts: its first [n] turns ask for exactly one line each, with
    the task's id and the number of the turn (modulo 2^32) in decimal, and a
    sleep of 25 ticks after each, and never for anything else. *)
Theorem spinner_counts n : forall r, spinner_ready r.1 ->
  exists c', spinner pid s_user s_sep s_nl back1 back2 n r =
    Some (c', r.2 ++ concat (map (fun i => spinner_line (u32 i)) (seqZ 0 (Z.of_nat n)))) /\ spinner_ready c'.
Proof.
  assert (forall n i c tr, spinner_ready c -> rbx c = u32 i ->
    exists c', spinner_turns pid s_user s_sep s_nl back1 back2 n (c, tr) =
      Some (c', tr ++ concat (map (fun i => spinner_line (u32 i)) (seqZ i (Z.of_nat n)))) /\ spinner_ready c') as Hn.
  { clear n. induction n as [|n IH]; intros i c tr Hr Hi; [exists c; cbn; rewrite app_nil_r; auto|]. cbn [spinner_turns].
    destruct (spinner_turn_spec c tr Hr) as (c1 & E1 & R1 & B1); [rewrite Hi; apply u32_range|]. rewrite E1. cbn [mbind option_bind].
    destruct (IH (i + 1) c1 (tr ++ spinner_line (rbx c)) R1) as (c' & E' & R').
    - rewrite B1, Hi. unfold u32. zlia.
    - exists c'. split; [|exact R']. rewrite E', (seqZ_cons i) by lia. cbn [map concat]. rewrite <- app_assoc, Hi.
      replace (Z.pred (Z.of_nat (S n))) with (Z.of_nat n) by lia. reflexivity. }
  intros [c tr] Hr. unfold spinner. cbn [fst snd]. apply (Hn n 0); [|reflexivity].
  apply (spinner_ready_frame c); auto.
Qed.
End spinning.

(** * [hello] and the kernel *)

Section hello.
Context {M H : Type} {TM : TaskMem M} {SH : SmallHeap H} (boot_stack_top : Z) (polls : nat).
Implicit Types y : sys M H.
Abbreviation handler := (syscall_handler boot_stack_top polls).

(** The registers as the stub hands them to the handler. *)
Definition regs_of (c : cpu) (r : registers_t) : registers_t := mk_regs (rdi c) (rsi c) (rdx c) (rax c) 128 (r_rip r) (r_cs r).

Lemma on_sched_fields f y : y_sched (on_sched f y) = f (y_sched y) /\ m_vga (y_mach (on_sched f y)) = m_vga (y_mach y).
Proof.
  unfold on_sched, run_sched. match goal with |- context [switched ?o ?k] => destruct (switched_fields o k) as (F1 & _ & F2 & _) end.
  split; [exact F1|exact F2].
Qed.

Lemma hello_length m msg_len : bytes_at m msg_len (le_bytes 8 22) -> le_val (bytes_from m msg_len 8) = 22.
Proof. intros Hb. unfold bytes_at in Hb. change (len (le_bytes 8 22)) with 8 in Hb. rewrite Hb. reflexivity. Qed.

(** The program [hello] greets and leaves: with its two literals in memory, it
    asks for one write of its message and for its end; the kernel's handler
    prints exactly the message on screen and serial line, returns its length,
    and then ends the task and no other. *)
Theorem hello_greets msg msg_len c r y :
  Z.land (r_cs r) 3 <> 0 -> smap_off y -> transmits polls (m_ser (y_mach y)) -> in_u64 msg ->
  bytes_at (p_mem c) msg hello_text -> bytes_at (p_mem c) msg_len (le_bytes 8 22) ->
  shows_memory y (p_mem c) msg 22 -> vmm_range_user msg 22 0 (mmu y) = Some true ->
  (hello msg msg_len (c, [])).2 = [Write hello_text; Exit 1] /\
  exists y1 y2, handler (regs_of (hello_write msg msg_len c) r) y = Some (Ret 22, y1) /\
    m_vga (y_mach y1) = put_all hello_text (m_vga (y_mach y)) /\
    after_sending COM1 hello_text (m_ser (y_mach y)) (m_ser (y_mach y1)) /\
    handler (regs_of (with_rax TSYS_EXIT (hello_write msg msg_len c)) r) y1 = Some (Gone, y2) /\
    y_sched y2 = ttask_exit boot_stack_top (y_sched y) /\ m_vga (y_mach y2) = m_vga (y_mach y1).
Proof.
  intros Hcs Hsm Ht Hm Hb Hl Hs Hr. pose proof (hello_length _ _ Hl) as El. split.
  { unfold hello, int_80, hello_write, load. cbn [fst snd rax rdx rdi rsi p_mem with_rax]. rewrite El.
    change (TSYS_WRITE =? TSYS_WRITE) with true. cbv iota. cbn [rax with_rax]. change (TSYS_EXIT =? TSYS_WRITE) with false.
    change (TSYS_EXIT =? TSYS_EXIT) with true. cbv iota. unfold bytes_at in Hb. change (len hello_text) with 22 in Hb. cbn [snd rsi rdi]. rewrite Hb. reflexivity. }
  assert (r_rdx (regs_of (hello_write msg msg_len c) r) = 22) as E3 by exact El.
  destruct (sys_write_prints boot_stack_top polls (regs_of (hello_write msg msg_len c) r) y 22 Hcs eq_refl eq_refl E3 ltac:(lia) Hsm) as (l & y1 & E & Ec & Ev & As & Es & _).
  - change (r_rsi _) with msg. rewrite u64_small by exact Hm. exact Hr.
  - exact Ht.
  - change (r_rsi (regs_of (hello_write msg msg_len c) r)) with msg in Ec. rewrite u64_small in Ec by exact Hm.
    rewrite (copy_from_shown (p_mem c) (Z.to_nat 22)) in Ec by exact Hs. unfold bytes_at, bytes_from in Hb. change (len hello_text) with 22 in Hb.
    rewrite Z2Nat.id, Hb in Ec by lia. injection Ec as <-.
    exists y1. eexists. split; [exact E|]. split; [exact Ev|]. split; [exact As|].
    split; [unfold syscall_handler; cbn [regs_of r_cs r_rax rax with_rax]; apply Z.eqb_neq in Hcs; rewrite Hcs; reflexivity|].
    match goal with |- context [on_sched _ ?y0] => destruct (on_sched_fields (ttask_exit boot_stack_top) y0) as [F1 F2] end.
    rewrite F1, F2, <- Es. split; reflexivity.
Qed.
End hello.

(** Two turns of the spinner of task 7, and the requests of [hello]. *)
Definition demo_cpu : cpu :=
  mk_cpu 0 99 0 0 0 0 0 4096
    (store_bytes 1000 (text "user ") (store_bytes 1010 (text ": ") (store_bytes 1020 [10]
      (store_bytes 1100 hello_text (store_bytes 1200 (le_bytes 8 22) ∅))))).

Lemma spinner_demo :
  snd <$> spinner 7 1000 1010 1020 500 600 2 (demo_cpu, []) =
    Some [Write (text "user "); Getpid; Write (text "7"); Write (text ": "); Write (text "0"); Write [10]; Sleep 25;
          Write (text "user "); Getpid; Write (text "7"); Write (text ": "); Write (text "1"); Write [10]; Sleep 25].
Proof. vm_compute. reflexivity. Qed.

Lemma hello_demo : (hello 1100 1200 (demo_cpu, [])).2 = [Write hello_text; Exit 1].
Proof. vm_compute. reflexivity. Qed.
