(* ===== verification/Smoke.v ===== *)
(** The host tests of the repository ([tests/*_smoke.c]), run on the model.

    Each test program is the list of the conditions it checks, in its order,
    computed by the modelled functions on the inputs of the program; the lemmas
    evaluate that all of them hold.  They compare the model with the code: the
    repository runs the same checks on the compiled functions.  What the programs
    only print is left out, and so are the two checks of [ttask_smoke.c] on the
    layout of [struct ttask], which the model has as a record. *)
From Stdlib Require Import String Ascii.
From stdpp Require Import prelude gmap list numbers.
From Stdlib Require Import ZArith Lia ZifyBool.
From S2P Require Import Prelude TipcCore TtaskCore Tpmm Tvmm Tstring Telf Tsec Tfs TfsSpec Vga Tsh Printf Ttarfs Tprocfs Ternel.
#[local] Open Scope Z_scope.

(** Every [check] of a program passed. *)
Definition passes (checks : list bool) : bool := forallb id checks.

(** * [ttask_smoke.c] *)

Module TtaskSmoke.
Definition N : Z := 8.

(** A table of [N] slots with the given slots changed. *)
Definition states (l : list (nat * tstate)) : list tstate := fold_left (fun st e => <[e.1 := e.2]> st) l (replicate 8 TTASK_FREE).
Definition prios (l : list (nat * Z)) : list Z := fold_left (fun pr e => <[e.1 := e.2]> pr) l (replicate 8 0).
Definition pick (current : Z) (st : list tstate) (pr : list Z) : Z := ttask_pick_index current st pr N.

Definition main : list bool :=
  let R := TTASK_READY in
  let none := prios [] in
  let st3 := states [(3%nat, R)] in
  let st14 := states [(1%nat, R); (4%nat, R)] in
  let pr14 := prios [(1%nat, 1); (4%nat, 5)] in
  let pr146 := prios [(1%nat, 1); (4%nat, 5); (6%nat, 5)] in
  let blocked := [(2%nat, TTASK_BLOCKED); (6%nat, TTASK_BLOCKED); (3%nat, R)] in
  [ pick 0 (states []) none =? -1;
    pick 0 st3 none =? 3; pick 7 st3 none =? 3; pick 3 st3 none =? 3;
    pick 0 st14 none =? 1; pick 4 st14 none =? 1; pick 1 st14 none =? 4;
    pick 0 st14 pr14 =? 4;
    pick 0 (states [(1%nat, R); (4%nat, R); (6%nat, R)]) pr146 =? 4;
    pick 0 (states [(1%nat, R); (4%nat, TTASK_EXITED); (6%nat, R)]) pr146 =? 6;
    pick 0 (states blocked) none =? 3;
    pick 0 (states (blocked ++ [(1%nat, R)])) none =? 1;
    pick 3 (states (blocked ++ [(1%nat, R)])) none =? 1;
    pick 0 (states (blocked ++ [(1%nat, R); (2%nat, R)])) none =? 1;
    pick 5 (states [(5%nat, R)]) none =? 5;
    pick 5 (states [(5%nat, R); (0%nat, R)]) none =? 0;
    ttask_pick_index 0 (states [(5%nat, R); (0%nat, R)]) none 1 =? 0;
    ttask_slice_ticks 0 =? TTASK_SLICE_IDLE; ttask_slice_ticks 1 =? 2; ttask_slice_ticks 2 =? 4; ttask_slice_ticks 3 =? 8;
    ttask_slice_ticks 4 =? TTASK_SLICE_MAX; ttask_slice_ticks 5 =? TTASK_SLICE_MAX;
    ttask_slice_ticks 6 =? TTASK_SLICE_MAX; ttask_slice_ticks 7 =? TTASK_SLICE_MAX;
    ttask_ready_count_ex (states [(0%nat, R)]) N =? 1;
    ttask_slice_ticks (none !!! 0%nat) =? TTASK_SLICE_IDLE;
    ttask_ready_count_ex (states []) N =? 0;
    ttask_ready_count_ex (states [(2%nat, R)]) N =? 1;
    ttask_ready_count_ex (states [(2%nat, R); (5%nat, R); (7%nat, TTASK_BLOCKED)]) N =? 2;
    ttask_ready_count_ex (states [(2%nat, R); (5%nat, TTASK_EXITED); (7%nat, TTASK_BLOCKED)]) N =? 1;
    ttask_slice_ticks 2 >? ttask_slice_ticks 1 ].

Lemma ttask_smoke_passes : passes main = true.
Proof. vm_compute. reflexivity. Qed.
End TtaskSmoke.

(** * [ipc_smoke.c] *)

Module IpcSmoke.
Definition fill_msg (m : tipc_msg_t) (seq : Z) : tipc_msg_t :=
  mk_msg 7 4 ([u8 seq; u8 (Z.shiftr seq 8); u8 (Z.shiftr seq 16); u8 (Z.shiftr seq 24)] ++ drop 4 (msg_data m)).

Definition blank_msg : tipc_msg_t := mk_msg 0 0 (replicate 56 0).
Definition blank_q : tipc_waitq_t := mk_waitq (replicate 16 0) 0 0.
Definition blank_mb : tipc_mailbox_t := mk_mb (replicate 8 blank_msg) 0 0 blank_q blank_q.
Definition nth_byte (k : nat) (m : tipc_msg_t) : Z := nth k (msg_data m) 0.

(** [n] pushes from [i] on, with the results. *)
Fixpoint push_ids (n : nat) (i : Z) (q : tipc_waitq_t) : list Z * tipc_waitq_t :=
  match n with
  | O => ([], q)
  | S n' => let '(r, q1) := tipc_core_waitq_push q i in let '(l, q2) := push_ids n' (i + 1) q1 in (r :: l, q2)
  end.
Fixpoint pop_ids (n : nat) (q : tipc_waitq_t) : list Z * tipc_waitq_t :=
  match n with
  | O => ([], q)
  | S n' => let '(r, q1) := tipc_core_waitq_pop q in let '(l, q2) := pop_ids n' q1 in (r :: l, q2)
  end.
Fixpoint push_msgs (n : nat) (i : Z) (mb : tipc_mailbox_t) : list Z * tipc_mailbox_t :=
  match n with
  | O => ([], mb)
  | S n' => let '(r, mb1) := tipc_core_mb_push mb (fill_msg blank_msg i) in let '(l, mb2) := push_msgs n' (i + 1) mb1 in (r :: l, mb2)
  end.
Fixpoint pop_msgs (n : nat) (mb : tipc_mailbox_t) : list (Z * Z) * tipc_mailbox_t :=
  match n with
  | O => ([], mb)
  | S n' =>
      let '(r, m, mb1) := tipc_core_mb_pop mb blank_msg in
      let '(l, mb2) := pop_msgs n' mb1 in ((r, nth_byte 0 m) :: l, mb2)
  end.

Definition waitq_checks : list bool :=
  let q := tipc_core_waitq_init (mk_waitq (replicate 16 5) 9 9) in
  let '(r3, q1) := tipc_core_waitq_push q 3 in
  let '(r8, q2) := tipc_core_waitq_push q1 8 in
  let '(r1, q3) := tipc_core_waitq_push q2 1 in
  let '(popped, q4) := pop_ids 4 q3 in
  let '(pushed, q5) := push_ids 16 0 q4 in
  let '(r99, q6) := tipc_core_waitq_push q5 99 in
  let '(drained, q7) := pop_ids 16 q6 in
  [ tipc_core_waitq_count q =? 0; (tipc_core_waitq_pop q).1 =? TIPC_NONE; r3 =? 0; r8 =? 0; r1 =? 0;
    tipc_core_waitq_count q3 =? 3; bool_decide (popped = [3; 8; 1; TIPC_NONE]);
    bool_decide (pushed = replicate 16 0); r99 =? -1; bool_decide (drained = seqZ 0 16);
    tipc_core_waitq_count q7 =? 0; (tipc_core_waitq_push q7 4).1 =? 0 ].

Definition mailbox_checks : list bool :=
  let mb := tipc_core_mb_init blank_mb in
  let '(r1, mb1) := tipc_core_mb_push mb (fill_msg blank_msg 0xDEADBEEF) in
  let '(r2, m, mb2) := tipc_core_mb_pop mb1 blank_msg in
  let '(filled, mb3) := push_msgs 8 0 mb2 in
  let '(r3, mb4) := tipc_core_mb_push mb3 (fill_msg blank_msg 7) in
  let '(drained, mb5) := pop_msgs 8 mb4 in
  [ tipc_core_mb_empty mb; negb (tipc_core_mb_full mb); (tipc_core_mb_pop mb blank_msg).1.1 =? -1;
    r1 =? 0; negb (tipc_core_mb_empty mb1); r2 =? 0; (msg_sender m =? 7) && (msg_len m =? 4);
    (nth_byte 0 m =? 0xEF) && (nth_byte 3 m =? 0xDE);
    bool_decide (filled = replicate 8 0); tipc_core_mb_full mb3; r3 =? -1;
    bool_decide (drained = map (pair 0) (seqZ 0 8)); (tipc_core_mb_push mb5 (fill_msg blank_msg 100)).1 =? 0 ].

Definition handoff_checks : list bool :=
  let mu := tipc_core_mutex_init (mk_mutex 3 3 blank_q) in
  let '(filled, mb1) := push_msgs 8 0 (tipc_core_mb_init blank_mb) in
  let '(r1, mb2) := tipc_core_mb_push mb1 (fill_msg blank_msg 8) in
  let '(r2, q1) := tipc_core_waitq_push (tipc_core_waitq_init blank_q) 2 in
  let '(r3, got, mb3) := tipc_core_mb_pop mb2 blank_msg in
  let '(woken, q2) := tipc_core_waitq_pop q1 in
  let '(r4, mb4) := tipc_core_mb_push mb3 (fill_msg blank_msg 8) in
  let '(rest, mb5) := pop_msgs 8 mb4 in
  [ mtx_owner mu =? TIPC_NONE; mtx_depth mu =? 0; tipc_core_waitq_count (mtx_wait mu) =? 0;
    bool_decide (filled = replicate 8 0); r1 =? -1; r2 =? 0; r3 =? 0; nth_byte 0 got =? 0; woken =? 2; r4 =? 0;
    bool_decide (rest = map (pair 0) (seqZ 1 8)); tipc_core_mb_empty mb5;
    tipc_core_waitq_count (mb_wait_send mb5) =? 0; tipc_core_waitq_count (mb_wait_recv mb5) =? 0 ].

Lemma ipc_smoke_passes : passes (waitq_checks ++ mailbox_checks ++ handoff_checks) = true.
Proof. vm_compute. reflexivity. Qed.
End IpcSmoke.

(** * [elf_smoke.c] *)

Module ElfSmoke.
Definition BUF_SZ : nat := 16384.

Definition wr (n : nat) (o v : Z) (b : list Z) : list Z :=
  fold_left (fun b k => <[Z.to_nat (o + k) := u8 (Z.shiftr v (8 * k))]> b) (seqZ 0 (Z.of_nat n)) b.
Definition wr8 := wr 1.
Definition wr16 := wr 2.
Definition wr32 := wr 4.
Definition wr64 := wr 8.

(** Offsets in the header and in the first program header. *)
Definition EHDR_TYPE : Z := 16.
Definition EHDR_MACH : Z := 18.
Definition EHDR_VER : Z := 20.
Definition EHDR_ENTRY : Z := 24.
Definition EHDR_PHOFF : Z := 32.
Definition EHDR_PHENTSZ : Z := 54.
Definition EHDR_PHNUM : Z := 56.
Definition PHDR_SZ : Z := 56.
Definition PHDR_TYPE : Z := 0.
Definition PHDR_FLAGS : Z := 4.
Definition PHDR_OFF : Z := 8.
Definition PHDR_VADDR : Z := 16.
Definition PHDR_FILESZ : Z := 32.
Definition PHDR_MEMSZ : Z := 40.
Definition PHDR_ALIGN : Z := 48.

Definition build_phdr (b : list Z) (i : Z) : list Z :=
  let o := 64 + i * PHDR_SZ in
  wr64 (o + PHDR_ALIGN) 0x1000 (wr64 (o + PHDR_MEMSZ) 0x100 (wr64 (o + PHDR_FILESZ) 0x100
    (wr64 (o + PHDR_VADDR) (0x8000000000 + i * 0x1000) (wr64 (o + PHDR_OFF) (0x1000 + i * 0x1000)
      (wr32 (o + PHDR_FLAGS) 5 (wr32 (o + PHDR_TYPE) 1 b)))))).

Definition build_elf (phnum : Z) : list Z :=
  let b := [0x7F; 69; 76; 70; 2; 1; 1] ++ replicate (BUF_SZ - 7) 0 in
  let b := wr16 EHDR_TYPE 2 b in
  let b := wr16 EHDR_MACH 62 b in
  let b := wr32 EHDR_VER 1 b in
  let b := wr64 EHDR_ENTRY 0x8000000000 b in
  let b := wr64 EHDR_PHOFF 64 b in
  let b := wr16 EHDR_PHENTSZ PHDR_SZ b in
  let b := wr16 EHDR_PHNUM phnum b in
  fold_left build_phdr (seqZ 0 (Z.min phnum (TELF_MAX_SEGMENTS + 1))) b.

(** The result code, and the plan of a success. *)
Definition code (r : pres telf_plan_t) : Z := match r with POob => 1 | PErr rc => rc | POk _ => TELF_OK end.
Definition rejects (b : list Z) (rc : Z) : bool := code (telf_parse b) =? rc.

Definition accepted_checks : list bool :=
  let b2 := wr64 (64 + PHDR_MEMSZ) 0x200 (wr32 (64 + PHDR_FLAGS) 2 (build_elf 2)) in
  match telf_parse (build_elf 1), telf_parse b2, telf_parse (wr32 (64 + PHDR_TYPE) 7 (build_elf 2)) with
  | POk p1, POk p2, POk p3 =>
      let s := plan_segs p1 !!! 0%nat in
      let s2 := plan_segs p2 !!! 0%nat in
      [ plan_entry p1 =? 0x8000000000; plan_nsegs p1 =? 1; seg_vaddr s =? 0x8000000000;
        (seg_filesz s =? 0x100) && (seg_memsz s =? 0x100); seg_prot s =? Z.lor TELF_PROT_READ TELF_PROT_EXEC;
        plan_nsegs p2 =? 2; seg_prot s2 =? TELF_PROT_WRITE; seg_memsz s2 >? seg_filesz s2;
        plan_nsegs p3 =? 1 ]
  | _, _, _ => [false]
  end.

Definition rejected_checks : list bool :=
  let b := wr64 (64 + PHDR_MEMSZ) 0x200 (wr32 (64 + PHDR_FLAGS) 2 (build_elf 2)) in
  let one := build_elf 1 in
  [ rejects (take 63 b) TELF_E_TRUNC; rejects (wr8 1 120 b) TELF_E_BAD_MAGIC; rejects (wr8 4 1 b) TELF_E_BAD_CLASS;
    rejects (wr8 5 2 b) TELF_E_BAD_DATA; rejects (wr16 EHDR_TYPE 3 b) TELF_E_BAD_TYPE;
    rejects (wr16 EHDR_MACH 3 b) TELF_E_BAD_MACHINE; rejects (wr32 EHDR_VER 2 b) TELF_E_BAD_VERSION;
    rejects (build_elf 0) TELF_E_NO_LOAD; rejects (build_elf (TELF_MAX_SEGMENTS + 1)) TELF_E_TOO_MANY;
    rejects (wr64 EHDR_PHOFF (Z.of_nat BUF_SZ - PHDR_SZ + 1) one) TELF_E_TRUNC;
    rejects (wr64 (64 + PHDR_OFF) (Z.of_nat BUF_SZ) one) TELF_E_TRUNC;
    rejects (wr64 (64 + PHDR_MEMSZ) 0x50 one) TELF_E_RANGE;
    rejects (wr64 (64 + PHDR_MEMSZ) 0x1000 (wr64 (64 + PHDR_VADDR) 0xFFFFFFFFFFFFF000 one)) TELF_E_RANGE;
    rejects (wr64 (64 + PHDR_ALIGN) 3 (wr64 (64 + PHDR_MEMSZ) 0x1000 one)) TELF_E_BAD_ALIGN;
    rejects (wr64 (64 + PHDR_OFF) 0x1001 (wr64 (64 + PHDR_MEMSZ) 0x1000 one)) TELF_E_BAD_ALIGN;
    rejects (wr64 (64 + PHDR_SZ + PHDR_VADDR) 0x8000000000 (build_elf 2)) TELF_E_RANGE ].

Lemma elf_smoke_passes : passes (accepted_checks ++ rejected_checks) = true.
Proof. vm_compute. reflexivity. Qed.
End ElfSmoke.

(** * [tsec_smoke.c] *)

Module TsecSmoke.
Definition vbase : Z := 0xFFFFFFFF80000000.
Definition image_local : Z := 0x100000.
Definition region : bounds :=
  tsec_region_bounds vbase 0x100000 image_local (vbase + 0x111000) (vbase + 0x114000) (vbase + 0x121000) (vbase + 0x160000).

Definition w_of (pte : Z) : bool := has pte VMM_PAGE_WRITE.
Definition x_of (pte : Z) : bool := negb (has pte TSEC_PAGE_NX).
Definition phys_of (pte : Z) : Z := Z.land pte 0x000FFFFFFFFFF000.
Definition when (c ok : bool) : bool := negb c || ok.

Definition verify_window (reloc_base : Z) (b : bounds) : list bool :=
  let m := tsec_fill_window 0x5000 reloc_base image_local b ∅ in
  concat (map (fun i =>
    let off := i * 4096 in
    let pte := entry m 0x5000 i in
    if has pte VMM_PAGE_PRESENT then
      [ negb (w_of pte && x_of pte);
        when ((off >=? text_lo b) && (off <? text_hi b))
          (x_of pte && negb (w_of pte) && (phys_of pte =? if reloc_base =? 0 then off else reloc_base + (off - image_local)));
        when ((off >=? text_hi b) && (off <? rodata_hi b)) (negb (w_of pte) && negb (x_of pte));
        when ((off >=? rodata_hi b) || (off <? text_lo b) || (off >=? image_end b)) (w_of pte && negb (x_of pte));
        when ((off <? image_local) || (off >=? image_end b)) (phys_of pte =? off) ]
    else []) (seqZ 0 512)).

Definition verify_guard_pt (guard : Z) : list bool :=
  let m := tsec_fill_guard_pt 0x5000 guard ∅ in
  concat (map (fun i =>
    let phys := i * 4096 in
    let pte := entry m 0x5000 i in
    if negb (guard =? 0) && (phys >=? guard) && (phys <? guard + 4096) then [ pte =? 0 ]
    else [ has pte VMM_PAGE_PRESENT && w_of pte && negb (x_of pte); phys_of pte =? phys ]) (seqZ 0 512)).

Definition main : list bool :=
  [ (text_lo region =? 0x111000) && (text_hi region =? 0x114000);
    (rodata_hi region =? 0x121000) && (image_end region =? 0x160000) ] ++
  verify_window 0 region ++ verify_window 0x04000000 region ++
  verify_guard_pt 0x10C000 ++ verify_guard_pt 0x1000 ++ verify_guard_pt 0.

Lemma tsec_smoke_passes : passes main = true.
Proof. vm_compute. reflexivity. Qed.
End TsecSmoke.

(** * [shell_smoke.c] *)

Module ShellSmoke.
(** The tables as in [demo_addrs], the line at 100, strings of the program and
    of [tsh_env_seed] from 300 on, [hbuf] at 600. *)
Definition keys : Z := 1000.
Definition vals : Z := 2000.
Definition hist : Z := 8000.
Definition args : Z := 16000.
Definition line : Z := 100.
Definition keybuf : Z := 900.
Definition hbuf : Z := 600.

Definition strcpy (p : Z) (t : list Z) (s : tsh) : tsh := with_tmem (store_bytes p (t ++ [0]) (tmem s)) s.
Definition string_is (p : Z) (t : list Z) (s : tsh) : bool := bool_decide (read_string (tmem s) 256 p = Some t).

Definition seeded : option tsh :=
  let s := fold_left (fun s e => strcpy e.1 (text e.2) s)
    [(300, "OS"); (310, "HOSTNAME"); (320, "USER"); (330, "HOME"); (340, "trigeros"); (350, "root"); (360, "/")]%string (mk_tsh ∅ 0 0) in
  tsh_env_seed keys vals 256 300 310 320 330 340 350 360 s.

(** The arguments of a line. *)
Definition tokens (l : list Z) (s : tsh) : option (list (list Z)) :=
  '(argv, s') ← tsh_tokenize keys vals args 512 keybuf line TSH_ARGV_MAX (strcpy line l s);
  mapM (read_string (tmem s') 256) argv.
Definition splits (l : list Z) (ws : list (list Z)) (s : tsh) : bool := bool_decide (tokens l s = Some ws).

Definition tokenize_checks (s : tsh) : list bool :=
  let q := [34] in
  let b := [92] in
  [ splits (text "cat /etc/hostname") [text "cat"; text "/etc/hostname"] s;
    splits (text "write /tmp/note " ++ q ++ text "hello world" ++ q) [text "write"; text "/tmp/note"; text "hello world"] s;
    splits (text "echo " ++ q ++ text "$USER is here" ++ q) [text "echo"; text "root is here"] s;
    splits (text "echo $HOME / $UNSET $OS") [text "echo"; text "/"; text "/"; []; text "trigeros"] s;
    splits (text "echo a" ++ b ++ text " b " ++ q ++ text "c" ++ b ++ q ++ text "d" ++ q) [text "echo"; text "a b"; text "c" ++ q ++ text "d"] s;
    splits (text "echo " ++ b ++ text "$HOME and $HOSTNAME") [text "echo"; text "$HOME"; text "and"; text "trigeros"] s;
    splits (text "  echo" ++ [9] ++ text "spaced   args  ") [text "echo"; text "spaced"; text "args"] s;
    splits (text "set GREETING=" ++ q ++ text "hello there" ++ q) [text "set"; text "GREETING=hello there"] s;
    splits (text "   ") [] s; splits (text "# a comment") [] s; splits (text "   # indented comment") [] s ].

Definition push (l : list Z) (s : tsh) : option (Z * tsh) := tsh_hist_push hist 256 line (strcpy line l s).
Definition expand (l : list Z) (s : tsh) : option (Z * tsh) := tsh_hist_expand hist 256 line hbuf TSH_HIST_LEN (strcpy line l s).

Definition history_checks (s : tsh) : option (list bool) :=
  let s0 := tsh_hist_clear s in
  '(r1, s1) ← push (text "ls /") s0;
  '(r2, s2) ← push (text "cat /etc/hostname") s1;
  '(r3, s3) ← push (text "cat /etc/hostname") s2;
  '(r4, s4) ← push (text "env") s3;
  '(e1, s5) ← expand (text "!1") s4;
  '(e2, s6) ← expand (text "!!") s4;
  '(e3, _) ← expand (text "!9") s4;
  '(e4, _) ← expand (text "echo hi") s4;
  Some [ tsh_hist_count s0 =? 0; r1 =? 1; r2 =? 1; r3 =? 0; r4 =? 1; tsh_hist_count s4 =? 3;
         string_is (tsh_hist_get hist 0 s4) (text "ls /") s4; string_is (tsh_hist_get hist 1 s4) (text "cat /etc/hostname") s4;
         string_is (tsh_hist_get hist 2 s4) (text "env") s4; tsh_hist_get hist 3 s4 =? 0; tsh_hist_get hist (-1) s4 =? 0;
         e1 =? 1; string_is hbuf (text "cat /etc/hostname") s5; e2 =? 1; string_is hbuf (text "env") s6; e3 =? -1; e4 =? 0 ].

Definition env_checks (s : tsh) : option (list bool) :=
  let s0 := strcpy 380 (text "NOPE") (strcpy 370 (text "NAME") s) in
  '(_, s1) ← tsh_env_set keys vals 256 370 340 s0;
  p ← tsh_env_get keys vals 256 370 s1;
  n ← tsh_env_get keys vals 256 380 s1;
  Some [ negb (p =? 0) && string_is p (text "trigeros") s1; n =? 0 ].

Definition main : option (list bool) :=
  s ← seeded; h ← history_checks s; e ← env_checks s; Some (tokenize_checks s ++ h ++ e).

Lemma shell_smoke_passes : passes <$> main = Some true.
Proof. vm_compute. reflexivity. Qed.
End ShellSmoke.

(** * [fs_smoke.c] *)

Module FsSmoke.
#[local] Existing Instance rising.

(** [boot/ramfs.img] as [tar -C initrd .] packs the directory [initrd] of the
    repository. *)
Definition dir (name : String.string) : tar_entry := mk_entry true [] (text name) [].
Definition file (name : String.string) (data : list Z) : tar_entry := mk_entry false [] (text name) data.
Definition hostname : list Z := nl "hostname=trigeros".
Definition img : list Z := pack
  [dir "./"; file "./README.txt" (nl "TrigerOS root filesystem, served from the initrd ramfs.");
   dir "./etc/"; file "./etc/hostname" hostname; file "./etc/passwd" (nl "root:x:0:0:root:/root:/bin/sh");
   dir "./usr/"; dir "./usr/bin/"; file "./usr/bin/hello" (nl "#!/bin/sh" ++ nl "echo hello from the initrd ramfs");
   dir "./var/"; dir "./var/log/"; file "./var/log/boot.log" (nl "boot log placeholder")].

Definition root : Z := 8.
Definition addr (g : gen_fn) : Z := 1.
Definition payload : list Z := nl "key=value" ++ nl "hello=world".

Definition found (p : String.string) (s : tfs Z) : bool :=
  match tfs_lookup root (text p) s with Some n => negb (n =? 0) | None => false end.
(** [cat] of an ordinary file. *)
Definition holds_text (p : String.string) (t : list Z) (s : tfs Z) : bool :=
  match tfs_lookup root (text p) s with
  | Some n => bool_decide (content (node (nodes s) n) = t) && (n_size (node (nodes s) n) =? Z.of_nat (length t))
  | None => false
  end.

Definition main : option (list bool) :=
  s0 ← tfs_procfs_init root addr (tfs_init (tfs_boot root 1000));
  s1 ← tfs_sysfs_init root addr s0;
  match tfs_unpack_tar root 64 img s1 with
  | UOk s2 =>
      '(f2, s3) ← tfs_touch root (text "/etc/trigeros.conf") s2;
      let '(r4, s4) := tfs_write f2 payload s3 in
      rmf ← tfs_lookup root (text "/etc/trigeros.conf") s4;
      '(r5, s5) ← tfs_rm root rmf s4;
      '(d, s6) ← tfs_mkdir root (text "/a/b/c/d") s5;
      '(e, s7) ← tfs_touch root (text "/a/b/c/d/e.txt") s6;
      Some [ found "/README.txt" s2; found "/etc/hostname" s2; found "/etc/passwd" s2; found "/usr/bin/hello" s2;
             found "/var/log/boot.log" s2; holds_text "/etc/hostname" hostname s2;
             found "/proc/version" s2; found "/proc/uptime" s2; found "/sys/kernel" s2;
             negb (f2 =? 0); r4 =? 0; holds_text "/etc/trigeros.conf" payload s4; r5 =? 0;
             negb (found "/etc/trigeros.conf" s5); holds_text "/etc/hostname" hostname s5;
             negb (d =? 0); found "/a/b/c/d" s6; negb (e =? 0); holds_text "/a/b/c/d/e.txt" [] s7 ]
  | _ => None
  end.

Lemma fs_smoke_passes : passes <$> main = Some true.
Proof. vm_compute. reflexivity. Qed.
End FsSmoke.
